(** * Touchless virtual laboratory: hand tracking and scene controllers

    A shallow embedding of the gesture pipeline of the repository
    (components/HandTracker.tsx, the chemistry lab and solar system scene
    controllers, pages/ChemistryPage.tsx, the glassware and the anatomy
    page) together with the properties its specification states about it
    and further invariants and edge cases read off the code.

    Conventions.
    - A JavaScript [number] that carries a measure (coordinates, distances,
      liquid levels, angles) is a real number of [R]: IEEE rounding, NaN and
      signed zeros are outside the model.  Tests on such numbers are the
      booleans [Rltb], [Rleb], [Rgtb] below.
    - A JavaScript [number] that only counts (the extended-finger count, the
      solar system target index) is an integer of [Z].
    - Reading a property of [undefined] throws a TypeError; a function that
      can do so returns an [option], [None] standing for the throw.
    - The methods of the three.js library ([Vector3], [Quaternion], [Color],
      [MathUtils]) are not part of the repository; [Module Three] models the
      ones the code calls. *)

From Stdlib Require Import Reals Lra Lia ZArith String RNsatz.
From stdpp Require Import base option list.

Open Scope R_scope.

(** ** Tests on real numbers *)

Definition Rltb (a b : R) : bool := if Rlt_dec a b then true else false.
Definition Rleb (a b : R) : bool := if Rle_dec a b then true else false.
Definition Rgtb (a b : R) : bool := Rltb b a.
Definition Rgeb (a b : R) : bool := Rleb b a.

(** ** types.ts *)

Inductive Side := Left | Right.

Definition Side_eqb (a b : Side) : bool :=
  match a, b with
  | Left, Left | Right, Right => true
  | _, _ => false
  end.

Definition other (s : Side) : Side :=
  match s with Left => Right | Right => Left end.

Record Landmark := { lx : R; ly : R; lz : R }.

Inductive GestureType :=
  | gt_none | one_finger | two_fingers | three_fingers | four_fingers
  | open_palm | fist.

Inductive Gesture := none | rotate | pinch_drag | zoom | hover.

(** ** The three.js methods the code calls *)

Module Three.

Record Vector3 := { vx : R; vy : R; vz : R }.
Record Quaternion := { qx : R; qy : R; qz : R; qw : R }.
Record Euler := { ex : R; ey : R; ez : R }.
Record Color := { cr : R; cg : R; cb : R }.

(** Modelled from the spec: [Math.hypot] on two arguments, the
    Euclidean norm of the pair. *)
Definition hypot (a b : R) : R := sqrt (a * a + b * b).

(** Modelled from the spec: [Math.atan2], the angle of the point
    [(x, y)] in [(-PI, PI]]. *)
Definition atan2 (y x : R) : R :=
  if Rlt_dec 0 x then atan (y / x)
  else if Rlt_dec x 0 then
    (if Rle_dec 0 y then atan (y / x) + PI else atan (y / x) - PI)
  else if Rlt_dec 0 y then PI / 2
  else if Rlt_dec y 0 then - (PI / 2)
  else 0.

(** Modelled from the spec: [Vector3.distanceToSquared] and
    [Vector3.distanceTo], the Euclidean distance of two points. *)
Definition distanceToSquared (a b : Vector3) : R :=
  let dx := vx a - vx b in
  let dy := vy a - vy b in
  let dz := vz a - vz b in
  dx * dx + dy * dy + dz * dz.

Definition distanceTo (a b : Vector3) : R := sqrt (distanceToSquared a b).

Definition addVectors (a b : Vector3) : Vector3 :=
  {| vx := vx a + vx b; vy := vy a + vy b; vz := vz a + vz b |}.

Definition subVectors (a b : Vector3) : Vector3 :=
  {| vx := vx a - vx b; vy := vy a - vy b; vz := vz a - vz b |}.

Definition multiplyScalar (v : Vector3) (s : R) : Vector3 :=
  {| vx := vx v * s; vy := vy v * s; vz := vz v * s |}.

(** [Vector3.length]. *)
Definition lengthV (v : Vector3) : R :=
  sqrt (vx v * vx v + vy v * vy v + vz v * vz v).

(** Modelled from the spec: [Vector3.normalize] divides by
    [length() || 1], so the zero vector stays as it is. *)
Definition normalize (v : Vector3) : Vector3 :=
  let l := lengthV v in
  let d := if Req_dec_T l 0 then 1 else l in
  {| vx := vx v / d; vy := vy v / d; vz := vz v / d |}.

Definition crossVectors (a b : Vector3) : Vector3 :=
  {| vx := vy a * vz b - vz a * vy b;
     vy := vz a * vx b - vx a * vz b;
     vz := vx a * vy b - vy a * vx b |}.

(** Modelled from the spec: [MathUtils.lerp], linear interpolation
    of two numbers. *)
Definition lerp (a b t : R) : R := (1 - t) * a + t * b.

(** Modelled from the spec: [Vector3.lerp] moves every coordinate of
    the receiver by the fraction [alpha] of its difference to [v]. *)
Definition lerpV (a v : Vector3) (alpha : R) : Vector3 :=
  {| vx := vx a + (vx v - vx a) * alpha;
     vy := vy a + (vy v - vy a) * alpha;
     vz := vz a + (vz v - vz a) * alpha |}.

(** Modelled from the spec: [Color.lerp], the same blend on the three
    channels. *)
Definition lerpC (a c : Color) (alpha : R) : Color :=
  {| cr := cr a + (cr c - cr a) * alpha;
     cg := cg a + (cg c - cg a) * alpha;
     cb := cb a + (cb c - cb a) * alpha |}.

(** Modelled from the spec: [Matrix4.makeBasis] followed by
    [Quaternion.setFromRotationMatrix]; the three vectors are the
    columns of the upper 3x3 block. *)
Definition setFromBasis (xAxis yAxis zAxis : Vector3) : Quaternion :=
  let m11 := vx xAxis in let m12 := vx yAxis in let m13 := vx zAxis in
  let m21 := vy xAxis in let m22 := vy yAxis in let m23 := vy zAxis in
  let m31 := vz xAxis in let m32 := vz yAxis in let m33 := vz zAxis in
  let trace := m11 + m22 + m33 in
  if Rgtb trace 0 then
    let s := 0.5 / sqrt (trace + 1) in
    {| qw := 0.25 / s; qx := (m32 - m23) * s;
       qy := (m13 - m31) * s; qz := (m21 - m12) * s |}
  else if Rgtb m11 m22 && Rgtb m11 m33 then
    let s := 2 * sqrt (1 + m11 - m22 - m33) in
    {| qw := (m32 - m23) / s; qx := 0.25 * s;
       qy := (m12 + m21) / s; qz := (m13 + m31) / s |}
  else if Rgtb m22 m33 then
    let s := 2 * sqrt (1 + m22 - m11 - m33) in
    {| qw := (m13 - m31) / s; qx := (m12 + m21) / s;
       qy := 0.25 * s; qz := (m23 + m32) / s |}
  else
    let s := 2 * sqrt (1 + m33 - m11 - m22) in
    {| qw := (m21 - m12) / s; qx := (m13 + m31) / s;
       qy := (m23 + m32) / s; qz := 0.25 * s |}.

Definition qdot (a b : Quaternion) : R :=
  qx a * qx b + qy a * qy b + qz a * qz b + qw a * qw b.

Definition qscale (k : R) (q : Quaternion) : Quaternion :=
  {| qx := k * qx q; qy := k * qy q; qz := k * qz q; qw := k * qw q |}.

Definition qadd (a b : Quaternion) : Quaternion :=
  {| qx := qx a + qx b; qy := qy a + qy b;
     qz := qz a + qz b; qw := qw a + qw b |}.

Definition qlength (q : Quaternion) : R := sqrt (qdot q q).

(** Modelled from the spec: [Quaternion.normalize]; the zero
    quaternion becomes the identity rotation. *)
Definition qnormalize (q : Quaternion) : Quaternion :=
  let l := qlength q in
  if Req_dec_T l 0 then {| qx := 0; qy := 0; qz := 0; qw := 1 |}
  else qscale (1 / l) q.

(** Modelled from the spec: [Quaternion.slerp], spherical linear
    interpolation from the receiver [qa] towards [qb] along the shorter
    arc.  The ends are returned for [t <= 0] and [t >= 1]; [qb] is
    negated when the dot product of the two is negative; below the dot
    product 0.9995 the two are weighted by [sin ((1 - t) theta) / sin
    theta] and [sin (t theta) / sin theta], [theta] being the angle
    [acos dot] between them; nearer quaternions are blended linearly
    and normalised. *)
Definition slerp (qa qb : Quaternion) (t : R) : Quaternion :=
  if Rleb t 0 then qa
  else if Rleb 1 t then qb
  else
    let d := qdot qa qb in
    let qb' := if Rltb d 0 then qscale (-1) qb else qb in
    let dot := if Rltb d 0 then - d else d in
    if Rltb dot 0.9995 then
      let theta := acos dot in
      let sin_theta := sin theta in
      let s := sin ((1 - t) * theta) / sin_theta in
      let t' := sin (t * theta) / sin_theta in
      qadd (qscale s qa) (qscale t' qb')
    else qnormalize (qadd (qscale (1 - t) qa) (qscale t qb')).

(** Modelled from the spec: [MathUtils.clamp], the value held between
    [min] and [max]. *)
Definition clamp (value min max : R) : R := Rmax min (Rmin max value).

(** Modelled from the spec: [Vector3.dot], the scalar product. *)
Definition dot (a b : Vector3) : R :=
  vx a * vx b + vy a * vy b + vz a * vz b.

(** Modelled from the spec: [Vector3.lengthSq], the squared length. *)
Definition lengthSq (v : Vector3) : R := dot v v.

End Three.

Import Three.

Record HandData := {
  landmarks : list Landmark;
  worldLandmarks : list Landmark;
  handedness : Side;
  isPinching : bool;
  pinchStrength : R;
  palmPosition : Vector3;
  pinchPosition : Vector3;
  rotation : Quaternion;
  extendedFingers : Z;
  gestureType : GestureType
}.

Record TrackingState := {
  leftHand : option HandData;
  rightHand : option HandData;
  gesture : Gesture;
  interactionStrength : R
}.

(** [hs.leftHand] or [hs.rightHand], by side. *)
Definition handOf (hs : TrackingState) (side : Side) : option HandData :=
  match side with Left => leftHand hs | Right => rightHand hs end.

(** ** constants.ts *)

Definition PINCH_THRESHOLD : R := 0.05.
Definition SMOOTHING_FACTOR : R := 0.15.

(** ** components/HandTracker.tsx *)

Module HandTracker.

Definition vec (l : Landmark) : Vector3 :=
  {| vx := lx l; vy := ly l; vz := lz l |}.

Definition lerpVector3 (v1 v2 : Vector3) (alpha : R) : Vector3 :=
  lerpV v1 v2 alpha.

Definition lerpQuaternion (q1 q2 : Quaternion) (alpha : R) : Quaternion :=
  slerp q1 q2 alpha.

Definition calculateRotation (landmarks : list Landmark)
  : option Quaternion :=
  l0 ← landmarks !! 0%nat;
  l5 ← landmarks !! 5%nat;
  l17 ← landmarks !! 17%nat;
  let wrist := vec l0 in
  let indexMCP := vec l5 in
  let pinkyMCP := vec l17 in
  let v1 := normalize (subVectors indexMCP wrist) in
  let v2 := normalize (subVectors indexMCP pinkyMCP) in
  let normal := normalize (crossVectors v1 v2) in
  let xAxis := normalize (crossVectors v1 normal) in
  Some (setFromBasis xAxis v1 normal).

Definition fingerTips : list nat := [8; 12; 16; 20]%nat.
Definition fingerPIPs : list nat := [6; 10; 14; 18]%nat.

(** One round of the loop over the four fingers. *)
Definition fingerStep (landmarks : list Landmark) (wrist : Landmark)
    (acc : option Z) (i : nat) : option Z :=
  count ← acc;
  ti ← fingerTips !! i;
  pi ← fingerPIPs !! i;
  tip ← landmarks !! ti;
  pip ← landmarks !! pi;
  let dTip := hypot (lx tip - lx wrist) (ly tip - ly wrist) in
  let dPip := hypot (lx pip - lx wrist) (ly pip - ly wrist) in
  Some (if Rgtb dTip dPip then (count + 1)%Z else count).

Definition countExtendedFingers (landmarks : list Landmark) : option Z :=
  wrist ← landmarks !! 0%nat;
  count ← fold_left (fingerStep landmarks wrist) (seq 0 4) (Some 0%Z);
  thumbTip ← landmarks !! 4%nat;
  indexMCP ← landmarks !! 5%nat;
  let dThumb :=
    hypot (lx thumbTip - lx indexMCP) (ly thumbTip - ly indexMCP) in
  Some (if Rgtb dThumb 0.05 then (count + 1)%Z else count).

Definition processHand (landmarks : list Landmark) (handedness : Side)
    (lastHand : option HandData) : option HandData :=
  l4 ← landmarks !! 4%nat;
  l8 ← landmarks !! 8%nat;
  l0 ← landmarks !! 0%nat;
  let thumbTip := vec l4 in
  let indexTip := vec l8 in
  let wrist := vec l0 in
  let pinchDist := distanceTo thumbTip indexTip in
  let isPinching := Rltb pinchDist PINCH_THRESHOLD in
  let pinchPos := multiplyScalar (addVectors thumbTip indexTip) 0.5 in
  rawRotation ← calculateRotation landmarks;
  let smoothedPinchPos :=
    match lastHand with
    | Some last => lerpVector3 (pinchPosition last) pinchPos SMOOTHING_FACTOR
    | None => pinchPos
    end in
  let smoothedPalmPos :=
    match lastHand with
    | Some last => lerpVector3 (palmPosition last) wrist SMOOTHING_FACTOR
    | None => wrist
    end in
  let smoothedRotation :=
    match lastHand with
    | Some last => lerpQuaternion (rotation last) rawRotation SMOOTHING_FACTOR
    | None => rawRotation
    end in
  extendedCount ← countExtendedFingers landmarks;
  let gestureType :=
    if isPinching then fist
    else if (extendedCount =? 1)%Z then one_finger
    else if (extendedCount =? 2)%Z then two_fingers
    else if (extendedCount =? 3)%Z then three_fingers
    else if (extendedCount =? 4)%Z then four_fingers
    else if (extendedCount =? 5)%Z then open_palm
    else open_palm in
  Some {| landmarks := landmarks;
          worldLandmarks := [];
          handedness := handedness;
          isPinching := isPinching;
          pinchStrength := Rmax 0 (1 - pinchDist / PINCH_THRESHOLD);
          pinchPosition := smoothedPinchPos;
          palmPosition := smoothedPalmPos;
          rotation := smoothedRotation;
          extendedFingers := extendedCount;
          gestureType := gestureType |}.

(** [a || b] on two optional hands. *)
Definition orHand (a b : option HandData) : option HandData :=
  match a with Some _ => a | None => b end.

(** The gesture and strength computed at the end of [predict] from the
    two hands of the frame. *)
Definition aggregate (newLeftHand newRightHand : option HandData)
  : Gesture * R :=
  match newLeftHand, newRightHand with
  | Some l, Some r =>
      let dist := distanceTo (palmPosition l) (palmPosition r) in
      if Rgtb dist 0.2 && negb (isPinching l) && negb (isPinching r)
      then (zoom, dist)
      else (none, 0)
  | _, _ =>
      match orHand newLeftHand newRightHand with
      | Some activeHand =>
          if isPinching activeHand
          then (pinch_drag, pinchStrength activeHand)
          else (rotate, 0)
      | None => (none, 0)
      end
  end.

(** One detection of [result]: its landmarks and the category name of
    its first handedness entry. *)
Definition Detection : Type := list Landmark * Side.

(** One round of the loop over the detections; the previous hand is read
    from the state of the last frame. *)
Definition detectionStep (st : TrackingState)
    (acc : option (option HandData * option HandData)) (d : Detection)
  : option (option HandData * option HandData) :=
  hands ← acc;
  let prevHand :=
    match d.2 with Left => leftHand st | Right => rightHand st end in
  processed ← processHand d.1 d.2 prevHand;
  Some (match d.2 with
        | Left => (Some processed, hands.2)
        | Right => (hands.1, Some processed)
        end).

Definition predict (st : TrackingState) (result : list Detection)
  : option TrackingState :=
  hands ← fold_left (detectionStep st) result (Some (None, None));
  let g := aggregate hands.1 hands.2 in
  Some {| leftHand := hands.1;
          rightHand := hands.2;
          gesture := g.1;
          interactionStrength := g.2 |}.

(** The detections of a frame that carry the label [side]. *)
Definition labelled (side : Side) (result : list Detection)
  : list Detection :=
  filter (fun d => Side_eqb d.2 side = true) result.

(** The hand a slot holds after the loop over the detections. *)
Definition slot (st : TrackingState) (side : Side) (result : list Detection)
    (init : option HandData) : option HandData :=
  match last (labelled side result) with
  | Some d => processHand d.1 side (handOf st side)
  | None => init
  end.

(** The loop of [requestAnimationFrame]: one call of [predict] for each
    result of the landmark model, each on the state the call before it
    has written. *)
Fixpoint predictLoop (results : list (list Detection)) (st : TrackingState)
  : option TrackingState :=
  match results with
  | [] => Some st
  | result :: rest => st' ← predict st result; predictLoop rest st'
  end.

(** A point of the camera image: both image coordinates within [0, 1]. *)
Definition inImage (v : Vector3) : Prop :=
  0 <= vx v <= 1 /\ 0 <= vy v <= 1.

(** The hands of a state have their smoothed positions in the image. *)
Definition handsInImage (st : TrackingState) : Prop :=
  forall side h, handOf st side = Some h ->
    inImage (pinchPosition h) /\ inImage (palmPosition h).

(** The landmarks of a result are points of the image. *)
Definition resultInImage (result : list Detection) : Prop :=
  Forall (fun d : Detection => Forall (fun l => inImage (vec l)) d.1) result.

(** The states the tracker hands to the scenes: those written by a call
    of [predict]. *)
Definition tracked (hs : TrackingState) : Prop :=
  exists st result, predict st result = Some hs.

(** The wrist and the knuckles of the index and the little finger are
    not on one line, so that they span the palm. *)
Definition palmSpread (landmarks : list Landmark) : Prop :=
  exists l0 l5 l17,
    landmarks !! 0%nat = Some l0 /\ landmarks !! 5%nat = Some l5 /\
    landmarks !! 17%nat = Some l17 /\
    0 < lengthSq (crossVectors (subVectors (vec l5) (vec l0))
                               (subVectors (vec l5) (vec l17))).

(** Every hand of a result spans its palm. *)
Definition resultSpread (result : list Detection) : Prop :=
  Forall (fun d : Detection => palmSpread d.1) result.

(** The rotations of the hands of a state are unit quaternions. *)
Definition unitRotations (st : TrackingState) : Prop :=
  forall side h, handOf st side = Some h ->
    qdot (rotation h) (rotation h) = 1.

(** The point [out] of the segment from [prev] to [raw] at the fraction
    [t]: at [t] times their distance from [prev], and at [1 - t] times
    from [raw]. *)
Definition onSegment (prev raw out : Vector3) (t : R) : Prop :=
  out = addVectors (multiplyScalar prev (1 - t)) (multiplyScalar raw t) /\
  distanceTo prev out = t * distanceTo prev raw /\
  distanceTo out raw = (1 - t) * distanceTo prev raw.

(** The unit quaternion [q] on the shorter great-circle arc from [p] to
    [r], at the fraction [t]: a combination, with weights that are not
    negative, of [p] and of the one of [r] and [-r] on the side of [p];
    as near to either as they are to each other, the dot product being
    the cosine of the angle; and, below the dot product 0.9995 of the
    two, at [t] times their angle from [p]. *)
Definition onArc (p r q : Quaternion) (t : R) : Prop :=
  let r' := if Rltb (qdot p r) 0 then qscale (-1) r else r in
  let c := qdot p r' in
  qdot q q = 1 /\
  (exists a b, 0 <= a /\ 0 <= b /\ q = qadd (qscale a p) (qscale b r')) /\
  c <= qdot p q /\ c <= qdot q r' /\
  (c < 0.9995 ->
   qdot p q = cos (t * acos c) /\ qdot q r' = cos ((1 - t) * acos c)).

End HandTracker.

(** ** The chemistry lab scene (component [ChemistryLab] with
       [INITIAL_ITEMS]) *)

Module ChemistryLab.

Inductive EquipmentType := FLASK | TUBE | TEST_TUBE.
Inductive LiquidType := water | acid | base | indicator.

Record Equipment := {
  id : string;
  type : EquipmentType;
  position : Vector3;
  rotation : Euler;
  color : Color;
  liquidLevel : R;
  heldBy : option Side;
  liquidType : option LiquidType;
  label : option string
}.

(** [new THREE.Color('#rrggbb')], each channel as a fraction of 255. *)
Definition hexColor (r g b : Z) : Color :=
  {| cr := IZR r / 255; cg := IZR g / 255; cb := IZR b / 255 |}.

Definition vector3 (x y z : R) : Vector3 := {| vx := x; vy := y; vz := z |}.
Definition euler (x y z : R) : Euler := {| ex := x; ey := y; ez := z |}.

Definition INITIAL_ITEMS : list Equipment := [
  {| id := "tube1"; type := TEST_TUBE;
     position := vector3 (-4) (-1) 0; rotation := euler 0 0 0;
     color := hexColor 255 68 68; liquidLevel := 0.7; heldBy := None;
     liquidType := Some acid; label := Some "HCl"%string |};
  {| id := "tube2"; type := TEST_TUBE;
     position := vector3 (-2.5) (-1) 0; rotation := euler 0 0 0;
     color := hexColor 68 68 255; liquidLevel := 0.6; heldBy := None;
     liquidType := Some base; label := Some "NaOH"%string |};
  {| id := "tube3"; type := TEST_TUBE;
     position := vector3 (-1) (-1) 0; rotation := euler 0 0 0;
     color := hexColor 68 255 68; liquidLevel := 0.8; heldBy := None;
     liquidType := Some water; label := Some "H₂O"%string |};
  {| id := "tube4"; type := TEST_TUBE;
     position := vector3 0.5 (-1) 0; rotation := euler 0 0 0;
     color := hexColor 255 170 0; liquidLevel := 0.5; heldBy := None;
     liquidType := Some indicator; label := Some "PH"%string |};
  {| id := "tube5"; type := TEST_TUBE;
     position := vector3 2 (-1) 0; rotation := euler 0 0 0;
     color := hexColor 255 0 255; liquidLevel := 0.4; heldBy := None;
     liquidType := Some acid; label := Some "H₂SO₄"%string |};
  {| id := "tube6"; type := TEST_TUBE;
     position := vector3 3.5 (-1) 0; rotation := euler 0 0 0;
     color := hexColor 0 255 255; liquidLevel := 0.9; heldBy := None;
     liquidType := Some water; label := Some "Distilled"%string |};
  {| id := "beaker1"; type := FLASK;
     position := vector3 (-2) 0 2; rotation := euler 0 0 0;
     color := hexColor 255 255 255; liquidLevel := 0.0; heldBy := None;
     liquidType := None; label := Some "MIX 1"%string |};
  {| id := "beaker2"; type := FLASK;
     position := vector3 2 0 2; rotation := euler 0 0 0;
     color := hexColor 255 255 255; liquidLevel := 0.0; heldBy := None;
     liquidType := None; label := Some "MIX 2"%string |}
].

(** [item.heldBy === side]. *)
Definition heldBySide (item : Equipment) (side : Side) : bool :=
  match heldBy item with
  | Some s => Side_eqb s side
  | None => false
  end.

(** [item.heldBy === null]. *)
Definition unheld (item : Equipment) : bool :=
  match heldBy item with Some _ => false | None => true end.

(** The hand mapped to world space. *)
Definition handPos (hand : HandData) : Vector3 :=
  vector3 ((0.5 - vx (pinchPosition hand)) * 14)
          ((0.5 - vy (pinchPosition hand)) * 10)
          0.

Definition grabDistance (item : Equipment) : R :=
  match type item with TEST_TUBE => 0.8 | _ => 1.5 end.

Definition rackPositions : list R := [-4; -2.5; -1; 0.5; 2; 3.5].

(** [rackPositions.reduce] without an initial value: the first slot
    starts as [prev]. *)
Definition nearestPos (x : R) : R :=
  fold_left
    (fun prev curr =>
       if Rltb (Rabs (curr - x)) (Rabs (prev - x)) then curr else prev)
    (tail rackPositions) (hd 0 rackPositions).

(** The snap-back of the release branch, on the position. *)
Definition snapBack (ty : EquipmentType) (p : Vector3) : Vector3 :=
  match ty with
  | TEST_TUBE =>
      if Rgtb (vy p) (-1.5) then
        vector3 (lerp (vx p) (nearestPos (vx p)) 0.5) (-1.5) (vz p)
      else p
  | _ =>
      if Rgtb (vy p) (-1.5) then vector3 (vx p) (-1.5) (vz p) else p
  end.

(** The grab branch: the item follows the hand and turns with the line
    from the wrist to the tip of the index finger. *)
Definition grab (side : Side) (hand : HandData) (elapsedTime : R)
    (wrist index : Landmark) (item : Equipment) : Equipment :=
  let angle := atan2 (ly index - ly wrist) (lx index - lx wrist) in
  let rot :=
    match type item with
    | TEST_TUBE =>
        let targetZ := - (angle + PI / 2) * 0.7 in
        euler (sin (elapsedTime * 2) * 0.05)
              (ey (rotation item))
              (lerp (ez (rotation item)) targetZ 0.3)
    | _ =>
        let targetZ := - (angle + PI / 2) in
        euler (ex (rotation item))
              (ey (rotation item))
              (lerp (ez (rotation item)) targetZ 0.2)
    end in
  {| id := id item; type := type item;
     position := handPos hand;
     rotation := rot;
     color := color item; liquidLevel := liquidLevel item;
     heldBy := Some side;
     liquidType := liquidType item; label := label item |}.

(** The release branch. *)
Definition release (item : Equipment) : Equipment :=
  {| id := id item; type := type item;
     position := snapBack (type item) (position item);
     rotation := euler 0 0 0;
     color := color item; liquidLevel := liquidLevel item;
     heldBy := None;
     liquidType := liquidType item; label := label item |}.

(** The body of [nextItems.forEach(item => ...)] for one hand: the item
    after the round and whether the round sets [changed]. *)
Definition touch (side : Side) (hand : HandData) (elapsedTime : R)
    (item : Equipment) : option (Equipment * bool) :=
  let dist := distanceTo (handPos hand) (position item) in
  if Rltb dist (grabDistance item) && isPinching hand
     && (unheld item || heldBySide item side)
  then
    wrist ← landmarks hand !! 0%nat;
    index ← landmarks hand !! 8%nat;
    Some (grab side hand elapsedTime wrist index item,
          negb (heldBySide item side))
  else if heldBySide item side && negb (isPinching hand) then
    Some (release item, true)
  else Some (item, false).

(** The scene state inside a frame: [nextItems] and the flag [changed]. *)
Definition Work : Type := list Equipment * bool.

(** One round of [['Left', 'Right'].forEach]. *)
Definition handPass (hs : TrackingState) (elapsedTime : R) (side : Side)
    (w : Work) : option Work :=
  match handOf hs side with
  | None => Some w
  | Some hand =>
      rs ← mapM (touch side hand elapsedTime) w.1;
      Some (map fst rs, w.2 || existsb snd rs)
  end.

Definition amount : R := 0.015.

(** The transfer, on the source: [source.liquidLevel -= amount]. *)
Definition drain (source : Equipment) : Equipment :=
  {| id := id source; type := type source;
     position := position source; rotation := rotation source;
     color := color source;
     liquidLevel := liquidLevel source - amount;
     heldBy := heldBy source;
     liquidType := liquidType source; label := label source |}.

(** The transfer, on the target: the colours are mixed, then the level
    is raised. *)
Definition receive (sourceColor : Color) (target : Equipment) : Equipment :=
  {| id := id target; type := type target;
     position := position target; rotation := rotation target;
     color :=
       if Rleb (liquidLevel target) 0.05 then sourceColor
       else lerpC (color target) sourceColor 0.1;
     liquidLevel := Rmin 1 (liquidLevel target + amount);
     heldBy := heldBy target;
     liquidType := liquidType target; label := label target |}.

(** The proximity and height test of the inner loop. *)
Definition inReach (source target : Equipment) : bool :=
  Rltb (distanceTo (position source) (position target)) 2.5
  && Rgtb (vy (position source)) (vy (position target) + 1).

(** The body of the inner loop of the pouring pass, for the source at
    index [i] and the target at index [j]. *)
Definition pourInto (i : nat) (w : Work) (j : nat) : Work :=
  if (i =? j)%nat then w
  else
    match w.1 !! i, w.1 !! j with
    | Some source, Some target =>
        if inReach source target
        then (<[j := receive (color source) target]>
                (<[i := drain source]> w.1),
              true)
        else w
    | _, _ => w
    end.

(** The body of the outer loop of the pouring pass, for the source at
    index [i]. *)
Definition pourFrom (w : Work) (i : nat) : Work :=
  match w.1 !! i with
  | Some source =>
      if unheld source || Rleb (liquidLevel source) 0 then w
      else if Rgtb (Rabs (ez (rotation source))) 1.0
      then fold_left (pourInto i) (seq 0 (length w.1)) w
      else w
  | None => w
  end.

Definition pour (w : Work) : Work :=
  fold_left pourFrom (seq 0 (length w.1)) w.

(** What the next frame finds in [items].  [nextItems] holds shallow
    copies, so a position, rotation or colour written during the frame
    is written to the object the old item refers to as well, while
    [liquidLevel] and [heldBy] only reach [items] through [setItems]. *)
Definition shared (old next : Equipment) : Equipment :=
  {| id := id old; type := type old;
     position := position next; rotation := rotation next;
     color := color next;
     liquidLevel := liquidLevel old; heldBy := heldBy old;
     liquidType := liquidType old; label := label old |}.

Definition commit (items : list Equipment) (w : Work) : list Equipment :=
  if w.2 then w.1 else zip_with shared items w.1.

(** The interaction part of the frame callback: both hands in turn. *)
Definition interaction (hs : TrackingState) (elapsedTime : R)
    (w : Work) : option Work :=
  w1 ← handPass hs elapsedTime Left w;
  handPass hs elapsedTime Right w1.

(** The callback of [useFrame]; the particles of the pour effect are a
    separate piece of state and are left out. *)
Definition useFrame (hs : TrackingState) (elapsedTime : R)
    (items : list Equipment) : option (list Equipment) :=
  w ← interaction hs elapsedTime (items, false);
  Some (commit items (pour w)).

(** The frames of a run, one tracking state and clock reading each. *)
Fixpoint frames (inputs : list (TrackingState * R))
    (items : list Equipment) : option (list Equipment) :=
  match inputs with
  | [] => Some items
  | (hs, t) :: rest => items' ← useFrame hs t items; frames rest items'
  end.

(** Relations that describe the rounds of a frame. *)

(** The three outcomes of one round for one hand and one item. *)
Inductive Touched (side : Side) (hand : HandData) (item item' : Equipment)
  : bool -> Prop :=
| touched_grab :
    distanceTo (handPos hand) (position item) < grabDistance item ->
    isPinching hand = true ->
    heldBy item = None \/ heldBy item = Some side ->
    heldBy item' = Some side ->
    position item' = handPos hand ->
    Touched side hand item item' (negb (heldBySide item side))
| touched_release :
    heldBy item = Some side ->
    isPinching hand = false ->
    heldBy item' = None ->
    position item' = snapBack (type item) (position item) ->
    rotation item' = euler 0 0 0 ->
    Touched side hand item item' true
| touched_idle :
    item' = item ->
    (heldBy item = Some side -> isPinching hand = true) ->
    Touched side hand item item' false.

(** The fields a round for a hand may write and the ones it keeps. *)
Definition sameLiquid (a b : Equipment) : Prop :=
  id b = id a /\ type b = type a /\ color b = color a /\
  liquidLevel b = liquidLevel a /\ liquidType b = liquidType a /\
  label b = label a.

(** One round of the loop over the hands, seen from one item. *)
Definition Passed (hs : TrackingState) (t : R) (side : Side)
    (item item' : Equipment) (ch : bool) : Prop :=
  match handOf hs side with
  | None => item' = item /\ ch = false
  | Some hand => touch side hand t item = Some (item', ch)
  end.

(** The targets the source at index [i] pours into. *)
Definition receives (items : list Equipment) (i j : nat) : bool :=
  negb (i =? j)%nat
  && match items !! i, items !! j with
     | Some source, Some target => inReach source target
     | _, _ => false
     end.

Definition receivers (items : list Equipment) (i : nat) : list nat :=
  List.filter (receives items i) (seq 0 (length items)).

(** The fields the pouring pass keeps. *)
Definition sameHold (a b : Equipment) : Prop :=
  id b = id a /\ type b = type a /\ position b = position a /\
  rotation b = rotation a /\ heldBy b = heldBy a /\
  liquidType b = liquidType a /\ label b = label a.

(** What the turn of another source does to the item at index [i]: its
    level does not fall, as long as no level exceeds 1. *)
Definition spares (i : nat) (w w' : Work) : Prop :=
  Forall (fun x => liquidLevel x <= 1) w.1 ->
  Forall (fun x => liquidLevel x <= 1) w'.1 /\
  forall s, w.1 !! i = Some s ->
    exists s', w'.1 !! i = Some s' /\ liquidLevel s <= liquidLevel s'.

(** The sum of the liquid levels of the scene. *)
Definition totalLiquid (items : list Equipment) : R :=
  foldr (fun item total => liquidLevel item + total) 0 items.

(** What a vessel is, as opposed to where it is and what it holds. *)
Definition identity (item : Equipment)
  : string * EquipmentType * option LiquidType * option string :=
  (id item, type item, liquidType item, label item).

(** The conditions of the pouring scenario on the scene a frame pours
    from: the vessel at [i] is held and tilted beyond 1 rad, the vessel at
    [j] is within 2.5 of it and lower by more than 1, no third vessel is,
    and no other vessel is both held and tilted beyond 1 rad. *)
Definition poised (i j : nat) (items : list Equipment) : Prop :=
  exists source target,
    items !! i = Some source /\ items !! j = Some target /\ i <> j /\
    heldBy source <> None /\ 1 < Rabs (ez (rotation source)) /\
    distanceTo (position source) (position target) < 2.5 /\
    vy (position source) > vy (position target) + 1 /\
    (forall k, k <> j -> receives items i k = false) /\
    (forall k other, k <> i -> items !! k = Some other ->
       heldBy other = None \/ Rabs (ez (rotation other)) <= 1).

(** The conditions hold in every frame of a run: each frame finds the
    scene poised once the hands have moved the vessels, when its pouring
    pass begins. *)
Fixpoint keptPoised (i j : nat) (inputs : list (TrackingState * R))
    (items : list Equipment) : Prop :=
  match inputs with
  | [] => True
  | (hs, t) :: rest =>
      (exists w, interaction hs t (items, false) = Some w /\
                 poised i j w.1) /\
      forall items', useFrame hs t items = Some items' ->
        keptPoised i j rest items'
  end.

End ChemistryLab.

(** ** The component [GlassWare] of the chemistry lab *)

Module GlassWare.

Import ChemistryLab.

Record Dimensions := {
  radius : R;
  height : R;
  neckRadius : R;
  rimThickness : R;
  glassThickness : R
}.

Definition getDimensions (ty : EquipmentType) : Dimensions :=
  match ty with
  | TEST_TUBE =>
      {| radius := 0.15; height := 2.5; neckRadius := 0.15;
         rimThickness := 0.02; glassThickness := 0.01 |}
  | FLASK =>
      {| radius := 0.7; height := 2.2; neckRadius := 0.35;
         rimThickness := 0.04; glassThickness := 0.02 |}
  | TUBE =>
      {| radius := 0.4; height := 3.0; neckRadius := 0.4;
         rimThickness := 0.04; glassThickness := 0.02 |}
  end.

(** A cylinder of [cylinderGeometry], centred on a point of the axis of
    the vessel: its radius at the top and at the bottom, its height and
    the height of its centre. *)
Record Cylinder := {
  radiusTop : R;
  radiusBottom : R;
  tall : R;
  centre : R
}.

(** The main glass body. *)
Definition glassBody (item : Equipment) : Cylinder :=
  let d := getDimensions (type item) in
  match type item with
  | FLASK =>
      {| radiusTop := neckRadius d; radiusBottom := radius d;
         tall := height d; centre := 0 |}
  | _ =>
      {| radiusTop := radius d; radiusBottom := radius d;
         tall := height d; centre := 0 |}
  end.

(** [item.liquidLevel > 0.01 && ...]: whether the liquid is drawn. *)
Definition liquidShown (item : Equipment) : bool :=
  Rgtb (liquidLevel item) 0.01.

(** The liquid content, a cylinder in a group that is lifted by
    [-height/2 + (height * item.liquidLevel)/2]. *)
Definition liquidBody (item : Equipment) : Cylinder :=
  let d := getDimensions (type item) in
  let lift := - height d / 2 + (height d * liquidLevel item) / 2 in
  match type item with
  | FLASK =>
      {| radiusTop := lerp (radius d) (neckRadius d) (liquidLevel item);
         radiusBottom := radius d - 0.1;
         tall := height d * liquidLevel item - 0.1;
         centre := lift |}
  | _ =>
      {| radiusTop := radius d - 0.08; radiusBottom := radius d - 0.08;
         tall := height d * liquidLevel item - 0.1;
         centre := lift |}
  end.

(** The two ends of a cylinder on the axis. *)
Definition top (c : Cylinder) : R := centre c + tall c / 2.
Definition bottom (c : Cylinder) : R := centre c - tall c / 2.

End GlassWare.

(** ** pages/ChemistryPage.tsx (component [ChemistryLab] of the page) *)

Module ChemistryPage.

Inductive ChemicalType := acid | base | neutral | indicator.

Record TestTube := {
  id : string;
  position : Vector3;
  rotation : Euler;
  color : Color;
  liquidColor : string;
  liquidLevel : R;
  chemicalType : ChemicalType;
  heldBy : option Side;
  label : string
}.

Definition hexColor (r g b : Z) : Color :=
  {| cr := IZR r / 255; cg := IZR g / 255; cb := IZR b / 255 |}.

Definition vector3 (x y z : R) : Vector3 := {| vx := x; vy := y; vz := z |}.
Definition euler (x y z : R) : Euler := {| ex := x; ey := y; ez := z |}.

(** The initial value of the state [testTubes]. *)
Definition testTubes : list TestTube := [
  {| id := "tube1"; position := vector3 (-3) 0 0; rotation := euler 0 0 0;
     color := hexColor 255 107 107; liquidColor := "#ff6b6b";
     liquidLevel := 0.7; chemicalType := acid; heldBy := None;
     label := "HCl" |};
  {| id := "tube2"; position := vector3 (-1) 0 0; rotation := euler 0 0 0;
     color := hexColor 78 205 196; liquidColor := "#4ecdc4";
     liquidLevel := 0.6; chemicalType := base; heldBy := None;
     label := "NaOH" |};
  {| id := "tube3"; position := vector3 1 0 0; rotation := euler 0 0 0;
     color := hexColor 69 183 209; liquidColor := "#45b7d1";
     liquidLevel := 0.8; chemicalType := neutral; heldBy := None;
     label := "H₂O" |};
  {| id := "tube4"; position := vector3 3 0 0; rotation := euler 0 0 0;
     color := hexColor 150 206 180; liquidColor := "#96ceb4";
     liquidLevel := 0.5; chemicalType := indicator; heldBy := None;
     label := "PH" |}
].

Definition heldBySide (tube : TestTube) (side : Side) : bool :=
  match heldBy tube with
  | Some s => Side_eqb s side
  | None => false
  end.

Definition unheld (tube : TestTube) : bool :=
  match heldBy tube with Some _ => false | None => true end.

Definition handPos (hand : HandData) : Vector3 :=
  vector3 ((0.5 - vx (pinchPosition hand)) * 10)
          ((0.5 - vy (pinchPosition hand)) * 6)
          (vz (pinchPosition hand) * 2).

(** The grab branch. *)
Definition grab (side : Side) (hand : HandData) (wrist index : Landmark)
    (tube : TestTube) : TestTube :=
  let angle := atan2 (ly index - ly wrist) (lx index - lx wrist) in
  {| id := id tube;
     position := handPos hand;
     rotation := euler (ex (rotation tube)) (ey (rotation tube))
                       (- (angle + PI / 2) * 0.5);
     color := color tube; liquidColor := liquidColor tube;
     liquidLevel := liquidLevel tube;
     chemicalType := chemicalType tube;
     heldBy := Some side; label := label tube |}.

(** The release branch. *)
Definition release (tube : TestTube) : TestTube :=
  {| id := id tube;
     position := vector3 (vx (position tube)) 0 (vz (position tube));
     rotation := euler 0 0 0;
     color := color tube; liquidColor := liquidColor tube;
     liquidLevel := liquidLevel tube;
     chemicalType := chemicalType tube;
     heldBy := None; label := label tube |}.

(** The body of [nextTubes.forEach(tube => ...)] for one hand. *)
Definition touch (side : Side) (hand : HandData) (tube : TestTube)
  : option (TestTube * bool) :=
  let dist := distanceTo (handPos hand) (position tube) in
  if Rltb dist 1.0 && isPinching hand
     && (unheld tube || heldBySide tube side)
  then
    wrist ← landmarks hand !! 0%nat;
    index ← landmarks hand !! 8%nat;
    Some (grab side hand wrist index tube, negb (heldBySide tube side))
  else if heldBySide tube side && negb (isPinching hand) then
    Some (release tube, true)
  else Some (tube, false).

Definition Work : Type := list TestTube * bool.

Definition handPass (hs : TrackingState) (side : Side) (w : Work)
  : option Work :=
  match handOf hs side with
  | None => Some w
  | Some hand =>
      rs ← mapM (touch side hand) w.1;
      Some (map fst rs, w.2 || existsb snd rs)
  end.

Definition interaction (hs : TrackingState) (w : Work) : option Work :=
  w1 ← handPass hs Left w;
  handPass hs Right w1.

Definition setLevel (tube : TestTube) (l : R) : TestTube :=
  {| id := id tube; position := position tube; rotation := rotation tube;
     color := color tube; liquidColor := liquidColor tube;
     liquidLevel := l; chemicalType := chemicalType tube;
     heldBy := heldBy tube; label := label tube |}.

(** The body of the reaction loops for the pair [i < j]; the reaction
    effect shown on screen is a separate piece of state, left out. *)
Definition react (i : nat) (w : Work) (j : nat) : Work :=
  match w.1 !! i, w.1 !! j with
  | Some tube1, Some tube2 =>
      let distance := distanceTo (position tube1) (position tube2) in
      if Rltb distance 1.5 && Rgtb (liquidLevel tube1) 0.1
         && Rgtb (liquidLevel tube2) 0.1
      then
        (<[j := setLevel tube2 (Rmax 0 (liquidLevel tube2 - 0.01))]>
           (<[i := setLevel tube1 (Rmax 0 (liquidLevel tube1 - 0.01))]>
              w.1),
         true)
      else w
  | _, _ => w
  end.

Definition reactions (w : Work) : Work :=
  let n := length w.1 in
  fold_left (fun w i => fold_left (react i) (seq (S i) (n - S i)) w)
            (seq 0 n) w.

Definition shared (old next : TestTube) : TestTube :=
  {| id := id old; position := position next; rotation := rotation next;
     color := color next; liquidColor := liquidColor old;
     liquidLevel := liquidLevel old; chemicalType := chemicalType old;
     heldBy := heldBy old; label := label old |}.

Definition commit (tubes : list TestTube) (w : Work) : list TestTube :=
  if w.2 then w.1 else zip_with shared tubes w.1.

Definition useFrame (hs : TrackingState) (tubes : list TestTube)
  : option (list TestTube) :=
  w ← interaction hs (tubes, false);
  Some (commit tubes (reactions w)).

Fixpoint frames (inputs : list TrackingState) (tubes : list TestTube)
  : option (list TestTube) :=
  match inputs with
  | [] => Some tubes
  | hs :: rest => tubes' ← useFrame hs tubes; frames rest tubes'
  end.

(** Relations that describe the rounds of a frame. *)

(** The three outcomes of one round for one hand and one tube. *)
Inductive Touched (side : Side) (hand : HandData) (tube tube' : TestTube)
  : bool -> Prop :=
| touched_grab :
    distanceTo (handPos hand) (position tube) < 1.0 ->
    isPinching hand = true ->
    heldBy tube = None \/ heldBy tube = Some side ->
    heldBy tube' = Some side ->
    position tube' = handPos hand ->
    Touched side hand tube tube' (negb (heldBySide tube side))
| touched_release :
    heldBy tube = Some side ->
    isPinching hand = false ->
    heldBy tube' = None ->
    position tube' = vector3 (vx (position tube)) 0 (vz (position tube)) ->
    rotation tube' = euler 0 0 0 ->
    Touched side hand tube tube' true
| touched_idle :
    tube' = tube ->
    (heldBy tube = Some side -> isPinching hand = true) ->
    Touched side hand tube tube' false.

(** The fields a round for a hand keeps. *)
Definition sameLiquid (a b : TestTube) : Prop :=
  id b = id a /\ color b = color a /\ liquidColor b = liquidColor a /\
  liquidLevel b = liquidLevel a /\ chemicalType b = chemicalType a /\
  label b = label a.

(** One round of the loop over the hands, seen from one tube. *)
Definition Passed (hs : TrackingState) (side : Side)
    (tube tube' : TestTube) (ch : bool) : Prop :=
  match handOf hs side with
  | None => tube' = tube /\ ch = false
  | Some hand => touch side hand tube = Some (tube', ch)
  end.

(** The fields the reaction loops keep. *)
Definition sameHold (a b : TestTube) : Prop :=
  id b = id a /\ position b = position a /\ rotation b = rotation a /\
  color b = color a /\ liquidColor b = liquidColor a /\
  chemicalType b = chemicalType a /\ heldBy b = heldBy a /\
  label b = label a.

(** What a frame may do to the level of a tube: lower it, but not to
    0.09 or below, and not at all from 0.1 or below. *)
Definition dries (a b : TestTube) : Prop :=
  liquidLevel b <= liquidLevel a /\
  (0.09 < liquidLevel a -> 0.09 < liquidLevel b) /\
  (liquidLevel a <= 0.1 -> liquidLevel b = liquidLevel a).

Definition ChemicalType_eqb (a b : ChemicalType) : bool :=
  match a, b with
  | acid, acid | base, base | neutral, neutral | indicator, indicator =>
      true
  | _, _ => false
  end.

(** The test of the reaction loops on a pair of tubes. *)
Definition reacting (tube1 tube2 : TestTube) : bool :=
  Rltb (distanceTo (position tube1) (position tube2)) 1.5
  && Rgtb (liquidLevel tube1) 0.1 && Rgtb (liquidLevel tube2) 0.1.

(** The simple reaction logic: orange for a neutralisation, the colour
    of the other liquid for an indicator, white otherwise. *)
Definition reactionColor (tube1 tube2 : TestTube) : string :=
  if (ChemicalType_eqb (chemicalType tube1) acid
      && ChemicalType_eqb (chemicalType tube2) base)
     || (ChemicalType_eqb (chemicalType tube1) base
         && ChemicalType_eqb (chemicalType tube2) acid)
  then "#ffaa00"
  else if ChemicalType_eqb (chemicalType tube1) indicator
          || ChemicalType_eqb (chemicalType tube2) indicator
  then if ChemicalType_eqb (chemicalType tube1) indicator
       then liquidColor tube2 else liquidColor tube1
  else "#ffffff".

(** The argument of [setActiveReaction]: a position and a colour. *)
Definition Reaction : Type := Vector3 * string.

Definition reactionOf (tube1 tube2 : TestTube) : Reaction :=
  (multiplyScalar (addVectors (position tube1) (position tube2)) 0.5,
   reactionColor tube1 tube2).

(** The body of the reaction loops together with the reaction it asks
    to show: the last call of [setActiveReaction] of the frame counts. *)
Definition reactFx (i : nat) (acc : Work * option Reaction) (j : nat)
  : Work * option Reaction :=
  (react i acc.1 j,
   match acc.1.1 !! i, acc.1.1 !! j with
   | Some tube1, Some tube2 =>
       if reacting tube1 tube2 then Some (reactionOf tube1 tube2)
       else acc.2
   | _, _ => acc.2
   end).

Definition reactionsFx (w : Work) : Work * option Reaction :=
  let n := length w.1 in
  fold_left (fun acc i => fold_left (reactFx i) (seq (S i) (n - S i)) acc)
            (seq 0 n) (w, None).

(** The states [activeReaction] and [reactionIntensity]. *)
Record Effects := {
  activeReaction : option Reaction;
  reactionIntensity : R
}.

(** What a frame asks of the two states, applied in the order of the
    calls: a reaction of the frame sets the reaction and the intensity 1;
    then, if the intensity the frame started with is positive, the
    intensity is lowered by [delta * 0.5], and the reaction is cleared if
    that intensity is 0.01 or less. *)
Definition fade (delta : R) (reacted : option Reaction) (e : Effects)
  : Effects :=
  let shown :=
    match reacted with
    | Some r => Some r
    | None => activeReaction e
    end in
  let intensity :=
    match reacted with
    | Some _ => 1
    | None => reactionIntensity e
    end in
  if Rgtb (reactionIntensity e) 0 then
    {| activeReaction :=
         if Rleb (reactionIntensity e) 0.01 then None else shown;
       reactionIntensity := Rmax 0 (intensity - delta * 0.5) |}
  else
    {| activeReaction := shown; reactionIntensity := intensity |}.

(** The callback of [useFrame] with the reaction effect. *)
Definition useFrameFx (hs : TrackingState) (delta : R)
    (s : list TestTube * Effects) : option (list TestTube * Effects) :=
  w ← interaction hs (s.1, false);
  let r := reactionsFx w in
  Some (commit s.1 r.1, fade delta r.2 s.2).

(** Frames without a reaction, one [delta] each. *)
Definition fades (deltas : list R) (e : Effects) : Effects :=
  fold_left (fun e delta => fade delta None e) deltas e.

(** What the reaction loops have done so far, seen from the start [w0]
    of the loops: the tubes are where they were, and a tube whose level
    has changed has another tube within 1.5. *)
Definition neighboured (w0 w : Work) : Prop :=
  Forall2 sameHold w0.1 w.1 /\
  forall k x x', w0.1 !! k = Some x -> w.1 !! k = Some x' ->
    liquidLevel x' <> liquidLevel x ->
    exists j y, j <> k /\ w0.1 !! j = Some y /\
      distanceTo (position x) (position y) < 1.5.

(** What the loops of [reactionsFx] have done so far, seen from their
    start [w0]: a reaction is asked for exactly if a level has fallen. *)
Definition shownIfFallen (w0 : Work) (acc : Work * option Reaction)
  : Prop :=
  Forall2 dries w0.1 acc.1.1 /\
  (acc.2 <> None <->
   exists k x x', w0.1 !! k = Some x /\ acc.1.1 !! k = Some x' /\
     liquidLevel x' < liquidLevel x).

End ChemistryPage.

(** ** The solar system scene (component [SolarSystem]) *)

Module SolarSystem.

Record Planet := {
  name : string;
  color : string;
  distance : R;
  size : R;
  speed : R
}.

Definition PLANETS : list Planet := [
  {| name := "Solar System"; color := "#ffaa00";
     distance := 0; size := 4.0; speed := 0 |};
  {| name := "Mercury"; color := "#A0A0A0";
     distance := 10; size := 0.8; speed := 1.2 |};
  {| name := "Venus"; color := "#E3BB76";
     distance := 15; size := 1.2; speed := 0.9 |};
  {| name := "Earth"; color := "#2B32B2";
     distance := 22; size := 1.3; speed := 0.6 |};
  {| name := "Mars"; color := "#CF3C16";
     distance := 30; size := 1.0; speed := 0.5 |};
  {| name := "Jupiter"; color := "#C88B3A";
     distance := 45; size := 3.5; speed := 0.2 |}
].

Record CamState := {
  radius : R;
  phi : R;
  theta : R;
  targetLookAt : Vector3
}.

(** The state of the component: the React state [targetIndex], the three
    refs and the position of the camera. *)
Record Scene := {
  targetIndex : Z;
  planetAngles : list R;
  planetPositions : list Vector3;
  camState : CamState;
  cameraPosition : Vector3
}.

(** [l[i]] for a JavaScript number [i] that holds an integer. *)
Definition at_index {A} (l : list A) (i : Z) : option A :=
  if (i <? 0)%Z then None else l !! Z.to_nat i.

(** [a || b] on two optional hands. *)
Definition orHand (a b : option HandData) : option HandData :=
  match a with Some _ => a | None => b end.

(** Step 1, the gesture mapping: the target index the frame asks React
    to set, or the current one. *)
Definition navigation (hs : TrackingState) (targetIndex : Z) : Z :=
  match orHand (rightHand hs) (leftHand hs) with
  | Some hand =>
      if negb (isPinching hand) then
        let newIndex :=
          match gestureType hand with
          | fist => 0
          | one_finger => 1
          | two_fingers => 2
          | three_fingers => 3
          | four_fingers => 4
          | open_palm => 5
          | gt_none => -1
          end%Z in
        if negb (newIndex =? -1)%Z
           && (newIndex <? Z.of_nat (length PLANETS))%Z
           && negb (newIndex =? targetIndex)%Z
        then newIndex
        else targetIndex
      else targetIndex
  | None => targetIndex
  end.

(** The place of a planet on its orbit: [set(x, 0, z)]. *)
Definition orbitPosition (planet : Planet) (angle : R) : Vector3 :=
  {| vx := cos angle * distance planet; vy := 0;
     vz := sin angle * distance planet |}.

(** Step 2, one round of [PLANETS.forEach]. *)
Definition orbit (delta : R) (acc : option (list R * list Vector3))
    (i : nat) : option (list R * list Vector3) :=
  s ← acc;
  planet ← PLANETS !! i;
  _ ← s.2 !! i;
  if (0 <? i)%nat then
    a ← s.1 !! i;
    let a' := a + speed planet * delta * 0.5 in
    Some (<[i := a']> s.1, <[i := orbitPosition planet a']> s.2)
  else
    Some (s.1, <[i := {| vx := 0; vy := 0; vz := 0 |}]> s.2).

Definition simulation (delta : R) (angles : list R)
    (positions : list Vector3) : option (list R * list Vector3) :=
  fold_left (orbit delta) (seq 0 (length PLANETS))
            (Some (angles, positions)).

(** Step 3, pinch to orbit. *)
Definition pinchOrbit (hs : TrackingState) (delta : R) (c : CamState)
  : CamState :=
  match gesture hs, HandTracker.orHand (leftHand hs) (rightHand hs) with
  | pinch_drag, Some activeHand =>
      let dx := vx (pinchPosition activeHand) - 0.5 in
      let dy := vy (pinchPosition activeHand) - 0.5 in
      let sensitivity := 2.0 in
      {| radius := radius c;
         theta := theta c - dx * delta * sensitivity;
         phi := Rmax 0.1 (Rmin (PI - 0.1)
                               (phi c + dy * delta * sensitivity));
         targetLookAt := targetLookAt c |}
  | _, _ => c
  end.

Definition idealRadius (targetIndex : Z) : option R :=
  if (0 <? targetIndex)%Z then
    planet ← at_index PLANETS targetIndex;
    Some (size planet * 5 + 5)
  else Some 60.

(** Step 4, the camera transition, with the target index of the render
    the callback belongs to. *)
Definition transition (targetIndex : Z) (positions : list Vector3)
    (c : CamState) (camera : Vector3) : option (CamState * Vector3) :=
  targetPlanetPos ← at_index positions targetIndex;
  ideal ← idealRadius targetIndex;
  let lookAt := lerpV (targetLookAt c) targetPlanetPos 0.05 in
  let r := lerp (radius c) ideal 0.05 in
  let offsetX := r * sin (phi c) * sin (theta c) in
  let offsetY := r * cos (phi c) in
  let offsetZ := r * sin (phi c) * cos (theta c) in
  let idealCamPos :=
    addVectors lookAt {| vx := offsetX; vy := offsetY; vz := offsetZ |} in
  Some ({| radius := r; phi := phi c; theta := theta c;
           targetLookAt := lookAt |},
        lerpV camera idealCamPos 0.1).

(** The callback of [useFrame].  [setTargetIndex] takes effect with the
    next render, so the frame itself still moves the camera towards the
    old target. *)
Definition useFrame (hs : TrackingState) (delta : R) (s : Scene)
  : option Scene :=
  let newTarget := navigation hs (targetIndex s) in
  sim ← simulation delta (planetAngles s) (planetPositions s);
  let c := pinchOrbit hs delta (camState s) in
  cam ← transition (targetIndex s) sim.2 c (cameraPosition s);
  Some {| targetIndex := newTarget;
          planetAngles := sim.1;
          planetPositions := sim.2;
          camState := cam.1;
          cameraPosition := cam.2 |}.

Fixpoint frames (inputs : list (TrackingState * R)) (s : Scene)
  : option Scene :=
  match inputs with
  | [] => Some s
  | (hs, delta) :: rest => s' ← useFrame hs delta s; frames rest s'
  end.

(** The scenes the component can be in: one angle and one position for
    each planet, and a target among the planets. *)
Definition wellFormed (s : Scene) : Prop :=
  length (planetAngles s) = length PLANETS /\
  length (planetPositions s) = length PLANETS /\
  (0 <= targetIndex s < Z.of_nat (length PLANETS))%Z.


(** The fifth entry of [PLANETS]. *)
Definition mars : Planet :=
  {| name := "Mars"; color := "#CF3C16"; distance := 30; size := 1.0;
     speed := 0.5 |}.

(** A scene whose position of Mars is the one of its angle, as after any
    frame. *)
Definition marsPlaced (s : Scene) (a : R) : Prop :=
  planetAngles s !! 4%nat = Some a /\
  planetPositions s !! 4%nat = Some (orbitPosition mars a).

(** The scene when the component mounts: the whole system is the target,
    the positions are fresh vectors, the angles are drawn at random and
    the camera is the one of the canvas. *)
Definition mount (angles : list R) (camera : Vector3) : Scene :=
  {| targetIndex := 0;
     planetAngles := angles;
     planetPositions :=
       map (fun _ => {| vx := 0; vy := 0; vz := 0 |}) PLANETS;
     camState := {| radius := 60; phi := PI / 2.5; theta := 0;
                    targetLookAt := {| vx := 0; vy := 0; vz := 0 |} |};
     cameraPosition := camera |}.

(** The camera is within its limits: the elevation between 0.1 and
    [PI - 0.1], the radius between the smallest ideal radius and the
    radius of the full view. *)
Definition cameraInLimits (c : CamState) : Prop :=
  0.1 <= phi c <= PI - 0.1 /\ 9 <= radius c <= 60.

(** A planet position on the circle of its orbit, in the plane y = 0. *)
Definition onOrbit (planet : Planet) (p : Vector3) : Prop :=
  vy p = 0 /\ vx p * vx p + vz p * vz p = distance planet * distance planet.

End SolarSystem.

(** ** The anatomy page (components [SurgicalNeedle], [HeartModel] and
       [ToolStatePanel]) *)

Module AnatomyPage.

(** [h && h.isPinching] and the truth value of [h], for a hand [h] that
    may be null. *)
Definition pinches (h : option HandData) : bool :=
  match h with Some hand => isPinching hand | None => false end.

Definition present (h : option HandData) : bool :=
  match h with Some _ => true | None => false end.

Definition Gesture_eqb (a b : Gesture) : bool :=
  match a, b with
  | none, none | rotate, rotate | pinch_drag, pinch_drag | zoom, zoom
  | hover, hover => true
  | _, _ => false
  end.

(** The label the effect of the tool state panel computes from the
    tracking state it reads.  The effect is keyed on [handState.current],
    the ref of the page, and the page holds no state of its own: the
    panel is rendered when it mounts, and the effect runs on the state
    the page starts with. *)
Definition toolState (hs : TrackingState) : string :=
  if pinches (rightHand hs) then "Needle Active"
  else if pinches (leftHand hs) then "Heart Control"
  else if Gesture_eqb (gesture hs) zoom
          && present (leftHand hs) && present (rightHand hs)
  then "Zoom Mode"
  else if Gesture_eqb (gesture hs) rotate
          && (present (leftHand hs) || present (rightHand hs))
  then "Inspection Mode"
  else "Ready".

(** The class the panel gives the label. *)
Definition toolStateClass (toolState : string) : string :=
  if String.eqb toolState "Needle Active" then "text-cyan-300"
  else if String.eqb toolState "Move Mode" then "text-green-300"
  else if String.eqb toolState "Zoom Mode" then "text-yellow-300"
  else if String.eqb toolState "Inspection Mode" then "text-blue-300"
  else "text-gray-300".

(** The tracking state the page starts with, the first value of
    [handStateRef]. *)
Definition handStateRef : TrackingState :=
  {| leftHand := None; rightHand := None;
     gesture := none; interactionStrength := 0 |}.

(** *** The surgical needle *)

Module SurgicalNeedle.

(** The group of the needle and the state [isActive]. *)
Record Needle := {
  position : Vector3;
  rotation : Euler;
  isActive : bool
}.

(** The group as it is mounted. *)
Definition mounted : Needle :=
  {| position := {| vx := 0; vy := 0; vz := 0 |};
     rotation := {| ex := 0; ey := 0; ez := 0 |};
     isActive := false |}.

(** The place the pinch of the right hand stands for. *)
Definition target (hand : HandData) : Vector3 :=
  {| vx := (0.5 - vx (pinchPosition hand)) * 8;
     vy := (0.5 - vy (pinchPosition hand)) * 6;
     vz := vz (pinchPosition hand) * 3 |}.

Definition adaptiveSpeed (n : Needle) (hand : HandData) : R :=
  Rmin 0.3 (0.08 + distanceTo (position n) (target hand) * 0.1).

(** The needle on its way to the target, before the sway is added. *)
Definition moved (n : Needle) (hand : HandData) : Vector3 :=
  lerpV (position n) (target hand) (adaptiveSpeed n hand).

(** The branch of a pinching right hand. *)
Definition follow (hand : HandData) (elapsedTime : R) (n : Needle)
  : option Needle :=
  let p := moved n hand in
  wrist ← landmarks hand !! 0%nat;
  index ← landmarks hand !! 8%nat;
  let angle := atan2 (ly index - ly wrist) (lx index - lx wrist) in
  let targetRotationZ := - (angle + PI / 2) in
  let constrainedRotationZ := clamp targetRotationZ (- PI / 3) (PI / 3) in
  let tremorIntensity := 0.0015 in
  let swayAmount := 0.002 in
  Some {| position :=
            {| vx := vx p + sin (elapsedTime * 0.8) * swayAmount;
               vy := vy p + cos (elapsedTime * 1.2) * swayAmount;
               vz := vz p |};
          rotation :=
            {| ex := sin (elapsedTime * 4) * tremorIntensity;
               ey := cos (elapsedTime * 3) * tremorIntensity * 0.5;
               ez := lerp (ez (rotation n)) constrainedRotationZ 0.15 |};
          isActive := true |}.

Definition restPosition : Vector3 := {| vx := 4; vy := 2; vz := 2 |}.
Definition restRotation : Euler := {| ex := 0; ey := PI / 4; ez := 0 |}.

(** The other branch: the needle returns to its rest. *)
Definition rest (n : Needle) : Needle :=
  {| position := lerpV (position n) restPosition 0.06;
     rotation :=
       {| ex := lerp (ex (rotation n)) (ex restRotation) 0.08;
          ey := lerp (ey (rotation n)) (ey restRotation) 0.08;
          ez := lerp (ez (rotation n)) (ez restRotation) 0.08 |};
     isActive := false |}.

(** The callback of [useFrame]. *)
Definition useFrame (hs : TrackingState) (elapsedTime : R) (n : Needle)
  : option Needle :=
  match rightHand hs with
  | Some hand =>
      if isPinching hand then follow hand elapsedTime n else Some (rest n)
  | None => Some (rest n)
  end.

Fixpoint frames (inputs : list (TrackingState * R)) (n : Needle)
  : option Needle :=
  match inputs with
  | [] => Some n
  | (hs, t) :: more => n' ← useFrame hs t n; frames more n'
  end.

End SurgicalNeedle.

(** *** The heart model *)

(** A point of the stitch path. *)
Module StitchPoint.

Record StitchPoint := {
  position : Vector3;
  timestamp : R;
  tension : R
}.

End StitchPoint.

Module HeartModel.

(** The group of the heart and the states [stitchPoints] and
    [surfaceHighlight]. *)
Record Heart := {
  position : Vector3;
  rotation : Euler;
  scale : R;
  stitchPoints : list StitchPoint.StitchPoint;
  surfaceHighlight : option Vector3
}.

(** The group as it is mounted. *)
Definition mounted : Heart :=
  {| position := {| vx := 0; vy := 0; vz := 0 |};
     rotation := {| ex := 0; ey := 0; ez := 0 |};
     scale := 1;
     stitchPoints := [];
     surfaceHighlight := None |}.

(** The hand if it is there and pinching. *)
Definition pinching (h : option HandData) : option HandData :=
  match h with
  | Some hand => if isPinching hand then Some hand else None
  | None => None
  end.

Definition beat (time : R) : R :=
  let primaryBeat := sin (time * 2.8) * 0.012 in
  let secondaryBeat := sin (time * 5.6) * 0.004 in
  let organicVariation := sin (time * 1.4) * 0.002 in
  1 + primaryBeat + secondaryBeat + organicVariation.

Definition defaultScale : R := 1.8.

(** [Math.pow(distance, 1.5)] on a distance, which is not negative. *)
Definition pow15 (distance : R) : R := distance * sqrt distance.

(** What a frame steers the heart to. *)
Record Target := {
  targetScale : R;
  targetPosition : Vector3;
  targetRotation : Euler
}.

(** The target position of a pinching hand, with the floating motion. *)
Definition move (hand : HandData) (time : R) : Vector3 :=
  let moveX := (0.5 - vx (pinchPosition hand)) * 4 in
  let moveY := (0.5 - vy (pinchPosition hand)) * 3 in
  let moveZ := vz (pinchPosition hand) * 2 in
  {| vx := clamp moveX (-3) 3;
     vy := clamp moveY (-2) 2 + sin (time * 2) * 0.05;
     vz := clamp moveZ (-2) 2 |}.

(** The target rotation read from the palm of a hand. *)
Definition palmRotation (hand : HandData) (time : R) : Euler :=
  let targetRotationY := (vx (palmPosition hand) - 0.5) * PI * 1.5 in
  let targetRotationX := (vy (palmPosition hand) - 0.5) * PI * 0.8 in
  {| ex := targetRotationX + cos (time * 2) * 0.05;
     ey := targetRotationY + sin (time * 1.5) * 0.1;
     ez := 0 |}.

Definition origin : Vector3 := {| vx := 0; vy := 0; vz := 0 |}.
Definition upright : Euler := {| ex := 0; ey := 0; ez := 0 |}.

(** The chain of gesture branches of the frame callback. *)
Definition targets (hs : TrackingState) (time delta : R) : option Target :=
  match pinching (rightHand hs) with
  | Some hand =>
      Some {| targetScale := defaultScale;
              targetPosition := move hand time;
              targetRotation := upright |}
  | None =>
      match pinching (leftHand hs) with
      | Some hand =>
          wrist ← landmarks hand !! 0%nat;
          index ← landmarks hand !! 8%nat;
          Some {| targetScale := defaultScale;
                  targetPosition := move hand time;
                  targetRotation := palmRotation hand time |}
      | None =>
          match gesture hs, leftHand hs, rightHand hs with
          | zoom, Some l, Some r =>
              let distance :=
                distanceTo (palmPosition l) (palmPosition r) in
              let smoothZoom := pow15 distance * 3 in
              Some {| targetScale :=
                        clamp (defaultScale + smoothZoom) 1.0 3.5
                        + sin (time * 3) * 0.02;
                      targetPosition := origin;
                      targetRotation := upright |}
          | rotate, l, r =>
              match HandTracker.orHand l r with
              | Some activeHand =>
                  match gestureType activeHand with
                  | fist =>
                      let slowRotationSpeed := 0.3 in
                      Some {| targetScale := defaultScale;
                              targetPosition := origin;
                              targetRotation :=
                                {| ex := cos (time * 0.8) * 0.05;
                                   ey := sin (time * 0.5) * 0.1;
                                   ez := 0 + slowRotationSpeed * delta |} |}
                  | _ =>
                      Some {| targetScale := defaultScale;
                              targetPosition := origin;
                              targetRotation := palmRotation activeHand time |}
                  end
              | None =>
                  Some {| targetScale := defaultScale;
                          targetPosition := origin;
                          targetRotation := upright |}
              end
          | _, _, _ =>
              Some {| targetScale := defaultScale;
                      targetPosition := origin;
                      targetRotation := upright |}
          end
      end
  end.

(** The place of the needle the proximity check computes. *)
Definition needlePos (hand : HandData) : Vector3 :=
  {| vx := (0.5 - vx (pinchPosition hand)) * 8;
     vy := (0.5 - vy (pinchPosition hand)) * 6;
     vz := vz (pinchPosition hand) * 3 |}.

(** The test for a new stitch: none yet, or the needle more than 0.1
    from the last one. *)
Definition stitchDue (points : list StitchPoint.StitchPoint)
    (needle : Vector3) : bool :=
  match last points with
  | None => true
  | Some point =>
      Rgtb (distanceTo needle (StitchPoint.position point)) 0.1
  end.

(** The tightening of a stitch. *)
Definition tighten (delta : R) (point : StitchPoint.StitchPoint)
  : StitchPoint.StitchPoint :=
  {| StitchPoint.position := StitchPoint.position point;
     StitchPoint.timestamp := StitchPoint.timestamp point;
     StitchPoint.tension := Rmin 1 (StitchPoint.tension point + delta * 2) |}.

(** The callback of [useFrame]: [time] is the elapsed time of the clock,
    [delta] the time of the frame.  The two updates of [stitchPoints]
    are applied in the order of the calls. *)
Definition useFrame (hs : TrackingState) (time delta : R) (h : Heart)
  : option Heart :=
  tg ← targets hs time delta;
  let positionLerpSpeed := 0.12 in
  let rotationLerpSpeed := 0.08 in
  let position' := lerpV (position h) (targetPosition tg) positionLerpSpeed in
  let targetScaleWithBeat := targetScale tg * beat time in
  let proximity :=
    match pinching (rightHand hs) with
    | Some hand =>
        let needle := needlePos hand in
        if Rltb (distanceTo needle position') 2.5 then
          (if stitchDue (stitchPoints h) needle
           then [ {| StitchPoint.position := needle;
                     StitchPoint.timestamp := time;
                     StitchPoint.tension := 0 |} ]
           else [],
           Some needle)
        else ([], None)
    | None => ([], surfaceHighlight h)
    end in
  Some {| position := position';
          rotation :=
            {| ex := lerp (ex (rotation h)) (ex (targetRotation tg))
                       rotationLerpSpeed;
               ey := lerp (ey (rotation h)) (ey (targetRotation tg))
                       rotationLerpSpeed;
               ez := ez (rotation h) |};
          scale := lerp (scale h) targetScaleWithBeat 0.06;
          stitchPoints :=
            map (tighten delta) (stitchPoints h ++ proximity.1);
          surfaceHighlight := proximity.2 |}.

(** The frames of a run: a tracking state, the elapsed time and the
    frame time each. *)
Fixpoint frames (inputs : list (TrackingState * R * R)) (h : Heart)
  : option Heart :=
  match inputs with
  | [] => Some h
  | (hs, time, delta) :: more =>
      h' ← useFrame hs time delta h; frames more h'
  end.

(** The box the heart is steered within. *)
Definition inBox (p : Vector3) : Prop :=
  -3 <= vx p <= 3 /\ -2.05 <= vy p <= 2.05 /\ -2 <= vz p <= 2.

(** A stitch path whose consecutive points are more than 0.1 apart. *)
Definition spaced (points : list StitchPoint.StitchPoint) : Prop :=
  forall i a b, points !! i = Some a -> points !! S i = Some b ->
    0.1 < distanceTo (StitchPoint.position b) (StitchPoint.position a).

End HeartModel.

End AnatomyPage.

(** ** The rules of the specification, in its own words *)

(** The lookup table of the gesture label: pinching gives [fist],
    otherwise the count of extended fingers selects the label; the count 0
    keeps the initial label [open_palm]. *)
Definition gestureTable (pinching : bool) (count : Z) : GestureType :=
  if pinching then fist
  else match count with
       | 1 => one_finger
       | 2 => two_fingers
       | 3 => three_fingers
       | 4 => four_fingers
       | _ => open_palm
       end%Z.

(** ** Sample inputs *)

Module Samples.

Definition lm (x y : R) : Landmark := {| lx := x; ly := y; lz := 0 |}.

(** An open hand, fingers up: wrist, thumb, index, middle, ring and
    little finger, four landmarks each. *)
Definition openHand : list Landmark := [
  lm 0.5 0.9;
  lm 0.42 0.85; lm 0.36 0.78; lm 0.32 0.7; lm 0.3 0.62;
  lm 0.44 0.62; lm 0.43 0.5; lm 0.42 0.42; lm 0.42 0.35;
  lm 0.5 0.6; lm 0.5 0.47; lm 0.5 0.38; lm 0.5 0.3;
  lm 0.56 0.62; lm 0.57 0.5; lm 0.575 0.42; lm 0.58 0.35;
  lm 0.61 0.66; lm 0.63 0.57; lm 0.64 0.5; lm 0.65 0.44
].

(** The same hand with the tip of the thumb on the tip of the index
    finger. *)
Definition pinchHand : list Landmark :=
  <[4%nat := lm 0.42 0.36]> openHand.

Definition noHands : TrackingState :=
  {| leftHand := None; rightHand := None;
     gesture := none; interactionStrength := 0 |}.

(** A hand at the normalised pinch position [(px, py)], as the tracker
    would report it for the open sample hand. *)
Definition handAt (side : Side) (pinching : bool) (px py : R) : HandData :=
  {| landmarks := openHand;
     worldLandmarks := [];
     handedness := side;
     isPinching := pinching;
     pinchStrength := if pinching then 1 else 0;
     palmPosition := {| vx := px; vy := py + 0.3; vz := 0 |};
     pinchPosition := {| vx := px; vy := py; vz := 0 |};
     rotation := {| qx := 0; qy := 0; qz := 0; qw := 1 |};
     extendedFingers := 5;
     gestureType := if pinching then fist else open_palm |}.

Definition onlyLeft (h : HandData) : TrackingState :=
  {| leftHand := Some h; rightHand := None;
     gesture := if isPinching h then pinch_drag else rotate;
     interactionStrength := if isPinching h then pinchStrength h else 0 |}.

Definition onlyRight (h : HandData) : TrackingState :=
  {| leftHand := None; rightHand := Some h;
     gesture := if isPinching h then pinch_drag else rotate;
     interactionStrength := if isPinching h then pinchStrength h else 0 |}.

(** The lab with the first test tube held by the left hand, and the page
    likewise. *)
Definition holdItem (side : Side) (item : ChemistryLab.Equipment)
  : ChemistryLab.Equipment :=
  {| ChemistryLab.id := ChemistryLab.id item;
     ChemistryLab.type := ChemistryLab.type item;
     ChemistryLab.position := ChemistryLab.position item;
     ChemistryLab.rotation := ChemistryLab.rotation item;
     ChemistryLab.color := ChemistryLab.color item;
     ChemistryLab.liquidLevel := ChemistryLab.liquidLevel item;
     ChemistryLab.heldBy := Some side;
     ChemistryLab.liquidType := ChemistryLab.liquidType item;
     ChemistryLab.label := ChemistryLab.label item |}.

Definition labHeld : list ChemistryLab.Equipment :=
  match ChemistryLab.INITIAL_ITEMS with
  | tube1 :: rest => holdItem Left tube1 :: rest
  | [] => []
  end.

(** The left hand pinching at the first test tube of the rack. *)
Definition graspTube1 : TrackingState :=
  onlyLeft (handAt Left true (11 / 14) 0.6).

(** The left hand low in the picture, near the first test tube: pinching,
    and open. *)
Definition lowGrasp : TrackingState :=
  onlyLeft (handAt Left true 0.75 0.66).

Definition lowOpen : TrackingState :=
  onlyLeft (handAt Left false 0.75 0.66).

(** The open sample hand turned over, fingers down. *)
Definition downHand : list Landmark :=
  map (fun l => lm (lx l) (1.2 - ly l)) openHand.

(** The right hand pinching above the first beaker, fingers down. *)
Definition pouringHand : HandData :=
  {| landmarks := downHand;
     worldLandmarks := [];
     handedness := Right;
     isPinching := true;
     pinchStrength := 1;
     palmPosition := {| vx := 0.625; vy := 0.2; vz := 0 |};
     pinchPosition := {| vx := 0.625; vy := 0.36; vz := 0 |};
     rotation := {| qx := 0; qy := 0; qz := 0; qw := 1 |};
     extendedFingers := 5;
     gestureType := fist |}.

Definition pouring : TrackingState := onlyRight pouringHand.

Definition red : Color := ChemistryLab.hexColor 255 68 68.

(** The lab of the pouring scenario: the first test tube in the right
    hand above the first beaker, at (-1.75, 1.4, 0), everything else as in
    [INITIAL_ITEMS];
    the parameters are the level and rotation of the tube and the level
    and colour of the beaker. *)
Definition pouringLab (level1 : R) (rot : Euler) (level6 : R)
    (color6 : Color) : list ChemistryLab.Equipment :=
  match ChemistryLab.INITIAL_ITEMS with
  | [tube1; tube2; tube3; tube4; tube5; tube6; beaker1; beaker2] =>
      [ {| ChemistryLab.id := ChemistryLab.id tube1;
           ChemistryLab.type := ChemistryLab.type tube1;
           ChemistryLab.position := ChemistryLab.handPos pouringHand;
           ChemistryLab.rotation := rot;
           ChemistryLab.color := ChemistryLab.color tube1;
           ChemistryLab.liquidLevel := level1;
           ChemistryLab.heldBy := Some Right;
           ChemistryLab.liquidType := ChemistryLab.liquidType tube1;
           ChemistryLab.label := ChemistryLab.label tube1 |};
        tube2; tube3; tube4; tube5; tube6;
        {| ChemistryLab.id := ChemistryLab.id beaker1;
           ChemistryLab.type := ChemistryLab.type beaker1;
           ChemistryLab.position := ChemistryLab.position beaker1;
           ChemistryLab.rotation := ChemistryLab.rotation beaker1;
           ChemistryLab.color := color6;
           ChemistryLab.liquidLevel := level6;
           ChemistryLab.heldBy := ChemistryLab.heldBy beaker1;
           ChemistryLab.liquidType := ChemistryLab.liquidType beaker1;
           ChemistryLab.label := ChemistryLab.label beaker1 |};
        beaker2 ]
  | _ => []
  end.

(** The rotation the grab branch gives the held test tube in the pouring
    scenario. *)
Definition pouringTilt (elapsedTime : R) (rot : Euler) : Euler :=
  ChemistryLab.euler
    (sin (elapsedTime * 2) * 0.05)
    (ey rot)
    (lerp (ez rot)
       (- (atan2 (1.2 - 0.35 - (1.2 - 0.9)) (0.42 - 0.5) + PI / 2) * 0.7)
       0.3).

(** The start of the scenario: the levels of [INITIAL_ITEMS], the tube
    tilted by 1.2 rad. *)
Definition pouringStart : list ChemistryLab.Equipment :=
  pouringLab 0.7 (ChemistryLab.euler 0 0 (-1.2)) 0.0
    (ChemistryLab.hexColor 255 255 255).

(** The first test tube held by the right hand above the second one,
    tilted by 1.2 rad, everything else as in [INITIAL_ITEMS]. *)
Definition overTube2 : list ChemistryLab.Equipment :=
  match ChemistryLab.INITIAL_ITEMS with
  | tube1 :: rest =>
      {| ChemistryLab.id := ChemistryLab.id tube1;
         ChemistryLab.type := ChemistryLab.type tube1;
         ChemistryLab.position := ChemistryLab.vector3 (-2.5) 0.5 0;
         ChemistryLab.rotation := ChemistryLab.euler 0 0 (-1.2);
         ChemistryLab.color := ChemistryLab.color tube1;
         ChemistryLab.liquidLevel := ChemistryLab.liquidLevel tube1;
         ChemistryLab.heldBy := Some Right;
         ChemistryLab.liquidType := ChemistryLab.liquidType tube1;
         ChemistryLab.label := ChemistryLab.label tube1 |} :: rest
  | [] => []
  end.

(** The open hand with the thumb folded onto the palm. *)
Definition foldedThumb : list Landmark :=
  <[4%nat := lm 0.46 0.64]> openHand.

(** A right hand that shows four fingers. *)
Definition fourFingersHand : HandData :=
  {| landmarks := foldedThumb;
     worldLandmarks := [];
     handedness := Right;
     isPinching := false;
     pinchStrength := 0;
     palmPosition := {| vx := 0.5; vy := 0.9; vz := 0 |};
     pinchPosition := {| vx := 0.44; vy := 0.495; vz := 0 |};
     rotation := {| qx := 0; qy := 0; qz := 0; qw := 1 |};
     extendedFingers := 4;
     gestureType := four_fingers |}.

Definition fourFingers : TrackingState := onlyRight fourFingersHand.

(** The scene as mounted, with the planets lined up on the x axis and the
    default camera of the canvas. *)
Definition solarStart : SolarSystem.Scene :=
  SolarSystem.mount [0; 0; 0; 0; 0; 0] {| vx := 0; vy := 0; vz := 5 |}.

(** The first two tubes of the page, the first one carried to within 1
    of the second and put down there. *)
Definition tubesClose : list ChemistryPage.TestTube :=
  match ChemistryPage.testTubes with
  | tube1 :: tube2 :: _ =>
      [ {| ChemistryPage.id := ChemistryPage.id tube1;
           ChemistryPage.position := ChemistryPage.vector3 (-2) 0 0;
           ChemistryPage.rotation := ChemistryPage.rotation tube1;
           ChemistryPage.color := ChemistryPage.color tube1;
           ChemistryPage.liquidColor := ChemistryPage.liquidColor tube1;
           ChemistryPage.liquidLevel := ChemistryPage.liquidLevel tube1;
           ChemistryPage.chemicalType := ChemistryPage.chemicalType tube1;
           ChemistryPage.heldBy := None;
           ChemistryPage.label := ChemistryPage.label tube1 |};
        tube2 ]
  | _ => []
  end.

(** The effect states after a reaction: an orange reaction at full
    intensity. *)
Definition glowing : ChemistryPage.Effects :=
  {| ChemistryPage.activeReaction :=
       Some ({| vx := -1.5; vy := 0; vz := 0 |}, "#ffaa00"%string);
     ChemistryPage.reactionIntensity := 1 |}.

(** A hand whose landmarks all fall on one point of the image. *)
Definition pointHand : list Landmark := replicate 21 (lm 0.5 0.5).

(** A quaternion at a right angle to [q], of the same length. *)
Definition turned (q : Quaternion) : Quaternion :=
  {| qx := qy q; qy := - qx q; qz := qw q; qw := - qz q |}.

(** The open sample hand as an earlier frame may have left it, its
    rotation at a right angle to the one of the hand as it is now. *)
Definition turnedHand : HandData :=
  {| landmarks := openHand;
     worldLandmarks := [];
     handedness := Left;
     isPinching := false;
     pinchStrength := 0;
     palmPosition := {| vx := 0.5; vy := 0.8; vz := 0 |};
     pinchPosition := {| vx := 0.5; vy := 0.5; vz := 0 |};
     rotation :=
       match HandTracker.calculateRotation openHand with
       | Some raw => turned raw
       | None => {| qx := 0; qy := 0; qz := 0; qw := 1 |}
       end;
     extendedFingers := 5;
     gestureType := open_palm |}.

End Samples.

(** * Properties *)

(** ** Tests on real numbers *)

Lemma Rltb_true a b : Rltb a b = true <-> a < b.
Proof. unfold Rltb. destruct (Rlt_dec a b); split; intros; try lra; congruence. Qed.

Lemma Rltb_false a b : Rltb a b = false <-> b <= a.
Proof. unfold Rltb. destruct (Rlt_dec a b); split; intros; try lra; congruence. Qed.

Lemma Rleb_true a b : Rleb a b = true <-> a <= b.
Proof. unfold Rleb. destruct (Rle_dec a b); split; intros; try lra; congruence. Qed.

Lemma Rleb_false a b : Rleb a b = false <-> b < a.
Proof. unfold Rleb. destruct (Rle_dec a b); split; intros; try lra; congruence. Qed.

Lemma Rgtb_true a b : Rgtb a b = true <-> a > b.
Proof. unfold Rgtb. rewrite Rltb_true. lra. Qed.

Lemma Rgtb_false a b : Rgtb a b = false <-> a <= b.
Proof. unfold Rgtb. rewrite Rltb_false. lra. Qed.

Lemma Side_eqb_eq a b : Side_eqb a b = true <-> a = b.
Proof. destruct a, b; simpl; split; intros; congruence. Qed.

Lemma Side_eqb_refl a : Side_eqb a a = true.
Proof. now destruct a. Qed.

Lemma Side_eqb_other a : Side_eqb a (other a) = false.
Proof. now destruct a. Qed.

Lemma Side_eqb_sym_other a : Side_eqb (other a) a = false.
Proof. now destruct a. Qed.

(** Deciding a test on two real numbers from the order facts at hand. *)
Ltac rtest_true := first
  [ apply Rltb_true | apply Rleb_true | apply Rgtb_true ].
Ltac rtest_false := first
  [ apply Rltb_false | apply Rleb_false | apply Rgtb_false ].

(** ** Distances *)

Lemma distanceToSquared_nonneg a b : 0 <= distanceToSquared a b.
Proof.
  unfold distanceToSquared. cbv zeta.
  pose proof (Rle_0_sqr (vx a - vx b)).
  pose proof (Rle_0_sqr (vy a - vy b)).
  pose proof (Rle_0_sqr (vz a - vz b)).
  unfold Rsqr in *. lra.
Qed.

Lemma distanceTo_nonneg a b : 0 <= distanceTo a b.
Proof. apply sqrt_pos. Qed.

Lemma sqrt_lt_iff s c : 0 <= s -> 0 < c -> sqrt s < c <-> s < c * c.
Proof.
  intros Hs Hc. rewrite <- (sqrt_square c) at 1 by lra. split; intros H.
  - apply sqrt_lt_0_alt in H. exact H.
  - apply sqrt_lt_1_alt. lra.
Qed.

Lemma distanceTo_lt a b c :
  0 < c -> distanceTo a b < c <-> distanceToSquared a b < c * c.
Proof. intros. apply sqrt_lt_iff; [apply distanceToSquared_nonneg | lra]. Qed.

Lemma distanceTo_self a : distanceTo a a = 0.
Proof.
  unfold distanceTo, distanceToSquared.
  replace (_ + _) with 0 by ring. apply sqrt_0.
Qed.

(** ** The hand signal processor *)

Section HandSignal.

Import HandTracker.

(** A processed hand is built from landmarks 0, 4 and 8 of the frame. *)
Lemma processHand_Some lms hd last h :
  processHand lms hd last = Some h ->
  exists l4 l8 l0 raw n,
    lms !! 4%nat = Some l4 /\ lms !! 8%nat = Some l8 /\
    lms !! 0%nat = Some l0 /\
    calculateRotation lms = Some raw /\
    countExtendedFingers lms = Some n /\
    isPinching h = Rltb (distanceTo (vec l4) (vec l8)) PINCH_THRESHOLD /\
    pinchStrength h =
      Rmax 0 (1 - distanceTo (vec l4) (vec l8) / PINCH_THRESHOLD) /\
    extendedFingers h = n /\
    handedness h = hd /\
    landmarks h = lms /\
    gestureType h =
      (if isPinching h then fist
       else if (n =? 1)%Z then one_finger
       else if (n =? 2)%Z then two_fingers
       else if (n =? 3)%Z then three_fingers
       else if (n =? 4)%Z then four_fingers
       else open_palm).
Proof.
  unfold processHand. intros H.
  apply bind_Some in H as (l4 & H4 & H).
  apply bind_Some in H as (l8 & H8 & H).
  apply bind_Some in H as (l0 & H0 & H).
  apply bind_Some in H as (raw & Hraw & H).
  apply bind_Some in H as (n & Hn & H).
  injection H as <-. exists l4, l8, l0, raw, n. simpl.
  repeat split; try assumption.
  destruct (Rltb _ _); [reflexivity|].
  repeat (destruct (_ =? _)%Z; [reflexivity|]). reflexivity.
Qed.

(** With at least 21 landmarks, as the landmark model delivers them,
    processing never throws. *)
Lemma processHand_total lms hd last :
  (21 <= length lms)%nat -> is_Some (processHand lms hd last).
Proof.
  intros Hlen.
  assert (Hl : forall i, (i < 21)%nat -> is_Some (lms !! i)).
  { intros i Hi. apply lookup_lt_is_Some. lia. }
  unfold processHand, calculateRotation, countExtendedFingers.
  destruct (Hl 0%nat) as [l0 E0]; [lia|].
  destruct (Hl 4%nat) as [l4 E4]; [lia|].
  destruct (Hl 5%nat) as [l5 E5]; [lia|].
  destruct (Hl 6%nat) as [l6 E6]; [lia|].
  destruct (Hl 8%nat) as [l8 E8]; [lia|].
  destruct (Hl 10%nat) as [l10 E10]; [lia|].
  destruct (Hl 12%nat) as [l12 E12]; [lia|].
  destruct (Hl 14%nat) as [l14 E14]; [lia|].
  destruct (Hl 16%nat) as [l16 E16]; [lia|].
  destruct (Hl 17%nat) as [l17 E17]; [lia|].
  destruct (Hl 18%nat) as [l18 E18]; [lia|].
  destruct (Hl 20%nat) as [l20 E20]; [lia|].
  rewrite E4, E8, E0, E5, E17. simpl.
  unfold fingerStep. simpl.
  rewrite E8, E6. simpl. rewrite E12, E10. simpl.
  rewrite E16, E14. simpl. rewrite E20, E18. simpl.
  eexists. reflexivity.
Qed.

Lemma fingerStep_bounds lms wrist c i n :
  fingerStep lms wrist (Some c) i = Some n -> (c <= n <= c + 1)%Z.
Proof.
  unfold fingerStep. simpl. intros H.
  apply bind_Some in H as (ti & _ & H).
  apply bind_Some in H as (pi & _ & H).
  apply bind_Some in H as (tip & _ & H).
  apply bind_Some in H as (pip & _ & H).
  injection H as <-. destruct (Rgtb _ _); lia.
Qed.

Lemma fingerStep_None lms wrist l :
  fold_left (fingerStep lms wrist) l None = None.
Proof. induction l; simpl; auto. Qed.

Lemma fingers_bounds lms wrist l c n :
  fold_left (fingerStep lms wrist) l (Some c) = Some n ->
  (c <= n <= c + Z.of_nat (length l))%Z.
Proof.
  revert c. induction l as [|i l IH]; intros c H.
  - injection H as <-. simpl. lia.
  - cbn [fold_left] in H.
    destruct (fingerStep lms wrist (Some c) i) as [c'|] eqn:E.
    + apply fingerStep_bounds in E. apply IH in H. cbn [length]. lia.
    + rewrite fingerStep_None in H. discriminate.
Qed.

Lemma countExtendedFingers_bounds lms n :
  countExtendedFingers lms = Some n -> (0 <= n <= 5)%Z.
Proof.
  unfold countExtendedFingers. intros H.
  apply bind_Some in H as (wrist & _ & H).
  apply bind_Some in H as (c & Hc & H).
  apply bind_Some in H as (t & _ & H).
  apply bind_Some in H as (m & _ & H).
  apply fingers_bounds in Hc. simpl in Hc.
  injection H as <-. destruct (Rgtb _ _); lia.
Qed.

End HandSignal.

Section HandClaims.

Import HandTracker.

(** C2.  For every processed hand, with [d] the Euclidean distance of
    the thumb tip (landmark 4) and the index tip (landmark 8): the hand
    is pinching if and only if [d < PINCH_THRESHOLD], which is 0.05; its
    pinch strength is [max 0 (1 - d / PINCH_THRESHOLD)]; and that
    strength lies in [[0, 1]]. *)
Theorem processHand_pinch lms hd last h t i :
  processHand lms hd last = Some h ->
  lms !! 4%nat = Some t ->
  lms !! 8%nat = Some i ->
  let d := sqrt ((lx t - lx i)² + (ly t - ly i)² + (lz t - lz i)²) in
  PINCH_THRESHOLD = 0.05 /\
  (isPinching h = true <-> d < PINCH_THRESHOLD) /\
  pinchStrength h = Rmax 0 (1 - d / PINCH_THRESHOLD) /\
  0 <= pinchStrength h <= 1.
Proof.
  intros H Ht Hi d.
  apply processHand_Some in H
    as (l4 & l8 & l0 & raw & n & E4 & E8 & _ & _ & _ & Hp & Hs & _).
  rewrite Ht in E4. rewrite Hi in E8.
  injection E4 as <-. injection E8 as <-.
  assert (Hd : distanceTo (vec t) (vec i) = d).
  { unfold d, distanceTo, distanceToSquared, vec, Rsqr. simpl.
    reflexivity. }
  rewrite Hd in Hp, Hs.
  assert (0 <= d) by apply sqrt_pos.
  split; [reflexivity|]. split; [|split].
  - rewrite Hp. apply Rltb_true.
  - exact Hs.
  - rewrite Hs. unfold PINCH_THRESHOLD. split.
    + apply Rmax_l.
    + apply Rmax_lub; lra.
Qed.

Lemma processHand_pinch_witness :
  exists h t i,
    processHand Samples.pinchHand Right None = Some h /\
    Samples.pinchHand !! 4%nat = Some t /\
    Samples.pinchHand !! 8%nat = Some i /\
    (isPinching h = true <->
     sqrt ((lx t - lx i)² + (ly t - ly i)² + (lz t - lz i)²)
     < PINCH_THRESHOLD) /\
    0 <= pinchStrength h <= 1.
Proof.
  eexists _, _, _.
  split; [reflexivity|]. split; [reflexivity|]. split; [reflexivity|].
  pose proof
    (processHand_pinch Samples.pinchHand Right None _ _ _
       eq_refl eq_refl eq_refl) as (_ & Hiff & _ & Hb).
  split; [exact Hiff | exact Hb].
Defined.

(** C6.  For every processed hand the count of extended fingers is an
    integer between 0 and 5, and the gesture label is given by the
    lookup table on the pinch flag and that count: a pinching hand is
    labelled [fist], no other hand is, and a hand that does not pinch
    is labelled [one_finger], [two_fingers], [three_fingers],
    [four_fingers] or [open_palm] for the counts 1 to 5. *)
Theorem processHand_gesture lms hd last h :
  processHand lms hd last = Some h ->
  (0 <= extendedFingers h <= 5)%Z /\
  gestureType h = gestureTable (isPinching h) (extendedFingers h) /\
  (isPinching h = true -> gestureType h = fist) /\
  (gestureType h = fist -> isPinching h = true) /\
  (isPinching h = false ->
   (extendedFingers h = 1%Z -> gestureType h = one_finger) /\
   (extendedFingers h = 2%Z -> gestureType h = two_fingers) /\
   (extendedFingers h = 3%Z -> gestureType h = three_fingers) /\
   (extendedFingers h = 4%Z -> gestureType h = four_fingers) /\
   (extendedFingers h = 5%Z -> gestureType h = open_palm)).
Proof.
  intros H.
  apply processHand_Some in H
    as (l4 & l8 & l0 & raw & n & _ & _ & _ & _ & Hn & _ & _ & He & _ & _ & Hg).
  apply countExtendedFingers_bounds in Hn.
  rewrite He, Hg. clear Hg He.
  split; [exact Hn|].
  destruct (isPinching h); simpl.
  - repeat split; try reflexivity; try discriminate.
  - assert (n = 0 \/ n = 1 \/ n = 2 \/ n = 3 \/ n = 4 \/ n = 5)%Z
      as [->|[->|[->|[->|[->| ->]]]]] by lia;
      simpl; repeat split; intros; try reflexivity; try discriminate.
Qed.

Lemma processHand_gesture_witness :
  exists h,
    processHand Samples.openHand Left None = Some h /\
    (0 <= extendedFingers h <= 5)%Z /\
    gestureType h = gestureTable (isPinching h) (extendedFingers h).
Proof.
  eexists. split; [reflexivity|].
  pose proof (processHand_gesture Samples.openHand Left None _ eq_refl)
    as (Hb & Ht & _).
  split; [exact Hb | exact Ht].
Defined.

End HandClaims.

Section Aggregator.

Import HandTracker.

(** The state written by [predict] carries the gesture computed from
    the two hands it carries. *)
Lemma predict_aggregate st result st' :
  predict st result = Some st' ->
  (gesture st', interactionStrength st')
  = aggregate (leftHand st') (rightHand st').
Proof.
  unfold predict. intros H.
  apply bind_Some in H as (hands & _ & H).
  injection H as <-. simpl. now destruct (aggregate _ _).
Qed.

Lemma predict_no_detection st :
  predict st [] = Some Samples.noHands.
Proof. reflexivity. Qed.

(** C1.  The gesture and strength of the tracking state are a function
    of the two processed hands of the frame alone, decided in this
    order: both hands present, neither pinching, palms more than 0.2
    apart: [zoom] with the distance as strength; exactly one hand
    present and pinching: [pinch_drag] with its pinch strength; exactly
    one hand present and not pinching: [rotate]; in every other case
    (no hand, or two hands of which one pinches or whose palms are at
    most 0.2 apart): [none] with strength 0. *)
Theorem predict_gesture_priority st result st' :
  predict st result = Some st' ->
  let l := leftHand st' in
  let r := rightHand st' in
  (gesture st', interactionStrength st') = aggregate l r /\
  (forall a b, l = Some a -> r = Some b ->
     isPinching a = false -> isPinching b = false ->
     distanceTo (palmPosition a) (palmPosition b) > 0.2 ->
     gesture st' = zoom /\
     interactionStrength st'
     = distanceTo (palmPosition a) (palmPosition b)) /\
  (forall h, (l = Some h /\ r = None) \/ (l = None /\ r = Some h) ->
     isPinching h = true ->
     gesture st' = pinch_drag /\
     interactionStrength st' = pinchStrength h) /\
  (forall h, (l = Some h /\ r = None) \/ (l = None /\ r = Some h) ->
     isPinching h = false ->
     gesture st' = rotate /\ interactionStrength st' = 0) /\
  ((l = None /\ r = None) \/
   (exists a b, l = Some a /\ r = Some b /\
      (isPinching a = true \/ isPinching b = true \/
       distanceTo (palmPosition a) (palmPosition b) <= 0.2)) ->
   gesture st' = none /\ interactionStrength st' = 0).
Proof.
  intros H l r. apply predict_aggregate in H. fold l r in H.
  split; [exact H|].
  assert (Hg : gesture st' = (aggregate l r).1) by now rewrite <- H.
  assert (Hs : interactionStrength st' = (aggregate l r).2)
    by now rewrite <- H.
  rewrite Hg, Hs. clear H Hg Hs. unfold aggregate.
  split; [|split; [|split]].
  - intros a b -> -> Ha Hb Hd. rewrite Ha, Hb.
    apply Rgtb_true in Hd. rewrite Hd. simpl. auto.
  - intros h [[-> ->]|[-> ->]] Hp; simpl; rewrite Hp; simpl; auto.
  - intros h [[-> ->]|[-> ->]] Hp; simpl; rewrite Hp; simpl; auto.
  - intros [[-> ->]|(a & b & -> & -> & Hc)]; simpl; [auto|].
    destruct Hc as [Hp|[Hp|Hd]].
    + rewrite Hp, andb_false_r. simpl. auto.
    + rewrite Hp, andb_false_r. simpl. auto.
    + apply Rgtb_false in Hd. rewrite Hd. simpl. auto.
Qed.

Lemma predict_gesture_priority_witness :
  exists st',
    predict Samples.noHands [(Samples.pinchHand, Right)] = Some st' /\
    (gesture st', interactionStrength st')
    = aggregate (leftHand st') (rightHand st').
Proof.
  eexists. split; [reflexivity|].
  exact (proj1 (predict_gesture_priority Samples.noHands
                  [(Samples.pinchHand, Right)] _ eq_refl)).
Defined.

End Aggregator.

(** ** Smoothing *)

Lemma Rdiv_nonneg a b : 0 <= a -> 0 < b -> 0 <= a / b.
Proof.
  intros Ha Hb. unfold Rdiv. apply Rmult_le_pos; [exact Ha|].
  left. now apply Rinv_0_lt_compat.
Qed.

Lemma qdot_lin a b p r :
  qdot (qadd (qscale a p) (qscale b r)) (qadd (qscale a p) (qscale b r))
  = a * a * qdot p p + 2 * a * b * qdot p r + b * b * qdot r r.
Proof. unfold qdot, qadd, qscale. simpl. ring. Qed.

Lemma arc_identity A B :
  sin A * sin A + sin B * sin B + 2 * sin A * sin B * cos (A + B)
  = sin (A + B) * sin (A + B).
Proof.
  rewrite cos_plus, sin_plus.
  pose proof (sin2_cos2 A) as HA. pose proof (sin2_cos2 B) as HB.
  unfold Rsqr in *. revert HA HB.
  generalize (sin A) (cos A) (sin B) (cos B). intros sA cA sB cB HA HB.
  replace (sA * sA + sB * sB + 2 * sA * sB * (cA * cB - sA * sB))
    with ((sA * cB + cA * sB) * (sA * cB + cA * sB)
          + sA * sA * (1 - (sB * sB + cB * cB))
          + sB * sB * (1 - (sA * sA + cA * cA))) by ring.
  rewrite HA, HB. ring.
Qed.

Lemma qdot_flip p r :
  qdot p (qscale (-1) r) = - qdot p r /\
  qdot (qscale (-1) r) (qscale (-1) r) = qdot r r.
Proof. unfold qdot, qscale. simpl. split; ring. Qed.

Lemma qdot_lin_l a b p r q :
  qdot q (qadd (qscale a p) (qscale b r)) = a * qdot q p + b * qdot q r.
Proof. unfold qdot, qadd, qscale. simpl. ring. Qed.

Lemma qdot_sym p r : qdot p r = qdot r p.
Proof. unfold qdot. ring. Qed.

(** Two unit quaternions have a dot product of at most 1. *)
Lemma qdot_unit_le p r : qdot p p = 1 -> qdot r r = 1 -> qdot p r <= 1.
Proof.
  unfold qdot. intros Hp Hr.
  pose proof (Rle_0_sqr (qx p - qx r)). pose proof (Rle_0_sqr (qy p - qy r)).
  pose proof (Rle_0_sqr (qz p - qz r)). pose proof (Rle_0_sqr (qw p - qw r)).
  unfold Rsqr in *. lra.
Qed.

(** The angle [acos c] of two directions with the cosine [c] in [0, 1). *)
Lemma acos_acute c :
  0 <= c < 1 ->
  0 < acos c <= PI / 2 /\ cos (acos c) = c /\ 0 < sin (acos c).
Proof.
  intros Hc. pose proof PI_RGT_0 as Hpi.
  assert (Hcos : cos (acos c) = c) by (apply cos_acos; lra).
  destruct (acos_bound_lt c) as [H0 H1]; [lra|].
  split; [|split; [exact Hcos | apply sin_gt_0; lra]].
  split; [exact H0|].
  destruct (Rle_dec (acos c) (PI / 2)) as [?|Hn]; [assumption|]. exfalso.
  assert (cos (acos c) < 0) by (apply cos_lt_0; lra). lra.
Qed.

Lemma slerp_weights t h :
  sin ((1 - t) * h) + sin (t * h) * cos h = cos (t * h) * sin h /\
  sin ((1 - t) * h) * cos h + sin (t * h) = cos ((1 - t) * h) * sin h.
Proof.
  split.
  - replace ((1 - t) * h) with (h - t * h) by ring. rewrite sin_minus. ring.
  - replace (t * h) with (h - (1 - t) * h) at 1 by ring.
    rewrite sin_minus. ring.
Qed.

(** Spherical interpolation of two unit quaternions stays on the shorter
    arc between the first and the representative of the second on its
    side: the result is a unit quaternion, a combination of the two with
    weights that are not negative, and no farther from either than they
    are from each other; below the dot product 0.9995 its angle from the
    first is the fraction [t] of their angle. *)
Lemma slerp_arc p r t :
  0 < t < 1 -> qdot p p = 1 -> qdot r r = 1 ->
  let r' := if Rltb (qdot p r) 0 then qscale (-1) r else r in
  let c := qdot p r' in
  let q := slerp p r t in
  0 <= c <= 1 /\
  (exists a b, 0 <= a /\ 0 <= b /\ q = qadd (qscale a p) (qscale b r')) /\
  qdot q q = 1 /\
  c <= qdot p q /\ c <= qdot q r' /\
  (c < 0.9995 ->
   qdot p q = cos (t * acos c) /\ qdot q r' = cos ((1 - t) * acos c)).
Proof.
  intros Ht Hp Hr r' c q.
  assert (Hr' : qdot r' r' = 1).
  { unfold r'. destruct (Rltb _ _); [|exact Hr].
    now rewrite (proj2 (qdot_flip p r)). }
  assert (Hc : c = (if Rltb (qdot p r) 0 then - qdot p r else qdot p r)
               /\ 0 <= c).
  { unfold c, r'. destruct (Rltb (qdot p r) 0) eqn:E.
    - apply Rltb_true in E. rewrite (proj1 (qdot_flip p r)). lra.
    - apply Rltb_false in E. lra. }
  destruct Hc as [Ec Hc0].
  assert (Hc1 : c <= 1) by (apply qdot_unit_le; assumption).
  split; [lra|].
  assert (Eq : q = if Rltb c 0.9995
                   then qadd (qscale (sin ((1 - t) * acos c)
                                      / sin (acos c)) p)
                             (qscale (sin (t * acos c) / sin (acos c)) r')
                   else qnormalize (qadd (qscale (1 - t) p) (qscale t r'))).
  { unfold q, slerp.
    assert (E0 : Rleb t 0 = false) by (apply Rleb_false; lra).
    assert (E1 : Rleb 1 t = false) by (apply Rleb_false; lra).
    rewrite E0, E1. cbv zeta. fold r'. rewrite <- Ec. reflexivity. }
  destruct (Rltb c 0.9995) eqn:E.
  - apply Rltb_true in E.
    destruct (acos_acute c) as (Hh & Hcos & Hsin); [lra|].
    set (h := acos c) in *. pose proof PI_RGT_0 as Hpi.
    set (a := sin ((1 - t) * h) / sin h) in *.
    set (b := sin (t * h) / sin h) in *.
    assert (Ha : 0 <= a)
      by (apply Rdiv_nonneg; [apply sin_ge_0; nra | lra]).
    assert (Hb : 0 <= b)
      by (apply Rdiv_nonneg; [apply sin_ge_0; nra | lra]).
    destruct (slerp_weights t h) as [W1 W2]. rewrite Hcos in W1, W2.
    assert (Epq : qdot p q = cos (t * h)).
    { rewrite Eq, qdot_lin_l, Hp. fold c. unfold a, b.
      transitivity ((sin ((1 - t) * h) + sin (t * h) * c) / sin h);
        [field; lra|]. rewrite W1. field. lra. }
    assert (Eqr : qdot q r' = cos ((1 - t) * h)).
    { rewrite qdot_sym, Eq, qdot_lin_l, Hr', (qdot_sym r' p). fold c.
      unfold a, b.
      transitivity ((sin ((1 - t) * h) * c + sin (t * h)) / sin h);
        [field; lra|]. rewrite W2. field. lra. }
    split; [exists a, b; auto|]. split.
    { rewrite Eq, qdot_lin, Hp, Hr'. fold c.
      pose proof (arc_identity ((1 - t) * h) (t * h)) as Harc.
      replace ((1 - t) * h + t * h) with h in Harc by ring.
      rewrite Hcos in Harc. unfold a, b.
      transitivity ((sin ((1 - t) * h) * sin ((1 - t) * h)
                     + sin (t * h) * sin (t * h)
                     + 2 * sin ((1 - t) * h) * sin (t * h) * c)
                    / (sin h * sin h)); [field; lra|].
      rewrite Harc. field. lra. }
    rewrite Epq, Eqr. rewrite <- Hcos at 1 2.
    split; [apply cos_decr_1; nra|]. split; [apply cos_decr_1; nra|].
    auto.
  - apply Rltb_false in E.
    set (v := qadd (qscale (1 - t) p) (qscale t r')) in *.
    assert (Hv : qdot v v = (1 - t) * (1 - t) + 2 * (1 - t) * t * c + t * t).
    { unfold v. rewrite qdot_lin, Hp, Hr'. fold c. ring. }
    assert (Hvpos : 0 < qdot v v).
    { rewrite Hv.
      assert (0 <= (1 - t) * t * c) by (apply Rmult_le_pos; [nra|lra]).
      nra. }
    assert (Hv1 : qdot v v <= 1).
    { rewrite Hv.
      assert (0 <= (1 - t) * t * (1 - c))
        by (apply Rmult_le_pos; [nra|lra]).
      lra. }
    assert (Hl : 0 < qlength v) by (apply sqrt_lt_R0; exact Hvpos).
    assert (Hsq : qlength v * qlength v = qdot v v)
      by (apply sqrt_sqrt; lra).
    assert (Hl1 : qlength v <= 1) by nra.
    unfold qnormalize in Eq.
    destruct (Req_dec_T (qlength v) 0) as [?|_]; [lra|].
    assert (Heq : q = qadd (qscale ((1 - t) / qlength v) p)
                           (qscale (t / qlength v) r')).
    { rewrite Eq. revert Hl. generalize (qlength v). intros l Hl.
      unfold v, qadd, qscale. simpl. f_equal; field; lra. }
    revert Hl Hl1 Hsq Heq. generalize (qlength v). intros l Hl Hl1 Hsq Heq.
    rewrite Hv in Hsq.
    split.
    { exists ((1 - t) / l), (t / l).
      split; [apply Rdiv_nonneg; lra|].
      split; [apply Rdiv_nonneg; lra | exact Heq]. }
    assert (Hinv : 1 <= / l).
    { rewrite <- Rinv_1. apply Rinv_le_contravar; lra. }
    split.
    { rewrite Heq, qdot_lin, Hp, Hr'. fold c.
      transitivity (((1 - t) * (1 - t) + 2 * (1 - t) * t * c + t * t)
                    / (l * l)); [field; lra|].
      rewrite <- Hsq. field. lra. }
    split; [|split; [|intros; lra]].
    + rewrite Heq, qdot_lin_l, Hp. fold c.
      replace ((1 - t) / l * 1 + t / l * c) with (((1 - t) + t * c) * / l)
        by (field; lra).
      assert (0 <= (1 - t) + t * c) by nra. nra.
    + rewrite qdot_sym, Heq, qdot_lin_l, Hr', (qdot_sym r' p). fold c.
      replace ((1 - t) / l * c + t / l * 1) with (((1 - t) * c + t) * / l)
        by (field; lra).
      assert (0 <= (1 - t) * c + t) by nra. nra.
Qed.

Lemma distanceTo_lerp_from a b t :
  0 <= t -> distanceTo a (lerpV a b t) = t * distanceTo a b.
Proof.
  intros Ht. unfold distanceTo.
  assert (E : distanceToSquared a (lerpV a b t)
              = t * t * distanceToSquared a b)
    by (unfold distanceToSquared, lerpV; simpl; ring).
  rewrite E, sqrt_mult, sqrt_square;
    auto using distanceToSquared_nonneg. nra.
Qed.

Lemma distanceTo_lerp_to a b t :
  t <= 1 -> distanceTo (lerpV a b t) b = (1 - t) * distanceTo a b.
Proof.
  intros Ht. unfold distanceTo.
  assert (E : distanceToSquared (lerpV a b t) b
              = (1 - t) * (1 - t) * distanceToSquared a b)
    by (unfold distanceToSquared, lerpV; simpl; ring).
  rewrite E, sqrt_mult, sqrt_square;
    auto using distanceToSquared_nonneg; try lra. nra.
Qed.

Section Smoothing.

Import HandTracker.

(** A hand seen in the last frame is smoothed against it: positions by
    [lerpVector3], the orientation by [lerpQuaternion], both at
    [SMOOTHING_FACTOR]. *)
Lemma processHand_smoothed lms hd last h :
  processHand lms hd (Some last) = Some h ->
  exists l4 l8 l0 raw,
    lms !! 4%nat = Some l4 /\ lms !! 8%nat = Some l8 /\
    lms !! 0%nat = Some l0 /\ calculateRotation lms = Some raw /\
    pinchPosition h
    = lerpVector3 (pinchPosition last)
        (multiplyScalar (addVectors (vec l4) (vec l8)) 0.5)
        SMOOTHING_FACTOR /\
    palmPosition h
    = lerpVector3 (palmPosition last) (vec l0) SMOOTHING_FACTOR /\
    rotation h = lerpQuaternion (rotation last) raw SMOOTHING_FACTOR.
Proof.
  unfold processHand. intros H.
  apply bind_Some in H as (l4 & H4 & H).
  apply bind_Some in H as (l8 & H8 & H).
  apply bind_Some in H as (l0 & H0 & H).
  apply bind_Some in H as (raw & Hraw & H).
  apply bind_Some in H as (n & Hn & H).
  injection H as <-. exists l4, l8, l0, raw. simpl. auto 10.
Qed.

End Smoothing.

(** ** The chemistry lab: holding *)

Section LabHold.

Import ChemistryLab.

Lemma heldBySide_true item side :
  heldBySide item side = true <-> heldBy item = Some side.
Proof.
  unfold heldBySide. destruct (heldBy item) as [s|].
  - rewrite Side_eqb_eq. split; congruence.
  - split; discriminate.
Qed.

Lemma unheld_true item : unheld item = true <-> heldBy item = None.
Proof. unfold unheld. destruct (heldBy item); split; congruence. Qed.

Lemma touch_Touched side hand t item item' ch :
  touch side hand t item = Some (item', ch) ->
  Touched side hand item item' ch /\
  id item' = id item /\ type item' = type item /\
  color item' = color item /\ liquidLevel item' = liquidLevel item /\
  liquidType item' = liquidType item /\ label item' = label item.
Proof.
  unfold touch.
  destruct (Rltb _ _) eqn:Ed; simpl.
  - destruct (isPinching hand) eqn:Ep; simpl.
    + destruct (unheld item || heldBySide item side) eqn:Eh.
      * intros H. apply bind_Some in H as (wrist & _ & H).
        apply bind_Some in H as (index & _ & H).
        injection H as <- <-. simpl. split; [|auto 10].
        apply touched_grab; simpl; auto.
        -- now apply Rltb_true.
        -- apply orb_true_iff in Eh as [E|E];
             [left; now apply unheld_true | right; now apply heldBySide_true].
      * apply orb_false_iff in Eh as [_ Eh]. rewrite Eh. simpl.
        intros [= <- <-]. split; [|auto 10].
        apply touched_idle; auto.
    + rewrite andb_true_r.
      destruct (heldBySide item side) eqn:Eh; intros [= <- <-]; simpl.
      * split; [|auto 10]. apply touched_release; auto.
        now apply heldBySide_true.
      * split; [|auto 10]. apply touched_idle; auto.
        intros E. apply heldBySide_true in E. congruence.
  - destruct (heldBySide item side && negb (isPinching hand)) eqn:Er;
      intros [= <- <-]; simpl.
    + apply andb_true_iff in Er as [Eh Ep]. apply negb_true_iff in Ep.
      split; [|auto 10]. apply touched_release; auto.
      now apply heldBySide_true.
    + split; [|auto 10]. apply touched_idle; auto.
      intros E. apply heldBySide_true in E. rewrite E in Er. simpl in Er.
      now apply negb_false_iff in Er.
Qed.

Lemma handPass_absent hs t side w :
  handOf hs side = None -> handPass hs t side w = Some w.
Proof. unfold handPass. now intros ->. Qed.

Lemma existsb_lookup {A} (f : A -> bool) (l : list A) k x :
  l !! k = Some x -> f x = true -> existsb f l = true.
Proof.
  intros Hk Hx. apply existsb_exists. exists x. split; [|exact Hx].
  apply list_elem_of_In. eapply list_elem_of_lookup_2. exact Hk.
Qed.

Lemma handPass_present hs t side hand l c l' c' :
  handOf hs side = Some hand ->
  handPass hs t side (l, c) = Some (l', c') ->
  length l' = length l /\
  (c = true -> c' = true) /\
  forall k item, l !! k = Some item ->
    exists item' ch,
      l' !! k = Some item' /\
      touch side hand t item = Some (item', ch) /\
      (ch = true -> c' = true).
Proof.
  unfold handPass. intros ->. simpl. intros H.
  apply bind_Some in H as (rs & Hrs & H). injection H as <- <-.
  apply mapM_Some in Hrs.
  split; [|split].
  - rewrite length_map. symmetry. eapply Forall2_length. exact Hrs.
  - intros ->. reflexivity.
  - intros k item Hk.
    destruct (Forall2_lookup_l _ _ _ _ _ Hrs Hk) as ([item' ch] & Hr & Ht).
    exists item', ch. split; [|split].
    + rewrite list_lookup_fmap, Hr. reflexivity.
    + exact Ht.
    + intros ->. rewrite (existsb_lookup snd rs k (item', true) Hr eq_refl).
      apply orb_true_r.
Qed.

Lemma handPass_lookup hs t side l c l' c' :
  handPass hs t side (l, c) = Some (l', c') ->
  length l' = length l /\
  (c = true -> c' = true) /\
  forall k item, l !! k = Some item ->
    exists item' ch,
      l' !! k = Some item' /\ Passed hs t side item item' ch /\
      (ch = true -> c' = true).
Proof.
  intros H. unfold Passed. destruct (handOf hs side) as [hand|] eqn:E.
  - exact (handPass_present hs t side hand l c l' c' E H).
  - rewrite handPass_absent in H by exact E. injection H as <- <-.
    split; [reflexivity|]. split; [auto|].
    intros k item Hk. exists item, false. split; [exact Hk|].
    split; [auto | discriminate].
Qed.

Lemma interaction_lookup hs t l c l' c' :
  interaction hs t (l, c) = Some (l', c') ->
  length l' = length l /\
  (c = true -> c' = true) /\
  forall k item, l !! k = Some item ->
    exists item1 item' ch1 ch2,
      l' !! k = Some item' /\
      Passed hs t Left item item1 ch1 /\
      Passed hs t Right item1 item' ch2 /\
      (ch1 = true \/ ch2 = true -> c' = true).
Proof.
  unfold interaction. intros H.
  apply bind_Some in H as ([l1 c1] & H1 & H2).
  apply handPass_lookup in H1 as (Hlen1 & Hc1 & Hk1).
  apply handPass_lookup in H2 as (Hlen2 & Hc2 & Hk2).
  split; [congruence|]. split; [auto|].
  intros k item Hk.
  destruct (Hk1 k item Hk) as (item1 & ch1 & Hl1 & HP1 & Hch1).
  destruct (Hk2 k item1 Hl1) as (item' & ch2 & Hl2 & HP2 & Hch2).
  exists item1, item', ch1, ch2. repeat split; auto.
  intros [E|E]; auto.
Qed.

(** A hand does not touch what the other hand holds. *)
Lemma Passed_other hs t side item item' ch :
  heldBy item = Some side ->
  Passed hs t (other side) item item' ch ->
  item' = item /\ ch = false.
Proof.
  unfold Passed. intros Hh.
  destruct (handOf hs (other side)) as [hand|]; [|auto].
  intros H. apply touch_Touched in H as [H _].
  destruct H as [_ _ [E|E] _ _ | E _ _ _ _ | E _].
  - congruence.
  - rewrite Hh in E. injection E as E. now destruct side.
  - rewrite Hh in E. injection E as E. now destruct side.
  - auto.
Qed.

(** The hand that holds an item keeps it or, when it is seen and does
    not pinch, releases it. *)
Lemma Passed_holder hs t side item item' ch :
  heldBy item = Some side ->
  Passed hs t side item item' ch ->
  heldBy item' = Some side \/
  (heldBy item' = None /\ ch = true /\
   position item' = snapBack (type item) (position item) /\
   rotation item' = euler 0 0 0 /\
   exists hand, handOf hs side = Some hand /\ isPinching hand = false).
Proof.
  unfold Passed. intros Hh.
  destruct (handOf hs side) as [hand|] eqn:E.
  - intros H. apply touch_Touched in H as [H _].
    destruct H as [_ _ _ H _ | _ Hp H Hpos Hrot | -> _].
    + now left.
    + right. repeat split; auto. now exists hand.
    + now left.
  - intros [-> _]. now left.
Qed.

(** *** The pouring pass keeps hold, place and tilt *)

Lemma sameHold_refl a : sameHold a a.
Proof. unfold sameHold. auto 10. Qed.

Lemma sameHold_trans a b c : sameHold a b -> sameHold b c -> sameHold a c.
Proof. unfold sameHold. intuition congruence. Qed.

Lemma Forall2_sameHold_refl l : Forall2 sameHold l l.
Proof. induction l; constructor; auto using sameHold_refl. Qed.

Lemma Forall2_sameHold_trans l1 l2 l3 :
  Forall2 sameHold l1 l2 -> Forall2 sameHold l2 l3 -> Forall2 sameHold l1 l3.
Proof.
  intros H. revert l3. induction H; intros l3 H3; inversion H3; subst;
    constructor; eauto using sameHold_trans.
Qed.

Lemma Forall2_sameHold_insert l i a b :
  l !! i = Some a -> sameHold a b -> Forall2 sameHold l (<[i:=b]> l).
Proof.
  intros Hi Hab. rewrite <- (list_insert_id l i a Hi) at 1.
  apply Forall2_insert; [apply Forall2_sameHold_refl | exact Hab].
Qed.

Lemma pourInto_hold i w j : Forall2 sameHold w.1 (pourInto i w j).1.
Proof.
  unfold pourInto. destruct (i =? j)%nat eqn:Eij;
    [apply Forall2_sameHold_refl|].
  apply Nat.eqb_neq in Eij.
  destruct (w.1 !! i) as [source|] eqn:Ei; [|apply Forall2_sameHold_refl].
  destruct (w.1 !! j) as [target|] eqn:Ej; [|apply Forall2_sameHold_refl].
  destruct (inReach _ _); [|apply Forall2_sameHold_refl]. simpl.
  match goal with
  | |- Forall2 _ _ (<[_:=_]> ?m) => apply Forall2_sameHold_trans with m
  end.
  - eapply Forall2_sameHold_insert; [exact Ei|].
    unfold sameHold. simpl. auto 10.
  - eapply Forall2_sameHold_insert.
    + rewrite list_lookup_insert_ne by exact Eij. exact Ej.
    + unfold sameHold. simpl. auto 10.
Qed.

Lemma fold_hold {A} (f : Work -> A -> Work) l :
  (forall w a, Forall2 sameHold w.1 (f w a).1) ->
  forall w, Forall2 sameHold w.1 (fold_left f l w).1.
Proof.
  intros Hf. induction l as [|a l IH]; intros w; simpl.
  - apply Forall2_sameHold_refl.
  - eapply Forall2_sameHold_trans; [apply Hf | apply IH].
Qed.

Lemma pourFrom_hold w i : Forall2 sameHold w.1 (pourFrom w i).1.
Proof.
  unfold pourFrom. destruct (w.1 !! i); [|apply Forall2_sameHold_refl].
  destruct (_ || _); [apply Forall2_sameHold_refl|].
  destruct (Rgtb _ _); [|apply Forall2_sameHold_refl].
  apply fold_hold. intros. apply pourInto_hold.
Qed.

Lemma pour_hold w : Forall2 sameHold w.1 (pour w).1.
Proof. unfold pour. apply fold_hold. intros. apply pourFrom_hold. Qed.

(** *** The flag [changed] *)

Lemma fold_flag {A} (f : Work -> A -> Work) l :
  (forall w a, (f w a).2 = false -> f w a = w) ->
  forall w, (fold_left f l w).2 = false -> fold_left f l w = w.
Proof.
  intros Hf. induction l as [|a l IH]; intros w H.
  - reflexivity.
  - cbn [fold_left] in *. pose proof (IH _ H) as E.
    rewrite E in H |- *. now apply Hf.
Qed.

Lemma pourInto_flag i w j : (pourInto i w j).2 = false -> pourInto i w j = w.
Proof.
  unfold pourInto. destruct (i =? j)%nat; [reflexivity|].
  destruct (w.1 !! i); [|reflexivity]. destruct (w.1 !! j); [|reflexivity].
  destruct (inReach _ _); [discriminate | reflexivity].
Qed.

Lemma pourFrom_flag w i : (pourFrom w i).2 = false -> pourFrom w i = w.
Proof.
  unfold pourFrom. destruct (w.1 !! i); [|reflexivity].
  destruct (_ || _); [reflexivity|]. destruct (Rgtb _ _); [|reflexivity].
  apply fold_flag. intros. now apply pourInto_flag.
Qed.

Lemma pour_flag w : (pour w).2 = false -> pour w = w.
Proof. unfold pour. apply fold_flag. intros. now apply pourFrom_flag. Qed.

Lemma zip_with_shared l l' :
  Forall2 (fun a b => shared a b = b) l l' -> zip_with shared l l' = l'.
Proof. induction 1; simpl; congruence. Qed.

Lemma Passed_unchanged hs t side item item' :
  Passed hs t side item item' false ->
  heldBy item' = heldBy item /\ sameLiquid item item'.
Proof.
  unfold Passed. destruct (handOf hs side) as [hand|].
  - intros H. apply touch_Touched in H as [H HL].
    split; [|exact HL].
    inversion H as [_ _ _ Hh _ Hc| |E _]; subst.
    + apply negb_false_iff, heldBySide_true in Hc. congruence.
    + reflexivity.
  - intros [-> _]. split; [reflexivity|]. unfold sameLiquid. auto 10.
Qed.

(** What the next frame finds is what the frame leaves in [nextItems],
    whether or not [setItems] runs: when [changed] stays false only
    objects shared with the old items were written. *)
Lemma useFrame_nextItems hs t items items' :
  useFrame hs t items = Some items' ->
  exists w, interaction hs t (items, false) = Some w /\
            items' = (pour w).1.
Proof.
  unfold useFrame. intros H. apply bind_Some in H as (w & Hw & H).
  injection H as <-. exists w. split; [exact Hw|].
  unfold commit. destruct ((pour w).2) eqn:Ef; [reflexivity|].
  pose proof (pour_flag w Ef) as Ew. rewrite Ew in Ef |- *. clear Ew.
  destruct w as [l c]. simpl in *. subst c.
  apply zip_with_shared.
  apply interaction_lookup in Hw as (Hlen & _ & Hk).
  apply Forall2_same_length_lookup. split; [now symmetry|].
  intros k a b Ha Hb.
  destruct (Hk k a Ha) as (a1 & b' & ch1 & ch2 & Hb' & H1 & H2 & Hch).
  rewrite Hb in Hb'. injection Hb' as <-.
  destruct ch1; [discriminate Hch; auto|].
  destruct ch2; [discriminate Hch; auto|].
  apply Passed_unchanged in H1 as (Hh1 & HL1).
  apply Passed_unchanged in H2 as (Hh2 & HL2).
  unfold sameLiquid in *. unfold shared. destruct b; simpl in *.
  f_equal; intuition congruence.
Qed.

Lemma useFrame_lookup hs t items items' :
  useFrame hs t items = Some items' ->
  length items' = length items /\
  forall k item, items !! k = Some item ->
    exists item1 item2 item' ch1 ch2,
      items' !! k = Some item' /\
      Passed hs t Left item item1 ch1 /\
      Passed hs t Right item1 item2 ch2 /\
      sameHold item2 item'.
Proof.
  intros H. apply useFrame_nextItems in H as ([l c] & Hw & ->).
  pose proof (pour_hold (l, c)) as Hp. simpl in Hp.
  apply interaction_lookup in Hw as (Hlen & _ & Hk).
  split; [rewrite <- Hlen; symmetry; eapply Forall2_length; exact Hp|].
  intros k item Hi.
  destruct (Hk k item Hi) as (item1 & item2 & ch1 & ch2 & H2 & HP1 & HP2 & _).
  destruct (Forall2_lookup_l _ _ _ _ _ Hp H2) as (item' & H' & Hs).
  exists item1, item2, item', ch1, ch2. auto.
Qed.

(** The two rounds of a frame on an item whose holder is not seen. *)
Lemma Passed_absent_holder hs t side item item1 item2 ch1 ch2 :
  handOf hs side = None ->
  heldBy item = Some side ->
  Passed hs t Left item item1 ch1 ->
  Passed hs t Right item1 item2 ch2 ->
  item2 = item.
Proof.
  intros Habs Hh H1 H2. destruct side.
  - unfold Passed in H1. rewrite Habs in H1. destruct H1 as [-> _].
    now apply (Passed_other hs t Left) in H2 as [-> _].
  - apply (Passed_other hs t Right) in H1 as [-> _]; [|exact Hh].
    unfold Passed in H2. rewrite Habs in H2. now destruct H2 as [-> _].
Qed.

(** The two rounds of a frame on a held item: it stays with its holder
    unless the holder is seen not pinching. *)
Lemma Passed_keeps_or_releases hs t side item item1 item2 ch1 ch2 :
  heldBy item = Some side ->
  Passed hs t Left item item1 ch1 ->
  Passed hs t Right item1 item2 ch2 ->
  heldBy item2 = Some side \/
  exists hand, handOf hs side = Some hand /\ isPinching hand = false.
Proof.
  intros Hh H1 H2. destruct side.
  - destruct (Passed_holder hs t Left item item1 ch1 Hh H1)
      as [Hk|(_ & _ & _ & _ & Hr)]; [|now right].
    apply (Passed_other hs t Left) in H2 as [-> _]; auto.
  - apply (Passed_other hs t Right) in H1 as [-> _]; [|exact Hh].
    destruct (Passed_holder hs t Right item item2 ch2 Hh H2)
      as [Hk|(_ & _ & _ & _ & Hr)]; auto.
Qed.

Lemma lab_absent_frame hs t items items' k item side :
  handOf hs side = None ->
  useFrame hs t items = Some items' ->
  items !! k = Some item ->
  heldBy item = Some side ->
  exists item', items' !! k = Some item' /\ sameHold item item'.
Proof.
  intros Habs H Hk Hh. apply useFrame_lookup in H as [_ H].
  destruct (H k item Hk) as (i1 & i2 & item' & c1 & c2 & H' & H1 & H2 & Hs).
  rewrite (Passed_absent_holder hs t side item i1 i2 c1 c2 Habs Hh H1 H2)
    in Hs.
  eauto.
Qed.

Lemma lab_absent_frames inputs side : 
  Forall (fun i : TrackingState * R => handOf i.1 side = None) inputs ->
  forall items items' k item,
  frames inputs items = Some items' ->
  items !! k = Some item ->
  heldBy item = Some side ->
  exists item', items' !! k = Some item' /\ sameHold item item'.
Proof.
  induction 1 as [|[hs t] inputs Habs _ IH]; intros items items' k item H Hk Hh.
  - injection H as <-. eauto using sameHold_refl.
  - simpl in H. apply bind_Some in H as (items1 & H1 & H).
    destruct (lab_absent_frame hs t items items1 k item side Habs H1 Hk Hh)
      as (item1 & Hk1 & Hs1).
    assert (Hh1 : heldBy item1 = Some side)
      by (destruct Hs1 as (_ & _ & _ & _ & E & _); congruence).
    destruct (IH items1 items' k item1 H Hk1 Hh1) as (item' & Hk' & Hs').
    eauto using sameHold_trans.
Qed.

Lemma interaction_noHands t w : interaction Samples.noHands t w = Some w.
Proof. reflexivity. Qed.

Lemma frames_noHands n t items :
  is_Some (frames (replicate n (Samples.noHands, t)) items).
Proof.
  revert items. induction n as [|n IH]; intros items; [simpl; eauto|].
  cbn [replicate frames]. unfold useFrame.
  rewrite interaction_noHands. cbn [mbind option_bind]. apply IH.
Qed.

End LabHold.

(** ** The chemistry page: holding *)

Section PageHold.

Import ChemistryPage.

Lemma page_heldBySide_true tube side :
  heldBySide tube side = true <-> heldBy tube = Some side.
Proof.
  unfold heldBySide. destruct (heldBy tube) as [s|].
  - rewrite Side_eqb_eq. split; congruence.
  - split; discriminate.
Qed.

Lemma page_unheld_true tube : unheld tube = true <-> heldBy tube = None.
Proof. unfold unheld. destruct (heldBy tube); split; congruence. Qed.

Lemma page_touch_Touched side hand tube tube' ch :
  touch side hand tube = Some (tube', ch) ->
  Touched side hand tube tube' ch /\ sameLiquid tube tube'.
Proof.
  unfold touch, sameLiquid.
  destruct (Rltb _ _) eqn:Ed; simpl.
  - destruct (isPinching hand) eqn:Ep; simpl.
    + destruct (unheld tube || heldBySide tube side) eqn:Eh.
      * intros H. apply bind_Some in H as (wrist & _ & H).
        apply bind_Some in H as (index & _ & H).
        injection H as <- <-. simpl. split; [|auto 10].
        apply touched_grab; simpl; auto.
        -- now apply Rltb_true.
        -- apply orb_true_iff in Eh as [E|E];
             [left; now apply page_unheld_true
             |right; now apply page_heldBySide_true].
      * apply orb_false_iff in Eh as [_ Eh]. rewrite Eh. simpl.
        intros [= <- <-]. split; [|auto 10].
        apply touched_idle; auto.
    + rewrite andb_true_r.
      destruct (heldBySide tube side) eqn:Eh; intros [= <- <-]; simpl.
      * split; [|auto 10]. apply touched_release; auto.
        now apply page_heldBySide_true.
      * split; [|auto 10]. apply touched_idle; auto.
        intros E. apply page_heldBySide_true in E. congruence.
  - destruct (heldBySide tube side && negb (isPinching hand)) eqn:Er;
      intros [= <- <-]; simpl.
    + apply andb_true_iff in Er as [Eh Ep]. apply negb_true_iff in Ep.
      split; [|auto 10]. apply touched_release; auto.
      now apply page_heldBySide_true.
    + split; [|auto 10]. apply touched_idle; auto.
      intros E. apply page_heldBySide_true in E. rewrite E in Er.
      simpl in Er. now apply negb_false_iff in Er.
Qed.

Lemma page_handPass_lookup hs side l c l' c' :
  handPass hs side (l, c) = Some (l', c') ->
  length l' = length l /\
  (c = true -> c' = true) /\
  forall k tube, l !! k = Some tube ->
    exists tube' ch,
      l' !! k = Some tube' /\ Passed hs side tube tube' ch /\
      (ch = true -> c' = true).
Proof.
  unfold handPass, Passed. destruct (handOf hs side) as [hand|].
  - simpl. intros H.
    apply bind_Some in H as (rs & Hrs & H). injection H as <- <-.
    apply mapM_Some in Hrs.
    split; [|split].
    + rewrite length_map. symmetry. eapply Forall2_length. exact Hrs.
    + intros ->. reflexivity.
    + intros k tube Hk.
      destruct (Forall2_lookup_l _ _ _ _ _ Hrs Hk) as ([tube' ch] & Hr & Ht).
      exists tube', ch. split; [|split].
      * rewrite list_lookup_fmap, Hr. reflexivity.
      * exact Ht.
      * intros ->.
        rewrite (existsb_lookup snd rs k (tube', true) Hr eq_refl).
        apply orb_true_r.
  - intros [= <- <-]. split; [reflexivity|]. split; [auto|].
    intros k tube Hk. exists tube, false. split; [exact Hk|].
    split; [auto | discriminate].
Qed.

Lemma page_interaction_lookup hs l c l' c' :
  interaction hs (l, c) = Some (l', c') ->
  length l' = length l /\
  (c = true -> c' = true) /\
  forall k tube, l !! k = Some tube ->
    exists tube1 tube' ch1 ch2,
      l' !! k = Some tube' /\
      Passed hs Left tube tube1 ch1 /\
      Passed hs Right tube1 tube' ch2 /\
      (ch1 = true \/ ch2 = true -> c' = true).
Proof.
  unfold interaction. intros H.
  apply bind_Some in H as ([l1 c1] & H1 & H2).
  apply page_handPass_lookup in H1 as (Hlen1 & Hc1 & Hk1).
  apply page_handPass_lookup in H2 as (Hlen2 & Hc2 & Hk2).
  split; [congruence|]. split; [auto|].
  intros k tube Hk.
  destruct (Hk1 k tube Hk) as (tube1 & ch1 & Hl1 & HP1 & Hch1).
  destruct (Hk2 k tube1 Hl1) as (tube' & ch2 & Hl2 & HP2 & Hch2).
  exists tube1, tube', ch1, ch2. repeat split; auto.
  intros [E|E]; auto.
Qed.

Lemma page_Passed_other hs side tube tube' ch :
  heldBy tube = Some side ->
  Passed hs (other side) tube tube' ch ->
  tube' = tube /\ ch = false.
Proof.
  unfold Passed. intros Hh.
  destruct (handOf hs (other side)) as [hand|]; [|auto].
  intros H. apply page_touch_Touched in H as [H _].
  destruct H as [_ _ [E|E] _ _ | E _ _ _ _ | E _].
  - congruence.
  - rewrite Hh in E. injection E as E. now destruct side.
  - rewrite Hh in E. injection E as E. now destruct side.
  - auto.
Qed.

Lemma page_Passed_holder hs side tube tube' ch :
  heldBy tube = Some side ->
  Passed hs side tube tube' ch ->
  heldBy tube' = Some side \/
  (heldBy tube' = None /\ ch = true /\
   position tube' = vector3 (vx (position tube)) 0 (vz (position tube)) /\
   rotation tube' = euler 0 0 0 /\
   exists hand, handOf hs side = Some hand /\ isPinching hand = false).
Proof.
  unfold Passed. intros Hh.
  destruct (handOf hs side) as [hand|] eqn:E.
  - intros H. apply page_touch_Touched in H as [H _].
    destruct H as [_ _ _ H _ | _ Hp H Hpos Hrot | -> _].
    + now left.
    + right. repeat split; auto. now exists hand.
    + now left.
  - intros [-> _]. now left.
Qed.

Lemma page_sameHold_refl a : sameHold a a.
Proof. unfold sameHold. auto 10. Qed.

Lemma page_sameHold_trans a b c :
  sameHold a b -> sameHold b c -> sameHold a c.
Proof. unfold sameHold. intuition congruence. Qed.

Lemma page_Forall2_sameHold_refl l : Forall2 sameHold l l.
Proof. induction l; constructor; auto using page_sameHold_refl. Qed.

Lemma page_Forall2_sameHold_trans l1 l2 l3 :
  Forall2 sameHold l1 l2 -> Forall2 sameHold l2 l3 -> Forall2 sameHold l1 l3.
Proof.
  intros H. revert l3. induction H; intros l3 H3; inversion H3; subst;
    constructor; eauto using page_sameHold_trans.
Qed.

Lemma page_Forall2_sameHold_insert l i a b :
  l !! i = Some a -> sameHold a b -> Forall2 sameHold l (<[i:=b]> l).
Proof.
  intros Hi Hab. rewrite <- (list_insert_id l i a Hi) at 1.
  apply Forall2_insert; [apply page_Forall2_sameHold_refl | exact Hab].
Qed.

Lemma react_hold i w j : Forall2 sameHold w.1 (react i w j).1.
Proof.
  unfold react.
  destruct (w.1 !! i) as [tube1|] eqn:Ei;
    [|apply page_Forall2_sameHold_refl].
  destruct (w.1 !! j) as [tube2|] eqn:Ej;
    [|apply page_Forall2_sameHold_refl].
  destruct (_ && _); [|apply page_Forall2_sameHold_refl]. simpl.
  destruct (decide (i = j)) as [<-|Hij].
  - rewrite list_insert_insert_eq.
    eapply page_Forall2_sameHold_insert; [exact Ei|].
    unfold sameHold. simpl. rewrite Ei in Ej. injection Ej as <-. auto 10.
  - match goal with
    | |- Forall2 _ _ (<[_:=_]> ?m) =>
        apply page_Forall2_sameHold_trans with m
    end.
    + eapply page_Forall2_sameHold_insert; [exact Ei|].
      unfold sameHold. simpl. auto 10.
    + eapply page_Forall2_sameHold_insert.
      * rewrite list_lookup_insert_ne by exact Hij. exact Ej.
      * unfold sameHold. simpl. auto 10.
Qed.

Lemma page_fold_hold {A} (f : Work -> A -> Work) l :
  (forall w a, Forall2 sameHold w.1 (f w a).1) ->
  forall w, Forall2 sameHold w.1 (fold_left f l w).1.
Proof.
  intros Hf. induction l as [|a l IH]; intros w; simpl.
  - apply page_Forall2_sameHold_refl.
  - eapply page_Forall2_sameHold_trans; [apply Hf | apply IH].
Qed.

Lemma reactions_hold w : Forall2 sameHold w.1 (reactions w).1.
Proof.
  unfold reactions. apply page_fold_hold. intros w' i.
  apply page_fold_hold. intros. apply react_hold.
Qed.

Lemma page_fold_flag {A} (f : Work -> A -> Work) l :
  (forall w a, (f w a).2 = false -> f w a = w) ->
  forall w, (fold_left f l w).2 = false -> fold_left f l w = w.
Proof.
  intros Hf. induction l as [|a l IH]; intros w H.
  - reflexivity.
  - cbn [fold_left] in *. pose proof (IH _ H) as E.
    rewrite E in H |- *. now apply Hf.
Qed.

Lemma react_flag i w j : (react i w j).2 = false -> react i w j = w.
Proof.
  unfold react. destruct (w.1 !! i); [|reflexivity].
  destruct (w.1 !! j); [|reflexivity].
  destruct (_ && _); [discriminate | reflexivity].
Qed.

Lemma reactions_flag w : (reactions w).2 = false -> reactions w = w.
Proof.
  unfold reactions. apply page_fold_flag. intros w' i.
  apply page_fold_flag. intros. now apply react_flag.
Qed.

Lemma page_zip_with_shared l l' :
  Forall2 (fun a b => shared a b = b) l l' -> zip_with shared l l' = l'.
Proof. induction 1; simpl; congruence. Qed.

Lemma page_Passed_unchanged hs side tube tube' :
  Passed hs side tube tube' false ->
  heldBy tube' = heldBy tube /\ sameLiquid tube tube'.
Proof.
  unfold Passed. destruct (handOf hs side) as [hand|].
  - intros H. apply page_touch_Touched in H as [H HL].
    split; [|exact HL].
    inversion H as [_ _ _ Hh _ Hc| |E _]; subst.
    + apply negb_false_iff, page_heldBySide_true in Hc. congruence.
    + reflexivity.
  - intros [-> _]. split; [reflexivity|]. unfold sameLiquid. auto 10.
Qed.

(** As in the lab, the next frame finds what this frame leaves in
    [nextTubes]. *)
Lemma page_useFrame_nextTubes hs tubes tubes' :
  useFrame hs tubes = Some tubes' ->
  exists w, interaction hs (tubes, false) = Some w /\
            tubes' = (reactions w).1.
Proof.
  unfold useFrame. intros H. apply bind_Some in H as (w & Hw & H).
  injection H as <-. exists w. split; [exact Hw|].
  unfold commit. destruct ((reactions w).2) eqn:Ef; [reflexivity|].
  pose proof (reactions_flag w Ef) as Ew. rewrite Ew in Ef |- *. clear Ew.
  destruct w as [l c]. simpl in *. subst c.
  apply page_zip_with_shared.
  apply page_interaction_lookup in Hw as (Hlen & _ & Hk).
  apply Forall2_same_length_lookup. split; [now symmetry|].
  intros k a b Ha Hb.
  destruct (Hk k a Ha) as (a1 & b' & ch1 & ch2 & Hb' & H1 & H2 & Hch).
  rewrite Hb in Hb'. injection Hb' as <-.
  destruct ch1; [discriminate Hch; auto|].
  destruct ch2; [discriminate Hch; auto|].
  apply page_Passed_unchanged in H1 as (Hh1 & HL1).
  apply page_Passed_unchanged in H2 as (Hh2 & HL2).
  unfold sameLiquid in *. unfold shared. destruct b; simpl in *.
  f_equal; intuition congruence.
Qed.

Lemma page_useFrame_lookup hs tubes tubes' :
  useFrame hs tubes = Some tubes' ->
  length tubes' = length tubes /\
  forall k tube, tubes !! k = Some tube ->
    exists tube1 tube2 tube' ch1 ch2,
      tubes' !! k = Some tube' /\
      Passed hs Left tube tube1 ch1 /\
      Passed hs Right tube1 tube2 ch2 /\
      sameHold tube2 tube'.
Proof.
  intros H. apply page_useFrame_nextTubes in H as ([l c] & Hw & ->).
  pose proof (reactions_hold (l, c)) as Hp. simpl in Hp.
  apply page_interaction_lookup in Hw as (Hlen & _ & Hk).
  split; [rewrite <- Hlen; symmetry; eapply Forall2_length; exact Hp|].
  intros k tube Hi.
  destruct (Hk k tube Hi) as (t1 & t2 & ch1 & ch2 & H2 & HP1 & HP2 & _).
  destruct (Forall2_lookup_l _ _ _ _ _ Hp H2) as (tube' & H' & Hs).
  exists t1, t2, tube', ch1, ch2. auto.
Qed.

Lemma page_Passed_absent_holder hs side tube tube1 tube2 ch1 ch2 :
  handOf hs side = None ->
  heldBy tube = Some side ->
  Passed hs Left tube tube1 ch1 ->
  Passed hs Right tube1 tube2 ch2 ->
  tube2 = tube.
Proof.
  intros Habs Hh H1 H2. destruct side.
  - unfold Passed in H1. rewrite Habs in H1. destruct H1 as [-> _].
    now apply (page_Passed_other hs Left) in H2 as [-> _].
  - apply (page_Passed_other hs Right) in H1 as [-> _]; [|exact Hh].
    unfold Passed in H2. rewrite Habs in H2. now destruct H2 as [-> _].
Qed.

Lemma page_Passed_keeps_or_releases hs side tube tube1 tube2 ch1 ch2 :
  heldBy tube = Some side ->
  Passed hs Left tube tube1 ch1 ->
  Passed hs Right tube1 tube2 ch2 ->
  heldBy tube2 = Some side \/
  exists hand, handOf hs side = Some hand /\ isPinching hand = false.
Proof.
  intros Hh H1 H2. destruct side.
  - destruct (page_Passed_holder hs Left tube tube1 ch1 Hh H1)
      as [Hk|(_ & _ & _ & _ & Hr)]; [|now right].
    apply (page_Passed_other hs Left) in H2 as [-> _]; auto.
  - apply (page_Passed_other hs Right) in H1 as [-> _]; [|exact Hh].
    destruct (page_Passed_holder hs Right tube tube2 ch2 Hh H2)
      as [Hk|(_ & _ & _ & _ & Hr)]; auto.
Qed.

Lemma page_absent_frame hs tubes tubes' k tube side :
  handOf hs side = None ->
  useFrame hs tubes = Some tubes' ->
  tubes !! k = Some tube ->
  heldBy tube = Some side ->
  exists tube', tubes' !! k = Some tube' /\ sameHold tube tube'.
Proof.
  intros Habs H Hk Hh. apply page_useFrame_lookup in H as [_ H].
  destruct (H k tube Hk) as (i1 & i2 & tube' & c1 & c2 & H' & H1 & H2 & Hs).
  rewrite (page_Passed_absent_holder hs side tube i1 i2 c1 c2 Habs Hh H1 H2)
    in Hs.
  eauto.
Qed.

Lemma page_absent_frames inputs side :
  Forall (fun hs : TrackingState => handOf hs side = None) inputs ->
  forall tubes tubes' k tube,
  frames inputs tubes = Some tubes' ->
  tubes !! k = Some tube ->
  heldBy tube = Some side ->
  exists tube', tubes' !! k = Some tube' /\ sameHold tube tube'.
Proof.
  induction 1 as [|hs inputs Habs _ IH]; intros tubes tubes' k tube H Hk Hh.
  - injection H as <-. eauto using page_sameHold_refl.
  - simpl in H. apply bind_Some in H as (tubes1 & H1 & H).
    destruct (page_absent_frame hs tubes tubes1 k tube side Habs H1 Hk Hh)
      as (tube1 & Hk1 & Hs1).
    assert (Hh1 : heldBy tube1 = Some side)
      by (destruct Hs1 as (_ & _ & _ & _ & _ & _ & E & _); congruence).
    destruct (IH tubes1 tubes' k tube1 H Hk1 Hh1) as (tube' & Hk' & Hs').
    eauto using page_sameHold_trans.
Qed.

Lemma page_frames_noHands n tubes :
  is_Some (frames (replicate n Samples.noHands) tubes).
Proof.
  revert tubes. induction n as [|n IH]; intros tubes; [simpl; eauto|].
  cbn [replicate frames]. unfold useFrame.
  change (interaction Samples.noHands (tubes, false))
    with (Some (tubes, false)).
  cbn [mbind option_bind]. apply IH.
Qed.

End PageHold.

(** ** Objects whose holding hand is not seen *)

Section AbsentHand.

(** C10.  In the interaction step of the chemistry scenes, an object
    whose [heldBy] names a side whose hand slot is null is left as it is
    that frame; [heldBy] stops naming that side only in a frame in which
    that hand is detected and does not pinch; so through any run of frames
    in which the hand is not seen the object stays marked as held, where
    it is and as it is tilted, and such runs exist for every length.  The
    first four parts are about the lab, the last four about the page. *)
Theorem absent_hand_keeps_hold side :
  ((forall hs t items w k item,
      handOf hs side = None ->
      ChemistryLab.interaction hs t (items, false) = Some w ->
      items !! k = Some item ->
      ChemistryLab.heldBy item = Some side ->
      w.1 !! k = Some item) /\
   (forall hs t items items' k item item',
      ChemistryLab.useFrame hs t items = Some items' ->
      items !! k = Some item -> items' !! k = Some item' ->
      ChemistryLab.heldBy item = Some side ->
      ChemistryLab.heldBy item' <> Some side ->
      exists hand, handOf hs side = Some hand /\ isPinching hand = false) /\
   (forall inputs items items' k item,
      Forall (fun i : TrackingState * R => handOf i.1 side = None) inputs ->
      ChemistryLab.frames inputs items = Some items' ->
      items !! k = Some item ->
      ChemistryLab.heldBy item = Some side ->
      exists item', items' !! k = Some item' /\
        ChemistryLab.heldBy item' = Some side /\
        ChemistryLab.position item' = ChemistryLab.position item /\
        ChemistryLab.rotation item' = ChemistryLab.rotation item) /\
   (forall n t items,
      is_Some (ChemistryLab.frames (replicate n (Samples.noHands, t)) items)))
  /\
  ((forall hs tubes w k tube,
      handOf hs side = None ->
      ChemistryPage.interaction hs (tubes, false) = Some w ->
      tubes !! k = Some tube ->
      ChemistryPage.heldBy tube = Some side ->
      w.1 !! k = Some tube) /\
   (forall hs tubes tubes' k tube tube',
      ChemistryPage.useFrame hs tubes = Some tubes' ->
      tubes !! k = Some tube -> tubes' !! k = Some tube' ->
      ChemistryPage.heldBy tube = Some side ->
      ChemistryPage.heldBy tube' <> Some side ->
      exists hand, handOf hs side = Some hand /\ isPinching hand = false) /\
   (forall inputs tubes tubes' k tube,
      Forall (fun hs : TrackingState => handOf hs side = None) inputs ->
      ChemistryPage.frames inputs tubes = Some tubes' ->
      tubes !! k = Some tube ->
      ChemistryPage.heldBy tube = Some side ->
      exists tube', tubes' !! k = Some tube' /\
        ChemistryPage.heldBy tube' = Some side /\
        ChemistryPage.position tube' = ChemistryPage.position tube /\
        ChemistryPage.rotation tube' = ChemistryPage.rotation tube) /\
   (forall n tubes,
      is_Some (ChemistryPage.frames (replicate n Samples.noHands) tubes))).
Proof.
  split.
  { (* the lab *)
      split; [|split; [|split]].
      - intros hs t items [l c] k item Habs Hw Hk Hh.
        apply interaction_lookup in Hw as (_ & _ & H).
        destruct (H k item Hk) as (i1 & i2 & c1 & c2 & H' & H1 & H2 & _).
        now rewrite (Passed_absent_holder hs t side item i1 i2 c1 c2 Habs Hh H1 H2)
          in H'.
      - intros hs t items items' k item item' H Hk Hk' Hh Hn.
        apply useFrame_lookup in H as [_ H].
        destruct (H k item Hk) as (i1 & i2 & it & c1 & c2 & H' & H1 & H2 & Hs).
        rewrite Hk' in H'. injection H' as <-.
        destruct (Passed_keeps_or_releases hs t side item i1 i2 c1 c2 Hh H1 H2)
          as [Hkeep|Hrel]; [|exact Hrel].
        destruct Hs as (_ & _ & _ & _ & E & _). congruence.
      - intros inputs items items' k item Habs H Hk Hh.
        destruct (lab_absent_frames inputs side Habs items items' k item H Hk Hh)
          as (item' & Hk' & _ & _ & Hp & Hr & Hb & _).
        exists item'. repeat split; congruence.
      - intros. apply frames_noHands.
  }
  { (* the page *)
      split; [|split; [|split]].
      - intros hs tubes [l c] k tube Habs Hw Hk Hh.
        apply page_interaction_lookup in Hw as (_ & _ & H).
        destruct (H k tube Hk) as (i1 & i2 & c1 & c2 & H' & H1 & H2 & _).
        now rewrite
          (page_Passed_absent_holder hs side tube i1 i2 c1 c2 Habs Hh H1 H2)
          in H'.
      - intros hs tubes tubes' k tube tube' H Hk Hk' Hh Hn.
        apply page_useFrame_lookup in H as [_ H].
        destruct (H k tube Hk) as (i1 & i2 & it & c1 & c2 & H' & H1 & H2 & Hs).
        rewrite Hk' in H'. injection H' as <-.
        destruct (page_Passed_keeps_or_releases hs side tube i1 i2 c1 c2 Hh H1 H2)
          as [Hkeep|Hrel]; [|exact Hrel].
        destruct Hs as (_ & _ & _ & _ & _ & _ & E & _). congruence.
      - intros inputs tubes tubes' k tube Habs H Hk Hh.
        destruct (page_absent_frames inputs side Habs tubes tubes' k tube H Hk Hh)
          as (tube' & Hk' & _ & Hp & Hr & _ & _ & _ & Hb & _).
        exists tube'. repeat split; congruence.
      - intros. apply page_frames_noHands.
  }
Qed.

Lemma absent_hand_keeps_hold_witness :
  exists items' item',
    ChemistryLab.frames (replicate 3 (Samples.noHands, 0)) Samples.labHeld
    = Some items' /\
    items' !! 0%nat = Some item' /\
    ChemistryLab.heldBy item' = Some Left.
Proof.
  destruct (absent_hand_keeps_hold Left) as [(_ & _ & Hrun & Htot) _].
  destruct (Htot 3%nat 0 Samples.labHeld) as [items' E].
  assert (Habs : Forall (fun i : TrackingState * R => handOf i.1 Left = None)
                        (replicate 3 (Samples.noHands, 0)))
    by (repeat constructor).
  destruct (Hrun _ Samples.labHeld items' 0%nat _ Habs E eq_refl eq_refl)
    as (item' & Hk & Hh & _).
  exists items', item'. auto.
Defined.

End AbsentHand.

(** ** Grabbing and releasing *)

Section LabGrab.

Import ChemistryLab.

Lemma touch_grabs side hand t item wrist index :
  distanceTo (handPos hand) (position item) < grabDistance item ->
  isPinching hand = true ->
  heldBy item = None \/ heldBy item = Some side ->
  landmarks hand !! 0%nat = Some wrist ->
  landmarks hand !! 8%nat = Some index ->
  touch side hand t item
  = Some (grab side hand t wrist index item, negb (heldBySide item side)).
Proof.
  intros Hd Hp Hh H0 H8. unfold touch.
  apply Rltb_true in Hd. rewrite Hd, Hp, H0, H8.
  assert (unheld item || heldBySide item side = true) as ->.
  { apply orb_true_iff. destruct Hh as [E|E];
      [left; now apply unheld_true | right; now apply heldBySide_true]. }
  reflexivity.
Qed.

Lemma touch_releases side hand t item :
  heldBy item = Some side ->
  isPinching hand = false ->
  touch side hand t item = Some (release item, true).
Proof.
  intros Hh Hp. unfold touch. apply heldBySide_true in Hh.
  rewrite Hp, Hh, andb_false_r. reflexivity.
Qed.

Lemma touch_idles side hand t item :
  grabDistance item <= distanceTo (handPos hand) (position item) \/
  isPinching hand = false \/ heldBy item = Some (other side) ->
  heldBy item <> Some side \/ isPinching hand = true ->
  touch side hand t item = Some (item, false).
Proof.
  intros Hg Hr. unfold touch.
  assert (Rltb (distanceTo (handPos hand) (position item)) (grabDistance item)
          && isPinching hand && (unheld item || heldBySide item side)
          = false) as ->.
  { destruct Hg as [Hd|[Hp|Ho]].
    - apply Rltb_false in Hd. now rewrite Hd.
    - now rewrite Hp, andb_false_r.
    - unfold unheld, heldBySide. rewrite Ho, Side_eqb_sym_other.
      apply andb_false_r. }
  assert (heldBySide item side && negb (isPinching hand) = false) as ->.
  { destruct Hr as [Hh|Hp].
    - destruct (heldBySide item side) eqn:E; [|reflexivity].
      apply heldBySide_true in E. contradiction.
    - rewrite Hp. apply andb_false_r. }
  reflexivity.
Qed.

Lemma touch_total side hand t item :
  (9 <= length (landmarks hand))%nat -> is_Some (touch side hand t item).
Proof.
  intros Hlen. unfold touch.
  destruct (lookup_lt_is_Some_2 (landmarks hand) 0%nat) as [w Hw]; [lia|].
  destruct (lookup_lt_is_Some_2 (landmarks hand) 8%nat) as [i Hi]; [lia|].
  rewrite Hw, Hi. simpl.
  destruct (_ && _); [eauto|]. destruct (_ && _); eauto.
Qed.

Lemma handPass_total hs t side w :
  (forall hand, handOf hs side = Some hand ->
                (9 <= length (landmarks hand))%nat) ->
  is_Some (handPass hs t side w).
Proof.
  intros Hw. unfold handPass. destruct (handOf hs side) as [hand|]; [|eauto].
  assert (Hm : is_Some (mapM (touch side hand t) w.1)).
  { apply mapM_is_Some. apply Forall_forall. intros item _.
    apply touch_total. now apply Hw. }
  destruct Hm as [rs ->]. simpl. eauto.
Qed.

(** With hands that carry their landmarks, as the tracker delivers them,
    a frame never throws. *)
Lemma useFrame_total hs t items :
  (forall side hand, handOf hs side = Some hand ->
                     (9 <= length (landmarks hand))%nat) ->
  is_Some (useFrame hs t items).
Proof.
  intros Hw. unfold useFrame, interaction.
  destruct (handPass_total hs t Left (items, false) (Hw Left)) as [w1 ->].
  simpl.
  destruct (handPass_total hs t Right w1 (Hw Right)) as [w2 ->].
  simpl. eauto.
Qed.

(** A round of a hand, by cases. *)
Lemma Passed_cases hs t side item item' ch :
  Passed hs t side item item' ch ->
  (handOf hs side = None /\ item' = item /\ ch = false) \/
  (exists hand, handOf hs side = Some hand /\
     Touched side hand item item' ch /\ type item' = type item).
Proof.
  unfold Passed. destruct (handOf hs side) as [hand|].
  - intros H. right. exists hand. split; [reflexivity|].
    apply touch_Touched in H as (H & _ & Ht & _). auto.
  - intros [-> ->]. left. auto.
Qed.

(** A hand that is seen and does not pinch holds nothing after its
    round. *)
Lemma Passed_not_pinching hs t side hand item item' ch :
  handOf hs side = Some hand ->
  isPinching hand = false ->
  Passed hs t side item item' ch ->
  heldBy item' <> Some side.
Proof.
  intros Hhand Hp H. apply Passed_cases in H as [(E & _)|(h & E & H & _)];
    rewrite Hhand in E; [discriminate|]. injection E as <-.
  destruct H as [_ Hq _ _ _ | _ _ Hn _ _ | -> Hi].
  - congruence.
  - congruence.
  - intros E. apply Hi in E. congruence.
Qed.

(** The round of a hand gives an item to no other side. *)
Lemma Passed_gives_own_side hs t side item item' ch s :
  Passed hs t side item item' ch ->
  heldBy item' = Some s -> s <> side ->
  item' = item.
Proof.
  intros H Hs Hne. apply Passed_cases in H as [(_ & E & _)|(h & _ & H & _)];
    [exact E|].
  destruct H as [_ _ _ Hg _ | _ _ Hn _ _ | E _]; congruence.
Qed.

(** A hold is new only by a pinch within the capture radius. *)
Lemma Passed_new_hold hs t side item item' ch :
  Passed hs t side item item' ch ->
  heldBy item' = Some side -> heldBy item <> Some side ->
  heldBy item = None /\
  exists hand, handOf hs side = Some hand /\ isPinching hand = true /\
    distanceTo (handPos hand) (position item) < grabDistance item /\
    position item' = handPos hand.
Proof.
  intros H Hs Hne. apply Passed_cases in H as [(_ & E & _)|(h & Eh & H & _)];
    [congruence|].
  destruct H as [Hd Hp [Hn|Hn] _ Hpos | _ _ Hn _ _ | E _]; try congruence.
  split; [exact Hn|]. exists h. auto.
Qed.

End LabGrab.

Section PageGrab.

Import ChemistryPage.

Lemma page_touch_grabs side hand tube wrist index :
  distanceTo (handPos hand) (position tube) < 1.0 ->
  isPinching hand = true ->
  heldBy tube = None \/ heldBy tube = Some side ->
  landmarks hand !! 0%nat = Some wrist ->
  landmarks hand !! 8%nat = Some index ->
  touch side hand tube
  = Some (grab side hand wrist index tube, negb (heldBySide tube side)).
Proof.
  intros Hd Hp Hh H0 H8. unfold touch.
  apply Rltb_true in Hd. rewrite Hd, Hp, H0, H8.
  assert (unheld tube || heldBySide tube side = true) as ->.
  { apply orb_true_iff. destruct Hh as [E|E];
      [left; now apply page_unheld_true | right; now apply page_heldBySide_true]. }
  reflexivity.
Qed.

Lemma page_touch_releases side hand tube :
  heldBy tube = Some side ->
  isPinching hand = false ->
  touch side hand tube = Some (release tube, true).
Proof.
  intros Hh Hp. unfold touch. apply page_heldBySide_true in Hh.
  rewrite Hp, Hh, andb_false_r. reflexivity.
Qed.

Lemma page_touch_idles side hand tube :
  1.0 <= distanceTo (handPos hand) (position tube) \/
  isPinching hand = false \/ heldBy tube = Some (other side) ->
  heldBy tube <> Some side \/ isPinching hand = true ->
  touch side hand tube = Some (tube, false).
Proof.
  intros Hg Hr. unfold touch.
  assert (Rltb (distanceTo (handPos hand) (position tube)) (1.0)
          && isPinching hand && (unheld tube || heldBySide tube side)
          = false) as ->.
  { destruct Hg as [Hd|[Hp|Ho]].
    - apply Rltb_false in Hd. now rewrite Hd.
    - now rewrite Hp, andb_false_r.
    - unfold unheld, heldBySide. rewrite Ho, Side_eqb_sym_other.
      apply andb_false_r. }
  assert (heldBySide tube side && negb (isPinching hand) = false) as ->.
  { destruct Hr as [Hh|Hp].
    - destruct (heldBySide tube side) eqn:E; [|reflexivity].
      apply page_heldBySide_true in E. contradiction.
    - rewrite Hp. apply andb_false_r. }
  reflexivity.
Qed.

Lemma page_touch_total side hand tube :
  (9 <= length (landmarks hand))%nat -> is_Some (touch side hand tube).
Proof.
  intros Hlen. unfold touch.
  destruct (lookup_lt_is_Some_2 (landmarks hand) 0%nat) as [w Hw]; [lia|].
  destruct (lookup_lt_is_Some_2 (landmarks hand) 8%nat) as [i Hi]; [lia|].
  rewrite Hw, Hi. simpl.
  destruct (_ && _); [eauto|]. destruct (_ && _); eauto.
Qed.

Lemma page_handPass_total hs side w :
  (forall hand, handOf hs side = Some hand ->
                (9 <= length (landmarks hand))%nat) ->
  is_Some (handPass hs side w).
Proof.
  intros Hw. unfold handPass. destruct (handOf hs side) as [hand|]; [|eauto].
  assert (Hm : is_Some (mapM (touch side hand) w.1)).
  { apply mapM_is_Some. apply Forall_forall. intros tube _.
    apply page_touch_total. now apply Hw. }
  destruct Hm as [rs ->]. simpl. eauto.
Qed.

Lemma page_useFrame_total hs items :
  (forall side hand, handOf hs side = Some hand ->
                     (9 <= length (landmarks hand))%nat) ->
  is_Some (useFrame hs items).
Proof.
  intros Hw. unfold useFrame, interaction.
  destruct (page_handPass_total hs Left (items, false) (Hw Left)) as [w1 ->].
  simpl.
  destruct (page_handPass_total hs Right w1 (Hw Right)) as [w2 ->].
  simpl. eauto.
Qed.

Lemma page_Passed_cases hs side tube tube' ch :
  Passed hs side tube tube' ch ->
  (handOf hs side = None /\ tube' = tube /\ ch = false) \/
  (exists hand, handOf hs side = Some hand /\
     Touched side hand tube tube' ch).
Proof.
  unfold Passed. destruct (handOf hs side) as [hand|].
  - intros H. right. exists hand. split; [reflexivity|].
    apply page_touch_Touched in H as (H & _). auto.
  - intros [-> ->]. left. auto.
Qed.

Lemma page_Passed_not_pinching hs side hand tube tube' ch :
  handOf hs side = Some hand ->
  isPinching hand = false ->
  Passed hs side tube tube' ch ->
  heldBy tube' <> Some side.
Proof.
  intros Hhand Hp H. apply page_Passed_cases in H as [(E & _)|(h & E & H)];
    rewrite Hhand in E; [discriminate|]. injection E as <-.
  destruct H as [_ Hq _ _ _ | _ _ Hn _ _ | -> Hi].
  - congruence.
  - congruence.
  - intros E. apply Hi in E. congruence.
Qed.

Lemma page_Passed_gives_own_side hs side tube tube' ch s :
  Passed hs side tube tube' ch ->
  heldBy tube' = Some s -> s <> side ->
  tube' = tube.
Proof.
  intros H Hs Hne. apply page_Passed_cases in H as [(_ & E & _)|(h & _ & H)];
    [exact E|].
  destruct H as [_ _ _ Hg _ | _ _ Hn _ _ | E _]; congruence.
Qed.

Lemma page_Passed_new_hold hs side tube tube' ch :
  Passed hs side tube tube' ch ->
  heldBy tube' = Some side -> heldBy tube <> Some side ->
  heldBy tube = None /\
  exists hand, handOf hs side = Some hand /\ isPinching hand = true /\
    distanceTo (handPos hand) (position tube) < 1.0 /\
    position tube' = handPos hand.
Proof.
  intros H Hs Hne. apply page_Passed_cases in H as [(_ & E & _)|(h & Eh & H)];
    [congruence|].
  destruct H as [Hd Hp [Hn|Hn] _ Hpos | _ _ Hn _ _ | E _]; try congruence.
  split; [exact Hn|]. exists h. auto.
Qed.

End PageGrab.

(** ** The two rounds of a frame, seen from one object *)

Section LabRounds.

Import ChemistryLab.

Variables (hs : TrackingState) (t : R).
Variables (item i1 i2 : Equipment) (c1 c2 : bool).
Hypothesis HL : Passed hs t Left item i1 c1.
Hypothesis HR : Passed hs t Right i1 i2 c2.

Lemma rounds_new_hold side :
  heldBy i2 = Some side -> heldBy item <> Some side ->
  exists hand, handOf hs side = Some hand /\ isPinching hand = true /\
    position i2 = handPos hand /\
    (distanceTo (handPos hand) (position item) < grabDistance item \/
     (side = Right /\ heldBy item = Some Left /\
      distanceTo (handPos hand) (snapBack (type item) (position item))
      < grabDistance item)).
Proof.
  intros H2 Hne. destruct side.
  - assert (E : i2 = i1)
      by (eapply Passed_gives_own_side; [exact HR | exact H2 | discriminate]).
    subst i2.
    destruct (Passed_new_hold _ _ _ _ _ _ HL H2 Hne)
      as (_ & hand & Hh & Hp & Hd & Hpos).
    exists hand. auto.
  - assert (Hn1 : heldBy i1 <> Some Right).
    { intros E1.
      assert (i1 = item)
        by (eapply Passed_gives_own_side; [exact HL | exact E1 | discriminate]).
      congruence. }
    destruct (Passed_new_hold _ _ _ _ _ _ HR H2 Hn1)
      as (Hnone & hand & Hh & Hp & Hd & Hpos).
    exists hand. repeat split; auto.
    destruct (Passed_cases _ _ _ _ _ _ HL) as [(_ & E & _)|(lh & _ & HT & Hty)].
    + subst i1. now left.
    + destruct HT as [_ _ _ Hg _ | Hheld _ _ Hsnap _ | E _].
      * congruence.
      * right. unfold grabDistance in *. rewrite Hty, Hsnap in Hd. auto.
      * subst i1. now left.
Qed.

Lemma rounds_keep side :
  heldBy item = Some side ->
  handOf hs side = None \/
  (exists hand, handOf hs side = Some hand /\ isPinching hand = true) ->
  heldBy i2 = Some side.
Proof.
  intros Hh Hhand.
  destruct (Passed_keeps_or_releases hs t side item i1 i2 c1 c2 Hh HL HR)
    as [Hk|(hand & E & Hp)]; [exact Hk|].
  destruct Hhand as [Hn|(hand' & E' & Hp')]; congruence.
Qed.

Lemma rounds_release side hand :
  heldBy item = Some side ->
  handOf hs side = Some hand -> isPinching hand = false ->
  heldBy i2 <> Some side /\
  (i2 = release item \/
   (side = Left /\
    exists rh, rightHand hs = Some rh /\ isPinching rh = true /\
      distanceTo (handPos rh) (snapBack (type item) (position item))
      < grabDistance item /\
      heldBy i2 = Some Right /\ position i2 = handPos rh)).
Proof.
  intros Hh Hhand Hp. destruct side.
  - assert (E1 : i1 = release item).
    { unfold Passed in HL. rewrite Hhand in HL.
      rewrite (touch_releases Left hand t item Hh Hp) in HL. congruence. }
    destruct (Passed_cases _ _ _ _ _ _ HR) as [(_ & E & _)|(rh & Er & HT & _)].
    + subst. split; [discriminate | now left].
    + destruct HT as [Hd Hq _ Hg Hpos | Hheld _ _ _ _ | E _].
      * split; [congruence|]. right. split; [reflexivity|].
        exists rh. subst i1. simpl in Hd. unfold grabDistance in *.
        simpl in Hd. auto.
      * subst i1. discriminate.
      * subst. split; [discriminate | now left].
  - assert (E1 : i1 = item).
    { apply (Passed_other hs t Right item i1 c1 Hh HL). }
    subst i1. unfold Passed in HR. rewrite Hhand in HR.
    rewrite (touch_releases Right hand t item Hh Hp) in HR.
    injection HR as <- _. split; [discriminate | now left].
Qed.

End LabRounds.

Section PageRounds.

Import ChemistryPage.

Variables (hs : TrackingState).
Variables (tube i1 i2 : TestTube) (c1 c2 : bool).
Hypothesis HL : Passed hs Left tube i1 c1.
Hypothesis HR : Passed hs Right i1 i2 c2.

Lemma page_rounds_new_hold side :
  heldBy i2 = Some side -> heldBy tube <> Some side ->
  exists hand, handOf hs side = Some hand /\ isPinching hand = true /\
    position i2 = handPos hand /\
    (distanceTo (handPos hand) (position tube) < 1.0 \/
     (side = Right /\ heldBy tube = Some Left /\
      distanceTo (handPos hand) (position (release tube)) < 1.0)).
Proof.
  intros H2 Hne. destruct side.
  - assert (E : i2 = i1)
      by (eapply page_Passed_gives_own_side;
          [exact HR | exact H2 | discriminate]).
    subst i2.
    destruct (page_Passed_new_hold _ _ _ _ _ HL H2 Hne)
      as (_ & hand & Hh & Hp & Hd & Hpos).
    exists hand. auto.
  - assert (Hn1 : heldBy i1 <> Some Right).
    { intros E1.
      assert (i1 = tube)
        by (eapply page_Passed_gives_own_side;
            [exact HL | exact E1 | discriminate]).
      congruence. }
    destruct (page_Passed_new_hold _ _ _ _ _ HR H2 Hn1)
      as (Hnone & hand & Hh & Hp & Hd & Hpos).
    exists hand. repeat split; auto.
    destruct (page_Passed_cases _ _ _ _ _ HL) as [(_ & E & _)|(lh & _ & HT)].
    + subst i1. now left.
    + destruct HT as [_ _ _ Hg _ | Hheld _ _ Hsnap _ | E _].
      * congruence.
      * right. simpl. rewrite Hsnap in Hd. auto.
      * subst i1. now left.
Qed.

Lemma page_rounds_keep side :
  heldBy tube = Some side ->
  handOf hs side = None \/
  (exists hand, handOf hs side = Some hand /\ isPinching hand = true) ->
  heldBy i2 = Some side.
Proof.
  intros Hh Hhand.
  destruct (page_Passed_keeps_or_releases hs side tube i1 i2 c1 c2 Hh HL HR)
    as [Hk|(hand & E & Hp)]; [exact Hk|].
  destruct Hhand as [Hn|(hand' & E' & Hp')]; congruence.
Qed.

Lemma page_rounds_release side hand :
  heldBy tube = Some side ->
  handOf hs side = Some hand -> isPinching hand = false ->
  heldBy i2 <> Some side /\
  (i2 = release tube \/
   (side = Left /\
    exists rh, rightHand hs = Some rh /\ isPinching rh = true /\
      distanceTo (handPos rh) (position (release tube)) < 1.0 /\
      heldBy i2 = Some Right /\ position i2 = handPos rh)).
Proof.
  intros Hh Hhand Hp. destruct side.
  - assert (E1 : i1 = release tube).
    { unfold Passed in HL. rewrite Hhand in HL.
      rewrite (page_touch_releases Left hand tube Hh Hp) in HL. congruence. }
    destruct (page_Passed_cases _ _ _ _ _ HR) as [(_ & E & _)|(rh & Er & HT)].
    + subst. split; [discriminate | now left].
    + destruct HT as [Hd Hq _ Hg Hpos | Hheld _ _ _ _ | E _].
      * split; [congruence|]. right. split; [reflexivity|].
        exists rh. subst i1. auto.
      * subst i1. discriminate.
      * subst. split; [discriminate | now left].
  - assert (E1 : i1 = tube).
    { apply (page_Passed_other hs Right tube i1 c1 Hh HL). }
    subst i1. unfold Passed in HR. rewrite Hhand in HR.
    rewrite (page_touch_releases Right hand tube Hh Hp) in HR.
    injection HR as <- _. split; [discriminate | now left].
Qed.

End PageRounds.

(** ** The slots of the tracking state *)

Section Slots.

Import HandTracker.

Lemma detections_sides st result l r hands :
  (forall h, l = Some h -> handedness h = Left) ->
  (forall h, r = Some h -> handedness h = Right) ->
  fold_left (detectionStep st) result (Some (l, r)) = Some hands ->
  (forall h, hands.1 = Some h -> handedness h = Left) /\
  (forall h, hands.2 = Some h -> handedness h = Right).
Proof.
  revert l r. induction result as [|[lms hd] result IH]; intros l r Hl Hr H.
  - injection H as <-. auto.
  - cbn [fold_left] in H.
    destruct (detectionStep st (Some (l, r)) (lms, hd)) as [[l' r']|] eqn:E.
    + apply (IH l' r'); [| |exact H];
        unfold detectionStep in E; simpl in E;
        apply bind_Some in E as (p & Hp & E);
        apply processHand_Some in Hp
          as (l4 & l8 & l0 & raw & n & _ & _ & _ & _ & _ & _ & _ & _ & Hhd & _);
        destruct hd; injection E as <- <-; intros h Hh;
        try (injection Hh as E'; subst h; exact Hhd); auto.
    + exfalso. clear -H. induction result as [|d result IH]; [discriminate|].
      apply IH. exact H.
Qed.

Lemma predict_sides st result st' :
  predict st result = Some st' ->
  (forall h, leftHand st' = Some h -> handedness h = Left) /\
  (forall h, rightHand st' = Some h -> handedness h = Right).
Proof.
  unfold predict. intros H. apply bind_Some in H as (hands & Hf & H).
  injection H as <-. simpl.
  apply (detections_sides st result None None hands); try discriminate.
  exact Hf.
Qed.

End Slots.

(** ** The snap-back *)

Section SnapBack.

Import ChemistryLab.

Lemma nearest_fold x l init :
  let step := fun prev curr : R =>
    if Rltb (Rabs (curr - x)) (Rabs (prev - x)) then curr else prev in
  let r := fold_left step l init in
  (r = init \/ r ∈ l) /\
  (forall y, y = init \/ y ∈ l -> Rabs (r - x) <= Rabs (y - x)).
Proof.
  intros step. revert init. induction l as [|c l IH]; intros init; simpl.
  - split; [now left|]. intros y [->|Hy]; [lra|]. inversion Hy.
  - specialize (IH (step init c)). destruct IH as [Hin Hmin].
    assert (Hs : (step init c = init \/ step init c = c) /\
                 Rabs (step init c - x) <= Rabs (init - x) /\
                 Rabs (step init c - x) <= Rabs (c - x)).
    { unfold step. destruct (Rltb _ _) eqn:E.
      - apply Rltb_true in E. split; [now right|]. lra.
      - apply Rltb_false in E. split; [now left|]. lra. }
    destruct Hs as (Hs & Hi & Hc). split.
    + destruct Hin as [->|Hin].
      * destruct Hs as [->| ->]; [now left | right; constructor].
      * right. now constructor.
    + intros y [->|Hy].
      * etransitivity; [apply Hmin; now left | exact Hi].
      * inversion Hy; subst.
        -- etransitivity; [apply Hmin; now left | exact Hc].
        -- apply Hmin. now right.
Qed.

(** [nearestPos] is a slot of the rack, and no slot is nearer. *)
Lemma nearestPos_spec x :
  nearestPos x ∈ rackPositions /\
  forall r, r ∈ rackPositions -> Rabs (nearestPos x - x) <= Rabs (r - x).
Proof.
  unfold nearestPos.
  destruct (nearest_fold x (tail rackPositions) (hd 0 rackPositions))
    as [Hin Hmin]. cbv zeta in *. split.
  - destruct Hin as [->|Hin]; [constructor | now constructor].
  - intros r Hr. apply Hmin. inversion Hr; subst; auto.
Qed.

Lemma snapBack_spec ty p :
  vz (snapBack ty p) = vz p /\
  vy (snapBack ty p) = Rmin (vy p) (-1.5) /\
  vx (snapBack ty p)
  = match ty with
    | TEST_TUBE =>
        if Rgtb (vy p) (-1.5) then lerp (vx p) (nearestPos (vx p)) 0.5
        else vx p
    | _ => vx p
    end.
Proof.
  unfold snapBack.
  destruct ty; destruct (Rgtb (vy p) (-1.5)) eqn:E; simpl;
    repeat split; try reflexivity;
    first [apply Rgtb_true in E | apply Rgtb_false in E];
    unfold Rmin; destruct (Rle_dec _ _); lra.
Qed.

End SnapBack.

(** ** Holding follows the pinch *)

Section Holding.

(** C3, as the code has it.  The left slot of the tracking state only
    holds a hand labelled Left and the right slot one labelled Right.  In
    the lab and on the page, an object comes to be held by a side only in
    a frame in which that side's hand is seen, pinches and is within the
    capture radius of the object as it stands when that hand's round runs
    (for the right hand that may be the place the left hand has just
    released it to); once held it stays held while that hand pinches or is
    not seen at all; and it stops being held by that side in any frame in
    which that hand is seen and does not pinch, whatever the other hand
    does. *)
Theorem hold_follows_pinch :
  (forall st result st',
     HandTracker.predict st result = Some st' ->
     (forall h, leftHand st' = Some h -> handedness h = Left) /\
     (forall h, rightHand st' = Some h -> handedness h = Right)) /\
  (forall hs t items items' k item item' side,
     ChemistryLab.useFrame hs t items = Some items' ->
     items !! k = Some item -> items' !! k = Some item' ->
     (ChemistryLab.heldBy item' = Some side ->
      ChemistryLab.heldBy item <> Some side ->
      exists hand, handOf hs side = Some hand /\ isPinching hand = true /\
        ChemistryLab.position item' = ChemistryLab.handPos hand /\
        (distanceTo (ChemistryLab.handPos hand) (ChemistryLab.position item)
         < ChemistryLab.grabDistance item \/
         (side = Right /\ ChemistryLab.heldBy item = Some Left /\
          distanceTo (ChemistryLab.handPos hand)
            (ChemistryLab.position (ChemistryLab.release item))
          < ChemistryLab.grabDistance item))) /\
     (ChemistryLab.heldBy item = Some side ->
      handOf hs side = None \/
      (exists hand, handOf hs side = Some hand /\ isPinching hand = true) ->
      ChemistryLab.heldBy item' = Some side) /\
     (forall hand, ChemistryLab.heldBy item = Some side ->
      handOf hs side = Some hand -> isPinching hand = false ->
      ChemistryLab.heldBy item' <> Some side)) /\
  (forall hs tubes tubes' k tube tube' side,
     ChemistryPage.useFrame hs tubes = Some tubes' ->
     tubes !! k = Some tube -> tubes' !! k = Some tube' ->
     (ChemistryPage.heldBy tube' = Some side ->
      ChemistryPage.heldBy tube <> Some side ->
      exists hand, handOf hs side = Some hand /\ isPinching hand = true /\
        ChemistryPage.position tube' = ChemistryPage.handPos hand /\
        (distanceTo (ChemistryPage.handPos hand) (ChemistryPage.position tube)
         < 1.0 \/
         (side = Right /\ ChemistryPage.heldBy tube = Some Left /\
          distanceTo (ChemistryPage.handPos hand)
            (ChemistryPage.position (ChemistryPage.release tube))
          < 1.0))) /\
     (ChemistryPage.heldBy tube = Some side ->
      handOf hs side = None \/
      (exists hand, handOf hs side = Some hand /\ isPinching hand = true) ->
      ChemistryPage.heldBy tube' = Some side) /\
     (forall hand, ChemistryPage.heldBy tube = Some side ->
      handOf hs side = Some hand -> isPinching hand = false ->
      ChemistryPage.heldBy tube' <> Some side)).
Proof.
  split; [exact predict_sides|]. split.
  - intros hs t items items' k item item' side H Hk Hk'.
    apply useFrame_lookup in H as [_ H].
    destruct (H k item Hk) as (i1 & i2 & it & c1 & c2 & H' & H1 & H2 & Hs).
    rewrite Hk' in H'. injection H' as <-.
    destruct Hs as (_ & _ & Hpos & _ & Hheld & _).
    rewrite Hheld, Hpos. split; [|split].
    + intros Hnew Hold.
      destruct (rounds_new_hold hs t item i1 i2 c1 c2 H1 H2 side Hnew Hold)
        as (hand & Hh & Hp & Hq & Hd).
      exists hand. repeat split; auto.
    + apply (rounds_keep hs t item i1 i2 c1 c2 H1 H2).
    + intros hand Hh Hhand Hp.
      apply (rounds_release hs t item i1 i2 c1 c2 H1 H2 side hand Hh Hhand Hp).
  - intros hs tubes tubes' k tube tube' side H Hk Hk'.
    apply page_useFrame_lookup in H as [_ H].
    destruct (H k tube Hk) as (i1 & i2 & it & c1 & c2 & H' & H1 & H2 & Hs).
    rewrite Hk' in H'. injection H' as <-.
    destruct Hs as (_ & Hpos & _ & _ & _ & _ & Hheld & _).
    rewrite Hheld, Hpos. split; [|split].
    + intros Hnew Hold.
      destruct (page_rounds_new_hold hs tube i1 i2 c1 c2 H1 H2 side Hnew Hold)
        as (hand & Hh & Hp & Hq & Hd).
      exists hand. repeat split; auto.
    + apply (page_rounds_keep hs tube i1 i2 c1 c2 H1 H2).
    + intros hand Hh Hhand Hp.
      apply (page_rounds_release hs tube i1 i2 c1 c2 H1 H2 side hand
               Hh Hhand Hp).
Qed.

End Holding.

Section HoldingRuns.

Import ChemistryLab.

Lemma sample_hand_landmarks side p x y :
  (9 <= length (landmarks (Samples.handAt side p x y)))%nat.
Proof. simpl. lia. Qed.

Lemma onlyLeft_total h t items :
  (9 <= length (landmarks h))%nat ->
  is_Some (useFrame (Samples.onlyLeft h) t items).
Proof.
  intros Hl. apply useFrame_total. intros [|] hand; simpl; [|discriminate].
  now intros [= <-].
Qed.

(** A frame in which the left hand alone is seen, pinching within reach
    of a free item: the item is in that hand after the frame, at the
    place of the hand. *)
Lemma onlyLeft_grabs h t items items' k item :
  (9 <= length (landmarks h))%nat ->
  useFrame (Samples.onlyLeft h) t items = Some items' ->
  items !! k = Some item ->
  heldBy item = None ->
  isPinching h = true ->
  distanceTo (handPos h) (position item) < grabDistance item ->
  exists item', items' !! k = Some item' /\
    heldBy item' = Some Left /\ position item' = handPos h /\
    type item' = type item.
Proof.
  intros Hl H Hk Hfree Hp Hd.
  apply useFrame_lookup in H as [_ H].
  destruct (H k item Hk) as (i1 & i2 & item' & c1 & c2 & Hk' & H1 & H2 & Hs).
  exists item'. split; [exact Hk'|].
  unfold Passed in H1, H2. simpl in H1, H2. destruct H2 as [-> _].
  destruct (lookup_lt_is_Some_2 (landmarks h) 0%nat) as [w Hw]; [lia|].
  destruct (lookup_lt_is_Some_2 (landmarks h) 8%nat) as [i Hi]; [lia|].
  rewrite (touch_grabs Left h t item w i Hd Hp (or_introl Hfree) Hw Hi) in H1.
  injection H1 as <- _.
  destruct Hs as (_ & Hty & Hpos & _ & Hheld & _).
  rewrite Hheld, Hpos, Hty. auto.
Qed.

(** C3 as the specification states it fails: the left hand takes the
    first test tube and is then no longer seen; after the frame without
    any hand the tube is still held by the left side. *)
Lemma hold_outlives_pinch_counterexample :
  exists items' item',
    frames [(Samples.graspTube1, 0); (Samples.noHands, 0)] INITIAL_ITEMS
    = Some items' /\
    items' !! 0%nat = Some item' /\
    heldBy item' = Some Left /\
    ~ (exists hand, handOf Samples.noHands Left = Some hand /\
                    isPinching hand = true).
Proof.
  set (h := Samples.handAt Left true (11 / 14) 0.6).
  destruct (onlyLeft_total h 0 INITIAL_ITEMS (sample_hand_landmarks _ _ _ _))
    as [items1 E1].
  assert (Hd : distanceTo (handPos h) (vector3 (-4) (-1) 0) < 0.8).
  { apply distanceTo_lt; [lra|].
    unfold distanceToSquared, handPos, h. simpl. lra. }
  destruct (onlyLeft_grabs h 0 INITIAL_ITEMS items1 0%nat _
              (sample_hand_landmarks _ _ _ _) E1 eq_refl eq_refl eq_refl Hd)
    as (item1 & Hk1 & Hh1 & _).
  destruct (frames_noHands 1 0 items1) as [items2 E2].
  assert (Hrun : frames [(Samples.graspTube1, 0); (Samples.noHands, 0)]
                        INITIAL_ITEMS = Some items2).
  { cbn [frames]. unfold Samples.graspTube1. fold h. rewrite E1. exact E2. }
  assert (Habs : Forall (fun i : TrackingState * R => handOf i.1 Left = None)
                        (replicate 1 (Samples.noHands, 0)))
    by (repeat constructor).
  destruct (lab_absent_frames _ Left Habs items1 items2 0%nat item1
              E2 Hk1 Hh1) as (item2 & Hk2 & Hs2).
  exists items2, item2. split; [exact Hrun|]. split; [exact Hk2|].
  split.
  - destruct Hs2 as (_ & _ & _ & _ & E & _). congruence.
  - intros (hand & E & _). discriminate E.
Qed.

Lemma hold_follows_pinch_witness :
  exists items' item',
    useFrame Samples.lowOpen 0 Samples.labHeld = Some items' /\
    items' !! 0%nat = Some item' /\
    heldBy item' <> Some Left.
Proof.
  destruct (onlyLeft_total (Samples.handAt Left false 0.75 0.66) 0
              Samples.labHeld (sample_hand_landmarks _ _ _ _))
    as [items' E].
  destruct (useFrame_lookup _ _ _ _ E) as [_ Hl].
  destruct (Hl 0%nat _ eq_refl) as (i1 & i2 & item' & c1 & c2 & Hk & _).
  exists items', item'. split; [exact E|]. split; [exact Hk|].
  destruct hold_follows_pinch as (_ & Hlab & _).
  destruct (Hlab Samples.lowOpen 0 Samples.labHeld items' 0%nat _ item' Left
              E eq_refl Hk) as (_ & _ & Hrel).
  apply (Hrel (Samples.handAt Left false 0.75 0.66)); reflexivity.
Defined.

End HoldingRuns.

(** ** The hold state machine *)

Section StateMachine.

(** C8, as the code has it.  An object held by a side stays with that
    side through every frame in which that side's hand pinches or is not
    seen, whatever the other hand does: a round of the other hand leaves
    such an object untouched, and a round only ever gives an object to
    its own side, from free or from that same side.  In a frame in which
    the holding hand is seen not pinching the object leaves that side,
    its rotation is reset and the snap-back runs once; only the right
    hand, whose round comes second, can take it up again in the same
    frame.  The snap-back of the lab lowers an object above height -1.5
    to -1.5 and, if it is a test tube, moves it halfway to the nearest
    rack slot; an object at or below -1.5 stays where it is, and a flask
    keeps its horizontal place.  The snap-back of the page sets the
    height to 0 and keeps the horizontal place. *)
Theorem hold_state_machine :
  (forall hs t items items' k item item' side,
     ChemistryLab.useFrame hs t items = Some items' ->
     items !! k = Some item -> items' !! k = Some item' ->
     ChemistryLab.heldBy item = Some side ->
     (handOf hs side = None \/
      (exists hand, handOf hs side = Some hand /\ isPinching hand = true) ->
      ChemistryLab.heldBy item' = Some side) /\
     (forall hand, handOf hs side = Some hand -> isPinching hand = false ->
      ChemistryLab.heldBy item' <> Some side /\
      ((ChemistryLab.heldBy item' = None /\
        ChemistryLab.position item'
        = ChemistryLab.snapBack (ChemistryLab.type item)
            (ChemistryLab.position item) /\
        ChemistryLab.rotation item' = ChemistryLab.euler 0 0 0) \/
       (side = Left /\
        exists rh, rightHand hs = Some rh /\ isPinching rh = true /\
          distanceTo (ChemistryLab.handPos rh)
            (ChemistryLab.snapBack (ChemistryLab.type item)
               (ChemistryLab.position item))
          < ChemistryLab.grabDistance item /\
          ChemistryLab.heldBy item' = Some Right /\
          ChemistryLab.position item' = ChemistryLab.handPos rh)))) /\
  (forall side hand t item item' ch,
     ChemistryLab.touch side hand t item = Some (item', ch) ->
     (ChemistryLab.heldBy item = Some (other side) -> item' = item) /\
     (ChemistryLab.heldBy item' = Some side ->
      ChemistryLab.heldBy item = None \/
      ChemistryLab.heldBy item = Some side)) /\
  (forall ty p,
     vz (ChemistryLab.snapBack ty p) = vz p /\
     vy (ChemistryLab.snapBack ty p) = Rmin (vy p) (-1.5) /\
     vx (ChemistryLab.snapBack ty p)
     = match ty with
       | ChemistryLab.TEST_TUBE =>
           if Rgtb (vy p) (-1.5)
           then lerp (vx p) (ChemistryLab.nearestPos (vx p)) 0.5
           else vx p
       | _ => vx p
       end) /\
  (forall x,
     ChemistryLab.nearestPos x ∈ ChemistryLab.rackPositions /\
     forall r, r ∈ ChemistryLab.rackPositions ->
       Rabs (ChemistryLab.nearestPos x - x) <= Rabs (r - x)) /\
  (forall hs tubes tubes' k tube tube' side,
     ChemistryPage.useFrame hs tubes = Some tubes' ->
     tubes !! k = Some tube -> tubes' !! k = Some tube' ->
     ChemistryPage.heldBy tube = Some side ->
     (handOf hs side = None \/
      (exists hand, handOf hs side = Some hand /\ isPinching hand = true) ->
      ChemistryPage.heldBy tube' = Some side) /\
     (forall hand, handOf hs side = Some hand -> isPinching hand = false ->
      ChemistryPage.heldBy tube' <> Some side /\
      ((ChemistryPage.heldBy tube' = None /\
        ChemistryPage.position tube'
        = ChemistryPage.vector3 (vx (ChemistryPage.position tube)) 0
            (vz (ChemistryPage.position tube)) /\
        ChemistryPage.rotation tube' = ChemistryPage.euler 0 0 0) \/
       (side = Left /\
        exists rh, rightHand hs = Some rh /\ isPinching rh = true /\
          ChemistryPage.heldBy tube' = Some Right /\
          ChemistryPage.position tube' = ChemistryPage.handPos rh)))) /\
  (forall side hand tube tube' ch,
     ChemistryPage.touch side hand tube = Some (tube', ch) ->
     (ChemistryPage.heldBy tube = Some (other side) -> tube' = tube) /\
     (ChemistryPage.heldBy tube' = Some side ->
      ChemistryPage.heldBy tube = None \/
      ChemistryPage.heldBy tube = Some side)).
Proof.
  split; [|split; [|split; [|split; [|split]]]].
  - intros hs t items items' k item item' side H Hk Hk' Hh.
    apply useFrame_lookup in H as [_ H].
    destruct (H k item Hk) as (i1 & i2 & it & c1 & c2 & H' & H1 & H2 & Hs).
    rewrite Hk' in H'. injection H' as <-.
    destruct Hs as (_ & _ & Hpos & Hrot & Hheld & _).
    rewrite Hheld, Hpos, Hrot. split.
    + apply (rounds_keep hs t item i1 i2 c1 c2 H1 H2 side Hh).
    + intros hand Hhand Hp.
      destruct (rounds_release hs t item i1 i2 c1 c2 H1 H2 side hand
                  Hh Hhand Hp) as [Hne [->|(-> & rh & Hr)]].
      * split; [exact Hne|]. left. simpl. auto.
      * split; [exact Hne|]. right. split; [reflexivity|]. exists rh.
        intuition.
  - intros side hand t item item' ch H. apply touch_Touched in H as [H _].
    split.
    + intros Ho.
      destruct H as [_ _ [E|E] _ _ | E _ _ _ _ | E _];
        try (rewrite Ho in E; destruct side; discriminate); auto.
    + intros Hs. destruct H as [_ _ Hfrom _ _ | _ _ Hn _ _ | -> _];
        [exact Hfrom | congruence | now right].
  - exact snapBack_spec.
  - exact nearestPos_spec.
  - intros hs tubes tubes' k tube tube' side H Hk Hk' Hh.
    apply page_useFrame_lookup in H as [_ H].
    destruct (H k tube Hk) as (i1 & i2 & it & c1 & c2 & H' & H1 & H2 & Hs).
    rewrite Hk' in H'. injection H' as <-.
    destruct Hs as (_ & Hpos & Hrot & _ & _ & _ & Hheld & _).
    rewrite Hheld, Hpos, Hrot. split.
    + apply (page_rounds_keep hs tube i1 i2 c1 c2 H1 H2 side Hh).
    + intros hand Hhand Hp.
      destruct (page_rounds_release hs tube i1 i2 c1 c2 H1 H2 side hand
                  Hh Hhand Hp) as [Hne [->|(-> & rh & Hr)]].
      * split; [exact Hne|]. left. simpl. auto.
      * split; [exact Hne|]. right. split; [reflexivity|]. exists rh.
        intuition.
  - intros side hand tube tube' ch H.
    apply page_touch_Touched in H as [H _]. split.
    + intros Ho.
      destruct H as [_ _ [E|E] _ _ | E _ _ _ _ | E _];
        try (rewrite Ho in E; destruct side; discriminate); auto.
    + intros Hs. destruct H as [_ _ Hfrom _ _ | _ _ Hn _ _ | -> _];
        [exact Hfrom | congruence | now right].
Qed.

End StateMachine.

Section StateMachineRuns.

Import ChemistryLab.

Lemma nearestPos_low : nearestPos (-3.5) = -4.
Proof.
  destruct (nearestPos_spec (-3.5)) as [Hin Hmin].
  assert (Hb : Rabs (nearestPos (-3.5) - -3.5) <= 0.5).
  { etransitivity; [apply (Hmin (-4)); constructor|].
    unfold Rabs. destruct (Rcase_abs _); lra. }
  unfold rackPositions in Hin.
  repeat (apply elem_of_cons in Hin as [Hin|Hin];
          [try exact Hin; rewrite Hin in Hb; exfalso; revert Hb;
           unfold Rabs; destruct (Rcase_abs _); lra|]).
  inversion Hin.
Qed.

(** C8 as the specification states it fails: the left hand takes the
    first test tube low in the picture and opens; the tube is released
    below the rack level, so it is neither raised to that level nor moved
    towards the nearest slot of the rack. *)
Lemma release_below_rack_counterexample :
  exists items' item',
    frames [(Samples.lowGrasp, 0); (Samples.lowOpen, 0)] INITIAL_ITEMS
    = Some items' /\
    items' !! 0%nat = Some item' /\
    heldBy item' = None /\
    vx (position item') = -3.5 /\
    vy (position item') = -1.6 /\
    nearestPos (-3.5) = -4 /\
    vx (position item') <> lerp (-3.5) (nearestPos (-3.5)) 0.5.
Proof.
  set (h := Samples.handAt Left true 0.75 0.66).
  set (h2 := Samples.handAt Left false 0.75 0.66).
  destruct (onlyLeft_total h 0 INITIAL_ITEMS (sample_hand_landmarks _ _ _ _))
    as [items1 E1].
  assert (Hd : distanceTo (handPos h) (vector3 (-4) (-1) 0) < 0.8).
  { apply distanceTo_lt; [lra|].
    unfold distanceToSquared, handPos, h. simpl. lra. }
  destruct (onlyLeft_grabs h 0 INITIAL_ITEMS items1 0%nat _
              (sample_hand_landmarks _ _ _ _) E1 eq_refl eq_refl eq_refl Hd)
    as (item1 & Hk1 & Hh1 & Hp1 & Hty1).
  destruct (onlyLeft_total h2 0 items1 (sample_hand_landmarks _ _ _ _))
    as [items2 E2].
  destruct (useFrame_lookup _ _ _ _ E2) as [_ Hl].
  destruct (Hl 0%nat item1 Hk1) as (i1 & i2 & item2 & c1 & c2 & Hk2 & H1 & H2 & Hs).
  destruct (rounds_release _ _ _ _ _ _ _ H1 H2 Left h2 Hh1 eq_refl eq_refl)
    as [_ [->|(_ & rh & Hr & _)]]; [|discriminate Hr].
  destruct Hs as (_ & _ & Hpos & _ & Hheld & _). simpl in Hpos, Hheld.
  rewrite Hp1, Hty1 in Hpos. simpl in Hpos.
  assert (Elow : Rgtb ((0.5 - 0.66) * 10) (-1.5) = false)
    by (apply Rgtb_false; lra).
  unfold snapBack in Hpos. cbn [vy handPos vector3 pinchPosition h
    Samples.handAt] in Hpos. rewrite Elow in Hpos.
  exists items2, item2.
  split; [cbn [frames]; unfold Samples.lowGrasp, Samples.lowOpen;
          fold h h2; rewrite E1; simpl; rewrite E2; reflexivity|].
  split; [exact Hk2|]. split; [exact Hheld|].
  rewrite Hpos, nearestPos_low. unfold lerp. simpl.
  repeat split; lra.
Qed.

Lemma hold_state_machine_witness :
  exists items' item',
    useFrame Samples.lowOpen 0 Samples.labHeld = Some items' /\
    items' !! 0%nat = Some item' /\
    heldBy item' = None /\ rotation item' = euler 0 0 0.
Proof.
  destruct (onlyLeft_total (Samples.handAt Left false 0.75 0.66) 0
              Samples.labHeld (sample_hand_landmarks _ _ _ _))
    as [items' E].
  destruct (useFrame_lookup _ _ _ _ E) as [_ Hl].
  destruct (Hl 0%nat _ eq_refl) as (i1 & i2 & item' & c1 & c2 & Hk & _).
  exists items', item'. split; [exact E|]. split; [exact Hk|].
  destruct hold_state_machine as (Hlab & _).
  destruct (Hlab Samples.lowOpen 0 Samples.labHeld items' 0%nat _ item' Left
              E eq_refl Hk eq_refl) as (_ & Hrel).
  destruct (Hrel (Samples.handAt Left false 0.75 0.66) eq_refl eq_refl)
    as [_ [(Hn & _ & Hr)|(_ & rh & Er & _)]]; [auto | discriminate Er].
Defined.

End StateMachineRuns.

(** ** The chemistry lab: pouring *)

Section Pouring.

Import ChemistryLab.

Lemma pourInto_self i w : pourInto i w i = w.
Proof. unfold pourInto. now rewrite Nat.eqb_refl. Qed.

Lemma pourInto_far i w j source target :
  w.1 !! i = Some source -> w.1 !! j = Some target ->
  inReach source target = false ->
  pourInto i w j = w.
Proof.
  intros Hi Hj Hr. unfold pourInto. rewrite Hi, Hj, Hr.
  now destruct (i =? j)%nat.
Qed.

Lemma pourInto_near i w j source target :
  i <> j ->
  w.1 !! i = Some source -> w.1 !! j = Some target ->
  inReach source target = true ->
  pourInto i w j
  = (<[j := receive (color source) target]> (<[i := drain source]> w.1),
     true).
Proof.
  intros Hij Hi Hj Hr. unfold pourInto. rewrite Hi, Hj, Hr.
  apply Nat.eqb_neq in Hij. now rewrite Hij.
Qed.

Lemma pourFrom_idle w i source :
  w.1 !! i = Some source ->
  heldBy source = None \/ liquidLevel source <= 0 \/
  Rabs (ez (rotation source)) <= 1 ->
  pourFrom w i = w.
Proof.
  intros Hi H. unfold pourFrom. rewrite Hi.
  destruct H as [H|[H|H]].
  - apply unheld_true in H. now rewrite H.
  - apply Rleb_true in H. rewrite H, orb_true_r. reflexivity.
  - destruct (_ || _); [reflexivity|].
    assert (Rgtb (Rabs (ez (rotation source))) 1.0 = false) as ->
      by (apply Rgtb_false; lra).
    reflexivity.
Qed.

Lemma pourFrom_pours w i source :
  w.1 !! i = Some source ->
  heldBy source <> None -> 0 < liquidLevel source ->
  1 < Rabs (ez (rotation source)) ->
  pourFrom w i = fold_left (pourInto i) (seq 0 (length w.1)) w.
Proof.
  intros Hi Hh Hl Hr. unfold pourFrom. rewrite Hi.
  assert (unheld source = false) as ->
    by (unfold unheld; destruct (heldBy source); congruence).
  assert (Rleb (liquidLevel source) 0 = false) as ->
    by (apply Rleb_false; lra).
  assert (Rgtb (Rabs (ez (rotation source))) 1.0 = true) as ->
    by (apply Rgtb_true; lra).
  reflexivity.
Qed.

Lemma inReach_true source target :
  inReach source target = true <->
  distanceTo (position source) (position target) < 2.5 /\
  vy (position source) > vy (position target) + 1.
Proof.
  unfold inReach. rewrite andb_true_iff, Rltb_true, Rgtb_true. tauto.
Qed.

Lemma receives_self items i : receives items i i = false.
Proof. unfold receives. now rewrite Nat.eqb_refl. Qed.

Lemma receives_lookup items i j source target :
  i <> j -> items !! i = Some source -> items !! j = Some target ->
  receives items i j = inReach source target.
Proof.
  intros Hij Hi Hj. unfold receives. rewrite Hi, Hj.
  apply Nat.eqb_neq in Hij. now rewrite Hij.
Qed.

Lemma receives_None items i j :
  items !! j = None -> receives items i j = false.
Proof.
  intros Hj. unfold receives. rewrite Hj.
  destruct (items !! i); apply andb_false_r.
Qed.

(** The state of the inner loop after the targets [js]: targets out of
    reach or not yet visited are as before, every target in reach has
    received once, and the source has lost [amount] for each of them. *)
Lemma pourInto_fold w i source js :
  w.1 !! i = Some source -> NoDup js ->
  let w' := fold_left (pourInto i) js w in
  (forall j, j <> i -> j ∉ js -> w'.1 !! j = w.1 !! j) /\
  (exists s, w'.1 !! i = Some s /\ sameHold source s /\
     color s = color source /\
     liquidLevel s
     = liquidLevel source
       - amount * INR (length (List.filter (receives w.1 i) js))) /\
  (forall j target, j ∈ js -> receives w.1 i j = true ->
     w.1 !! j = Some target ->
     w'.1 !! j = Some (receive (color source) target)) /\
  (forall j, j ∈ js -> j <> i -> receives w.1 i j = false ->
     w'.1 !! j = w.1 !! j) /\
  ((exists j, j ∈ js /\ receives w.1 i j = true) -> w'.2 = true).
Proof.
  intros Hi. induction js as [|j js IH] using rev_ind; intros Hnd w'.
  - subst w'. simpl. split; [auto|]. split.
    + exists source. split; [exact Hi|]. split; [apply sameHold_refl|].
      split; [reflexivity|]. simpl. lra.
    + split; [intros j t Hj; inversion Hj|].
      split; [intros j Hj; inversion Hj|].
      intros (j & Hj & _). inversion Hj.
  - apply NoDup_app in Hnd as (Hnd & Hnin & _).
    assert (Hj : j ∉ js) by (intros Hin; apply (Hnin j Hin); constructor).
    specialize (IH Hnd). cbv zeta in IH.
    destruct IH as (IH1 & (s & Hs & Hsame & Hcol & Hlev) & IH3 & IH4 & IH5).
    subst w'. rewrite fold_left_app. cbn [fold_left].
    set (w1 := fold_left (pourInto i) js w) in *.
    rewrite List.filter_app, length_app. cbn [List.filter].
    assert (Hstep :
      (receives w.1 i j = false /\ pourInto i w1 j = w1) \/
      (receives w.1 i j = true /\ i <> j /\
       exists target, w.1 !! j = Some target /\
         pourInto i w1 j
         = (<[j := receive (color s) target]> (<[i := drain s]> w1.1),
            true))).
    { destruct (decide (i = j)) as [<-|Hij].
      - left. split; [apply receives_self | apply pourInto_self].
      - assert (Hj1 : w1.1 !! j = w.1 !! j) by (apply IH1; auto).
        destruct (w.1 !! j) as [target|] eqn:Ej.
        + assert (Hr : receives w.1 i j = inReach s target).
          { rewrite (receives_lookup w.1 i j source target Hij Hi Ej).
            unfold inReach. destruct Hsame as (_ & _ & -> & _). reflexivity. }
          destruct (inReach s target) eqn:Er.
          * right. split; [exact Hr|]. split; [exact Hij|].
            exists target. split; [reflexivity|].
            now apply pourInto_near.
          * left. split; [exact Hr|].
            now apply (pourInto_far i w1 j s target).
        + left. split; [now apply receives_None|].
          unfold pourInto. rewrite Hs, Hj1.
          now destruct (i =? j)%nat. }
    destruct Hstep as [(Hr & ->)|(Hr & Hij & target & Ej & ->)]; rewrite Hr.
    + (* nothing is poured into [j] *)
      split; [|split; [|split; [|split]]].
      * intros k Hk Hkn. apply IH1; [exact Hk|].
        intros Hin. apply Hkn. apply elem_of_app. now left.
      * exists s. repeat split; try assumption; try apply Hsame.
        rewrite Hlev. simpl. rewrite Nat.add_0_r. reflexivity.
      * intros k t Hk Hrk Ek. apply elem_of_app in Hk as [Hk|Hk].
        -- now apply IH3.
        -- apply list_elem_of_singleton in Hk. subst k. congruence.
      * intros k Hk Hki Hrk. apply elem_of_app in Hk as [Hk|Hk].
        -- now apply IH4.
        -- apply list_elem_of_singleton in Hk. subst k. now apply IH1.
      * intros (k & Hk & Hrk). apply IH5. exists k. split; [|exact Hrk].
        apply elem_of_app in Hk as [Hk|Hk]; [exact Hk|].
        apply list_elem_of_singleton in Hk. subst k. congruence.
    + (* [j] receives *)
      assert (Hli : (i < length w1.1)%nat) by (eapply lookup_lt_Some; eauto).
      assert (Hlj : (j < length w1.1)%nat).
      { eapply lookup_lt_Some. rewrite IH1; eauto. }
      cbn [fst snd].
      split; [|split; [|split; [|split]]].
      * intros k Hk Hkn.
        assert (k <> j).
        { intros ->. apply Hkn. apply elem_of_app. right. constructor. }
        rewrite !list_lookup_insert_ne by auto.
        apply IH1; [exact Hk|].
        intros Hin. apply Hkn. apply elem_of_app. now left.
      * exists (drain s).
        rewrite list_lookup_insert_ne by auto.
        rewrite list_lookup_insert_eq by exact Hli.
        split; [reflexivity|]. split.
        { unfold sameHold in *. simpl. exact Hsame. }
        split; [exact Hcol|]. simpl. rewrite Hlev.
        rewrite Nat.add_1_r, S_INR. lra.
      * intros k t Hk Hrk Ek. apply elem_of_app in Hk as [Hk|Hk].
        -- assert (k <> j) by (intros ->; contradiction).
           assert (k <> i) by (intros ->; rewrite receives_self in Hrk;
                               discriminate).
           rewrite !list_lookup_insert_ne by auto. now apply IH3.
        -- apply list_elem_of_singleton in Hk. subst k.
           rewrite list_lookup_insert_eq
             by (rewrite length_insert; exact Hlj).
           rewrite Ej in Ek. injection Ek as <-. now rewrite Hcol.
      * intros k Hk Hki Hrk. apply elem_of_app in Hk as [Hk|Hk].
        -- assert (k <> j) by (intros ->; contradiction).
           rewrite !list_lookup_insert_ne by auto. now apply IH4.
        -- apply list_elem_of_singleton in Hk. subst k. congruence.
      * reflexivity.
Qed.

End Pouring.

Section PouringPass.

Import ChemistryLab.

Lemma receivers_In items i j :
  In j (receivers items i) <->
  (j < length items)%nat /\ receives items i j = true.
Proof.
  unfold receivers. rewrite List.filter_In, in_seq. split.
  - intros [[_ H] Hr]. split; [lia | exact Hr].
  - intros [H Hr]. split; [lia | exact Hr].
Qed.

Lemma spares_refl i w : spares i w w.
Proof. intros Hb. split; [exact Hb|]. intros s Hs. exists s. split; [auto|lra]. Qed.

Lemma spares_trans i w1 w2 w3 :
  spares i w1 w2 -> spares i w2 w3 -> spares i w1 w3.
Proof.
  intros H12 H23 Hb. destruct (H12 Hb) as [Hb2 Hg2].
  destruct (H23 Hb2) as [Hb3 Hg3]. split; [exact Hb3|].
  intros s Hs. destruct (Hg2 s Hs) as (s2 & Hs2 & Hl2).
  destruct (Hg3 s2 Hs2) as (s3 & Hs3 & Hl3).
  exists s3. split; [exact Hs3 | lra].
Qed.

Lemma pourInto_spares i k w j : k <> i -> spares i w (pourInto k w j).
Proof.
  intros Hki. unfold pourInto.
  destruct (k =? j)%nat eqn:Ekj; [apply spares_refl|].
  apply Nat.eqb_neq in Ekj.
  destruct (w.1 !! k) as [source|] eqn:Ek; [|apply spares_refl].
  destruct (w.1 !! j) as [target|] eqn:Ej; [|apply spares_refl].
  destruct (inReach source target); [|apply spares_refl].
  intros Hb. simpl.
  assert (Hsrc : liquidLevel source <= 1)
    by (eapply (Forall_lookup_1 _ _ _ _ Hb); exact Ek).
  assert (Htgt : liquidLevel target <= 1)
    by (eapply (Forall_lookup_1 _ _ _ _ Hb); exact Ej).
  assert (Ha : 0 < amount) by (unfold amount; lra).
  split.
  - apply Forall_insert; [apply Forall_insert; [exact Hb|]|]; simpl.
    + lra.
    + apply Rmin_l.
  - intros s Hs. destruct (decide (i = j)) as [->|Hij].
    + rewrite Ej in Hs. injection Hs as <-.
      exists (receive (color source) target). split.
      * apply list_lookup_insert_eq. rewrite length_insert.
        eapply lookup_lt_Some. exact Ej.
      * simpl. apply Rmin_glb; lra.
    + exists s. rewrite !list_lookup_insert_ne by auto. split; [exact Hs|lra].
Qed.

Lemma fold_spares {A} (f : Work -> A -> Work) i (P : A -> Prop) l :
  (forall w a, P a -> spares i w (f w a)) ->
  Forall P l ->
  forall w, spares i w (fold_left f l w).
Proof.
  intros Hf Hl. induction Hl as [|a l Ha _ IH]; intros w; simpl.
  - apply spares_refl.
  - eapply spares_trans; [apply Hf; exact Ha | apply IH].
Qed.

Lemma pourFrom_spares i w k : k <> i -> spares i w (pourFrom w k).
Proof.
  intros Hki. unfold pourFrom. destruct (w.1 !! k); [|apply spares_refl].
  destruct (_ || _); [apply spares_refl|].
  destruct (Rgtb _ _); [|apply spares_refl].
  apply (fold_spares (pourInto k) i (fun _ => True)).
  - intros w' j _. now apply pourInto_spares.
  - apply Forall_forall. auto.
Qed.

Lemma pour_before_spares i w :
  spares i w (fold_left pourFrom (seq 0 i) w).
Proof.
  apply (fold_spares pourFrom i (fun k => k <> i)).
  - intros w' k Hk. now apply pourFrom_spares.
  - apply Forall_forall. intros k Hk. apply elem_of_seq in Hk. lia.
Qed.

(** The pass, cut at the turn of the source at index [i]. *)
Lemma pour_split w i :
  (i < length w.1)%nat ->
  pour w
  = fold_left pourFrom (seq (S i) (length w.1 - S i))
      (pourFrom (fold_left pourFrom (seq 0 i) w) i).
Proof.
  intros Hi. unfold pour.
  replace (length w.1) with (i + S (length w.1 - S i))%nat at 1 by lia.
  rewrite seq_app, fold_left_app. cbn [seq fold_left]. reflexivity.
Qed.

(** Sources that nobody holds pour nothing. *)
Lemma pour_unheld ks w :
  (forall k x, k ∈ ks -> w.1 !! k = Some x -> heldBy x = None) ->
  fold_left pourFrom ks w = w.
Proof.
  induction ks as [|k ks IH]; intros H; [reflexivity|]. cbn [fold_left].
  assert (E : pourFrom w k = w).
  { destruct (w.1 !! k) as [x|] eqn:Ek.
    - apply (pourFrom_idle w k x Ek). left. apply (H k x); [constructor|auto].
    - unfold pourFrom. now rewrite Ek. }
  rewrite E. apply IH. intros k' x Hk'. apply H. now constructor.
Qed.

End PouringPass.

Section PouringClaim.

Import ChemistryLab.

(** C4, as the code has it.  In the pouring pass of a frame whose levels
    do not exceed 1, take a held source with a level above 0 and a tilt
    [|rotation.z|] above 1.  When its turn comes it is still held and
    tilted and its level has not fallen.  In its turn every other vessel
    within distance 2.5 and lower by more than 1 receives one transfer of
    0.015: the level of the receiver becomes [min 1 (level + 0.015)],
    which is higher unless it was 1 already and stays within [[0, 1]];
    the colour of a receiver whose level was at most 0.05 becomes the
    colour of the source, and that of a fuller receiver is blended
    towards it at the rate 0.1; the other vessels are left as they are.
    A source that holds at least 0.015 for each receiver loses 0.015 for
    each of them, which is a strict decrease when there is a receiver,
    and stays within [[0, 1]]; what becomes of the level of a source that
    holds less is not stated. *)
Theorem pour_transfers w i source :
  Forall (fun x => liquidLevel x <= 1) w.1 ->
  w.1 !! i = Some source ->
  heldBy source <> None ->
  0 < liquidLevel source ->
  1 < Rabs (ez (rotation source)) ->
  exists w1 s1 s',
    w1 = fold_left pourFrom (seq 0 i) w /\
    pour w
    = fold_left pourFrom (seq (S i) (length w.1 - S i)) (pourFrom w1 i) /\
    w1.1 !! i = Some s1 /\ sameHold source s1 /\
    liquidLevel source <= liquidLevel s1 /\
    (pourFrom w1 i).1 !! i = Some s' /\
    color s' = color s1 /\
    (0.015 * INR (length (receivers w1.1 i)) <= liquidLevel s1 ->
     liquidLevel s'
     = liquidLevel s1 - 0.015 * INR (length (receivers w1.1 i)) /\
     0 <= liquidLevel s' <= 1) /\
    (forall j target, j <> i -> w1.1 !! j = Some target ->
       distanceTo (position source) (position target) < 2.5 ->
       vy (position source) > vy (position target) + 1 ->
       In j (receivers w1.1 i) /\
       (0.015 * INR (length (receivers w1.1 i)) <= liquidLevel s1 ->
        liquidLevel s' <= liquidLevel s1 - 0.015) /\
       exists t', (pourFrom w1 i).1 !! j = Some t' /\
         sameHold target t' /\
         liquidLevel t' = Rmin 1 (liquidLevel target + 0.015) /\
         (liquidLevel target < 1 -> liquidLevel target < liquidLevel t') /\
         (0 <= liquidLevel target <= 1 -> 0 <= liquidLevel t' <= 1) /\
         (liquidLevel target <= 0.05 -> color t' = color s1) /\
         (0.05 < liquidLevel target ->
          color t' = lerpC (color target) (color s1) 0.1)) /\
    (forall j, j <> i -> receives w1.1 i j = false ->
       (pourFrom w1 i).1 !! j = w1.1 !! j).
Proof.
  intros Hb Hi Hheld Hlev Htilt.
  set (w1 := fold_left pourFrom (seq 0 i) w).
  assert (Hlen : (i < length w.1)%nat) by (eapply lookup_lt_Some; eauto).
  (* the state at the turn of the source *)
  assert (Hsame : Forall2 sameHold w.1 w1.1)
    by (apply fold_hold; intros; apply pourFrom_hold).
  destruct (pour_before_spares i w Hb) as [Hb1 Hgrow].
  destruct (Hgrow source Hi) as (s1 & Hs1 & Hle). fold w1 in Hs1, Hb1.
  destruct (Forall2_lookup_l _ _ _ _ _ Hsame Hi) as (s1' & Hs1' & Hss).
  rewrite Hs1 in Hs1'. injection Hs1' as <-.
  assert (Hls1 : liquidLevel s1 <= 1)
    by (eapply (Forall_lookup_1 _ _ _ _ Hb1); exact Hs1).
  (* the turn *)
  assert (Hturn : pourFrom w1 i
                  = fold_left (pourInto i) (seq 0 (length w1.1)) w1).
  { apply (pourFrom_pours w1 i s1 Hs1).
    - destruct Hss as (_ & _ & _ & _ & -> & _). exact Hheld.
    - lra.
    - destruct Hss as (_ & _ & _ & -> & _). exact Htilt. }
  destruct (pourInto_fold w1 i s1 (seq 0 (length w1.1)) Hs1 (NoDup_seq _ _))
    as (_ & (s' & Hs' & _ & Hcol & Hlev') & Hrecv & Hkeep & _).
  rewrite <- Hturn in Hs', Hrecv, Hkeep.
  fold (receivers w1.1 i) in Hlev'. unfold amount in Hlev'.
  exists w1, s1, s'.
  split; [reflexivity|]. split; [now apply pour_split|].
  split; [exact Hs1|]. split; [exact Hss|]. split; [exact Hle|].
  split; [exact Hs'|]. split; [exact Hcol|].
  assert (Hn : 0 <= INR (length (receivers w1.1 i))) by apply pos_INR.
  split; [intros; split; [exact Hlev' | lra]|]. split.
  - intros j target Hji Hj Hd Hh.
    assert (Hlj : (j < length w1.1)%nat) by (eapply lookup_lt_Some; eauto).
    assert (Hr : receives w1.1 i j = true).
    { rewrite (receives_lookup w1.1 i j s1 target) by auto.
      apply inReach_true. destruct Hss as (_ & _ & -> & _). auto. }
    assert (Hin : In j (receivers w1.1 i)) by (apply receivers_In; auto).
    split; [exact Hin|]. split.
    { intros _.
      assert (1 <= INR (length (receivers w1.1 i))).
      { destruct (receivers w1.1 i) as [|a l]; [inversion Hin|].
        cbn [length]. rewrite S_INR. pose proof (pos_INR (length l)). lra. }
      lra. }
    exists (receive (color s1) target). split.
    { apply Hrecv; [apply elem_of_seq; lia | exact Hr | exact Hj]. }
    unfold receive, sameHold, amount. simpl.
    split; [auto 10|]. split; [reflexivity|].
    split; [|split; [|split]].
    + intros Hlt. unfold Rmin. destruct (Rle_dec _ _); lra.
    + intros [H0 H1]. split; [apply Rmin_glb; lra | apply Rmin_l].
    + intros Hlow. apply Rleb_true in Hlow. now rewrite Hlow.
    + intros Hhigh. apply Rleb_false in Hhigh. now rewrite Hhigh.
  - intros j Hji Hr.
    destruct (decide (j < length w1.1)%nat) as [Hlj|Hlj].
    + apply Hkeep; [apply elem_of_seq; lia | exact Hji | exact Hr].
    + rewrite (lookup_ge_None_2 w1.1 j) by lia.
      apply lookup_ge_None_2.
      assert (length (pourFrom w1 i).1 = length w1.1).
      { symmetry. eapply Forall2_length. apply pourFrom_hold. }
      lia.
Qed.

End PouringClaim.

(** ** The pouring scenario *)

Lemma distanceTo_ge a b c :
  0 <= c -> c * c <= distanceToSquared a b -> c <= distanceTo a b.
Proof.
  intros Hc H. unfold distanceTo. rewrite <- (sqrt_square c) by exact Hc.
  now apply sqrt_le_1_alt.
Qed.

Lemma atan2_second_quadrant y x : x < 0 -> 0 <= y -> PI / 2 < atan2 y x.
Proof.
  intros Hx Hy. unfold atan2.
  destruct (Rlt_dec 0 x); [lra|]. destruct (Rlt_dec x 0); [|lra].
  destruct (Rle_dec 0 y); [|lra].
  pose proof (atan_bound (y / x)). lra.
Qed.

Lemma lerpC_same c t : lerpC c c t = c.
Proof. unfold lerpC. destruct c; simpl. f_equal; ring. Qed.

Lemma mapM_cons_option {A B} (f : A -> option B) x l :
  mapM f (x :: l) = y ← f x; k ← mapM f l; Some (y :: k).
Proof. reflexivity. Qed.

Section PouringScenario.

Import ChemistryLab.

Lemma pouringTilt_tilted t rot :
  ez rot < -1 -> ez (Samples.pouringTilt t rot) < -1.
Proof.
  intros Hr. unfold Samples.pouringTilt, lerp. simpl.
  assert (Ha : PI / 2 < atan2 (1.2 - 0.35 - (1.2 - 0.9)) (0.42 - 0.5))
    by (apply atan2_second_quadrant; lra).
  pose proof PI2_3_2. lra.
Qed.

(** The interaction step of a frame of the scenario: the right hand keeps
    the tube and turns it; nothing else is within its reach. *)
Lemma pouring_interaction t l1 rot l6 c6 :
  interaction Samples.pouring t (Samples.pouringLab l1 rot l6 c6, false)
  = Some (Samples.pouringLab l1 (Samples.pouringTilt t rot) l6 c6, false).
Proof.
  set (h := Samples.pouringHand).
  assert (Hfar : forall item,
            1.5 * 1.5 <= distanceToSquared (handPos h) (position item) ->
            heldBy item = None ->
            touch Right h t item = Some (item, false)).
  { intros item Hd Hn. apply touch_idles.
    - left. apply distanceTo_ge.
      + unfold grabDistance. destruct (type item); lra.
      + unfold grabDistance. destruct (type item); lra.
    - left. congruence. }
  unfold interaction. rewrite handPass_absent by reflexivity.
  cbn [mbind option_bind]. unfold handPass.
  change (handOf Samples.pouring Right) with (Some h).
  cbn [fst snd]. unfold Samples.pouringLab. cbn [INITIAL_ITEMS].
  rewrite !mapM_cons_option.
  match goal with
  | |- context [touch Right h t ?x ≫= _] =>
      rewrite (touch_grabs Right h t x (Samples.lm 0.5 (1.2 - 0.9))
                 (Samples.lm 0.42 (1.2 - 0.35)))
  end.
  2:{ apply distanceTo_lt; [unfold grabDistance; simpl; lra|].
      unfold distanceToSquared, handPos, grabDistance. simpl. lra. }
  2:{ reflexivity. }
  2:{ right. reflexivity. }
  2:{ reflexivity. }
  2:{ reflexivity. }
  cbn [mbind option_bind].
  repeat match goal with
  | |- context [touch Right h t ?x ≫= _] =>
      rewrite (Hfar x);
        [cbn [mbind option_bind]
        |unfold distanceToSquared, handPos; simpl; lra
        |reflexivity]
  end.
  reflexivity.
Qed.

Lemma inReach_false source target :
  2.5 * 2.5 <= distanceToSquared (position source) (position target) \/
  vy (position source) <= vy (position target) + 1 ->
  inReach source target = false.
Proof.
  intros [H|H]; unfold inReach.
  - assert (Rltb (distanceTo (position source) (position target)) 2.5
            = false) as ->; [|reflexivity].
    apply Rltb_false. apply distanceTo_ge; lra.
  - assert (Rgtb (vy (position source)) (vy (position target) + 1) = false)
      as -> by (apply Rgtb_false; lra).
    apply andb_false_r.
Qed.

(** Rewriting one round of a loop of the pouring pass on a given list. *)
Ltac far i j :=
  match goal with
  | |- context [pourInto i ?w j] =>
      erewrite (pourInto_far i w j _ _ eq_refl eq_refl);
      [|apply inReach_false; left;
        unfold distanceToSquared, handPos; simpl; lra]
  end.

Ltac idle k :=
  match goal with
  | |- context [pourFrom ?w k] =>
      erewrite (pourFrom_idle w k _ eq_refl); [|left; reflexivity]
  end.

(** The pouring pass of a frame of the scenario while the tube is not
    empty: one transfer, into the first beaker. *)
Lemma pouring_pour l1 rot l6 c6 :
  0 < l1 -> ez rot < -1 ->
  pour (Samples.pouringLab l1 rot l6 c6, false)
  = (Samples.pouringLab (l1 - 0.015) rot (Rmin 1 (l6 + 0.015))
       (if Rleb l6 0.05 then Samples.red
        else lerpC c6 Samples.red 0.1),
     true).
Proof.
  intros Hl Hr. unfold pour.
  set (lab := Samples.pouringLab l1 rot l6 c6).
  change (length (lab, false).1) with 8%nat. cbn [seq fold_left].
  erewrite (pourFrom_pours (lab, false) 0%nat _ eq_refl); cycle 1.
  { discriminate. }
  { exact Hl. }
  { simpl. unfold Rabs. destruct (Rcase_abs _); lra. }
  change (length (lab, false).1) with 8%nat. cbn [seq fold_left].
  rewrite pourInto_self.
  far 0%nat 1%nat.
  far 0%nat 2%nat.
  far 0%nat 3%nat.
  far 0%nat 4%nat.
  far 0%nat 5%nat.
  erewrite (pourInto_near 0%nat (lab, false) 6%nat _ _
              ltac:(discriminate) eq_refl eq_refl);
    cycle 1.
  { apply inReach_true. split.
    - apply distanceTo_lt; [lra|].
      unfold distanceToSquared, handPos. simpl. lra.
    - unfold handPos. simpl. lra. }
  far 0%nat 7%nat.
  idle 1%nat.
  idle 2%nat.
  idle 3%nat.
  idle 4%nat.
  idle 5%nat.
  idle 6%nat.
  idle 7%nat.
  reflexivity.
Qed.

Lemma pouring_dry l1 rot l6 c6 :
  l1 <= 0 ->
  pour (Samples.pouringLab l1 rot l6 c6, false)
  = (Samples.pouringLab l1 rot l6 c6, false).
Proof.
  intros Hl. unfold pour.
  set (lab := Samples.pouringLab l1 rot l6 c6).
  change (length (lab, false).1) with 8%nat. cbn [seq fold_left].
  erewrite (pourFrom_idle (lab, false) 0%nat _ eq_refl);
    [|right; left; exact Hl].
  idle 1%nat.
  idle 2%nat.
  idle 3%nat.
  idle 4%nat.
  idle 5%nat.
  idle 6%nat.
  idle 7%nat.
  reflexivity.
Qed.

Lemma pouring_frame t l1 rot l6 c6 :
  0 < l1 -> ez rot < -1 ->
  useFrame Samples.pouring t (Samples.pouringLab l1 rot l6 c6)
  = Some (Samples.pouringLab (l1 - 0.015) (Samples.pouringTilt t rot)
            (Rmin 1 (l6 + 0.015))
            (if Rleb l6 0.05 then Samples.red
             else lerpC c6 Samples.red 0.1)).
Proof.
  intros Hl Hr. unfold useFrame. rewrite pouring_interaction.
  cbn [mbind option_bind].
  rewrite pouring_pour by auto using pouringTilt_tilted.
  reflexivity.
Qed.

Lemma pouring_frame_dry t l1 rot l6 c6 :
  l1 <= 0 ->
  useFrame Samples.pouring t (Samples.pouringLab l1 rot l6 c6)
  = Some (Samples.pouringLab l1 (Samples.pouringTilt t rot) l6 c6).
Proof.
  intros Hl. unfold useFrame. rewrite pouring_interaction.
  cbn [mbind option_bind]. rewrite pouring_dry by exact Hl.
  reflexivity.
Qed.

(** The scenario after [n] transfers, run for the frames [ts]: the tube
    gives 0.015 a frame until, after 47 transfers, its level is below 0
    and the pouring stops. *)
Lemma pouring_run ts :
  forall n rot c6,
    (n <= 47)%nat -> ez rot < -1 -> ((1 <= n)%nat -> c6 = Samples.red) ->
    exists rot', ez rot' < -1 /\
      frames (map (fun t => (Samples.pouring, t)) ts)
        (Samples.pouringLab (0.7 - 0.015 * INR n) rot (0.015 * INR n) c6)
      = Some (Samples.pouringLab
                (0.7 - 0.015 * INR (Nat.min (n + length ts) 47)) rot'
                (0.015 * INR (Nat.min (n + length ts) 47))
                (if (n + length ts =? 0)%nat then c6 else Samples.red)).
Proof.
  induction ts as [|t ts IH]; intros n rot c6 Hn Hr Hc.
  - exists rot. split; [exact Hr|]. cbn [map frames length].
    rewrite Nat.add_0_r, Nat.min_l by exact Hn.
    destruct n; [reflexivity|]. cbn [Nat.eqb]. rewrite Hc by lia.
    reflexivity.
  - cbn [map frames length].
    assert (Hn47 : INR n <= 47) by (apply (le_INR n 47) in Hn; simpl in Hn; lra).
    destruct (decide (n = 47)%nat) as [->|Hlt].
    + rewrite pouring_frame_dry by (simpl; lra).
      cbn [mbind option_bind].
      destruct (IH 47%nat (Samples.pouringTilt t rot) c6 Hn
                  (pouringTilt_tilted t rot Hr) Hc) as (rot' & Hr' & E).
      exists rot'. split; [exact Hr'|]. rewrite E.
      replace (Nat.min (47 + length ts) 47) with 47%nat by lia.
      replace (Nat.min (47 + S (length ts)) 47) with 47%nat by lia.
      rewrite (Hc ltac:(lia)).
      reflexivity.
    + assert (Hn46 : INR n <= 46).
      { assert (H : (n <= 46)%nat) by lia.
        apply (le_INR n 46) in H. simpl in H. lra. }
      pose proof (pos_INR n) as Hn0.
      rewrite pouring_frame by (try exact Hr; lra).
      cbn [mbind option_bind].
      assert (E1 : 0.7 - 0.015 * INR n - 0.015 = 0.7 - 0.015 * INR (S n))
        by (rewrite S_INR; ring).
      assert (E6 : Rmin 1 (0.015 * INR n + 0.015) = 0.015 * INR (S n)).
      { rewrite S_INR. rewrite Rmin_right by lra. ring. }
      assert (Ec : (if Rleb (0.015 * INR n) 0.05 then Samples.red
                    else lerpC c6 Samples.red 0.1) = Samples.red).
      { destruct (Rleb _ _) eqn:El; [reflexivity|].
        apply Rleb_false in El.
        assert (Hn1 : (1 <= n)%nat).
        { destruct n; [simpl in El; lra | lia]. }
        rewrite (Hc Hn1). apply lerpC_same. }
      rewrite E1, E6, Ec.
      destruct (IH (S n) (Samples.pouringTilt t rot) Samples.red
                  ltac:(lia) (pouringTilt_tilted t rot Hr) (fun _ => eq_refl))
        as (rot' & Hr' & E).
      exists rot'. split; [exact Hr'|]. rewrite E.
      replace (S n + length ts)%nat with (n + S (length ts))%nat by lia.
      replace (n + S (length ts) =? 0)%nat with false
        by (symmetry; apply Nat.eqb_neq; lia).
      reflexivity.
Qed.

End PouringScenario.

Section PouringClaims.

Import ChemistryLab.

(** The start of the scenario is [INITIAL_ITEMS] with the first test tube
    taken up: held, above the first beaker and tilted. *)
Lemma pouringStart_initial :
  (forall k, k <> 0%nat -> Samples.pouringStart !! k = INITIAL_ITEMS !! k) /\
  exists tube1 tube1' beaker1,
    INITIAL_ITEMS !! 0%nat = Some tube1 /\
    Samples.pouringStart !! 0%nat = Some tube1' /\
    Samples.pouringStart !! 6%nat = Some beaker1 /\
    sameLiquid tube1 tube1' /\
    liquidLevel tube1' = 0.7 /\ liquidLevel beaker1 = 0.0 /\
    heldBy tube1' = Some Right /\
    1 < Rabs (ez (rotation tube1')) /\
    distanceTo (position tube1') (position beaker1) < 2.5 /\
    vy (position tube1') > vy (position beaker1) + 1.
Proof.
  split.
  - intros [|k] Hk; [congruence | reflexivity].
  - eexists _, _, _.
    split; [reflexivity|]. split; [reflexivity|]. split; [reflexivity|].
    split; [unfold sameLiquid; simpl; auto 10|]. simpl.
    split; [reflexivity|]. split; [reflexivity|]. split; [reflexivity|].
    split; [unfold Rabs; destruct (Rcase_abs _); lra|]. split.
    + apply distanceTo_lt; [lra|]. unfold distanceToSquared. simpl. lra.
    + lra.
Qed.

(** C5 as the specification states it fails: after 47 frames the level
    of tube1 is below 0, not floored at 0, and after 48 frames beaker1
    holds 0.705 and not 0.015 * 48. *)
Lemma pouring_runs_dry_counterexample :
  exists items47 items48 tube1 beaker1,
    frames (map (fun t => (Samples.pouring, t)) (replicate 47 0))
      Samples.pouringStart = Some items47 /\
    items47 !! 0%nat = Some tube1 /\
    liquidLevel tube1 = -0.005 /\
    liquidLevel tube1 <> Rmax 0 (0.7 - 0.015 * 47) /\
    frames (map (fun t => (Samples.pouring, t)) (replicate 48 0))
      Samples.pouringStart = Some items48 /\
    items48 !! 6%nat = Some beaker1 /\
    liquidLevel beaker1 = 0.705 /\
    liquidLevel beaker1 <> Rmin 1 (0.015 * 48).
Proof.
  assert (Es : Samples.pouringLab (0.7 - 0.015 * INR 0) (euler 0 0 (-1.2))
                 (0.015 * INR 0) (hexColor 255 255 255)
               = Samples.pouringStart).
  { unfold Samples.pouringStart. simpl. f_equal; lra. }
  destruct (pouring_run (replicate 47 0) 0%nat (euler 0 0 (-1.2))
              (hexColor 255 255 255))
    as (r47 & _ & E47); [lia | simpl; lra | lia |].
  destruct (pouring_run (replicate 48 0) 0%nat (euler 0 0 (-1.2))
              (hexColor 255 255 255))
    as (r48 & _ & E48); [lia | simpl; lra | lia |].
  rewrite Es in E47, E48. rewrite length_replicate in E47, E48.
  change (Nat.min (0 + 47) 47) with 47%nat in E47.
  change (Nat.min (0 + 48) 47) with 47%nat in E48.
  assert (H47 : INR 47 = 47) by (simpl; lra).
  rewrite H47 in E47, E48.
  eexists _, _, _, _. split; [exact E47|]. split; [reflexivity|].
  split; [simpl; lra|]. split.
  { simpl. rewrite Rmax_left by lra. lra. }
  split; [exact E48|]. split; [reflexivity|]. split; [simpl; lra|].
  simpl. rewrite Rmin_right by lra. lra.
Qed.

(** When one source alone is held, the pouring pass is the turn of that
    source. *)
Lemma pour_single_source w i :
  (i < length w.1)%nat ->
  (forall k x, k <> i -> w.1 !! k = Some x -> heldBy x = None) ->
  pour w = pourFrom w i.
Proof.
  intros Hi Hun. rewrite (pour_split w i Hi).
  assert (E : fold_left pourFrom (seq 0 i) w = w).
  { apply pour_unheld. intros k x Hk. apply elem_of_seq in Hk.
    apply Hun. lia. }
  rewrite E. apply pour_unheld. intros k x Hk Hx.
  apply elem_of_seq in Hk.
  destruct (Forall2_lookup_r _ _ _ _ _ (pourFrom_hold w i) Hx)
    as (y & Hy & Hs).
  destruct Hs as (_ & _ & _ & _ & -> & _). apply (Hun k y); [lia | exact Hy].
Qed.

(** C4 as the specification states it fails.  The level of the source
    leaves [[0, 1]]: the 47th transfer of the pouring scenario takes tube1
    from 0.01 to -0.005.  And the first transfer into a vessel that is
    not nearly empty blends: with tube1 held and tilted above tube2,
    whose level is 0.6, the pass leaves tube2 with the blend of its blue
    and the red of tube1, not with the red. *)
Lemma pour_colour_and_floor_counterexample :
  (exists items tube1,
     frames (map (fun t => (Samples.pouring, t)) (replicate 47 0))
       Samples.pouringStart = Some items /\
     items !! 0%nat = Some tube1 /\
     liquidLevel tube1 = -0.005 /\ ~ (0 <= liquidLevel tube1 <= 1)) /\
  (exists tube2 tube2',
     Samples.overTube2 !! 1%nat = Some tube2 /\
     INITIAL_ITEMS !! 1%nat = Some tube2 /\
     (pour (Samples.overTube2, false)).1 !! 1%nat = Some tube2' /\
     liquidLevel tube2' = 0.6 + 0.015 /\
     color tube2' = lerpC (hexColor 68 68 255) Samples.red 0.1 /\
     color tube2' <> Samples.red).
Proof.
  split.
  - assert (Es : Samples.pouringLab (0.7 - 0.015 * INR 0) (euler 0 0 (-1.2))
                   (0.015 * INR 0) (hexColor 255 255 255)
                 = Samples.pouringStart).
    { unfold Samples.pouringStart. simpl. f_equal; lra. }
    destruct (pouring_run (replicate 47 0) 0%nat (euler 0 0 (-1.2))
                (hexColor 255 255 255))
      as (r47 & _ & E47); [lia | simpl; lra | lia |].
    rewrite Es, length_replicate in E47.
    change (Nat.min (0 + 47) 47) with 47%nat in E47.
    assert (H47 : INR 47 = 47) by (simpl; lra). rewrite H47 in E47.
    eexists _, _. split; [exact E47|]. split; [reflexivity|]. simpl.
    split; lra.
  - set (w := (Samples.overTube2, false) : Work).
    assert (Hp : pour w = pourFrom w 0%nat).
    { apply pour_single_source; [simpl; lia|].
      intros [|k] x Hk Hx; [congruence|].
      repeat (destruct k as [|k]; [injection Hx as <-; reflexivity|]).
      discriminate Hx. }
    rewrite Hp.
    erewrite (pourFrom_pours w 0%nat _ eq_refl); cycle 1.
    { discriminate. }
    { simpl. lra. }
    { simpl. unfold Rabs. destruct (Rcase_abs _); lra. }
    destruct (pourInto_fold w 0%nat _ (seq 0 (length w.1)) eq_refl
                (NoDup_seq _ _)) as (_ & _ & Hrecv & _).
    eexists _, _. split; [reflexivity|]. split; [reflexivity|]. split.
    { apply (Hrecv 1%nat); [apply elem_of_seq; simpl; lia | | reflexivity].
      erewrite (receives_lookup w.1 0%nat 1%nat _ _ ltac:(discriminate)
                  eq_refl eq_refl).
      apply inReach_true. split.
      - apply distanceTo_lt; [lra|]. unfold distanceToSquared. simpl. lra.
      - simpl. lra. }
    assert (El : Rleb 0.6 0.05 = false) by (apply Rleb_false; lra).
    simpl. rewrite El. split.
    { unfold amount. rewrite Rmin_right by lra. reflexivity. }
    split; [reflexivity|].
    unfold lerpC, Samples.red, hexColor. simpl. intros [= H _ _]. lra.
Qed.

Lemma pour_transfers_witness :
  exists s',
    (pourFrom (Samples.pouringStart, false) 0%nat).1 !! 0%nat = Some s' /\
    liquidLevel s'
    = 0.7 - 0.015 * INR (length (receivers Samples.pouringStart 0%nat)) /\
    0 <= liquidLevel s' <= 1.
Proof.
  assert (Hb : Forall (fun x => liquidLevel x <= 1)
                      (Samples.pouringStart, false).1).
  { repeat constructor; simpl; lra. }
  destruct (pour_transfers (Samples.pouringStart, false) 0%nat _ Hb eq_refl)
    as (w1 & s1 & s' & -> & _ & Hs1 & _ & _ & Hs' & _ & Hl & _).
  - discriminate.
  - simpl. lra.
  - simpl. unfold Rabs. destruct (Rcase_abs _); lra.
  - injection Hs1 as <-. exists s'. split; [exact Hs'|].
    apply Hl. cbn [seq fold_left fst liquidLevel].
    pose proof (List.filter_length_le
                  (receives Samples.pouringStart 0%nat)
                  (seq 0 (length Samples.pouringStart))) as Hf.
    fold (receivers Samples.pouringStart 0%nat) in Hf.
    rewrite length_seq in Hf. apply le_INR in Hf.
    change (length Samples.pouringStart) with 8%nat in Hf.
    simpl in Hf. lra.
Defined.

End PouringClaims.

(** ** The solar system *)

Section SolarFrames.

Import SolarSystem.

Lemma PLANETS_mars : PLANETS !! 4%nat = Some mars.
Proof. reflexivity. Qed.

Lemma length6 {A} (l : list A) :
  length l = 6%nat -> exists a b c d e f, l = [a; b; c; d; e; f].
Proof.
  intros H. do 6 (destruct l as [|? l]; [discriminate|]).
  destruct l; [|discriminate]. eauto 10.
Qed.

(** The planet simulation of a frame, on Mars. *)
Lemma simulation_mars delta angles positions :
  length angles = 6%nat -> length positions = 6%nat ->
  exists sim a,
    simulation delta angles positions = Some sim /\
    length sim.1 = 6%nat /\ length sim.2 = 6%nat /\
    angles !! 4%nat = Some a /\
    sim.1 !! 4%nat = Some (a + speed mars * delta * 0.5) /\
    sim.2 !! 4%nat
    = Some (orbitPosition mars (a + speed mars * delta * 0.5)).
Proof.
  intros Ha Hp.
  destruct (length6 angles Ha) as (a0 & a1 & a2 & a3 & a4 & a5 & ->).
  destruct (length6 positions Hp) as (p0 & p1 & p2 & p3 & p4 & p5 & ->).
  eexists _, a4. split; [reflexivity|]. repeat split.
Qed.

Lemma pinchOrbit_keeps hs delta c :
  radius (pinchOrbit hs delta c) = radius c /\
  targetLookAt (pinchOrbit hs delta c) = targetLookAt c.
Proof.
  unfold pinchOrbit. destruct (gesture hs); try (split; reflexivity).
  destruct (HandTracker.orHand _ _); split; reflexivity.
Qed.

Lemma navigation_range hs ti :
  (0 <= ti < 6)%Z -> (0 <= navigation hs ti < 6)%Z.
Proof.
  intros Hti. unfold navigation.
  destruct (orHand _ _) as [hand|]; [|exact Hti].
  destruct (negb (isPinching hand)); [|exact Hti].
  destruct (_ && _) eqn:E; [|exact Hti].
  destruct (gestureType hand); simpl in *; try lia; discriminate.
Qed.


(** A frame on a well-formed scene does not throw. *)
Lemma useFrame_wellFormed hs delta s :
  wellFormed s ->
  exists s' a,
    useFrame hs delta s = Some s' /\ wellFormed s' /\
    targetIndex s' = navigation hs (targetIndex s) /\
    planetAngles s !! 4%nat = Some a /\
    marsPlaced s' (a + speed mars * delta * 0.5) /\
    (targetIndex s = 4%Z ->
     radius (camState s')
     = lerp (radius (camState s)) (size mars * 5 + 5) 0.05 /\
     targetLookAt (camState s')
     = lerpV (targetLookAt (camState s))
         (orbitPosition mars (a + speed mars * delta * 0.5)) 0.05).
Proof.
  intros (Ha & Hp & Hti). simpl in Ha, Hp, Hti.
  destruct (simulation_mars delta _ _ Ha Hp)
    as ([angles' positions'] & a & Hsim & Ha' & Hp' & Ea & Ea' & Ep').
  simpl in *. unfold useFrame. rewrite Hsim. cbn [mbind option_bind fst snd].
  assert (Hpos : exists p, at_index positions' (targetIndex s) = Some p).
  { unfold at_index. destruct (targetIndex s <? 0)%Z eqn:E; [lia|].
    apply lookup_lt_is_Some_2. lia. }
  destruct Hpos as (p & Hpos).
  assert (Hideal : exists r, idealRadius (targetIndex s) = Some r).
  { unfold idealRadius. destruct (0 <? targetIndex s)%Z; [|eauto].
    unfold at_index. destruct (targetIndex s <? 0)%Z eqn:E; [lia|].
    destruct (lookup_lt_is_Some_2 PLANETS (Z.to_nat (targetIndex s)))
      as [planet ->]; [simpl; lia|]. simpl. eauto. }
  destruct Hideal as (r & Hideal).
  unfold transition. rewrite Hpos, Hideal. cbn [mbind option_bind fst snd].
  eexists _, a. split; [reflexivity|]. split.
  { unfold wellFormed. simpl. repeat split; try assumption;
      apply navigation_range; lia. }
  split; [reflexivity|]. split; [exact Ea|]. split.
  { unfold marsPlaced. simpl. auto. }
  intros E4. rewrite E4 in Hpos, Hideal. simpl.
  destruct (pinchOrbit_keeps hs delta (camState s)) as [-> ->].
  change (at_index positions' 4) with (positions' !! 4%nat) in Hpos.
  rewrite Ep' in Hpos. change (idealRadius 4) with (Some (size mars * 5 + 5)) in Hideal.
  injection Hpos as <-. injection Hideal as <-. auto.
Qed.

End SolarFrames.

Section SolarRuns.

Import SolarSystem.





End SolarRuns.

Section SolarLag.

Import SolarSystem.


Lemma cos_lt_1 step : 0 < step < 2 * PI -> cos step < 1.
Proof.
  intros H. replace (cos step) with (cos (2 * (step / 2)))
    by (f_equal; lra).
  rewrite cos_2a_sin.
  assert (0 < sin (step / 2)) by (apply sin_gt_0; lra). nra.
Qed.


End SolarLag.

Section SolarLagRuns.

Import SolarSystem.


End SolarLagRuns.

Section SolarClaims.

Import SolarSystem.





End SolarClaims.

Section TrackerErrors.

Import HandTracker.

Lemma countExtendedFingers_last lms n :
  countExtendedFingers lms = Some n -> is_Some (lms !! 20%nat).
Proof.
  unfold countExtendedFingers. intros H.
  apply bind_Some in H as (wrist & _ & H).
  apply bind_Some in H as (c & Hc & _).
  cbn [seq fold_left] in Hc.
  match type of Hc with
  | fingerStep _ _ ?acc 3%nat = _ => destruct acc as [c3|]
  end; [|discriminate].
  unfold fingerStep in Hc. simpl in Hc.
  destruct (lms !! 20%nat); [eauto | discriminate].
Qed.

Lemma processHand_short lms hd last :
  (length lms < 21)%nat -> processHand lms hd last = None.
Proof.
  intros Hlen. destruct (processHand lms hd last) as [h|] eqn:E;
    [exfalso | reflexivity].
  apply processHand_Some in E
    as (l4 & l8 & l0 & raw & n & _ & _ & _ & _ & Hn & _).
  apply countExtendedFingers_last in Hn as [l20 H20].
  apply lookup_lt_Some in H20. lia.
Qed.

Lemma detections_short st result acc :
  Exists (fun d : Detection => (length d.1 < 21)%nat) result ->
  fold_left (detectionStep st) result acc = None.
Proof.
  intros Hex. revert acc.
  induction Hex as [[lms hd] rest Hd|d rest _ IH]; intros acc.
  - cbn [fold_left].
    assert (E : detectionStep st acc (lms, hd) = None).
    { unfold detectionStep. destruct acc as [hands|]; [|reflexivity].
      simpl. now rewrite processHand_short. }
    rewrite E. clear. induction rest; simpl; auto.
  - cbn [fold_left]. apply IH.
Qed.

(** With 21 landmarks in every detection [predict] does not throw. *)
Lemma predict_total st result :
  Forall (fun d : Detection => (21 <= length d.1)%nat) result ->
  is_Some (predict st result).
Proof.
  intros Hres. unfold predict.
  assert (H : forall acc, is_Some (fold_left (detectionStep st) result
                                     (Some acc))).
  { induction Hres as [|[lms hd] rest Hd _ IH]; intros acc; [eauto|].
    cbn [fold_left]. unfold detectionStep at 2. cbn [mbind option_bind].
    destruct (processHand_total lms hd
                match hd with
                | Left => leftHand st
                | Right => rightHand st
                end Hd) as [p Hp].
    simpl. rewrite Hp. simpl. apply IH. }
  destruct (H (None, None)) as [hands ->]. simpl. eauto.
Qed.

(** X1.  [processHand] throws exactly on a hand with fewer than the 21
    landmarks of the model: the finger count reads landmark 20, and
    nothing reads beyond it.  A call of [predict] throws exactly when
    one of its detections is such a hand, whatever the state and the
    other detections are. *)
Theorem tracker_throws :
  (forall lms hd last,
     processHand lms hd last = None <-> (length lms < 21)%nat) /\
  (forall st result,
     predict st result = None <->
     Exists (fun d : Detection => (length d.1 < 21)%nat) result).
Proof.
  split.
  - intros lms hd last. split; [|apply processHand_short].
    intros H. destruct (Nat.lt_ge_cases (length lms) 21) as [|Hge];
      [assumption|].
    destruct (processHand_total lms hd last Hge) as [h Hh]. congruence.
  - intros st result. split.
    + intros H.
      destruct (decide (Exists (fun d : Detection => (length d.1 < 21)%nat)
                          result)) as [|Hno]; [assumption | exfalso].
      apply not_Exists_Forall in Hno; [|intros d; apply _].
      assert (Hall : Forall (fun d : Detection => (21 <= length d.1)%nat)
                       result).
      { eapply Forall_impl; [exact Hno|]. simpl. intros d Hd. lia. }
      clear Hno.
      destruct (predict_total st result Hall) as [st' Hs].
      rewrite H in Hs. discriminate.
    + intros Hex. unfold predict.
      now rewrite (detections_short st result _ Hex).
Qed.

End TrackerErrors.

Section TrackerSlots.

Import HandTracker.

Lemma detections_None st result :
  fold_left (detectionStep st) result None = None.
Proof. induction result; simpl; auto. Qed.

Lemma labelled_cons side lms hd result :
  labelled side ((lms, hd) :: result)
  = if Side_eqb hd side then (lms, hd) :: labelled side result
    else labelled side result.
Proof.
  unfold labelled. rewrite filter_cons. simpl.
  destruct (Side_eqb hd side); [rewrite decide_True | rewrite decide_False];
    auto.
Qed.

Lemma detections_slots st result l r hands :
  fold_left (detectionStep st) result (Some (l, r)) = Some hands ->
  hands.1 = slot st Left result l /\ hands.2 = slot st Right result r.
Proof.
  revert l r. induction result as [|[lms hd] result IH]; intros l r H.
  - injection H as <-. split; reflexivity.
  - cbn [fold_left] in H.
    destruct (detectionStep st (Some (l, r)) (lms, hd)) as [[l' r']|] eqn:E;
      [|rewrite detections_None in H; discriminate].
    destruct (IH l' r' H) as [H1 H2]. rewrite H1, H2. clear H1 H2 H IH.
    unfold detectionStep in E. simpl in E.
    apply bind_Some in E as (p & Hp & E).
    unfold slot. rewrite !labelled_cons.
    destruct hd; injection E as <- <-; simpl; rewrite ?last_cons;
      split; try reflexivity;
      destruct (last (labelled _ result)); simpl; auto.
Qed.

(** X2.  When a result names a side more than once, the last detection of
    that side fills the slot, and it is smoothed against the hand of the
    frame before, not against the earlier detection of the same frame; a
    side the result does not name leaves its slot empty. *)
Theorem predict_last_detection st result st' side :
  predict st result = Some st' ->
  handOf st' side
  = match last (labelled side result) with
    | Some d => processHand d.1 side (handOf st side)
    | None => None
    end.
Proof.
  unfold predict. intros H. apply bind_Some in H as (hands & Hf & H).
  injection H as <-.
  destruct (detections_slots st result None None hands Hf) as [H1 H2].
  destruct side; simpl; [rewrite H1 | rewrite H2]; reflexivity.
Qed.

End TrackerSlots.

Section TrackerSignal.

Import HandTracker.

(** The hand a slot holds has been computed by [processHand] in this
    frame, from the hand the slot held before. *)
Lemma predict_processed st result st' side h :
  predict st result = Some st' ->
  handOf st' side = Some h ->
  exists lms,
    In (lms, side) result /\
    processHand lms side (handOf st side) = Some h.
Proof.
  unfold predict. intros H Hh. apply bind_Some in H as (hands & Hf & H).
  injection H as <-.
  destruct (detections_slots st result None None hands Hf) as [H1 H2].
  assert (Hs : slot st side result None = Some h)
    by (destruct side; simpl in Hh; congruence).
  unfold slot in Hs.
  destruct (last (labelled side result)) as [[lms hd]|] eqn:El;
    [|discriminate].
  apply last_Some_elem_of in El. unfold labelled in El.
  apply list_elem_of_filter in El as [Hhd Hin]. simpl in Hhd.
  apply Side_eqb_eq in Hhd. subst hd. exists lms. split; [|exact Hs].
  now apply list_elem_of_In.
Qed.

Lemma processHand_strength lms hd last h :
  processHand lms hd last = Some h ->
  0 <= pinchStrength h <= 1 /\ (isPinching h = true -> 0 < pinchStrength h).
Proof.
  intros H. apply processHand_Some in H
    as (l4 & l8 & l0 & raw & n & _ & _ & _ & _ & _ & Hp & Hs & _).
  rewrite Hs, Hp. pose proof (distanceTo_nonneg (vec l4) (vec l8)) as Hd.
  unfold PINCH_THRESHOLD. split.
  - split; [apply Rmax_l|]. apply Rmax_lub; lra.
  - intros Hlt. apply Rltb_true in Hlt.
    eapply Rlt_le_trans; [|apply Rmax_r]. lra.
Qed.

(** The hands behind the gesture a frame reports. *)
Lemma predict_gesture_hands st result st' :
  predict st result = Some st' ->
  match gesture st' with
  | zoom => is_Some (leftHand st') /\ is_Some (rightHand st')
  | pinch_drag | rotate =>
      (leftHand st' = None \/ rightHand st' = None) /\
      is_Some (orHand (leftHand st') (rightHand st'))
  | none => leftHand st' = None <-> rightHand st' = None
  | hover => False
  end.
Proof.
  intros H. pose proof (predict_aggregate st result st' H) as Hagg.
  destruct (leftHand st') as [a|], (rightHand st') as [b|];
    cbn [aggregate orHand] in Hagg.
  - destruct (_ && _); injection Hagg as -> _; [eauto | split; congruence].
  - destruct (isPinching a); injection Hagg as -> _; eauto.
  - destruct (isPinching b); injection Hagg as -> _; eauto.
  - injection Hagg as -> _. tauto.
Qed.

(** X3.  What a frame of the tracker reports.  [zoom] needs both hands,
    neither pinching, and comes with a strength above 0.2; [pinch_drag]
    needs exactly one hand, pinching, and comes with a strength in
    (0, 1]; [rotate] needs exactly one hand, not pinching; [rotate] and
    [none] come with the strength 0; [hover] is never reported. *)
Theorem predict_signal st result st' :
  predict st result = Some st' ->
  match gesture st' with
  | zoom =>
      (exists a b, leftHand st' = Some a /\ rightHand st' = Some b /\
         isPinching a = false /\ isPinching b = false) /\
      0.2 < interactionStrength st'
  | pinch_drag =>
      (exists h, orHand (leftHand st') (rightHand st') = Some h /\
         (leftHand st' = None \/ rightHand st' = None) /\
         isPinching h = true) /\
      0 < interactionStrength st' <= 1
  | rotate =>
      (exists h, orHand (leftHand st') (rightHand st') = Some h /\
         (leftHand st' = None \/ rightHand st' = None) /\
         isPinching h = false) /\
      interactionStrength st' = 0
  | none =>
      (leftHand st' = None <-> rightHand st' = None) /\
      interactionStrength st' = 0
  | hover => False
  end.
Proof.
  intros H.
  assert (Hproc : forall side h, handOf st' side = Some h ->
            0 <= pinchStrength h <= 1 /\
            (isPinching h = true -> 0 < pinchStrength h)).
  { intros side h Hh.
    destruct (predict_processed st result st' side h H Hh) as (lms & _ & Hp).
    eapply processHand_strength; eauto. }
  pose proof (predict_aggregate st result st' H) as Hagg.
  destruct (leftHand st') as [a|] eqn:El, (rightHand st') as [b|] eqn:Er;
    cbn [aggregate orHand] in Hagg.
  - destruct (Rgtb _ 0.2) eqn:Ed, (isPinching a) eqn:Ea,
      (isPinching b) eqn:Eb; cbn [negb andb] in Hagg;
      injection Hagg as -> ->; try (split; [tauto || (split; congruence)
                                           | reflexivity]).
    split; [eauto 10|]. apply Rgtb_true in Ed. lra.
  - destruct (isPinching a) eqn:Ea; injection Hagg as -> ->.
    + split; [eauto 10|].
      destruct (Hproc Left a El) as [Hb Hpos]. specialize (Hpos Ea). lra.
    + split; [eauto 10 | reflexivity].
  - destruct (isPinching b) eqn:Eb; injection Hagg as -> ->.
    + split; [eauto 10|].
      destruct (Hproc Right b Er) as [Hb Hpos]. specialize (Hpos Eb). lra.
    + split; [eauto 10 | reflexivity].
  - injection Hagg as -> ->. split; [tauto | reflexivity].
Qed.

End TrackerSignal.

Section TrackerMemory.

Import HandTracker.

(** X4.  The smoothing has a memory of one frame.  A hand that a frame
    does not detect leaves its slot empty, and when it is detected again
    in the next frame it is reported as measured: the pinch position is
    the midpoint of thumb tip and index tip, the palm position is the
    wrist, the rotation is the computed one, none of them blended with
    what the hand was before it was lost. *)
Theorem smoothing_restarts st result1 st1 result2 st2 side h :
  predict st result1 = Some st1 ->
  (forall lms, ~ In (lms, side) result1) ->
  predict st1 result2 = Some st2 ->
  handOf st2 side = Some h ->
  handOf st1 side = None /\
  exists l4 l8 l0,
    landmarks h !! 4%nat = Some l4 /\ landmarks h !! 8%nat = Some l8 /\
    landmarks h !! 0%nat = Some l0 /\
    pinchPosition h = multiplyScalar (addVectors (vec l4) (vec l8)) 0.5 /\
    palmPosition h = vec l0 /\
    calculateRotation (landmarks h) = Some (rotation h).
Proof.
  intros H1 Hno H2 Hh.
  assert (Hnone : handOf st1 side = None).
  { destruct (handOf st1 side) as [h1|] eqn:E; [exfalso | reflexivity].
    destruct (predict_processed st result1 st1 side h1 H1 E) as (lms & Hin & _).
    exact (Hno lms Hin). }
  split; [exact Hnone|].
  destruct (predict_processed st1 result2 st2 side h H2 Hh) as (lms & _ & Hp).
  rewrite Hnone in Hp. unfold processHand in Hp.
  apply bind_Some in Hp as (l4 & H4 & Hp).
  apply bind_Some in Hp as (l8 & H8 & Hp).
  apply bind_Some in Hp as (l0 & H0 & Hp).
  apply bind_Some in Hp as (raw & Hraw & Hp).
  apply bind_Some in Hp as (n & Hn & Hp).
  injection Hp as <-. simpl. exists l4, l8, l0. auto 10.
Qed.

Lemma lerp_inImage a b t :
  0 <= t <= 1 -> inImage a -> inImage b -> inImage (lerpV a b t).
Proof.
  unfold inImage, lerpV. simpl. intros Ht [[? ?] [? ?]] [[? ?] [? ?]].
  repeat split; nra.
Qed.

Lemma processHand_inImage lms hd last h :
  Forall (fun l => inImage (vec l)) lms ->
  (forall l, last = Some l ->
     inImage (pinchPosition l) /\ inImage (palmPosition l)) ->
  processHand lms hd last = Some h ->
  inImage (pinchPosition h) /\ inImage (palmPosition h).
Proof.
  intros Hl Hlast H. unfold processHand in H.
  apply bind_Some in H as (l4 & H4 & H).
  apply bind_Some in H as (l8 & H8 & H).
  apply bind_Some in H as (l0 & H0 & H).
  apply bind_Some in H as (raw & Hraw & H).
  apply bind_Some in H as (n & Hn & H).
  injection H as <-. simpl.
  rewrite Forall_lookup in Hl.
  pose proof (Hl _ _ H4) as I4. pose proof (Hl _ _ H8) as I8.
  pose proof (Hl _ _ H0) as I0.
  assert (Hmid : inImage (multiplyScalar (addVectors (vec l4) (vec l8)) 0.5)).
  { destruct I4 as [[? ?] [? ?]], I8 as [[? ?] [? ?]].
    unfold inImage. simpl in *. repeat split; lra. }
  destruct last as [l|].
  - destruct (Hlast l eq_refl) as [Hp Hq].
    unfold lerpVector3, SMOOTHING_FACTOR.
    split; apply lerp_inImage; auto; lra.
  - auto.
Qed.

Lemma predict_inImage st result st' :
  handsInImage st -> resultInImage result ->
  predict st result = Some st' -> handsInImage st'.
Proof.
  intros Hst Hres H side h Hh.
  destruct (predict_processed st result st' side h H Hh) as (lms & Hin & Hp).
  eapply processHand_inImage; [| |exact Hp].
  - unfold resultInImage in Hres. rewrite Forall_forall in Hres.
    apply list_elem_of_In in Hin. exact (Hres _ Hin).
  - intros l Hl. exact (Hst side l Hl).
Qed.

(** X5.  As long as the landmark model delivers points of the camera
    image, the smoothed pinch and palm positions of every tracked hand
    stay in the image, whatever was tracked before; the point of the
    chemistry lab a hand stands for is then on the board of 14 by 10
    around the origin. *)
Theorem tracked_hands_in_image results st' side h :
  Forall resultInImage results ->
  predictLoop results Samples.noHands = Some st' ->
  handOf st' side = Some h ->
  inImage (pinchPosition h) /\ inImage (palmPosition h) /\
  -7 <= vx (ChemistryLab.handPos h) <= 7 /\
  -5 <= vy (ChemistryLab.handPos h) <= 5 /\
  vz (ChemistryLab.handPos h) = 0.
Proof.
  intros Hres Hrun Hh.
  assert (Hinv : handsInImage st').
  { assert (Hstart : handsInImage Samples.noHands)
      by (intros [] ? ?; discriminate).
    revert Hstart Hrun. generalize Samples.noHands.
    induction Hres as [|result rest Hr _ IH]; intros st0 Hst0 Hrun.
    - injection Hrun as <-. exact Hst0.
    - cbn [predictLoop] in Hrun.
      apply bind_Some in Hrun as (st1 & H1 & Hrun).
      apply (IH st1); [|exact Hrun].
      exact (predict_inImage st0 result st1 Hst0 Hr H1). }
  destruct (Hinv side h Hh) as [Hpinch Hpalm].
  split; [exact Hpinch|]. split; [exact Hpalm|].
  destruct Hpinch as [[? ?] [? ?]].
  unfold ChemistryLab.handPos, ChemistryLab.vector3. simpl.
  repeat split; lra.
Qed.

End TrackerMemory.

Section TrackerRuns.

Import HandTracker.

(** A result with one detection fills the slot of its side. *)
Lemma predict_single st lms side st' :
  predict st [(lms, side)] = Some st' ->
  handOf st' side = processHand lms side (handOf st side) /\
  is_Some (handOf st' side).
Proof.
  unfold predict. intros H. apply bind_Some in H as (hands & Hf & H).
  injection H as <-.
  cbn [fold_left] in Hf. unfold detectionStep in Hf. simpl in Hf.
  apply bind_Some in Hf as (p & Hp & Hf).
  assert (Hs : processHand lms side (handOf st side) = Some p)
    by (destruct side; exact Hp).
  rewrite Hs. destruct side; injection Hf as <-; simpl; eauto.
Qed.

Lemma predict_last_detection_witness :
  exists st',
    predict Samples.noHands
      [(Samples.openHand, Left); (Samples.pinchHand, Left)] = Some st' /\
    handOf st' Left = processHand Samples.pinchHand Left None.
Proof.
  destruct (predict_total Samples.noHands
              [(Samples.openHand, Left); (Samples.pinchHand, Left)])
    as [st' E]; [repeat constructor; simpl; lia|].
  exists st'. split; [exact E|].
  exact (predict_last_detection Samples.noHands _ st' Left E).
Defined.

Lemma predict_signal_witness :
  exists st',
    predict Samples.noHands [(Samples.pinchHand, Right)] = Some st' /\
    gesture st' <> hover /\ 0 <= interactionStrength st'.
Proof.
  destruct (predict_total Samples.noHands [(Samples.pinchHand, Right)])
    as [st' E]; [repeat constructor; simpl; lia|].
  exists st'. split; [exact E|].
  pose proof (predict_signal Samples.noHands _ st' E) as H.
  destruct (gesture st').
  - destruct H as [_ ->]. split; [discriminate | lra].
  - destruct H as [_ ->]. split; [discriminate | lra].
  - destruct H as [_ H]. split; [discriminate | lra].
  - destruct H as [_ H]. split; [discriminate | lra].
  - destruct H.
Defined.

Lemma smoothing_restarts_witness :
  exists st2 h l0,
    predict Samples.noHands [(Samples.openHand, Left)] = Some st2 /\
    handOf st2 Left = Some h /\
    landmarks h !! 0%nat = Some l0 /\ palmPosition h = vec l0.
Proof.
  destruct (predict_total Samples.noHands [(Samples.openHand, Left)])
    as [st2 E]; [repeat constructor; simpl; lia|].
  destruct (predict_single _ _ _ _ E) as [_ [h Hh]].
  destruct (smoothing_restarts
              (Samples.onlyLeft (Samples.handAt Left false 0.2 0.2)) []
              Samples.noHands [(Samples.openHand, Left)] st2 Left h
              eq_refl (fun _ H => H) E Hh)
    as (_ & l4 & l8 & l0 & _ & _ & H0 & _ & Hpalm & _).
  exists st2, h, l0. auto.
Defined.

Lemma openHand_inImage :
  Forall (fun l => inImage (vec l)) Samples.openHand.
Proof.
  unfold Samples.openHand, inImage, vec, Samples.lm.
  repeat (apply Forall_cons; split; [cbn [vx vy lx ly]; lra|]).
  apply Forall_nil. trivial.
Qed.

Lemma tracked_hands_in_image_witness :
  exists st' h,
    predictLoop [[(Samples.openHand, Left)]] Samples.noHands = Some st' /\
    handOf st' Left = Some h /\
    -7 <= vx (ChemistryLab.handPos h) <= 7.
Proof.
  destruct (predict_total Samples.noHands [(Samples.openHand, Left)])
    as [st' E]; [repeat constructor; simpl; lia|].
  destruct (predict_single _ _ _ _ E) as [_ [h Hh]].
  assert (El : predictLoop [[(Samples.openHand, Left)]] Samples.noHands
               = Some st') by (cbn [predictLoop]; rewrite E; reflexivity).
  exists st', h. split; [exact El|]. split; [exact Hh|].
  assert (Hres : Forall resultInImage [[(Samples.openHand, Left)]]).
  { apply Forall_cons. split; [|apply Forall_nil; trivial].
    apply Forall_cons. split; [exact openHand_inImage|].
    apply Forall_nil. trivial. }
  exact (proj1 (proj2 (proj2 (tracked_hands_in_image _ st' Left h Hres
                                El Hh)))).
Defined.

End TrackerRuns.

Section LabReach.

Import ChemistryLab.

(** Hands are mapped to the plane z = 0. *)
Lemma handPos_depth hand p : Rabs (vz p) <= distanceTo (handPos hand) p.
Proof.
  apply distanceTo_ge; [apply Rabs_pos|].
  unfold distanceToSquared, handPos, vector3. simpl.
  replace (Rabs (vz p) * Rabs (vz p)) with (vz p * vz p)
    by (unfold Rabs; destruct (Rcase_abs _); ring).
  pose proof (Rle_0_sqr ((0.5 - vx (pinchPosition hand)) * 14 - vx p)).
  pose proof (Rle_0_sqr ((0.5 - vy (pinchPosition hand)) * 10 - vy p)).
  unfold Rsqr in *. nra.
Qed.

Lemma Passed_out_of_reach hs t side item item' ch :
  heldBy item = None ->
  grabDistance item <= Rabs (vz (position item)) ->
  Passed hs t side item item' ch -> item' = item.
Proof.
  intros Hfree Hfar H. unfold Passed in H.
  destruct (handOf hs side) as [hand|]; [|tauto].
  rewrite touch_idles in H.
  - congruence.
  - left. eapply Rle_trans; [exact Hfar | apply handPos_depth].
  - left. congruence.
Qed.

(** X6.  A free vessel that stands at least its grab distance off the
    plane z = 0 is never picked up and never moved, whatever the hands
    do: hands are mapped to that plane.  This is the case of the two
    beakers of [INITIAL_ITEMS], which stand at z = 2 with the grab
    distance 1.5. *)
Theorem out_of_reach_never_held inputs :
  forall items items' k item,
  frames inputs items = Some items' ->
  items !! k = Some item ->
  heldBy item = None ->
  grabDistance item <= Rabs (vz (position item)) ->
  exists item',
    items' !! k = Some item' /\ heldBy item' = None /\
    position item' = position item /\ rotation item' = rotation item.
Proof.
  induction inputs as [|[hs t] rest IH]; intros items items' k item H Hk Hf Hz.
  - injection H as <-. eauto.
  - cbn [frames] in H. apply bind_Some in H as (items1 & H1 & H).
    destruct (useFrame_lookup hs t items items1 H1) as [_ Hl].
    destruct (Hl k item Hk)
      as (i1 & i2 & item1 & ch1 & ch2 & Hk1 & HL & HR & Hs).
    apply (Passed_out_of_reach hs t Left item i1 ch1 Hf Hz) in HL.
    subst i1.
    apply (Passed_out_of_reach hs t Right item i2 ch2 Hf Hz) in HR.
    subst i2.
    destruct Hs as (_ & Hty & Hpos & Hrot & Hheld & _).
    destruct (IH items1 items' k item1 H Hk1)
      as (item' & Hk' & Hf' & Hp' & Hr').
    + congruence.
    + unfold grabDistance in *. rewrite Hty, Hpos. exact Hz.
    + exists item'. repeat split; congruence.
Qed.

End LabReach.

Section LabLevels.

Import ChemistryLab.

Lemma Passed_sameLiquid hs t side item item' ch :
  Passed hs t side item item' ch -> sameLiquid item item'.
Proof.
  unfold Passed. destruct (handOf hs side) as [hand|].
  - intros H. apply touch_Touched in H as (_ & ? & ? & ? & ? & ? & ?).
    unfold sameLiquid. auto 10.
  - intros [-> _]. unfold sameLiquid. auto 10.
Qed.

(** The rounds of the hands keep what a vessel is and what it holds. *)
Lemma interaction_sameLiquid hs t l c w :
  interaction hs t (l, c) = Some w -> Forall2 sameLiquid l w.1.
Proof.
  destruct w as [l' c']. intros H.
  destruct (interaction_lookup hs t l c l' c' H) as (Hlen & _ & Hl).
  apply Forall2_same_length_lookup_2; [simpl; congruence|].
  intros k x y Hx Hy.
  destruct (Hl k x Hx) as (x1 & y' & ch1 & ch2 & Hy' & HL & HR & _).
  simpl in Hy. rewrite Hy in Hy'. injection Hy' as <-.
  apply Passed_sameLiquid in HL. apply Passed_sameLiquid in HR.
  unfold sameLiquid in *. intuition congruence.
Qed.

Lemma fold_invariant {A} (P : Work -> Prop) (f : Work -> A -> Work) l :
  (forall w a, P w -> P (f w a)) ->
  forall w, P w -> P (fold_left f l w).
Proof.
  intros Hf. induction l as [|a l IH]; intros w Hw; [exact Hw|].
  cbn [fold_left]. apply IH, Hf, Hw.
Qed.

Lemma pourInto_le1 i w j :
  Forall (fun x => liquidLevel x <= 1) w.1 ->
  Forall (fun x => liquidLevel x <= 1) (pourInto i w j).1.
Proof.
  intros Hb. unfold pourInto. destruct (i =? j)%nat; [exact Hb|].
  destruct (w.1 !! i) as [source|] eqn:Ei; [|exact Hb].
  destruct (w.1 !! j) as [target|] eqn:Ej; [|exact Hb].
  destruct (inReach source target); [|exact Hb]. simpl.
  rewrite Forall_lookup in Hb.
  apply Forall_insert; [apply Forall_insert|].
  - now apply Forall_lookup.
  - simpl. specialize (Hb _ _ Ei). unfold amount. lra.
  - simpl. apply Rmin_l.
Qed.

Lemma pour_le1 w :
  Forall (fun x => liquidLevel x <= 1) w.1 ->
  Forall (fun x => liquidLevel x <= 1) (pour w).1.
Proof.
  intros Hb. unfold pour.
  apply (fold_invariant (fun w' => Forall (fun x => liquidLevel x <= 1) w'.1));
    [|exact Hb].
  clear. intros w i Hb.
  unfold pourFrom. destruct (w.1 !! i) as [source|]; [|exact Hb].
  destruct (_ || _); [exact Hb|]. destruct (Rgtb _ _); [|exact Hb].
  apply (fold_invariant (fun w' => Forall (fun x => liquidLevel x <= 1) w'.1));
    [|exact Hb].
  intros w' j. apply pourInto_le1.
Qed.

(** X7.  No level ever exceeds 1: the rounds of the hands leave the
    levels alone, a source only loses, and what a target receives is
    capped at 1. *)
Theorem levels_stay_below_one inputs :
  forall items items',
  Forall (fun x => liquidLevel x <= 1) items ->
  frames inputs items = Some items' ->
  Forall (fun x => liquidLevel x <= 1) items'.
Proof.
  induction inputs as [|[hs t] rest IH]; intros items items' Hb H.
  - now injection H as <-.
  - cbn [frames] in H. apply bind_Some in H as (items1 & H1 & H).
    apply (IH items1 items'); [|exact H].
    destruct (useFrame_nextItems hs t items items1 H1) as (w & Hw & ->).
    apply pour_le1. apply interaction_sameLiquid in Hw. simpl in Hw.
    clear -Hb Hw. induction Hw as [|a b l l' Hab _ IHl]; [constructor|].
    inversion Hb as [|? ? Ha Hl]; subst. constructor; [|now apply IHl].
    destruct Hab as (_ & _ & _ & -> & _). exact Ha.
Qed.

Lemma totalLiquid_insert l i x y :
  l !! i = Some x ->
  totalLiquid (<[i := y]> l) = totalLiquid l - liquidLevel x + liquidLevel y.
Proof.
  revert i. induction l as [|z l IH]; intros [|i] H; try discriminate.
  - injection H as ->. simpl. lra.
  - simpl in H. cbn [list_insert insert totalLiquid foldr].
    change (foldr (fun item total => liquidLevel item + total) 0
              (<[i := y]> l)) with (totalLiquid (<[i := y]> l)).
    rewrite (IH i H). unfold totalLiquid. lra.
Qed.

Lemma totalLiquid_sameLiquid l l' :
  Forall2 sameLiquid l l' -> totalLiquid l' = totalLiquid l.
Proof.
  induction 1 as [|a b l l' Hab _ IH]; [reflexivity|].
  destruct Hab as (_ & _ & _ & Hlev & _).
  unfold totalLiquid in *. simpl. rewrite Hlev, IH. reflexivity.
Qed.

Lemma pourInto_total i w j :
  totalLiquid (pourInto i w j).1 <= totalLiquid w.1.
Proof.
  unfold pourInto. destruct (i =? j)%nat eqn:Eij; [lra|].
  apply Nat.eqb_neq in Eij.
  destruct (w.1 !! i) as [source|] eqn:Ei; [|lra].
  destruct (w.1 !! j) as [target|] eqn:Ej; [|lra].
  destruct (inReach source target); [|lra]. simpl.
  rewrite (totalLiquid_insert _ j target).
  - rewrite (totalLiquid_insert _ i source _ Ei). simpl.
    pose proof (Rmin_r 1 (liquidLevel target + amount)). lra.
  - rewrite list_lookup_insert_ne by exact Eij. exact Ej.
Qed.

Lemma pour_total w : totalLiquid (pour w).1 <= totalLiquid w.1.
Proof.
  unfold pour.
  apply (fold_invariant (fun w' => totalLiquid w'.1 <= totalLiquid w.1));
    [|lra].
  intros w1 i H1. eapply Rle_trans; [|exact H1]. clear.
  unfold pourFrom. destruct (w1.1 !! i) as [source|]; [|lra].
  destruct (_ || _); [lra|]. destruct (Rgtb _ _); [|lra].
  apply (fold_invariant (fun w' => totalLiquid w'.1 <= totalLiquid w1.1));
    [|lra].
  intros w2 j H2. eapply Rle_trans; [apply pourInto_total | exact H2].
Qed.

(** X8.  Liquid is never gained: in every frame the sum of the levels
    stays or falls.  A transfer takes 0.015 from the source and gives the
    target 0.015 or, at the cap, less. *)
Theorem liquid_never_gained inputs :
  forall items items',
  frames inputs items = Some items' ->
  totalLiquid items' <= totalLiquid items.
Proof.
  induction inputs as [|[hs t] rest IH]; intros items items' H.
  - injection H as <-. lra.
  - cbn [frames] in H. apply bind_Some in H as (items1 & H1 & H).
    eapply Rle_trans; [exact (IH items1 items' H)|].
    destruct (useFrame_nextItems hs t items items1 H1) as (w & Hw & ->).
    eapply Rle_trans; [apply pour_total|].
    apply interaction_sameLiquid in Hw. simpl in Hw.
    rewrite (totalLiquid_sameLiquid _ _ Hw). lra.
Qed.

(** X9.  Vessels are never made, dropped or reordered, and what a vessel
    is never changes: after any run the scene lists the same ids, types,
    liquid types and labels in the same order.  In particular a vessel
    keeps its liquid type and label whatever is poured into it. *)
Theorem vessels_keep_identity inputs :
  forall items items',
  frames inputs items = Some items' ->
  identity <$> items' = identity <$> items.
Proof.
  induction inputs as [|[hs t] rest IH]; intros items items' H.
  - now injection H as <-.
  - cbn [frames] in H. apply bind_Some in H as (items1 & H1 & H).
    rewrite (IH items1 items' H). clear IH H.
    destruct (useFrame_nextItems hs t items items1 H1) as (w & Hw & ->).
    apply interaction_sameLiquid in Hw. simpl in Hw.
    pose proof (pour_hold w) as Hp.
    transitivity (identity <$> w.1).
    + clear -Hp. induction Hp as [|a b l l' Hab _ IHl]; [reflexivity|].
      cbn [fmap list_fmap]. f_equal; [|exact IHl].
      destruct Hab as (? & ? & _ & _ & _ & ? & ?).
      unfold identity. congruence.
    + clear -Hw. induction Hw as [|a b l l' Hab _ IHl]; [reflexivity|].
      cbn [fmap list_fmap]. f_equal; [|exact IHl].
      destruct Hab as (? & ? & _ & _ & ? & ?).
      unfold identity. congruence.
Qed.

End LabLevels.

Section LabHands.

Import ChemistryLab.

(** X10.  When both hands pinch within reach of a free vessel in the
    same frame, the left hand gets it: its round runs first, and the
    round of the right hand leaves a vessel alone that the left hand
    holds. *)
Theorem left_hand_wins hs t items items' k item lh :
  useFrame hs t items = Some items' ->
  items !! k = Some item ->
  heldBy item = None ->
  leftHand hs = Some lh ->
  isPinching lh = true ->
  distanceTo (handPos lh) (position item) < grabDistance item ->
  exists item',
    items' !! k = Some item' /\ heldBy item' = Some Left /\
    position item' = handPos lh.
Proof.
  intros H Hk Hfree Hl Hpinch Hnear.
  destruct (useFrame_lookup hs t items items' H) as [_ Hlook].
  destruct (Hlook k item Hk)
    as (i1 & i2 & item' & ch1 & ch2 & Hk' & HL & HR & Hs).
  unfold Passed in HL. simpl in HL. rewrite Hl in HL.
  unfold touch in HL.
  assert (Hc : Rltb (distanceTo (handPos lh) (position item))
                 (grabDistance item) && isPinching lh
               && (unheld item || heldBySide item Left) = true).
  { apply Rltb_true in Hnear. rewrite Hnear, Hpinch.
    unfold unheld. rewrite Hfree. reflexivity. }
  rewrite Hc in HL.
  apply bind_Some in HL as (wrist & _ & HL).
  apply bind_Some in HL as (index & _ & HL).
  injection HL as <- _.
  destruct (Passed_other hs t Left (grab Left lh t wrist index item) i2 ch2
              eq_refl HR) as [-> _].
  destruct Hs as (_ & _ & Hpos & _ & Hheld & _).
  exists item'. split; [exact Hk'|]. rewrite Hheld, Hpos. auto.
Qed.

(** X11.  A held vessel follows its hand only from frame to frame
    within the grab distance.  When the pinching hand that holds it is
    found at the grab distance or farther from it, the vessel stays
    where it is, tilted as it is, and still counts as held by that
    hand. *)
Theorem held_but_left_behind hs t items items' k item side hand :
  useFrame hs t items = Some items' ->
  items !! k = Some item ->
  heldBy item = Some side ->
  handOf hs side = Some hand ->
  isPinching hand = true ->
  grabDistance item <= distanceTo (handPos hand) (position item) ->
  exists item',
    items' !! k = Some item' /\ heldBy item' = Some side /\
    position item' = position item /\ rotation item' = rotation item.
Proof.
  intros H Hk Hheld Hh Hpinch Hfar.
  destruct (useFrame_lookup hs t items items' H) as [_ Hlook].
  destruct (Hlook k item Hk)
    as (i1 & i2 & item' & ch1 & ch2 & Hk' & HL & HR & Hs).
  assert (Hown : forall x ch, Passed hs t side item x ch -> x = item).
  { intros x ch Hp. unfold Passed in Hp. rewrite Hh in Hp.
    rewrite touch_idles in Hp; [congruence | now left | now right]. }
  assert (E2 : i2 = item).
  { destruct side.
    - apply Hown in HL. subst i1.
      now destruct (Passed_other hs t Left item i2 ch2 Hheld HR).
    - destruct (Passed_other hs t Right item i1 ch1 Hheld HL) as [-> _].
      now apply Hown in HR. }
  subst i2. destruct Hs as (_ & _ & Hpos & Hrot & Hh' & _).
  exists item'. repeat split; congruence.
Qed.

End LabHands.

Section LabLoss.

Import ChemistryLab.

(** X12.  A vessel only loses liquid in a frame in which it is held and
    tilted beyond 1 rad: with no level above 1, a vessel that is free or
    upright after the rounds of the hands ends the frame with at least
    the level it had. *)
Theorem loss_needs_tilt hs t items items' k item item' :
  Forall (fun x => liquidLevel x <= 1) items ->
  useFrame hs t items = Some items' ->
  items !! k = Some item -> items' !! k = Some item' ->
  liquidLevel item' < liquidLevel item ->
  heldBy item' <> None /\ 1 < Rabs (ez (rotation item')).
Proof.
  intros Hb H Hk Hk' Hloss.
  destruct (useFrame_nextItems hs t items items' H) as (w & Hw & ->).
  apply interaction_sameLiquid in Hw. simpl in Hw.
  destruct (Forall2_lookup_l _ _ _ _ _ Hw Hk) as (x & Hx & Hsame).
  assert (Hbw : Forall (fun x => liquidLevel x <= 1) w.1).
  { clear -Hb Hw. induction Hw as [|a b l l' Hab _ IHl]; [constructor|].
    inversion Hb as [|? ? Ha Hl]; subst. constructor; [|now apply IHl].
    destruct Hab as (_ & _ & _ & -> & _). exact Ha. }
  assert (Hlen : (k < length w.1)%nat) by (eapply lookup_lt_Some; eauto).
  set (w1 := fold_left pourFrom (seq 0 k) w).
  destruct (pour_before_spares k w Hbw) as [Hb1 Hgrow]. fold w1 in Hb1, Hgrow.
  destruct (Hgrow x Hx) as (s1 & Hs1 & Hle1).
  assert (Hh1 : sameHold x s1).
  { pose proof (fold_hold pourFrom (seq 0 k) pourFrom_hold w) as Hf.
    fold w1 in Hf.
    destruct (Forall2_lookup_l _ _ _ _ _ Hf Hx) as (y & Hy & Hxy).
    congruence. }
  assert (Hh' : sameHold x item').
  { destruct (Forall2_lookup_l _ _ _ _ _ (pour_hold w) Hx) as (y & Hy & Hxy).
    congruence. }
  destruct (decide (heldBy item' = None)) as [Hfree|Hheld];
    [exfalso | split; [exact Hheld|]].
  2: destruct (Rlt_dec 1 (Rabs (ez (rotation item')))) as [|Hup];
       [assumption | exfalso].
  all: assert (Hidle : pourFrom w1 k = w1)
         by (apply (pourFrom_idle w1 k s1 Hs1);
             destruct Hh1 as (_ & _ & _ & Hr1 & Hd1 & _);
             destruct Hh' as (_ & _ & _ & Hr' & Hd' & _);
             rewrite Hr1, Hd1, <- Hr', <- Hd';
             first [now left | right; right; lra]).
  all: rewrite (pour_split w k Hlen) in Hk'; fold w1 in Hk';
       rewrite Hidle in Hk'.
  all: assert (Hsp : spares k w1
              (fold_left pourFrom (seq (S k) (length w.1 - S k)) w1))
         by (apply (fold_spares pourFrom k (fun j => j <> k));
             [intros w' j Hj; now apply pourFrom_spares
             |apply Forall_forall; intros j Hj; apply elem_of_seq in Hj;
              lia]).
  all: destruct (Hsp Hb1) as [_ Hkeep];
       destruct (Hkeep s1 Hs1) as (y & Hy & Hle2);
       rewrite Hy in Hk'; injection Hk' as ->;
       destruct Hsame as (_ & _ & _ & Hlev & _); lra.
Qed.

End LabLoss.

Section LabRuns.

Import ChemistryLab.

Lemma frames_total inputs :
  Forall (fun input : TrackingState * R =>
            forall side hand, handOf input.1 side = Some hand ->
              (9 <= length (landmarks hand))%nat) inputs ->
  forall items, is_Some (frames inputs items).
Proof.
  induction 1 as [|[hs t] rest Hh _ IH]; intros items; [eauto|].
  cbn [frames]. destruct (useFrame_total hs t items Hh) as [items1 ->].
  simpl. apply IH.
Qed.

Lemma graspTube1_run :
  Forall (fun input : TrackingState * R =>
            forall side hand, handOf input.1 side = Some hand ->
              (9 <= length (landmarks hand))%nat)
    [(Samples.graspTube1, 0)].
Proof.
  repeat constructor. intros [|] hand; simpl; [|discriminate].
  intros [= <-]. simpl. lia.
Qed.

Lemma INITIAL_ITEMS_le1 :
  Forall (fun x => liquidLevel x <= 1) INITIAL_ITEMS.
Proof. repeat constructor; simpl; lra. Qed.

Lemma out_of_reach_never_held_witness :
  exists items' beaker1,
    frames [(Samples.graspTube1, 0)] INITIAL_ITEMS = Some items' /\
    items' !! 6%nat = Some beaker1 /\ heldBy beaker1 = None /\
    position beaker1 = vector3 (-2) 0 2.
Proof.
  destruct (frames_total _ graspTube1_run INITIAL_ITEMS) as [items' E].
  destruct (out_of_reach_never_held [(Samples.graspTube1, 0)] INITIAL_ITEMS
              items' 6%nat _ E eq_refl eq_refl)
    as (beaker1 & Hk & Hfree & Hpos & _).
  - unfold grabDistance. simpl. rewrite Rabs_pos_eq; lra.
  - exists items', beaker1. auto.
Defined.

Lemma levels_stay_below_one_witness :
  exists items',
    frames [(Samples.graspTube1, 0)] INITIAL_ITEMS = Some items' /\
    Forall (fun x => liquidLevel x <= 1) items'.
Proof.
  destruct (frames_total _ graspTube1_run INITIAL_ITEMS) as [items' E].
  exists items'. split; [exact E|].
  exact (levels_stay_below_one _ _ _ INITIAL_ITEMS_le1 E).
Defined.

Lemma liquid_never_gained_witness :
  exists items',
    frames [(Samples.graspTube1, 0)] INITIAL_ITEMS = Some items' /\
    totalLiquid items' <= totalLiquid INITIAL_ITEMS.
Proof.
  destruct (frames_total _ graspTube1_run INITIAL_ITEMS) as [items' E].
  exists items'. split; [exact E|].
  exact (liquid_never_gained _ _ _ E).
Defined.

Lemma vessels_keep_identity_witness :
  exists items',
    frames [(Samples.graspTube1, 0)] INITIAL_ITEMS = Some items' /\
    identity <$> items' = identity <$> INITIAL_ITEMS.
Proof.
  destruct (frames_total _ graspTube1_run INITIAL_ITEMS) as [items' E].
  exists items'. split; [exact E|].
  exact (vessels_keep_identity _ _ _ E).
Defined.

Lemma left_hand_wins_witness :
  exists items' tube1,
    useFrame Samples.graspTube1 0 INITIAL_ITEMS = Some items' /\
    items' !! 0%nat = Some tube1 /\ heldBy tube1 = Some Left.
Proof.
  destruct (onlyLeft_total (Samples.handAt Left true (11 / 14) 0.6) 0
              INITIAL_ITEMS) as [items' E]; [simpl; lia|].
  destruct (left_hand_wins Samples.graspTube1 0 INITIAL_ITEMS items' 0%nat
              _ _ E eq_refl eq_refl eq_refl eq_refl)
    as (tube1 & Hk & Hheld & _).
  - unfold grabDistance. simpl. apply distanceTo_lt; [lra|].
    unfold distanceToSquared. simpl. lra.
  - exists items', tube1. auto.
Defined.

Lemma held_but_left_behind_witness :
  exists items' tube1,
    useFrame (Samples.onlyLeft (Samples.handAt Left true 0.2 0.2)) 0
      Samples.labHeld = Some items' /\
    items' !! 0%nat = Some tube1 /\ heldBy tube1 = Some Left /\
    position tube1 = vector3 (-4) (-1) 0.
Proof.
  destruct (onlyLeft_total (Samples.handAt Left true 0.2 0.2) 0
              Samples.labHeld) as [items' E]; [simpl; lia|].
  destruct (held_but_left_behind _ 0 Samples.labHeld items' 0%nat _ Left _
              E eq_refl eq_refl eq_refl eq_refl)
    as (tube1 & Hk & Hheld & Hpos & _).
  - unfold grabDistance. simpl. apply distanceTo_ge; [lra|].
    unfold distanceToSquared. simpl. lra.
  - exists items', tube1. auto.
Defined.

Lemma loss_needs_tilt_witness :
  exists items' tube1,
    useFrame Samples.pouring 0 Samples.pouringStart = Some items' /\
    items' !! 0%nat = Some tube1 /\
    heldBy tube1 <> None /\ 1 < Rabs (ez (rotation tube1)).
Proof.
  pose proof (pouring_frame 0 0.7 (euler 0 0 (-1.2)) 0.0
                (hexColor 255 255 255)) as E.
  fold Samples.pouringStart in E.
  eexists _, _. split; [apply E; simpl; lra|]. split; [reflexivity|].
  refine (loss_needs_tilt Samples.pouring 0 Samples.pouringStart _ 0%nat _ _
            _ (E _ _) eq_refl eq_refl _);
    try (simpl; lra).
  repeat constructor; simpl; lra.
Defined.

End LabRuns.

(** ** The pouring scenario, for any run that keeps its conditions *)

Section PouringRuns.

Import ChemistryLab.

(** Vessels that are free or upright pour nothing. *)
Lemma pour_aside ks w :
  (forall k x, k ∈ ks -> w.1 !! k = Some x ->
     heldBy x = None \/ Rabs (ez (rotation x)) <= 1) ->
  fold_left pourFrom ks w = w.
Proof.
  induction ks as [|k ks IH]; intros H; [reflexivity|]. cbn [fold_left].
  assert (E : pourFrom w k = w).
  { destruct (w.1 !! k) as [x|] eqn:Ek.
    - apply (pourFrom_idle w k x Ek).
      destruct (H k x) as [Hf|Hu]; [constructor | exact Ek | auto | auto]. 
    - unfold pourFrom. now rewrite Ek. }
  rewrite E. apply IH. intros k' x Hk'. apply H. now constructor.
Qed.

(** When every other vessel is free or upright, the pouring pass is the
    turn of the one source. *)
Lemma pour_only_source w i :
  (i < length w.1)%nat ->
  (forall k x, k <> i -> w.1 !! k = Some x ->
     heldBy x = None \/ Rabs (ez (rotation x)) <= 1) ->
  pour w = pourFrom w i.
Proof.
  intros Hi Hun. rewrite (pour_split w i Hi).
  assert (E : fold_left pourFrom (seq 0 i) w = w).
  { apply pour_aside. intros k x Hk. apply elem_of_seq in Hk.
    apply Hun. lia. }
  rewrite E. apply pour_aside. intros k x Hk Hx.
  apply elem_of_seq in Hk.
  destruct (Forall2_lookup_r _ _ _ _ _ (pourFrom_hold w i) Hx)
    as (y & Hy & Hs).
  destruct Hs as (_ & _ & _ & -> & -> & _). apply (Hun k y); [lia | exact Hy].
Qed.

Lemma filter_single (f : nat -> bool) j l :
  NoDup l -> j ∈ l -> f j = true -> (forall k, k <> j -> f k = false) ->
  List.filter f l = [j].
Proof.
  intros Hnd Hj Hf Ho. induction Hnd as [|a l Ha Hnd IH].
  - inversion Hj.
  - cbn [List.filter]. destruct (decide (a = j)) as [->|Haj].
    + rewrite Hf. f_equal.
      clear IH Hj. induction l as [|b l IHl]; [reflexivity|].
      cbn [List.filter]. apply NoDup_cons in Hnd as [Hb Hnd].
      rewrite Ho.
      * apply IHl; [|exact Hnd]. intros Hin. apply Ha. now right.
      * intros ->. apply Ha. now left.
    + rewrite (Ho a Haj). apply IH. inversion Hj; subst; congruence.
Qed.

(** One frame of the scenario, from the scene [w] the hands leave: while
    the source is not empty, one transfer into the target; afterwards
    nothing. *)
Lemma poised_pour i j w s b :
  poised i j w.1 -> w.1 !! i = Some s -> w.1 !! j = Some b ->
  exists s' b',
    (pour w).1 !! i = Some s' /\ (pour w).1 !! j = Some b' /\
    color s' = color s /\
    (0 < liquidLevel s ->
     liquidLevel s' = liquidLevel s - 0.015 /\
     liquidLevel b' = Rmin 1 (liquidLevel b + 0.015) /\
     color b' = if Rleb (liquidLevel b) 0.05 then color s
                else lerpC (color b) (color s) 0.1) /\
    (liquidLevel s <= 0 ->
     liquidLevel s' = liquidLevel s /\ liquidLevel b' = liquidLevel b /\
     color b' = color b).
Proof.
  intros (s0 & b0 & Hs0 & Hb0 & Hij & Hheld & Htilt & Hd & Hh & Hothers & Hidle)
    Hs Hb.
  rewrite Hs in Hs0. injection Hs0 as <-.
  rewrite Hb in Hb0. injection Hb0 as <-.
  assert (Hlen : (i < length w.1)%nat) by (eapply lookup_lt_Some; eauto).
  assert (Hlenj : (j < length w.1)%nat) by (eapply lookup_lt_Some; eauto).
  rewrite (pour_only_source w i Hlen Hidle).
  destruct (Rlt_dec 0 (liquidLevel s)) as [Hpos|Hdry].
  - rewrite (pourFrom_pours w i s Hs Hheld Hpos Htilt).
    destruct (pourInto_fold w i s (seq 0 (length w.1)) Hs (NoDup_seq _ _))
      as (_ & (s' & Hs' & _ & Hcol & Hlev') & Hrecv & _ & _).
    assert (Hr : receives w.1 i j = true).
    { rewrite (receives_lookup w.1 i j s b) by auto.
      apply inReach_true. auto. }
    assert (Hone : List.filter (receives w.1 i) (seq 0 (length w.1)) = [j]).
    { apply filter_single; [apply NoDup_seq | apply elem_of_seq; lia
                           | exact Hr | exact Hothers]. }
    rewrite Hone in Hlev'. unfold amount in Hlev'. simpl in Hlev'.
    exists s', (receive (color s) b).
    split; [exact Hs'|]. split.
    { apply Hrecv; [apply elem_of_seq; lia | exact Hr | exact Hb]. }
    split; [exact Hcol|]. split; [|intros; lra].
    intros _. split; [lra|]. unfold receive, amount. simpl. auto.
  - rewrite (pourFrom_idle w i s Hs) by (right; left; lra).
    exists s, b. split; [exact Hs|]. split; [exact Hb|].
    split; [reflexivity|]. split; [intros; lra | auto].
Qed.

(** The scenario after [n] transfers, run for the frames [inputs]. *)
Lemma poised_run i j inputs :
  forall (n : nat) items s b,
    (n <= 47)%nat ->
    items !! i = Some s -> items !! j = Some b ->
    liquidLevel s = 0.7 - 0.015 * INR n ->
    liquidLevel b = 0.015 * INR n ->
    ((1 <= n)%nat -> color b = color s) ->
    keptPoised i j inputs items ->
    exists items' s' b',
      frames inputs items = Some items' /\
      items' !! i = Some s' /\ items' !! j = Some b' /\
      color s' = color s /\
      liquidLevel s'
      = 0.7 - 0.015 * INR (Nat.min (n + length inputs) 47) /\
      liquidLevel b' = 0.015 * INR (Nat.min (n + length inputs) 47) /\
      ((1 <= n + length inputs)%nat -> color b' = color s).
Proof.
  induction inputs as [|[hs t] rest IH];
    intros n items s b Hn Hs Hb Hls Hlb Hc Hk.
  - exists items, s, b. cbn [frames length].
    rewrite Nat.add_0_r, Nat.min_l by exact Hn.
    repeat split; auto.
  - cbn [keptPoised] in Hk. destruct Hk as [(w & Hw & Hp) Hnext].
    assert (Hu : useFrame hs t items = Some (pour w).1).
    { destruct (useFrame hs t items) as [items1|] eqn:E.
      - destruct (useFrame_nextItems hs t items items1 E) as (w' & Hw' & ->).
        congruence.
      - unfold useFrame in E. rewrite Hw in E. discriminate. }
    pose proof (interaction_sameLiquid hs t items false w Hw) as Hsl.
    destruct (Forall2_lookup_l _ _ _ _ _ Hsl Hs) as (sw & Hsw & Hss).
    destruct (Forall2_lookup_l _ _ _ _ _ Hsl Hb) as (bw & Hbw & Hbs).
    destruct Hss as (_ & _ & Hcs & Hlsw & _).
    destruct Hbs as (_ & _ & Hcb & Hlbw & _).
    destruct (poised_pour i j w sw bw Hp Hsw Hbw)
      as (s1 & b1 & Hs1 & Hb1 & Hc1 & Hwet & Hdry).
    cbn [frames length]. rewrite Hu. cbn [mbind option_bind].
    assert (Hn47 : INR n <= 47)
      by (apply (le_INR n 47) in Hn; simpl in Hn; lra).
    pose proof (pos_INR n) as Hn0.
    destruct (decide (n = 47)%nat) as [->|Hlt].
    + destruct Hdry as (Hl1 & Hl6 & Hc6); [rewrite Hlsw, Hls; simpl; lra|].
      destruct (IH 47%nat (pour w).1 s1 b1 Hn Hs1 Hb1) as
        (items' & s' & b' & Hf & Hi' & Hj' & Hcs' & Hls' & Hlb' & Hcb').
      * rewrite Hl1, Hlsw. exact Hls.
      * rewrite Hl6, Hlbw. exact Hlb.
      * intros _. rewrite Hc6, Hc1, Hcb, Hcs. apply Hc. lia.
      * apply Hnext. exact Hu.
      * exists items', s', b'.
        replace (Nat.min (47 + S (length rest)) 47) with 47%nat by lia.
        replace (Nat.min (47 + length rest) 47) with 47%nat in Hls', Hlb'
          by lia.
        split; [exact Hf|]. split; [exact Hi'|]. split; [exact Hj'|].
        split; [congruence|]. split; [exact Hls'|]. split; [exact Hlb'|].
        intros _. rewrite Hcb' by lia. congruence.
    + assert (Hn46 : INR n <= 46).
      { assert (H : (n <= 46)%nat) by lia.
        apply (le_INR n 46) in H. simpl in H. lra. }
      destruct Hwet as (Hl1 & Hl6 & Hc6); [rewrite Hlsw, Hls; lra|].
      destruct (IH (S n) (pour w).1 s1 b1 ltac:(lia) Hs1 Hb1) as
        (items' & s' & b' & Hf & Hi' & Hj' & Hcs' & Hls' & Hlb' & Hcb').
      * rewrite Hl1, Hlsw, Hls, S_INR. ring.
      * rewrite Hl6, Hlbw, Hlb, S_INR. rewrite Rmin_right by lra. ring.
      * intros _. rewrite Hc6, Hc1, Hlbw, Hcb, Hcs.
        destruct (Rleb (liquidLevel b) 0.05) eqn:El; [reflexivity|].
        apply Rleb_false in El.
        assert (Hn1 : (1 <= n)%nat).
        { destruct n; [rewrite Hlb in El; simpl in El; lra | lia]. }
        rewrite (Hc Hn1). apply lerpC_same.
      * apply Hnext. exact Hu.
      * exists items', s', b'.
        replace (n + S (length rest))%nat with (S n + length rest)%nat
          by lia.
        split; [exact Hf|]. split; [exact Hi'|]. split; [exact Hj'|].
        split; [congruence|]. split; [exact Hls'|]. split; [exact Hlb'|].
        intros _. rewrite Hcb' by lia. congruence.
Qed.

(** C5, as the code has it.  Take a scene in which the source, tube1,
    has the level 0.7 and the target, beaker1, the level 0, as in
    [INITIAL_ITEMS], and a run of [N] frames each of which, once the
    hands have moved the vessels, finds tube1 held, tilted beyond 1 rad
    and above beaker1, within distance 2.5 of it and of no other lower
    vessel, and no other vessel held and tilted.  Then no frame throws;
    the level of beaker1 is [0.015 * min N 47], the tube being empty
    after 47 transfers; the colour of beaker1 is that of tube1 from the
    first frame on; and the level of tube1 is [0.7 - 0.015 * N] as long
    as [N] is at most 46. *)
Theorem pouring_scenario inputs items i j tube1 beaker1 :
  items !! i = Some tube1 -> items !! j = Some beaker1 ->
  liquidLevel tube1 = 0.7 -> liquidLevel beaker1 = 0.0 ->
  keptPoised i j inputs items ->
  exists items' tube1' beaker1',
    frames inputs items = Some items' /\
    items' !! i = Some tube1' /\ items' !! j = Some beaker1' /\
    liquidLevel beaker1' = 0.015 * INR (Nat.min (length inputs) 47) /\
    ((1 <= length inputs)%nat -> color beaker1' = color tube1) /\
    color tube1' = color tube1 /\
    ((length inputs <= 46)%nat ->
     liquidLevel tube1' = 0.7 - 0.015 * INR (length inputs)).
Proof.
  intros Hi Hj Hl1 Hl6 Hk.
  destruct (poised_run i j inputs 0%nat items tube1 beaker1)
    as (items' & s' & b' & Hf & Hi' & Hj' & Hcs & Hls & Hlb & Hcb);
    try assumption; try lia.
  { rewrite Hl1. simpl. lra. }
  { rewrite Hl6. simpl. lra. }
  cbn [Nat.add] in Hls, Hlb, Hcb.
  exists items', s', b'.
  split; [exact Hf|]. split; [exact Hi'|]. split; [exact Hj'|].
  split; [exact Hlb|]. split; [exact Hcb|]. split; [exact Hcs|].
  intros HN. rewrite Hls. now rewrite Nat.min_l by lia.
Qed.

(** The sample scenario keeps the conditions: the right hand holds the
    tube above the first beaker, and everything else stands free and out
    of reach. *)
Lemma pouringLab_poised l1 rot l6 c6 :
  ez rot < -1 -> poised 0 6 (Samples.pouringLab l1 rot l6 c6).
Proof.
  intros Hr. eexists _, _.
  split; [reflexivity|]. split; [reflexivity|]. split; [lia|].
  split; [discriminate|]. split.
  { simpl. unfold Rabs. destruct (Rcase_abs _); lra. }
  split.
  { apply distanceTo_lt; [lra|].
    unfold distanceToSquared, handPos. simpl. lra. }
  split; [unfold handPos; simpl; lra|]. split.
  - intros k Hk.
    do 8 (destruct k as [|k];
          [first [ apply receives_self | congruence
                 | erewrite receives_lookup by
                     first [reflexivity | discriminate];
                   apply inReach_false; left;
                   unfold distanceToSquared, handPos; simpl; lra ]|]).
    apply receives_None. reflexivity.
  - intros k other Hk Ho.
    do 8 (destruct k as [|k];
          [first [congruence | injection Ho as <-; left; reflexivity]|]).
    discriminate Ho.
Qed.

Lemma pouring_keptPoised ts :
  forall l1 rot l6 c6, ez rot < -1 ->
    keptPoised 0 6 (map (fun t => (Samples.pouring, t)) ts)
      (Samples.pouringLab l1 rot l6 c6).
Proof.
  induction ts as [|t ts IH]; intros l1 rot l6 c6 Hr; [exact I|].
  cbn [map keptPoised]. split.
  - eexists. split; [apply pouring_interaction|].
    apply pouringLab_poised. now apply pouringTilt_tilted.
  - intros items' Hu.
    destruct (Rlt_dec 0 l1) as [Hwet|Hdry].
    + rewrite pouring_frame in Hu by assumption. injection Hu as <-.
      apply IH. now apply pouringTilt_tilted.
    + rewrite pouring_frame_dry in Hu by lra. injection Hu as <-.
      apply IH. now apply pouringTilt_tilted.
Qed.

Lemma pouring_scenario_witness :
  exists items' beaker1,
    frames (map (fun t => (Samples.pouring, t)) (replicate 48 0))
      Samples.pouringStart = Some items' /\
    items' !! 6%nat = Some beaker1 /\
    liquidLevel beaker1 = 0.015 * 47 /\
    color beaker1 = Samples.red.
Proof.
  destruct (pouring_scenario
              (map (fun t => (Samples.pouring, t)) (replicate 48 0))
              Samples.pouringStart 0%nat 6%nat _ _ eq_refl eq_refl
              eq_refl eq_refl)
    as (items' & tube1' & beaker1' & Hf & _ & Hj & Hl & Hc & _).
  { apply pouring_keptPoised. simpl. lra. }
  exists items', beaker1'. split; [exact Hf|]. split; [exact Hj|].
  rewrite length_map, length_replicate in Hl, Hc.
  split.
  - rewrite Hl. change (Nat.min 48 47) with 47%nat.
    replace (INR 47) with 47 by (simpl; lra). reflexivity.
  - apply Hc. lia.
Defined.

End PouringRuns.

Section Glass.

Import ChemistryLab GlassWare.

(** X13.  The drawn liquid.  Its column starts 0.05 above the bottom of
    the glass and, for a level of at most 1, ends 0.05 below its top or
    lower.  But the liquid is drawn from the level 0.01 on, while the
    height of its column, [height * level - 0.1], is positive only from
    the level [0.1 / height] on: a test tube with a level between 0.01
    and 0.04 is drawn with a column of negative height.  The first test
    tube is in that state after 45 frames of the pouring scenario, at
    the level 0.025. *)
Theorem liquid_column :
  (forall item,
     let glass := glassBody item in
     let liquid := liquidBody item in
     bottom liquid = bottom glass + 0.05 /\
     (liquidLevel item <= 1 -> top liquid <= top glass - 0.05) /\
     (tall liquid < 0 <->
      liquidLevel item < 0.1 / height (getDimensions (type item))) /\
     (type item = TEST_TUBE ->
      (liquidShown item = true /\ tall liquid < 0 <->
       0.01 < liquidLevel item < 0.04))) /\
  (exists items' tube1,
     frames (map (fun t => (Samples.pouring, t)) (replicate 45 0))
       Samples.pouringStart = Some items' /\
     items' !! 0%nat = Some tube1 /\
     type tube1 = TEST_TUBE /\ liquidLevel tube1 = 0.025 /\
     liquidShown tube1 = true /\ tall (liquidBody tube1) < 0).
Proof.
  split.
  - intros item. cbv zeta. unfold top, bottom, liquidShown.
    rewrite Rgtb_true.
    unfold liquidBody, glassBody, getDimensions.
    destruct (type item); simpl; (split; [lra|]); (split; [intros; lra|]);
      (split; [split; intros; lra|]); intros E; try discriminate.
    split; [intros [? ?]; split; lra | intros [? ?]; split; lra].
  - destruct (pouring_run (replicate 45 0) 0%nat (euler 0 0 (-1.2))
                (hexColor 255 255 255))
      as (rot & _ & E); [lia | simpl; lra | lia |].
    rewrite length_replicate in E.
    change (Nat.min (0 + 45) 47) with 45%nat in E.
    assert (Es : Samples.pouringLab (0.7 - 0.015 * INR 0) (euler 0 0 (-1.2))
                   (0.015 * INR 0) (hexColor 255 255 255)
                 = Samples.pouringStart).
    { unfold Samples.pouringStart. simpl. f_equal; lra. }
    rewrite Es in E. clear Es.
    assert (H45 : INR 45 = 45) by (simpl; lra). rewrite H45 in E.
    eexists _, _. split; [exact E|]. split; [reflexivity|].
    split; [reflexivity|]. split; [simpl; lra|]. split.
    + apply Rgtb_true. simpl. lra.
    + simpl. lra.
Qed.

End Glass.

Section PageLevels.

Import ChemistryPage.

Lemma dries_refl a : dries a a.
Proof. unfold dries. repeat split; auto; lra. Qed.

Lemma dries_trans a b c : dries a b -> dries b c -> dries a c.
Proof.
  unfold dries. intros (H1 & H2 & H3) (H4 & H5 & H6).
  repeat split; [lra | auto |]. intros Ha. rewrite H6, H3; lra.
Qed.

Lemma Forall2_diag {B} (R : B -> B -> Prop) l :
  (forall x, R x x) -> Forall2 R l l.
Proof. intros H. induction l; constructor; auto. Qed.

Lemma Forall2_chain {B} (R : B -> B -> Prop) l1 l2 l3 :
  (forall x y z, R x y -> R y z -> R x z) ->
  Forall2 R l1 l2 -> Forall2 R l2 l3 -> Forall2 R l1 l3.
Proof.
  intros Ht H12. revert l3. induction H12; intros l3 H23;
    inversion H23; subst; constructor; eauto.
Qed.

Lemma fold_Forall2 {A B} (R : B -> B -> Prop)
    (f : list B * bool -> A -> list B * bool) l :
  (forall x, R x x) -> (forall x y z, R x y -> R y z -> R x z) ->
  (forall w a, Forall2 R w.1 (f w a).1) ->
  forall w, Forall2 R w.1 (fold_left f l w).1.
Proof.
  intros Hrefl Htrans Hf. induction l as [|a l IH]; intros w; simpl.
  - now apply Forall2_diag.
  - eapply Forall2_chain; [exact Htrans | apply Hf | apply IH].
Qed.

Lemma react_dries i w j : Forall2 dries w.1 (react i w j).1.
Proof.
  assert (Hrefl : Forall2 dries w.1 w.1)
    by (apply Forall2_diag, dries_refl).
  unfold react.
  destruct (w.1 !! i) as [tube1|] eqn:Ei; [|exact Hrefl].
  destruct (w.1 !! j) as [tube2|] eqn:Ej; [|exact Hrefl].
  destruct (_ && _) eqn:Ec; [|exact Hrefl]. simpl.
  apply andb_true_iff in Ec as [Ec E2]. apply andb_true_iff in Ec as [_ E1].
  apply Rgtb_true in E1. apply Rgtb_true in E2.
  apply Forall2_same_length_lookup_2; [now rewrite !length_insert|].
  intros k x y Hx Hy.
  destruct (decide (k = j)) as [->|Hkj].
  - rewrite list_lookup_insert_eq in Hy
      by (rewrite length_insert; eapply lookup_lt_Some; eauto).
    injection Hy as <-. rewrite Hx in Ej. injection Ej as ->.
    unfold dries. simpl. rewrite Rmax_right by lra. repeat split; lra.
  - rewrite list_lookup_insert_ne in Hy by auto.
    destruct (decide (k = i)) as [->|Hki].
    + rewrite list_lookup_insert_eq in Hy by (eapply lookup_lt_Some; eauto).
      injection Hy as <-. rewrite Hx in Ei. injection Ei as ->.
      unfold dries. simpl. rewrite Rmax_right by lra. repeat split; lra.
    + rewrite list_lookup_insert_ne in Hy by auto.
      rewrite Hx in Hy. injection Hy as <-. apply dries_refl.
Qed.

Lemma reactions_dries w : Forall2 dries w.1 (reactions w).1.
Proof.
  unfold reactions.
  apply fold_Forall2; [apply dries_refl | apply dries_trans|].
  intros w' i.
  apply fold_Forall2; [apply dries_refl | apply dries_trans|].
  intros. apply react_dries.
Qed.

Lemma page_Passed_sameLiquid hs side tube tube' ch :
  Passed hs side tube tube' ch -> sameLiquid tube tube'.
Proof.
  unfold Passed. destruct (handOf hs side) as [hand|].
  - intros H. now apply page_touch_Touched in H as [_ H].
  - intros [-> _]. unfold sameLiquid. auto 10.
Qed.

Lemma page_interaction_sameLiquid hs l c w :
  interaction hs (l, c) = Some w -> Forall2 sameLiquid l w.1.
Proof.
  destruct w as [l' c']. intros H.
  destruct (page_interaction_lookup hs l c l' c' H) as (Hlen & _ & Hl).
  apply Forall2_same_length_lookup_2; [simpl; congruence|].
  intros k x y Hx Hy.
  destruct (Hl k x Hx) as (x1 & y' & ch1 & ch2 & Hy' & HL & HR & _).
  simpl in Hy. rewrite Hy in Hy'. injection Hy' as <-.
  apply page_Passed_sameLiquid in HL. apply page_Passed_sameLiquid in HR.
  unfold sameLiquid in *. intuition congruence.
Qed.

(** X14.  On the chemistry page the level of a tube never rises, and a
    reaction never empties a tube: a tube reacts only from a level above
    0.1 and loses 0.01 a reaction, so a level above 0.09 stays above
    0.09, a level of 0.1 or less is never changed, and the floor at 0
    under the subtraction is never reached. *)
Theorem page_levels_only_fall inputs :
  forall tubes tubes',
  frames inputs tubes = Some tubes' ->
  Forall2 dries tubes tubes'.
Proof.
  induction inputs as [|hs rest IH]; intros tubes tubes' H.
  - injection H as <-. apply Forall2_diag, dries_refl.
  - cbn [frames] in H. apply bind_Some in H as (tubes1 & H1 & H).
    eapply Forall2_chain;
      [exact dries_trans | | exact (IH tubes1 tubes' H)].
    destruct (page_useFrame_nextTubes hs tubes tubes1 H1) as (w & Hw & ->).
    eapply Forall2_chain; [exact dries_trans | | apply reactions_dries].
    apply page_interaction_sameLiquid in Hw. simpl in Hw.
    eapply Forall2_impl; [exact Hw|]. intros a b (_ & _ & _ & Hlev & _).
    unfold dries. rewrite Hlev. repeat split; auto; lra.
Qed.

End PageLevels.

Section PageEffects.

Import ChemistryPage.

(** The reaction loops of [reactionsFx] are those of [reactions]. *)
Lemma reactFx_fold i js acc :
  (fold_left (reactFx i) js acc).1 = fold_left (react i) js acc.1.
Proof.
  revert acc. induction js as [|j js IH]; intros acc; [reflexivity|].
  cbn [fold_left]. rewrite IH. reflexivity.
Qed.

Lemma reactionsFx_reactions w : (reactionsFx w).1 = reactions w.
Proof.
  unfold reactionsFx, reactions. generalize (length w.1). intros n.
  change w with ((w, @None Reaction).1) at 2.
  generalize (w, @None Reaction). generalize (seq 0 n).
  induction l as [|i l IH]; intros acc; [reflexivity|].
  cbn [fold_left]. rewrite IH, reactFx_fold. reflexivity.
Qed.

Lemma fade_idle delta e :
  reactionIntensity e = 0 -> fade delta None e = e.
Proof.
  intros H. unfold fade.
  assert (E : Rgtb (reactionIntensity e) 0 = false)
    by (apply Rgtb_false; lra).
  rewrite E. now destruct e.
Qed.

Lemma fades_idle deltas e :
  reactionIntensity e = 0 -> fades deltas e = e.
Proof.
  intros H. unfold fades. induction deltas as [|d ds IH]; [reflexivity|].
  cbn [fold_left]. now rewrite fade_idle.
Qed.

(** X15.  The reaction shown on the page is cleared only by a frame that
    starts with an intensity in (0, 0.01].  A frame that is long enough
    to take the intensity from above 0.01 to 0 in one step, [delta * 0.5]
    being at least the intensity, leaves the reaction in place with the
    intensity 0, and no later frame without a reaction changes either of
    them: the reaction stays shown for good. *)
Theorem reaction_marker_sticks delta e :
  0.01 < reactionIntensity e <= delta * 0.5 ->
  let e' := fade delta None e in
  reactionIntensity e' = 0 /\
  activeReaction e' = activeReaction e /\
  forall deltas, fades deltas e' = e'.
Proof.
  intros [Hlo Hhi]. cbv zeta.
  assert (E : fade delta None e
              = {| activeReaction := activeReaction e;
                   reactionIntensity := 0 |}).
  { unfold fade.
    assert (E1 : Rgtb (reactionIntensity e) 0 = true)
      by (apply Rgtb_true; lra).
    assert (E2 : Rleb (reactionIntensity e) 0.01 = false)
      by (apply Rleb_false; lra).
    rewrite E1, E2. f_equal. apply Rmax_left. lra. }
  rewrite E. simpl. split; [reflexivity|]. split; [reflexivity|].
  intros deltas. now apply fades_idle.
Qed.

Lemma fades_cleared deltas e :
  activeReaction e = None -> activeReaction (fades deltas e) = None.
Proof.
  unfold fades. revert e. induction deltas as [|d ds IH]; intros e He;
    [exact He|].
  cbn [fold_left]. apply IH. unfold fade.
  destruct (Rgtb _ _); simpl; [|exact He].
  destruct (Rleb _ _); [reflexivity | exact He].
Qed.

Lemma fades_clear_within k : forall dmin deltas e,
  0 < dmin ->
  Forall (fun d => dmin <= d <= 0.02) deltas ->
  length deltas = S k ->
  0 < reactionIntensity e <= 0.01 + INR k * (dmin * 0.5) ->
  activeReaction (fades deltas e) = None.
Proof.
  induction k as [|k IH]; intros dmin deltas e Hmin Hd Hlen [Hpos Hle];
    destruct deltas as [|d ds]; try discriminate;
    apply Forall_cons in Hd as [Hd Hds];
    unfold fades; cbn [fold_left]; fold (fades ds).
  - apply fades_cleared. unfold fade.
    assert (E1 : Rgtb (reactionIntensity e) 0 = true)
      by (apply Rgtb_true; lra).
    assert (E2 : Rleb (reactionIntensity e) 0.01 = true)
      by (apply Rleb_true; simpl in Hle; lra).
    now rewrite E1, E2.
  - destruct (Rle_dec (reactionIntensity e) 0.01) as [Hsmall|Hbig].
    + apply fades_cleared. unfold fade.
      assert (E1 : Rgtb (reactionIntensity e) 0 = true)
        by (apply Rgtb_true; lra).
      assert (E2 : Rleb (reactionIntensity e) 0.01 = true)
        by (apply Rleb_true; lra).
      now rewrite E1, E2.
    + apply (IH dmin); [exact Hmin | exact Hds | simpl in Hlen; lia |].
      unfold fade.
      assert (E1 : Rgtb (reactionIntensity e) 0 = true)
        by (apply Rgtb_true; lra).
      rewrite E1. simpl. rewrite S_INR in Hle.
      rewrite Rmax_right by lra. lra.
Qed.

(** X16.  At 50 frames a second or more, no frame time being above
    0.02, the fade cannot step over the window (0, 0.01]: once the
    reactions have stopped, and whatever the single frame times are as
    long as they keep above some positive bound, the reaction shown is
    cleared after finitely many frames, and stays cleared. *)
Theorem reaction_marker_clears dmin e :
  0 < dmin -> 0 < reactionIntensity e ->
  exists n, forall deltas,
    Forall (fun d => dmin <= d <= 0.02) deltas ->
    (n <= length deltas)%nat ->
    activeReaction (fades deltas e) = None.
Proof.
  intros Hd Hpos.
  destruct (archimed_cor1 (dmin * 0.5 / reactionIntensity e))
    as (N & HN & HN0); [apply Rdiv_lt_0_compat; lra|].
  assert (HNpos : 0 < INR N) by (apply lt_0_INR; exact HN0).
  assert (Hle : reactionIntensity e <= INR N * (dmin * 0.5)).
  { apply Rmult_lt_compat_l with (r := INR N) in HN; [|exact HNpos].
    rewrite Rinv_r in HN by lra.
    apply Rmult_lt_compat_l with (r := reactionIntensity e) in HN;
      [|exact Hpos].
    unfold Rdiv in HN.
    replace (reactionIntensity e
             * (INR N * (dmin * 0.5 * / reactionIntensity e)))
      with (INR N * (dmin * 0.5)
            * (reactionIntensity e * / reactionIntensity e)) in HN by ring.
    rewrite Rinv_r in HN by lra. lra. }
  exists (S N). intros deltas Hall Hlen.
  rewrite <- (take_drop (S N) deltas). unfold fades.
  rewrite fold_left_app. apply fades_cleared.
  apply (fades_clear_within N dmin).
  - exact Hd.
  - apply Forall_take. exact Hall.
  - rewrite length_take. lia.
  - lra.
Qed.

End PageEffects.

Section PageNeighbours.

Import ChemistryPage.

Lemma fold_invariant_in {A W} (P : W -> Prop) (f : W -> A -> W) l :
  (forall w a, a ∈ l -> P w -> P (f w a)) ->
  forall w, P w -> P (fold_left f l w).
Proof.
  induction l as [|a l IH]; intros Hf w Hw; [exact Hw|].
  cbn [fold_left]. apply IH.
  - intros w' b Hb. apply Hf. now right.
  - apply Hf; [now left | exact Hw].
Qed.

Lemma react_neighboured w0 w i j :
  i <> j -> neighboured w0 w -> neighboured w0 (react i w j).
Proof.
  intros Hij [Hh Hn]. split.
  { eapply page_Forall2_sameHold_trans; [exact Hh | apply react_hold]. }
  intros k x x' Hx Hx' Hlev. unfold react in Hx'.
  destruct (w.1 !! i) as [tube1|] eqn:Ei; [|eauto].
  destruct (w.1 !! j) as [tube2|] eqn:Ej; [|eauto].
  destruct (_ && _) eqn:Ec; [|eauto]. simpl in Hx'.
  apply andb_true_iff in Ec as [Ec _]. apply andb_true_iff in Ec as [Ed _].
  apply Rltb_true in Ed.
  destruct (Forall2_lookup_r _ _ _ _ _ Hh Ei) as (a & Ha & Hsa).
  destruct (Forall2_lookup_r _ _ _ _ _ Hh Ej) as (b & Hb & Hsb).
  destruct Hsa as (_ & Hpa & _). destruct Hsb as (_ & Hpb & _).
  rewrite Hpa, Hpb in Ed.
  destruct (decide (k = j)) as [->|Hkj].
  - exists i, a. rewrite Hx in Hb. injection Hb as ->.
    split; [exact Hij|]. split; [exact Ha|].
    unfold distanceTo in *.
    replace (distanceToSquared (position b) (position a))
      with (distanceToSquared (position a) (position b))
      by (unfold distanceToSquared; ring).
    exact Ed.
  - rewrite list_lookup_insert_ne in Hx' by auto.
    destruct (decide (k = i)) as [->|Hki].
    + exists j, b. rewrite Hx in Ha. injection Ha as ->. auto.
    + rewrite list_lookup_insert_ne in Hx' by auto. eauto.
Qed.

Lemma reactions_neighboured w : neighboured w (reactions w).
Proof.
  unfold reactions.
  apply (fold_invariant_in (neighboured w)).
  - intros w1 i _ H1.
    apply (fold_invariant_in (neighboured w)); [|exact H1].
    intros w2 j Hj H2. apply react_neighboured; [|exact H2].
    apply elem_of_seq in Hj. lia.
  - split; [apply page_Forall2_sameHold_refl|]. intros k x x' Hx Hx' Hlev.
    congruence.
Qed.

(** X17.  A tube only loses liquid next to another tube: if a frame
    changes the level of a tube, that level was above 0.1 and the frame
    ends with another tube less than 1.5 away from it. *)
Theorem reaction_needs_neighbour hs tubes tubes' k tube tube' :
  useFrame hs tubes = Some tubes' ->
  tubes !! k = Some tube -> tubes' !! k = Some tube' ->
  liquidLevel tube' <> liquidLevel tube ->
  0.1 < liquidLevel tube /\
  exists j other,
    j <> k /\ tubes' !! j = Some other /\
    distanceTo (position tube') (position other) < 1.5.
Proof.
  intros H Hk Hk' Hlev.
  destruct (page_useFrame_nextTubes hs tubes tubes' H) as (w & Hw & ->).
  apply page_interaction_sameLiquid in Hw. simpl in Hw.
  destruct (Forall2_lookup_l _ _ _ _ _ Hw Hk) as (x & Hx & Hsame).
  destruct Hsame as (_ & _ & _ & Hl & _).
  split.
  - destruct (Forall2_lookup_l _ _ _ _ _ (reactions_dries w) Hx)
      as (x' & Hx' & _ & _ & Hkeep).
    rewrite Hk' in Hx'. injection Hx' as <-.
    destruct (Rle_dec (liquidLevel x) 0.1) as [Hlow|]; [|lra].
    specialize (Hkeep Hlow). congruence.
  - destruct (reactions_neighboured w) as [Hh Hn].
    destruct (Hn k x tube' Hx Hk') as (j & y & Hj & Hy & Hd); [congruence|].
    destruct (Forall2_lookup_l _ _ _ _ _ Hh Hy) as (y' & Hy' & Hsy).
    destruct (Forall2_lookup_l _ _ _ _ _ Hh Hx) as (x' & Hx' & Hsx).
    rewrite Hk' in Hx'. injection Hx' as <-.
    destruct Hsx as (_ & Hpx & _). destruct Hsy as (_ & Hpy & _).
    exists j, y'. rewrite Hpx, Hpy. auto.
Qed.

(** X18.  The colour of a reaction does not depend on the order of the
    two tubes, unless both hold an indicator: then it is the colour of
    the second one.  It is orange for an acid with a base. *)
Theorem reactionColor_order tube1 tube2 :
  (chemicalType tube1 <> indicator \/ chemicalType tube2 <> indicator ->
   reactionColor tube1 tube2 = reactionColor tube2 tube1) /\
  (chemicalType tube1 = indicator -> chemicalType tube2 = indicator ->
   reactionColor tube1 tube2 = liquidColor tube2) /\
  ((chemicalType tube1 = acid /\ chemicalType tube2 = base) \/
   (chemicalType tube1 = base /\ chemicalType tube2 = acid) ->
   reactionColor tube1 tube2 = "#ffaa00"%string).
Proof.
  unfold reactionColor.
  destruct (chemicalType tube1), (chemicalType tube2); simpl;
    repeat split; intros; try reflexivity;
    repeat match goal with
           | H : _ \/ _ |- _ => destruct H
           | H : _ /\ _ |- _ => destruct H
           end; congruence.
Qed.

End PageNeighbours.

Section PageShown.

Import ChemistryPage.

Lemma reactFx_shownIfFallen w0 acc i j :
  i <> j -> shownIfFallen w0 acc -> shownIfFallen w0 (reactFx i acc j).
Proof.
  intros Hij [Hd Hiff].
  assert (Hd' : Forall2 dries w0.1 (react i acc.1 j).1)
    by (eapply Forall2_chain;
        [exact dries_trans | exact Hd | apply react_dries]).
  split; [exact Hd'|]. unfold reactFx. cbn [fst snd].
  unfold react in *.
  destruct (acc.1.1 !! i) as [tube1|] eqn:Ei; [|exact Hiff].
  destruct (acc.1.1 !! j) as [tube2|] eqn:Ej; [|exact Hiff].
  unfold reacting.
  destruct (_ && _) eqn:Ec; [|exact Hiff].
  split; [intros _ | discriminate].
  apply andb_true_iff in Ec as [Ec _]. apply andb_true_iff in Ec as [_ E1].
  apply Rgtb_true in E1.
  destruct (Forall2_lookup_r _ _ _ _ _ Hd Ei) as (a & Ha & Hle & _).
  exists i, a, (setLevel tube1 (Rmax 0 (liquidLevel tube1 - 0.01))).
  split; [exact Ha|]. split.
  - cbn [fst]. rewrite list_lookup_insert_ne by auto.
    apply list_lookup_insert_eq. eapply lookup_lt_Some; eauto.
  - simpl. rewrite Rmax_right by lra. lra.
Qed.

Lemma reactionsFx_shownIfFallen w : shownIfFallen w (reactionsFx w).
Proof.
  unfold reactionsFx.
  apply (fold_invariant_in (shownIfFallen w)).
  - intros acc i _ H1.
    apply (fold_invariant_in (shownIfFallen w)); [|exact H1].
    intros acc' j Hj H2. apply reactFx_shownIfFallen; [|exact H2].
    apply elem_of_seq in Hj. lia.
  - split; [apply Forall2_diag, dries_refl|]. cbn [fst snd].
    split; [congruence|]. intros (k & x & x' & Hx & Hx' & Hlt).
    rewrite Hx in Hx'. injection Hx' as <-. lra.
Qed.

(** X19.  With the reaction effect, a frame treats the tubes as
    [useFrame] does, and it asks to show a reaction exactly if it lowers
    the level of a tube. *)
Theorem reaction_shown_iff_level_falls hs delta tubes e tubes' e' :
  useFrameFx hs delta (tubes, e) = Some (tubes', e') ->
  useFrame hs tubes = Some tubes' /\
  exists reacted,
    e' = fade delta reacted e /\
    (reacted <> None <->
     exists k tube tube', tubes !! k = Some tube /\
       tubes' !! k = Some tube' /\ liquidLevel tube' < liquidLevel tube).
Proof.
  unfold useFrameFx. cbn [fst snd]. intros H.
  apply bind_Some in H as (w & Hw & H). injection H as Ht He.
  rewrite reactionsFx_reactions in Ht.
  assert (Hu : useFrame hs tubes = Some tubes')
    by (unfold useFrame; rewrite Hw; simpl; now rewrite Ht).
  split; [exact Hu|].
  exists (reactionsFx w).2. split; [now symmetry|].
  destruct (page_useFrame_nextTubes hs tubes tubes' Hu) as (w' & Hw' & Et).
  rewrite Hw in Hw'. injection Hw' as <-.
  apply page_interaction_sameLiquid in Hw. simpl in Hw.
  destruct (reactionsFx_shownIfFallen w) as [_ Hiff].
  rewrite reactionsFx_reactions in Hiff. rewrite <- Et in Hiff.
  rewrite Hiff. clear -Hw.
  split; intros (k & x & x' & Hx & Hx' & Hlt).
  - destruct (Forall2_lookup_r _ _ _ _ _ Hw Hx) as (a & Ha & Hs).
    destruct Hs as (_ & _ & _ & Hl & _). exists k, a, x'.
    rewrite <- Hl. auto.
  - destruct (Forall2_lookup_l _ _ _ _ _ Hw Hx) as (a & Ha & Hs).
    destruct Hs as (_ & _ & _ & Hl & _). exists k, a, x'.
    rewrite Hl. auto.
Qed.

End PageShown.

Section PageRuns.

Import ChemistryPage.

Lemma tubesClose_frame :
  useFrame Samples.noHands Samples.tubesClose
  = Some (zip_with (fun tube l => setLevel tube l) Samples.tubesClose
            [0.7 - 0.01; 0.6 - 0.01]).
Proof.
  unfold useFrame.
  change (interaction Samples.noHands (Samples.tubesClose, false))
    with (Some (Samples.tubesClose, false)).
  cbn [mbind option_bind]. f_equal.
  unfold reactions. cbn [fst length Samples.tubesClose testTubes seq
                         Nat.sub fold_left].
  unfold react. cbn [fst lookup list_lookup].
  assert (Ec : Rltb (distanceTo (vector3 (-2) 0 0) (vector3 (-1) 0 0)) 1.5
               && Rgtb 0.7 0.1 && Rgtb 0.6 0.1 = true).
  { rewrite !andb_true_iff. repeat split.
    - apply Rltb_true. apply distanceTo_lt; [lra|].
      unfold distanceToSquared. simpl. lra.
    - apply Rgtb_true. lra.
    - apply Rgtb_true. lra. }
  cbn [position liquidLevel]. rewrite Ec. unfold commit. cbn [fst snd].
  cbn [list_insert insert zip_with]. unfold setLevel. simpl.
  rewrite !Rmax_right by lra. reflexivity.
Qed.

Lemma page_levels_only_fall_witness :
  exists tubes',
    frames [Samples.noHands] Samples.tubesClose = Some tubes' /\
    Forall2 dries Samples.tubesClose tubes'.
Proof.
  eexists. cbn [frames]. rewrite tubesClose_frame. cbn [mbind option_bind].
  split; [reflexivity|].
  apply (page_levels_only_fall [Samples.noHands]).
  cbn [frames]. rewrite tubesClose_frame. reflexivity.
Defined.

Lemma reaction_needs_neighbour_witness :
  exists tubes' tube1 j other,
    useFrame Samples.noHands Samples.tubesClose = Some tubes' /\
    tubes' !! 0%nat = Some tube1 /\
    j <> 0%nat /\ tubes' !! j = Some other /\
    distanceTo (position tube1) (position other) < 1.5.
Proof.
  destruct (reaction_needs_neighbour Samples.noHands Samples.tubesClose _
              0%nat _ _ tubesClose_frame eq_refl eq_refl)
    as (_ & j & other & Hj & Ho & Hd).
  - simpl. lra.
  - eexists _, _, j, other. split; [exact tubesClose_frame|].
    split; [reflexivity|]. auto.
Defined.

Lemma fades_linear k : forall delta e,
  0 <= delta * 0.5 ->
  0.01 < reactionIntensity e - INR k * (delta * 0.5) ->
  fades (replicate k delta) e
  = {| activeReaction := activeReaction e;
       reactionIntensity := reactionIntensity e - INR k * (delta * 0.5) |}.
Proof.
  induction k as [|k IH]; intros delta e Hd Hk.
  - cbn [replicate fades fold_left]. destruct e. simpl. f_equal. lra.
  - change (replicate (S k) delta) with (delta :: replicate k delta).
    unfold fades. cbn [fold_left]. fold (fades (replicate k delta)).
    rewrite S_INR in Hk. pose proof (pos_INR k) as Hk0.
    assert (Hbig : 0.01 < reactionIntensity e - delta * 0.5) by nra.
    assert (E : fade delta None e
                = {| activeReaction := activeReaction e;
                     reactionIntensity
                     := reactionIntensity e - delta * 0.5 |}).
    { unfold fade.
      assert (E1 : Rgtb (reactionIntensity e) 0 = true)
        by (apply Rgtb_true; lra).
      assert (E2 : Rleb (reactionIntensity e) 0.01 = false)
        by (apply Rleb_false; lra).
      rewrite E1, E2. f_equal. apply Rmax_right. lra. }
    rewrite E, IH by (cbn [activeReaction reactionIntensity]; lra).
    cbn [activeReaction reactionIntensity]. f_equal. rewrite S_INR. ring.
Qed.

Lemma reaction_marker_sticks_witness :
  let e := fades (replicate 39 0.05) Samples.glowing in
  0.01 < reactionIntensity e <= 0.05 * 0.5 /\
  forall n, activeReaction (fades (replicate n 0.05) (fade 0.05 None e))
            = activeReaction Samples.glowing.
Proof.
  cbv zeta.
  assert (E : fades (replicate 39 0.05) Samples.glowing
              = {| activeReaction := activeReaction Samples.glowing;
                   reactionIntensity := 0.025 |}).
  { rewrite fades_linear by (simpl; lra). f_equal. simpl. lra. }
  rewrite E.
  assert (H : 0.01 < 0.025 <= 0.05 * 0.5) by lra.
  split; [exact H|]. intros n.
  destruct (reaction_marker_sticks 0.05
              {| activeReaction := activeReaction Samples.glowing;
                 reactionIntensity := 0.025 |} H) as (_ & Ha & Hs).
  rewrite Hs. exact Ha.
Defined.

Lemma reaction_marker_clears_witness :
  exists n,
    activeReaction
      (fades (replicate n 0.02 ++ replicate n 0.01) Samples.glowing)
    = None.
Proof.
  destruct (reaction_marker_clears 0.01 Samples.glowing) as [n H];
    [lra | simpl; lra |].
  exists n. apply H.
  - apply Forall_app. split; apply Forall_replicate; lra.
  - rewrite length_app, !length_replicate. lia.
Defined.

Lemma reaction_shown_iff_level_falls_witness :
  exists tubes' e',
    useFrameFx Samples.noHands 0.02
      (Samples.tubesClose, {| activeReaction := None;
                              reactionIntensity := 0 |})
    = Some (tubes', e') /\
    useFrame Samples.noHands Samples.tubesClose = Some tubes'.
Proof.
  eexists _, _. split; [reflexivity|].
  exact (proj1 (reaction_shown_iff_level_falls Samples.noHands 0.02
                  Samples.tubesClose
                  {| activeReaction := None; reactionIntensity := 0 |}
                  _ _ eq_refl)).
Defined.

End PageRuns.

Section SolarSafety.

Import SolarSystem.

(** X20.  From a scene with one angle and one position for each planet
    and a target among the planets, as the component mounts it, no
    sequence of tracking states and frame times makes the frame callback
    throw, and the target stays among the planets. *)
Theorem solar_frames_never_throw inputs :
  forall s, wellFormed s ->
  exists s', frames inputs s = Some s' /\ wellFormed s'.
Proof.
  induction inputs as [|[hs delta] rest IH]; intros s Hwf.
  - exists s. split; [reflexivity | exact Hwf].
  - destruct (useFrame_wellFormed hs delta s Hwf)
      as (s1 & a & Hs1 & Hwf1 & _).
    destruct (IH s1 Hwf1) as (s' & Hs' & Hwf').
    exists s'. cbn [frames]. rewrite Hs1. cbn [mbind option_bind].
    split; [exact Hs' | exact Hwf'].
Qed.

Lemma solar_frames_never_throw_witness :
  exists s',
    frames [(Samples.fourFingers, 1 / 60); (Samples.noHands, 1 / 60)]
      Samples.solarStart = Some s' /\
    (0 <= targetIndex s' < 6)%Z.
Proof.
  assert (Hwf : wellFormed Samples.solarStart)
    by (unfold wellFormed; simpl; repeat split; lia).
  destruct (solar_frames_never_throw
              [(Samples.fourFingers, 1 / 60); (Samples.noHands, 1 / 60)]
              Samples.solarStart Hwf) as (s' & Hs' & _ & _ & Ht).
  exists s'. split; [exact Hs' | exact Ht].
Defined.

End SolarSafety.

Section SolarCamera.

Import SolarSystem.

(** The camera state a frame leaves. *)
Lemma useFrame_camState hs delta s s' :
  useFrame hs delta s = Some s' ->
  exists sim p ideal,
    simulation delta (planetAngles s) (planetPositions s) = Some sim /\
    planetAngles s' = sim.1 /\ planetPositions s' = sim.2 /\
    at_index sim.2 (targetIndex s) = Some p /\
    idealRadius (targetIndex s) = Some ideal /\
    let c := pinchOrbit hs delta (camState s) in
    camState s'
    = {| radius := lerp (radius c) ideal 0.05; phi := phi c;
         theta := theta c;
         targetLookAt := lerpV (targetLookAt c) p 0.05 |} /\
    cameraPosition s'
    = lerpV (cameraPosition s)
        (addVectors (lerpV (targetLookAt c) p 0.05)
           {| vx := lerp (radius c) ideal 0.05 * sin (phi c) * sin (theta c);
              vy := lerp (radius c) ideal 0.05 * cos (phi c);
              vz := lerp (radius c) ideal 0.05 * sin (phi c)
                    * cos (theta c) |})
        0.1.
Proof.
  unfold useFrame. intros H.
  apply bind_Some in H as (sim & Hsim & H).
  apply bind_Some in H as (cam & Hcam & H).
  injection H as <-. unfold transition in Hcam.
  apply bind_Some in Hcam as (p & Hp & Hcam).
  apply bind_Some in Hcam as (ideal & Hideal & Hcam).
  injection Hcam as <-. exists sim, p, ideal. simpl. auto 10.
Qed.

Lemma idealRadius_limits ti ideal :
  (0 <= ti < 6)%Z -> idealRadius ti = Some ideal -> 9 <= ideal <= 60.
Proof.
  intros Hti H.
  assert (Hc : (ti = 0 \/ ti = 1 \/ ti = 2 \/ ti = 3 \/ ti = 4 \/ ti = 5)%Z)
    by lia.
  destruct Hc as [->|[->|[->|[->|[->| ->]]]]];
    (injection H as <-); simpl; lra.
Qed.

Lemma pinchOrbit_limits hs delta c :
  0.1 <= phi c <= PI - 0.1 ->
  0.1 <= phi (pinchOrbit hs delta c) <= PI - 0.1 /\
  radius (pinchOrbit hs delta c) = radius c.
Proof.
  intros Hphi. unfold pinchOrbit.
  destruct (gesture hs); try (split; [exact Hphi | reflexivity]).
  destruct (HandTracker.orHand _ _); [|split; [exact Hphi | reflexivity]].
  simpl. split; [|reflexivity]. split; [apply Rmax_l|].
  apply Rmax_lub; [lra | apply Rmin_l].
Qed.

(** X21.  The camera stays within its limits: through any run from a
    well-formed scene the elevation stays between 0.1 and [PI - 0.1],
    whatever a pinch asks for, and the radius stays between 9, the ideal
    radius of the nearest view, and 60, the radius of the full view. *)
Theorem camera_stays_in_limits inputs :
  forall s s', wellFormed s -> cameraInLimits (camState s) ->
  frames inputs s = Some s' ->
  cameraInLimits (camState s').
Proof.
  induction inputs as [|[hs delta] rest IH]; intros s s' Hwf Hc H.
  - now injection H as <-.
  - cbn [frames] in H. apply bind_Some in H as (s1 & H1 & H).
    destruct (useFrame_wellFormed hs delta s Hwf)
      as (s1' & a & Hs1 & Hwf1 & _).
    rewrite H1 in Hs1. injection Hs1 as <-.
    apply (IH s1 s' Hwf1); [|exact H].
    destruct (useFrame_camState hs delta s s1 H1)
      as (sim & p & ideal & _ & _ & _ & _ & Hideal & Hcam & _).
    rewrite Hcam. destruct Hc as [Hphi Hr].
    destruct (pinchOrbit_limits hs delta (camState s) Hphi) as [Hphi' Hr'].
    destruct Hwf as (_ & _ & Hti).
    pose proof (idealRadius_limits _ _ Hti Hideal) as Hi.
    split; simpl; [exact Hphi'|]. rewrite Hr'. unfold lerp. lra.
Qed.

Lemma camera_stays_in_limits_witness :
  exists s',
    frames [(Samples.fourFingers, 1 / 60)] Samples.solarStart = Some s' /\
    9 <= radius (camState s') <= 60.
Proof.
  assert (Hwf : wellFormed Samples.solarStart)
    by (unfold wellFormed; simpl; repeat split; lia).
  destruct (useFrame_wellFormed Samples.fourFingers (1 / 60)
              Samples.solarStart Hwf) as (s' & a & Hs' & _).
  assert (E : frames [(Samples.fourFingers, 1 / 60)] Samples.solarStart
              = Some s') by (cbn [frames]; rewrite Hs'; reflexivity).
  exists s'. split; [exact E|].
  refine (proj2 (camera_stays_in_limits _ Samples.solarStart s' Hwf _ E)).
  unfold cameraInLimits. simpl. pose proof PI2_3_2. repeat split; lra.
Defined.

End SolarCamera.

Section SolarOrbits.

Import SolarSystem.

Lemma orbitPosition_onOrbit planet a : onOrbit planet (orbitPosition planet a).
Proof.
  unfold onOrbit, orbitPosition. simpl. split; [reflexivity|].
  pose proof (sin2_cos2 a) as H. unfold Rsqr in H.
  transitivity ((sin a * sin a + cos a * cos a)
                * (distance planet * distance planet)); [ring|].
  rewrite H. ring.
Qed.

Lemma simulation_onOrbit delta angles positions sim :
  length angles = 6%nat -> length positions = 6%nat ->
  simulation delta angles positions = Some sim ->
  forall i planet p,
    PLANETS !! i = Some planet -> sim.2 !! i = Some p ->
    onOrbit planet p /\
    (i = 0%nat -> p = {| vx := 0; vy := 0; vz := 0 |}).
Proof.
  intros Ha Hp H.
  destruct (length6 angles Ha) as (a0 & a1 & a2 & a3 & a4 & a5 & ->).
  destruct (length6 positions Hp) as (p0 & p1 & p2 & p3 & p4 & p5 & ->).
  injection H as <-. intros i planet p Hi Hpi.
  do 6 (destruct i as [|i];
        [injection Hi as <-; injection Hpi as <-;
         split; [|intros; try reflexivity; discriminate];
         first [apply orbitPosition_onOrbit
               |unfold onOrbit; simpl; split; [reflexivity | ring]]|]).
  discriminate Hi.
Qed.

(** X22.  After every frame each planet is on the circle of its orbit:
    in the plane y = 0, at its distance from the origin, whatever its
    angle and the frame time are; the entry for the whole system is at
    the origin. *)
Theorem planets_stay_on_orbits hs delta s s' i planet p :
  wellFormed s ->
  useFrame hs delta s = Some s' ->
  PLANETS !! i = Some planet -> planetPositions s' !! i = Some p ->
  onOrbit planet p /\ (i = 0%nat -> p = {| vx := 0; vy := 0; vz := 0 |}).
Proof.
  intros (Ha & Hp & _) H Hi Hpi.
  destruct (useFrame_camState hs delta s s' H)
    as (sim & q & ideal & Hsim & _ & Hpos & _).
  rewrite Hpos in Hpi.
  exact (simulation_onOrbit delta _ _ sim Ha Hp Hsim i planet p Hi Hpi).
Qed.

(** X23.  The camera is drawn to the sphere around the look-at point:
    in every frame it moves a tenth of the way towards a point whose
    distance from the new look-at point is the new radius. *)
Theorem camera_aims_at_sphere hs delta s s' :
  useFrame hs delta s = Some s' ->
  exists idealCamPos,
    cameraPosition s' = lerpV (cameraPosition s) idealCamPos 0.1 /\
    distanceTo idealCamPos (targetLookAt (camState s'))
    = Rabs (radius (camState s')).
Proof.
  intros H.
  destruct (useFrame_camState hs delta s s' H)
    as (sim & p & ideal & _ & _ & _ & _ & _ & Hcam & Hpos).
  eexists. split; [exact Hpos|]. rewrite Hcam. cbn [targetLookAt radius].
  set (c := pinchOrbit hs delta (camState s)).
  set (r := lerp (radius c) ideal 0.05).
  unfold distanceTo.
  assert (E : distanceToSquared
                (addVectors (lerpV (targetLookAt c) p 0.05)
                   {| vx := r * sin (phi c) * sin (theta c);
                      vy := r * cos (phi c);
                      vz := r * sin (phi c) * cos (theta c) |})
                (lerpV (targetLookAt c) p 0.05) = r * r).
  { unfold distanceToSquared, addVectors. simpl.
    pose proof (sin2_cos2 (phi c)) as H1.
    pose proof (sin2_cos2 (theta c)) as H2. unfold Rsqr in H1, H2.
    transitivity (r * r * (sin (phi c) * sin (phi c)
                           * (sin (theta c) * sin (theta c)
                              + cos (theta c) * cos (theta c))
                           + cos (phi c) * cos (phi c))); [ring|].
    rewrite H2, Rmult_1_r, H1. ring. }
  rewrite E. apply sqrt_Rsqr_abs.
Qed.

End SolarOrbits.

Section SolarReach.

Import SolarSystem.

(** X24.  The full view cannot be asked for by hand.  The frame
    callback reads the target from a hand that is not pinching, and the
    tracker labels a hand [fist], the gesture of the full view, exactly
    when it is pinching: with a state written by [predict] the target
    stays or becomes one of the planets 1 to 5, so a scene that has left
    the full view never returns to it. *)
Theorem full_view_out_of_reach :
  (forall hs ti, HandTracker.tracked hs ->
     navigation hs ti = ti \/ (1 <= navigation hs ti <= 5)%Z) /\
  (forall inputs s s',
     Forall (fun input : TrackingState * R => HandTracker.tracked input.1)
       inputs ->
     wellFormed s -> targetIndex s <> 0%Z ->
     frames inputs s = Some s' -> targetIndex s' <> 0%Z).
Proof.
  assert (Hnav : forall hs ti, HandTracker.tracked hs ->
            navigation hs ti = ti \/ (1 <= navigation hs ti <= 5)%Z).
  { intros hs ti (st & result & H). unfold navigation.
    destruct (orHand (rightHand hs) (leftHand hs)) as [hand|] eqn:Eh;
      [|now left].
    destruct (isPinching hand) eqn:Ep; [now left|]. cbn [negb].
    assert (Hg : gestureType hand <> fist /\ gestureType hand <> gt_none).
    { assert (Hside : exists side, handOf hs side = Some hand).
      { unfold orHand in Eh. destruct (rightHand hs) eqn:Er.
        - exists Right. simpl. congruence.
        - exists Left. exact Eh. }
      destruct Hside as [side Hside].
      destruct (predict_processed st result hs side hand H Hside)
        as (lms & _ & Hp).
      apply processHand_Some in Hp
        as (l4 & l8 & l0 & raw & n & _ & _ & _ & _ & _ & _ & _ & _ & _ & _
            & Hg).
      rewrite Ep in Hg. rewrite Hg.
      repeat (destruct (_ =? _)%Z; [split; discriminate|]).
      split; discriminate. }
    destruct Hg as [Hf Hn].
    destruct (gestureType hand); try congruence;
      match goal with
      | |- context [if ?c then _ else _] => destruct c
      end; auto; right; lia. }
  split; [exact Hnav|].
  intros inputs s s' Hin. revert s.
  induction Hin as [|[hs delta] rest Hhs _ IH]; intros s Hwf Hti Hs.
  - injection Hs as <-. exact Hti.
  - simpl in Hhs. cbn [frames] in Hs.
    apply bind_Some in Hs as (s1 & H1 & Hs).
    destruct (useFrame_wellFormed hs delta s Hwf)
      as (s1' & a & Hs1 & Hwf1 & Hti1 & _).
    rewrite H1 in Hs1. injection Hs1 as <-.
    apply (IH s1 Hwf1); [|exact Hs].
    rewrite Hti1.
    destruct (Hnav hs (targetIndex s) Hhs) as [->|]; [exact Hti | lia].
Qed.

End SolarReach.

Section SolarViews.

Import SolarSystem.

Lemma planets_stay_on_orbits_witness :
  exists s' p,
    useFrame Samples.fourFingers (1 / 60) Samples.solarStart = Some s' /\
    planetPositions s' !! 4%nat = Some p /\
    vx p * vx p + vz p * vz p = 30 * 30.
Proof.
  assert (Hwf : wellFormed Samples.solarStart)
    by (unfold wellFormed; simpl; repeat split; lia).
  destruct (useFrame_wellFormed Samples.fourFingers (1 / 60)
              Samples.solarStart Hwf)
    as (s' & a & Hs' & _ & _ & _ & [_ Hp] & _).
  eexists s', _. split; [exact Hs'|]. split; [exact Hp|].
  exact (proj2 (proj1 (planets_stay_on_orbits Samples.fourFingers (1 / 60)
                         Samples.solarStart s' 4%nat mars _ Hwf Hs'
                         eq_refl Hp))).
Defined.

Lemma camera_aims_at_sphere_witness :
  exists s' idealCamPos,
    useFrame Samples.fourFingers (1 / 60) Samples.solarStart = Some s' /\
    cameraPosition s'
    = lerpV (cameraPosition Samples.solarStart) idealCamPos 0.1 /\
    distanceTo idealCamPos (targetLookAt (camState s'))
    = Rabs (radius (camState s')).
Proof.
  assert (Hwf : wellFormed Samples.solarStart)
    by (unfold wellFormed; simpl; repeat split; lia).
  destruct (useFrame_wellFormed Samples.fourFingers (1 / 60)
              Samples.solarStart Hwf) as (s' & a & Hs' & _).
  destruct (camera_aims_at_sphere Samples.fourFingers (1 / 60)
              Samples.solarStart s' Hs') as (ideal & Hc & Hd).
  exists s', ideal. auto.
Defined.

End SolarViews.

Section ToolState.

Import AnatomyPage.

(** X25.  The tool state panel.  Whatever tracking state its effect
    reads, the label is one of ["Needle Active"], ["Heart Control"],
    ["Zoom Mode"], ["Inspection Mode"] and ["Ready"], never
    ["Move Mode"], so that the green class the panel reserves for that
    label is never used; the grey of the default is the class of
    ["Heart Control"] and of ["Ready"] and of no other label; and on the
    state the page starts with, which the effect reads when the panel
    mounts, the label is ["Ready"]. *)
Theorem tool_state_labels :
  (forall hs,
     In (toolState hs)
        ["Needle Active"; "Heart Control"; "Zoom Mode";
         "Inspection Mode"; "Ready"]%string /\
     toolState hs <> "Move Mode"%string /\
     toolStateClass (toolState hs) <> "text-green-300"%string /\
     (toolStateClass (toolState hs) = "text-gray-300"%string <->
      toolState hs = "Heart Control"%string \/
      toolState hs = "Ready"%string)) /\
  toolState handStateRef = "Ready"%string.
Proof.
  split; [|reflexivity].
  intros hs. unfold toolState.
  repeat match goal with
         | |- context [if ?c then _ else _] => destruct c
         end;
    (split; [simpl; auto 10|]); (split; [discriminate|]);
    (split; [simpl; discriminate|]);
    simpl; split; intros H; auto; try discriminate;
    destruct H; discriminate.
Qed.

End ToolState.

Section Needle.

Import AnatomyPage.SurgicalNeedle.

Lemma clamp_limits value lo hi : lo <= hi -> lo <= clamp value lo hi <= hi.
Proof.
  intros H. unfold clamp. split; [apply Rmax_l|].
  apply Rmax_lub; [exact H | apply Rmin_l].
Qed.

Lemma useFrame_tilt hs t n n' :
  - PI / 3 <= ez (rotation n) <= PI / 3 ->
  useFrame hs t n = Some n' ->
  - PI / 3 <= ez (rotation n') <= PI / 3.
Proof.
  intros Hn H. pose proof PI_RGT_0 as Hpi.
  assert (Hrest : - PI / 3 <= ez (rotation (rest n)) <= PI / 3)
    by (unfold rest, lerp; simpl; lra).
  unfold useFrame in H. destruct (rightHand hs) as [hand|];
    [|now injection H as <-].
  destruct (isPinching hand); [|now injection H as <-].
  unfold follow in H.
  apply bind_Some in H as (wrist & _ & H).
  apply bind_Some in H as (index & _ & H).
  injection H as <-. cbn [rotation ez].
  match goal with
  | |- context [clamp ?v ?lo ?hi] =>
      pose proof (clamp_limits v lo hi ltac:(lra)) as Hc;
      generalize dependent (clamp v lo hi)
  end.
  intros c Hc. unfold lerp. lra.
Qed.

(** X26.  The needle keeps to surgical angles: through any run its
    rotation about the z axis stays within [PI / 3] of upright, whatever
    the hand does; and a frame that leaves the needle active leaves its
    rotation about the other two axes, the tremor, within 0.0015 and
    0.00075. *)
Theorem needle_keeps_its_angle :
  (forall inputs n n',
     - PI / 3 <= ez (rotation n) <= PI / 3 ->
     frames inputs n = Some n' ->
     - PI / 3 <= ez (rotation n') <= PI / 3) /\
  (forall hs t n n',
     useFrame hs t n = Some n' -> isActive n' = true ->
     Rabs (ex (rotation n')) <= 0.0015 /\
     Rabs (ey (rotation n')) <= 0.00075).
Proof.
  split.
  - induction inputs as [|[hs t] more IH]; intros n n' Hn H.
    + now injection H as <-.
    + cbn [frames] in H. apply bind_Some in H as (n1 & H1 & H).
      apply (IH n1 n'); [|exact H]. exact (useFrame_tilt hs t n n1 Hn H1).
  - intros hs t n n' H Ha. unfold useFrame in H.
    assert (Hrest : isActive (rest n) = false) by reflexivity.
    destruct (rightHand hs) as [hand|];
      [|injection H as <-; congruence].
    destruct (isPinching hand); [|injection H as <-; congruence].
    unfold follow in H.
    apply bind_Some in H as (wrist & _ & H).
    apply bind_Some in H as (index & _ & H).
    injection H as <-. cbn [rotation ex ey].
    pose proof (SIN_bound (t * 4)) as [? ?].
    pose proof (COS_bound (t * 3)) as [? ?].
    split; apply Rabs_le; lra.
Qed.

Lemma adaptiveSpeed_limits n hand : 0.08 <= adaptiveSpeed n hand <= 0.3.
Proof.
  unfold adaptiveSpeed.
  pose proof (distanceTo_nonneg (position n) (target hand)).
  split; [apply Rmin_glb; lra | apply Rmin_l].
Qed.

(** X27.  The needle never jumps and never overshoots.  While the right
    hand pinches, a frame takes the needle between 8 and 30 percent of
    the way to the place of the pinch, the more the farther it is, and
    then sways it by at most 0.002 along x and y; in any other frame the
    needle closes 6 percent of its distance to its rest at (4, 2, 2). *)
Theorem needle_closes_in hs t n n' :
  useFrame hs t n = Some n' ->
  match rightHand hs with
  | Some hand =>
      if isPinching hand then
        0.08 <= adaptiveSpeed n hand <= 0.3 /\
        distanceTo (moved n hand) (target hand)
        = (1 - adaptiveSpeed n hand)
          * distanceTo (position n) (target hand) /\
        Rabs (vx (position n') - vx (moved n hand)) <= 0.002 /\
        Rabs (vy (position n') - vy (moved n hand)) <= 0.002 /\
        vz (position n') = vz (moved n hand)
      else
        distanceTo (position n') restPosition
        = 0.94 * distanceTo (position n) restPosition
  | None =>
      distanceTo (position n') restPosition
      = 0.94 * distanceTo (position n) restPosition
  end.
Proof.
  intros H. unfold useFrame in H.
  assert (Hrest : distanceTo (position (rest n)) restPosition
                  = 0.94 * distanceTo (position n) restPosition).
  { unfold rest. cbn [position]. rewrite distanceTo_lerp_to by lra.
    f_equal. lra. }
  destruct (rightHand hs) as [hand|]; [|now injection H as <-].
  destruct (isPinching hand); [|now injection H as <-].
  pose proof (adaptiveSpeed_limits n hand) as Hs.
  split; [exact Hs|]. split.
  { unfold moved. apply distanceTo_lerp_to. lra. }
  unfold follow in H.
  apply bind_Some in H as (wrist & _ & H).
  apply bind_Some in H as (index & _ & H).
  injection H as <-. cbn [position vx vy vz].
  pose proof (SIN_bound (t * 0.8)) as [? ?].
  pose proof (COS_bound (t * 1.2)) as [? ?].
  unfold moved, lerpV, target. cbn [vx vy vz].
  repeat split; try apply Rabs_le; lra.
Qed.

End Needle.

Section Heart.

Import AnatomyPage.HeartModel.

Lemma beat_limits time : 0.982 <= beat time <= 1.018.
Proof.
  unfold beat. cbv zeta.
  pose proof (SIN_bound (time * 2.8)) as [? ?].
  pose proof (SIN_bound (time * 5.6)) as [? ?].
  pose proof (SIN_bound (time * 1.4)) as [? ?].
  split; lra.
Qed.

Lemma move_inBox hand time : inBox (move hand time).
Proof.
  unfold inBox, move. cbv zeta. cbn [vx vy vz].
  pose proof (SIN_bound (time * 2)) as [? ?].
  repeat match goal with
         | |- context [clamp ?v ?lo ?hi] =>
             let H := fresh "Hc" in
             pose proof (clamp_limits v lo hi ltac:(lra)) as H;
             generalize dependent (clamp v lo hi); intros
         end.
  repeat split; lra.
Qed.

Lemma origin_inBox : inBox origin.
Proof. unfold inBox, origin. simpl. repeat split; lra. Qed.

Lemma pow15_nonneg d : 0 <= d -> 0 <= pow15 d.
Proof.
  intros Hd. unfold pow15. apply Rmult_le_pos; [exact Hd | apply sqrt_pos].
Qed.

(** Every branch steers to a place in the box and to a scale between
    1.78 and 3.52. *)
Lemma targets_limits hs time delta tg :
  targets hs time delta = Some tg ->
  inBox (targetPosition tg) /\ 1.78 <= targetScale tg <= 3.52.
Proof.
  assert (Hd : 1.78 <= defaultScale <= 3.52) by (unfold defaultScale; lra).
  unfold targets. intros H.
  destruct (pinching (rightHand hs)) as [hand|].
  { injection H as <-. split; [apply move_inBox | exact Hd]. }
  destruct (pinching (leftHand hs)) as [hand|].
  { apply bind_Some in H as (wrist & _ & H).
    apply bind_Some in H as (index & _ & H).
    injection H as <-. split; [apply move_inBox | exact Hd]. }
  destruct (gesture hs);
    try (injection H as <-; split; [apply origin_inBox | exact Hd]).
  - destruct (HandTracker.orHand _ _) as [activeHand|];
      [|injection H as <-; split; [apply origin_inBox | exact Hd]].
    destruct (gestureType activeHand); injection H as <-;
      (split; [apply origin_inBox | exact Hd]).
  - destruct (leftHand hs) as [l|], (rightHand hs) as [r|];
      try (injection H as <-; split; [apply origin_inBox | exact Hd]).
    injection H as <-. split; [apply origin_inBox|]. cbn [targetScale].
    pose proof (SIN_bound (time * 3)) as [? ?].
    pose proof (pow15_nonneg _ (distanceTo_nonneg (palmPosition l)
                                  (palmPosition r))) as Hp.
    unfold clamp, defaultScale.
    set (z := pow15 _) in *.
    assert (1.8 <= Rmax 1.0 (Rmin 3.5 (1.8 + z * 3)) <= 3.5).
    { split.
      - eapply Rle_trans; [|apply Rmax_r]. apply Rmin_glb; lra.
      - apply Rmax_lub; [lra | apply Rmin_l]. }
    lra.
Qed.

Lemma useFrame_limits hs time delta h h' :
  useFrame hs time delta h = Some h' ->
  inBox (position h) -> 1 <= scale h <= 3.59 ->
  inBox (position h') /\ 1 <= scale h' <= 3.59 /\
  ez (rotation h') = ez (rotation h).
Proof.
  unfold useFrame. intros H Hb Hs.
  apply bind_Some in H as (tg & Htg & H). injection H as <-.
  destruct (targets_limits hs time delta tg Htg) as [Hp Ht].
  cbn [position scale rotation ez]. split; [|split; [|reflexivity]].
  - destruct Hb as ([? ?] & [? ?] & [? ?]), Hp as ([? ?] & [? ?] & [? ?]).
    unfold inBox, lerpV. cbn [vx vy vz]. repeat split; lra.
  - pose proof (beat_limits time) as Hbeat. unfold lerp.
    assert (1.7 <= targetScale tg * beat time <= 3.59) by nra. lra.
Qed.

(** X28.  The heart cannot be lost.  From the mounted model, or from any
    heart within these limits, no run takes the heart out of the box
    [-3, 3] x [-2.05, 2.05] x [-2, 2] or its scale out of [1, 3.59],
    whatever the hands do; and no frame turns the heart about the z
    axis, so that the slow rotation the fist branch asks for never
    takes place. *)
Theorem heart_stays_in_view inputs :
  forall h h',
  inBox (position h) -> 1 <= scale h <= 3.59 ->
  frames inputs h = Some h' ->
  inBox (position h') /\ 1 <= scale h' <= 3.59 /\
  ez (rotation h') = ez (rotation h).
Proof.
  induction inputs as [|[[hs time] delta] more IH]; intros h h' Hb Hs H.
  - injection H as <-. auto.
  - cbn [frames] in H. apply bind_Some in H as (h1 & H1 & H).
    destruct (useFrame_limits hs time delta h h1 H1 Hb Hs)
      as (Hb1 & Hs1 & Hz1).
    destruct (IH h1 h' Hb1 Hs1 H) as (Hb' & Hs' & Hz').
    split; [exact Hb'|]. split; [exact Hs'|]. congruence.
Qed.

End Heart.

Section Stitches.

Import AnatomyPage AnatomyPage.HeartModel.

(** The stitch path a frame leaves. *)
Lemma useFrame_stitchPoints hs time delta h h' :
  useFrame hs time delta h = Some h' ->
  exists added,
    stitchPoints h' = map (tighten delta) (stitchPoints h ++ added) /\
    (added = [] \/
     exists hand,
       pinching (rightHand hs) = Some hand /\
       stitchDue (stitchPoints h) (needlePos hand) = true /\
       distanceTo (needlePos hand) (position h') < 2.5 /\
       added = [ {| StitchPoint.position := needlePos hand;
                    StitchPoint.timestamp := time;
                    StitchPoint.tension := 0 |} ]).
Proof.
  unfold useFrame. intros H.
  apply bind_Some in H as (tg & Htg & H). injection H as <-.
  cbn [stitchPoints position]. eexists. split; [reflexivity|].
  destruct (pinching (rightHand hs)) as [hand|]; [|now left].
  destruct (Rltb _ 2.5) eqn:Ed; [|now left].
  destruct (stitchDue _ _) eqn:Es; [|now left].
  right. exists hand. apply Rltb_true in Ed. auto.
Qed.

Lemma spaced_tighten delta points :
  spaced points -> spaced (map (tighten delta) points).
Proof.
  intros Hs i a b Ha Hb.
  change (map (tighten delta) points) with (tighten delta <$> points)
    in Ha, Hb.
  rewrite list_lookup_fmap in Ha, Hb.
  destruct (points !! i) as [a0|] eqn:Ea; [|discriminate].
  destruct (points !! S i) as [b0|] eqn:Eb; [|discriminate].
  injection Ha as <-. injection Hb as <-. simpl. exact (Hs i a0 b0 Ea Eb).
Qed.

Lemma spaced_snoc points point :
  spaced points ->
  stitchDue points (StitchPoint.position point) = true ->
  spaced (points ++ [point]).
Proof.
  intros Hs Hdue i a b Ha Hb.
  destruct (decide (S i < length points)%nat) as [Hlt|Hge].
  - rewrite lookup_app_l in Ha by lia. rewrite lookup_app_l in Hb by lia.
    exact (Hs i a b Ha Hb).
  - assert (Hi : S i = length points).
    { apply lookup_lt_Some in Hb. rewrite length_app in Hb. simpl in Hb.
      lia. }
    rewrite lookup_app_l in Ha by lia.
    rewrite lookup_app_r in Hb by lia.
    replace (S i - length points)%nat with 0%nat in Hb by lia.
    injection Hb as <-.
    unfold stitchDue in Hdue. rewrite last_lookup in Hdue.
    replace (pred (length points)) with i in Hdue by lia.
    rewrite Ha in Hdue. apply Rgtb_true in Hdue. lra.
Qed.

Lemma useFrame_stitches hs time delta h h' :
  0 <= delta ->
  useFrame hs time delta h = Some h' ->
  spaced (stitchPoints h) ->
  Forall (fun point => 0 <= StitchPoint.tension point <= 1)
    (stitchPoints h) ->
  spaced (stitchPoints h') /\
  Forall (fun point => 0 <= StitchPoint.tension point <= 1)
    (stitchPoints h') /\
  (StitchPoint.position <$> stitchPoints h)
    `prefix_of` (StitchPoint.position <$> stitchPoints h').
Proof.
  intros Hd H Hs Ht.
  destruct (useFrame_stitchPoints hs time delta h h' H) as (added & -> & Ha).
  assert (Hsp : spaced (stitchPoints h ++ added)).
  { destruct Ha as [->|(hand & _ & Hdue & _ & ->)].
    - now rewrite app_nil_r.
    - now apply spaced_snoc. }
  assert (Hta : Forall (fun point => 0 <= StitchPoint.tension point <= 1)
                  (stitchPoints h ++ added)).
  { apply Forall_app. split; [exact Ht|].
    destruct Ha as [->|(hand & _ & _ & _ & ->)]; repeat constructor;
      simpl; lra. }
  split; [now apply spaced_tighten|]. split.
  - apply Forall_forall. intros point Hin.
    apply list_elem_of_In, in_map_iff in Hin as (p0 & <- & Hin).
    apply list_elem_of_In in Hin.
    rewrite Forall_forall in Hta. specialize (Hta p0 Hin). simpl.
    split; [apply Rmin_glb; lra | apply Rmin_l].
  - exists (StitchPoint.position <$> added).
    change (map (tighten delta) (stitchPoints h ++ added))
      with (tighten delta <$> (stitchPoints h ++ added)).
    rewrite <- list_fmap_compose, fmap_app. reflexivity.
Qed.

(** X29.  The stitch path.  Stitches are only added at its end and
    never moved or taken out; consecutive stitches are more than 0.1
    apart; and, the frame times not being negative, every tension stays
    in [0, 1]. *)
Theorem stitch_path_grows inputs :
  forall h h',
  Forall (fun input : TrackingState * R * R => 0 <= input.2) inputs ->
  spaced (stitchPoints h) ->
  Forall (fun point => 0 <= StitchPoint.tension point <= 1)
    (stitchPoints h) ->
  frames inputs h = Some h' ->
  spaced (stitchPoints h') /\
  Forall (fun point => 0 <= StitchPoint.tension point <= 1)
    (stitchPoints h') /\
  (StitchPoint.position <$> stitchPoints h)
    `prefix_of` (StitchPoint.position <$> stitchPoints h').
Proof.
  induction inputs as [|[[hs time] delta] more IH]; intros h h' Hd Hs Ht H.
  - injection H as <-. auto.
  - cbn [frames] in H. apply bind_Some in H as (h1 & H1 & H).
    inversion Hd as [|? ? Hd0 Hd']; subst. simpl in Hd0.
    destruct (useFrame_stitches hs time delta h h1 Hd0 H1 Hs Ht)
      as (Hs1 & Ht1 & Hp1).
    destruct (IH h1 h' Hd' Hs1 Ht1 H) as (Hs' & Ht' & Hp').
    split; [exact Hs'|]. split; [exact Ht'|]. etransitivity; eassumption.
Qed.

End Stitches.

Section AnatomyRuns.

Import AnatomyPage.

Lemma needle_closes_in_witness :
  exists n',
    SurgicalNeedle.useFrame Samples.pouring 0 SurgicalNeedle.mounted
    = Some n' /\
    vz (SurgicalNeedle.position n')
    = vz (SurgicalNeedle.moved SurgicalNeedle.mounted Samples.pouringHand).
Proof.
  eexists. split; [reflexivity|].
  exact (proj2 (proj2 (proj2 (proj2
           (needle_closes_in Samples.pouring 0 SurgicalNeedle.mounted _
              eq_refl))))).
Defined.

Lemma heart_stays_in_view_witness :
  exists h',
    HeartModel.frames [(Samples.pouring, 0, 1 / 60)] HeartModel.mounted
    = Some h' /\
    HeartModel.inBox (HeartModel.position h') /\
    1 <= HeartModel.scale h' <= 3.59.
Proof.
  eexists. split; [reflexivity|].
  assert (Hb : HeartModel.inBox (HeartModel.position HeartModel.mounted))
    by (unfold HeartModel.inBox; simpl; repeat split; lra).
  assert (Hs : 1 <= HeartModel.scale HeartModel.mounted <= 3.59)
    by (simpl; lra).
  destruct (heart_stays_in_view [(Samples.pouring, 0, 1 / 60)]
              HeartModel.mounted _ Hb Hs eq_refl) as (Hb' & Hs' & _).
  split; [exact Hb' | exact Hs'].
Defined.

Lemma stitch_path_grows_witness :
  exists h',
    HeartModel.frames [(Samples.pouring, 0, 1 / 60)] HeartModel.mounted
    = Some h' /\
    HeartModel.spaced (HeartModel.stitchPoints h').
Proof.
  eexists. split; [reflexivity|].
  refine (proj1 (stitch_path_grows [(Samples.pouring, 0, 1 / 60)]
                   HeartModel.mounted _ _ _ _ eq_refl)).
  - repeat constructor. simpl. lra.
  - intros i a b Ha. destruct i; discriminate Ha.
  - constructor.
Defined.

End AnatomyRuns.

(** ** The orientation of a hand *)

Section Basis.

Lemma rot_trace (y1 y2 y3 z1 z2 z3 : R) :
  y1 * y1 + y2 * y2 + y3 * y3 = 1 ->
  z1 * z1 + z2 * z2 + z3 * z3 = 1 ->
  y1 * z1 + y2 * z2 + y3 * z3 = 0 ->
  (y3 - z2) * (y3 - z2)
  + (z1 - (y1 * z2 - y2 * z1)) * (z1 - (y1 * z2 - y2 * z1))
  + (y3 * z1 - y1 * z3 - y1) * (y3 * z1 - y1 * z3 - y1)
  = (1 + (y2 * z3 - y3 * z2 + y2 + z3))
    * (3 - (y2 * z3 - y3 * z2 + y2 + z3)).
Proof. intros Hy Hz Hyz. nsatz. Qed.

Lemma rot_x (y1 y2 y3 z1 z2 z3 : R) :
  y1 * y1 + y2 * y2 + y3 * y3 = 1 ->
  z1 * z1 + z2 * z2 + z3 * z3 = 1 ->
  y1 * z1 + y2 * z2 + y3 * z3 = 0 ->
  (y3 - z2) * (y3 - z2)
  + (y1 + (y3 * z1 - y1 * z3)) * (y1 + (y3 * z1 - y1 * z3))
  + (z1 + (y1 * z2 - y2 * z1)) * (z1 + (y1 * z2 - y2 * z1))
  = (1 + (y2 * z3 - y3 * z2) - y2 - z3)
    * (4 - (1 + (y2 * z3 - y3 * z2) - y2 - z3)).
Proof. intros Hy Hz Hyz. nsatz. Qed.

Lemma rot_y (y1 y2 y3 z1 z2 z3 : R) :
  y1 * y1 + y2 * y2 + y3 * y3 = 1 ->
  z1 * z1 + z2 * z2 + z3 * z3 = 1 ->
  y1 * z1 + y2 * z2 + y3 * z3 = 0 ->
  (z1 - (y1 * z2 - y2 * z1)) * (z1 - (y1 * z2 - y2 * z1))
  + (y1 + (y3 * z1 - y1 * z3)) * (y1 + (y3 * z1 - y1 * z3))
  + (z2 + y3) * (z2 + y3)
  = (1 + y2 - (y2 * z3 - y3 * z2) - z3)
    * (4 - (1 + y2 - (y2 * z3 - y3 * z2) - z3)).
Proof. intros Hy Hz Hyz. nsatz. Qed.

Lemma rot_z (y1 y2 y3 z1 z2 z3 : R) :
  y1 * y1 + y2 * y2 + y3 * y3 = 1 ->
  z1 * z1 + z2 * z2 + z3 * z3 = 1 ->
  y1 * z1 + y2 * z2 + y3 * z3 = 0 ->
  (y3 * z1 - y1 * z3 - y1) * (y3 * z1 - y1 * z3 - y1)
  + (z1 + (y1 * z2 - y2 * z1)) * (z1 + (y1 * z2 - y2 * z1))
  + (z2 + y3) * (z2 + y3)
  = (1 + z3 - (y2 * z3 - y3 * z2) - y2)
    * (4 - (1 + z3 - (y2 * z3 - y3 * z2) - y2)).
Proof. intros Hy Hz Hyz. nsatz. Qed.

(** One branch of [setFromRotationMatrix]: three entries divided by
    [2 r], the fourth [r / 2], where [r * r] is the positive number
    [u] and the squares of the three sum up to [u * (4 - u)]. *)
Lemma branch_unit a b c u r :
  0 < r -> r * r = u ->
  a * a + b * b + c * c = u * (4 - u) ->
  (a / (2 * r)) * (a / (2 * r)) + (b / (2 * r)) * (b / (2 * r))
  + (c / (2 * r)) * (c / (2 * r)) + (/ 4 * (2 * r)) * (/ 4 * (2 * r)) = 1.
Proof.
  intros Hr Hrr H.
  assert (Hu : 0 < u) by nra.
  transitivity ((a * a + b * b + c * c + r * r * (r * r)) / (4 * (r * r)));
    [field; repeat split; lra|].
  rewrite H, Hrr. field. lra.
Qed.

(** The quaternion of a right-handed orthonormal basis is a unit
    quaternion, in each of the four branches of
    [setFromRotationMatrix]. *)
Lemma setFromBasis_unit y z :
  dot y y = 1 -> dot z z = 1 -> dot y z = 0 ->
  let q := setFromBasis (crossVectors y z) y z in
  qdot q q = 1.
Proof.
  destruct y as [y1 y2 y3], z as [z1 z2 z3]. unfold dot. cbn [vx vy vz].
  intros Hy Hz Hyz.
  pose proof (rot_trace _ _ _ _ _ _ Hy Hz Hyz) as H0.
  assert (Ht : -1 <= y2 * z3 - y3 * z2 + y2 + z3).
  { destruct (Rle_dec (-1) (y2 * z3 - y3 * z2 + y2 + z3)) as [?|Hn];
      [assumption|]. exfalso.
    assert (0 <= (1 + (y2 * z3 - y3 * z2 + y2 + z3))
                 * (3 - (y2 * z3 - y3 * z2 + y2 + z3))).
    { rewrite <- H0.
      pose proof (Rle_0_sqr (y3 - z2)).
      pose proof (Rle_0_sqr (z1 - (y1 * z2 - y2 * z1))).
      pose proof (Rle_0_sqr (y3 * z1 - y1 * z3 - y1)).
      unfold Rsqr in *. lra. }
    nra. }
  unfold setFromBasis, crossVectors. cbn [vx vy vz]. cbv zeta.
  replace 0.5 with (/ 2) by lra. replace 0.25 with (/ 4) by lra.
  destruct (Rgtb (y2 * z3 - y3 * z2 + y2 + z3) 0) eqn:E0.
  { apply Rgtb_true in E0.
    set (u := y2 * z3 - y3 * z2 + y2 + z3 + 1).
    assert (Hs : 0 < sqrt u) by (apply sqrt_lt_R0; unfold u; lra).
    assert (Hss : sqrt u * sqrt u = u) by (apply sqrt_sqrt; unfold u; lra).
    revert Hs Hss. generalize (sqrt u). intros r Hr Hrr.
    unfold qdot. cbn [qx qy qz qw].
    transitivity
      (((y3 - z2) * (y3 - z2)
        + (z1 - (y1 * z2 - y2 * z1)) * (z1 - (y1 * z2 - y2 * z1))
        + (y3 * z1 - y1 * z3 - y1) * (y3 * z1 - y1 * z3 - y1)
        + r * r * (r * r)) / (4 * (r * r))); [field; lra|].
    rewrite H0, Hrr. unfold u. field. lra. }
  apply Rgtb_false in E0.
  destruct (Rgtb (y2 * z3 - y3 * z2) y2 && Rgtb (y2 * z3 - y3 * z2) z3)
    eqn:E1.
  { apply andb_prop in E1 as [Ea Eb].
    apply Rgtb_true in Ea. apply Rgtb_true in Eb.
    pose proof (rot_x _ _ _ _ _ _ Hy Hz Hyz) as H.
    set (u := 1 + (y2 * z3 - y3 * z2) - y2 - z3) in *.
    assert (Hu : 0 < u) by (unfold u; lra).
    assert (Hs : 0 < sqrt u) by (apply sqrt_lt_R0; lra).
    assert (Hss : sqrt u * sqrt u = u) by (apply sqrt_sqrt; lra).
    unfold qdot. cbn [qx qy qz qw].
    rewrite <- (branch_unit _ _ _ u (sqrt u) Hs Hss H). ring. }
  assert (E1' : y2 * z3 - y3 * z2 <= y2 \/ y2 * z3 - y3 * z2 <= z3).
  { apply andb_false_iff in E1 as [E|E]; apply Rgtb_false in E; auto. }
  clear E1.
  destruct (Rgtb y2 z3) eqn:E2.
  { apply Rgtb_true in E2.
    pose proof (rot_y _ _ _ _ _ _ Hy Hz Hyz) as H.
    set (u := 1 + y2 - (y2 * z3 - y3 * z2) - z3) in *.
    assert (Hu : 0 < u) by (unfold u; lra).
    assert (Hs : 0 < sqrt u) by (apply sqrt_lt_R0; lra).
    assert (Hss : sqrt u * sqrt u = u) by (apply sqrt_sqrt; lra).
    unfold qdot. cbn [qx qy qz qw].
    rewrite <- (branch_unit _ _ _ u (sqrt u) Hs Hss H). ring. }
  apply Rgtb_false in E2.
  pose proof (rot_z _ _ _ _ _ _ Hy Hz Hyz) as H.
  set (u := 1 + z3 - (y2 * z3 - y3 * z2) - y2) in *.
  assert (Hu : 0 < u) by (unfold u; lra).
  assert (Hs : 0 < sqrt u) by (apply sqrt_lt_R0; lra).
  assert (Hss : sqrt u * sqrt u = u) by (apply sqrt_sqrt; lra).
  unfold qdot. cbn [qx qy qz qw].
  rewrite <- (branch_unit _ _ _ u (sqrt u) Hs Hss H). ring.
Qed.

(** [normalize] on a vector other than zero: the vector divided by its
    length, which is positive. *)
Lemma normalize_scaled v :
  0 < lengthSq v ->
  exists l, 0 < l /\ l * l = lengthSq v /\
    normalize v = {| vx := vx v / l; vy := vy v / l; vz := vz v / l |}.
Proof.
  intros Hv. unfold lengthSq, dot in *.
  exists (lengthV v). unfold normalize, lengthV.
  assert (Hl : 0 < sqrt (vx v * vx v + vy v * vy v + vz v * vz v))
    by (apply sqrt_lt_R0; exact Hv).
  split; [exact Hl|]. split; [apply sqrt_sqrt; lra|].
  cbv zeta. destruct (Req_dec_T _ 0) as [E|_]; [lra|]. reflexivity.
Qed.

Lemma normalize_unit v : lengthSq v = 1 -> normalize v = v.
Proof.
  intros Hv. unfold lengthSq, dot in Hv. unfold normalize, lengthV.
  rewrite Hv, sqrt_1. cbv zeta.
  destruct (Req_dec_T 1 0) as [E|_]; [lra|].
  destruct v as [a b c]. cbn [vx vy vz]. f_equal; field.
Qed.

End Basis.

Section TrackerRotation.

Import HandTracker.

(** The raw rotation of a hand that spans its palm is a unit
    quaternion. *)
Lemma calculateRotation_unit lms q :
  palmSpread lms -> calculateRotation lms = Some q -> qdot q q = 1.
Proof.
  intros (l0 & l5 & l17 & E0 & E5 & E17 & Hc) H.
  unfold calculateRotation in H. rewrite E0, E5, E17 in H.
  cbn [mbind option_bind] in H. injection H as <-.
  set (a := subVectors (vec l5) (vec l0)) in *.
  set (b := subVectors (vec l5) (vec l17)) in *.
  assert (Ha : 0 < lengthSq a).
  { destruct (Rlt_dec 0 (lengthSq a)) as [?|Hn]; [assumption|]. exfalso.
    revert Hc Hn. unfold lengthSq, dot, crossVectors. cbn [vx vy vz].
    generalize (vx a) (vy a) (vz a) (vx b) (vy b) (vz b).
    intros a1 a2 a3 b1 b2 b3 Hc Hn.
    assert (a1 = 0) by nra. assert (a2 = 0) by nra. assert (a3 = 0) by nra.
    subst. nra. }
  assert (Hb : 0 < lengthSq b).
  { destruct (Rlt_dec 0 (lengthSq b)) as [?|Hn]; [assumption|]. exfalso.
    revert Hc Hn. unfold lengthSq, dot, crossVectors. cbn [vx vy vz].
    generalize (vx a) (vy a) (vz a) (vx b) (vy b) (vz b).
    intros a1 a2 a3 b1 b2 b3 Hc Hn.
    assert (b1 = 0) by nra. assert (b2 = 0) by nra. assert (b3 = 0) by nra.
    subst. nra. }
  destruct (normalize_scaled a Ha) as (la & Hla & Hlla & Ea).
  destruct (normalize_scaled b Hb) as (lb & Hlb & Hllb & Eb).
  rewrite Ea, Eb.
  set (y := {| vx := vx a / la; vy := vy a / la; vz := vz a / la |}).
  set (v2 := {| vx := vx b / lb; vy := vy b / lb; vz := vz b / lb |}).
  assert (Hy : dot y y = 1).
  { unfold y, dot. cbn [vx vy vz].
    transitivity (lengthSq a / (la * la));
      [unfold lengthSq, dot; field; lra|]. rewrite Hlla. field.
    lra. }
  assert (Hn : 0 < lengthSq (crossVectors y v2)).
  { assert (E : lengthSq (crossVectors y v2)
                = lengthSq (crossVectors a b) / (la * la * (lb * lb))).
    { unfold y, v2, lengthSq, dot, crossVectors. cbn [vx vy vz].
      field. lra. }
    rewrite E. apply Rdiv_lt_0_compat; [exact Hc|]. nra. }
  destruct (normalize_scaled _ Hn) as (lc & Hlc & Hllc & Ec).
  rewrite Ec.
  set (c := crossVectors y v2) in *.
  set (z := {| vx := vx c / lc; vy := vy c / lc; vz := vz c / lc |}).
  assert (Hz : dot z z = 1).
  { unfold z, dot. cbn [vx vy vz].
    transitivity (lengthSq c / (lc * lc));
      [unfold lengthSq, dot; field; lra|]. rewrite Hllc. field. lra. }
  assert (Hyz : dot y z = 0).
  { unfold z, dot. cbn [vx vy vz].
    transitivity (dot y c / lc); [unfold dot; field; lra|].
    assert (E : dot y c = 0)
      by (unfold c, dot, crossVectors; cbn [vx vy vz]; ring).
    rewrite E. field. lra. }
  assert (Hx : lengthSq (crossVectors y z) = 1).
  { revert Hy Hz Hyz. unfold lengthSq, dot, crossVectors.
    generalize y z. intros [y1 y2 y3] [z1 z2 z3]. cbn [vx vy vz].
    intros Hy Hz Hyz. nsatz. }
  rewrite (normalize_unit _ Hx).
  exact (setFromBasis_unit y z Hy Hz Hyz).
Qed.

(** A hand whose wrist and two knuckles fall on one point gets a raw
    rotation of length one half. *)
Lemma calculateRotation_point lms l :
  lms !! 0%nat = Some l -> lms !! 5%nat = Some l ->
  lms !! 17%nat = Some l ->
  calculateRotation lms
  = Some {| qx := 0; qy := 0; qz := 0.5; qw := 0 |}.
Proof.
  intros E0 E5 E17. unfold calculateRotation. rewrite E0, E5, E17.
  cbn [mbind option_bind]. f_equal.
  assert (Es : subVectors (vec l) (vec l) = {| vx := 0; vy := 0; vz := 0 |})
    by (unfold subVectors; f_equal; ring).
  assert (En : normalize {| vx := 0; vy := 0; vz := 0 |}
               = {| vx := 0; vy := 0; vz := 0 |}).
  { unfold normalize, lengthV. cbn [vx vy vz].
    replace (0 * 0 + 0 * 0 + 0 * 0) with 0 by ring. rewrite sqrt_0.
    cbv zeta. destruct (Req_dec_T 0 0) as [_|?]; [|lra].
    f_equal; field. }
  assert (Ec : crossVectors {| vx := 0; vy := 0; vz := 0 |}
                            {| vx := 0; vy := 0; vz := 0 |}
               = {| vx := 0; vy := 0; vz := 0 |})
    by (unfold crossVectors; cbn [vx vy vz]; f_equal; ring).
  rewrite Es, En, Ec, En, Ec, En.
  unfold setFromBasis. cbn [vx vy vz]. cbv zeta.
  replace (0 + 0 + 0) with 0 by ring.
  assert (Eg : Rgtb 0 0 = false) by (apply Rgtb_false; lra).
  rewrite Eg. cbn [andb].
  replace (1 + 0 - 0 - 0) with 1 by ring. rewrite sqrt_1.
  f_equal; lra.
Qed.

Lemma processHand_unit lms side last h :
  palmSpread lms ->
  (forall l, last = Some l -> qdot (rotation l) (rotation l) = 1) ->
  processHand lms side last = Some h ->
  qdot (rotation h) (rotation h) = 1.
Proof.
  intros Hs Hl H. unfold processHand in H.
  apply bind_Some in H as (l4 & _ & H).
  apply bind_Some in H as (l8 & _ & H).
  apply bind_Some in H as (l0 & _ & H).
  apply bind_Some in H as (raw & Hraw & H).
  apply bind_Some in H as (n & _ & H).
  injection H as <-. cbn [rotation].
  pose proof (calculateRotation_unit lms raw Hs Hraw) as Hu.
  destruct last as [l|]; [|exact Hu].
  unfold lerpQuaternion.
  assert (Ht : 0 < SMOOTHING_FACTOR < 1) by (unfold SMOOTHING_FACTOR; lra).
  destruct (slerp_arc (rotation l) raw SMOOTHING_FACTOR Ht
              (Hl l eq_refl) Hu) as (_ & _ & Hq & _).
  exact Hq.
Qed.

Lemma predict_unit st result st' :
  unitRotations st -> resultSpread result ->
  predict st result = Some st' -> unitRotations st'.
Proof.
  intros Hst Hres H side h Hh.
  destruct (predict_processed st result st' side h H Hh) as (lms & Hin & Hp).
  eapply processHand_unit; [| |exact Hp].
  - unfold resultSpread in Hres. rewrite Forall_forall in Hres.
    apply list_elem_of_In in Hin. exact (Hres _ Hin).
  - intros l Hl. exact (Hst side l Hl).
Qed.

(** X30.  The rotation the tracker reports for a hand is a unit
    quaternion, as long as in every frame the wrist and the knuckles of
    the index and the little finger of every detected hand are not on
    one line: [calculateRotation] then builds a right-handed orthonormal
    basis, and the smoothing keeps to the unit sphere.  The condition is
    needed: a hand whose three points coincide gets, in its first
    frame, the rotation [(0, 0, 0.5, 0)] of length one half. *)
Theorem rotations_are_unit results st st' :
  unitRotations st ->
  Forall resultSpread results ->
  predictLoop results st = Some st' ->
  unitRotations st' /\
  forall lms l side h,
    lms !! 0%nat = Some l -> lms !! 5%nat = Some l ->
    lms !! 17%nat = Some l ->
    processHand lms side None = Some h ->
    rotation h = {| qx := 0; qy := 0; qz := 0.5; qw := 0 |} /\
    qdot (rotation h) (rotation h) = 0.25.
Proof.
  intros Hst Hres Hrun. split.
  - revert st Hst Hrun.
    induction Hres as [|result rest Hr _ IH]; intros st0 Hst0 Hrun.
    + injection Hrun as <-. exact Hst0.
    + cbn [predictLoop] in Hrun.
      apply bind_Some in Hrun as (st1 & H1 & Hrun).
      apply (IH st1); [|exact Hrun].
      exact (predict_unit st0 result st1 Hst0 Hr H1).
  - intros lms l side h E0 E5 E17 H. unfold processHand in H.
    apply bind_Some in H as (l4 & _ & H).
    apply bind_Some in H as (l8 & _ & H).
    apply bind_Some in H as (l0 & _ & H).
    apply bind_Some in H as (raw & Hraw & H).
    apply bind_Some in H as (n & _ & H).
    injection H as <-. cbn [rotation].
    rewrite (calculateRotation_point lms l E0 E5 E17) in Hraw.
    injection Hraw as <-. split; [reflexivity|].
    unfold qdot. cbn [qx qy qz qw]. lra.
Qed.

Lemma openHand_spread : palmSpread Samples.openHand.
Proof.
  unfold palmSpread. do 3 eexists.
  split; [reflexivity|]. split; [reflexivity|]. split; [reflexivity|].
  unfold lengthSq, dot, crossVectors, subVectors, vec, Samples.lm.
  cbn [vx vy vz lx ly lz]. nra.
Qed.

Lemma rotations_are_unit_witness :
  exists st' h,
    predictLoop [[(Samples.openHand, Left)]] Samples.noHands = Some st' /\
    handOf st' Left = Some h /\
    qdot (rotation h) (rotation h) = 1.
Proof.
  destruct (predict_total Samples.noHands [(Samples.openHand, Left)])
    as [st' E]; [repeat constructor; simpl; lia|].
  destruct (predict_single _ _ _ _ E) as [_ [h Hh]].
  assert (El : predictLoop [[(Samples.openHand, Left)]] Samples.noHands
               = Some st') by (cbn [predictLoop]; rewrite E; reflexivity).
  exists st', h. split; [exact El|]. split; [exact Hh|].
  assert (Hres : Forall resultSpread [[(Samples.openHand, Left)]]).
  { apply Forall_cons. split; [|apply Forall_nil; trivial].
    apply Forall_cons. split; [exact openHand_spread|].
    apply Forall_nil. trivial. }
  assert (Hst : unitRotations Samples.noHands)
    by (intros [] ? ?; discriminate).
  exact (proj1 (rotations_are_unit _ _ st' Hst Hres El) Left h Hh).
Defined.

(** Off the unit sphere the interpolation overshoots: between a
    quaternion of length one half and itself it returns a longer one. *)
Lemma slerp_half :
  let p := {| qx := 0; qy := 0; qz := 0.5; qw := 0 |} in
  exists k, 1 < k /\ slerp p p 0.15 = qscale k p.
Proof.
  intros p.
  assert (Ed : qdot p p = 0.25) by (unfold qdot, p; simpl; lra).
  destruct (acos_acute 0.25) as (Hh & Hcos & Hsin); [lra|].
  set (h := acos 0.25) in *. pose proof PI_RGT_0 as Hpi.
  exists ((sin ((1 - 0.15) * h) + sin (0.15 * h)) / sin h). split.
  - assert (Hs1 : 0 < sin (0.15 * h)) by (apply sin_gt_0; nra).
    assert (Hc1 : cos (0.15 * h) < 1) by (apply cos_lt_1; nra).
    assert (Hs2 : 0 < sin ((1 - 0.15) * h)) by (apply sin_gt_0; nra).
    assert (Hc2 : cos ((1 - 0.15) * h) < 1) by (apply cos_lt_1; nra).
    assert (E : sin h = sin ((1 - 0.15) * h) * cos (0.15 * h)
                        + cos ((1 - 0.15) * h) * sin (0.15 * h)).
    { rewrite <- sin_plus. f_equal. ring. }
    assert (Hlt : sin h < sin ((1 - 0.15) * h) + sin (0.15 * h))
      by (rewrite E; nra).
    apply (Rmult_lt_reg_r (sin h)); [exact Hsin|].
    unfold Rdiv. rewrite Rmult_assoc, Rinv_l by lra. lra.
  - unfold slerp.
    assert (E0 : Rleb 0.15 0 = false) by (apply Rleb_false; lra).
    assert (E1 : Rleb 1 0.15 = false) by (apply Rleb_false; lra).
    rewrite E0, E1. cbv zeta. rewrite Ed.
    assert (E2 : Rltb 0.25 0 = false) by (apply Rltb_false; lra).
    assert (E3 : Rltb 0.25 0.9995 = true) by (apply Rltb_true; lra).
    rewrite E2, E3. fold h.
    unfold qadd, qscale, p. simpl. f_equal; field; lra.
Qed.

(** C7, as the code has it.  A hand seen in the frame before is
    smoothed against it at [SMOOTHING_FACTOR] = 0.15.  The smoothed
    pinch and palm positions are the points of the segments from the
    previous values to the raw ones at the fraction 0.15: at 0.15 times
    the distance of the two from the previous value and at 0.85 times
    from the raw one.  When the previous rotation is a unit quaternion
    and the hand spans its palm, the raw rotation is a unit quaternion
    too, and the smoothed rotation is a unit quaternion on the shorter
    great-circle arc between the previous one and the raw one: a
    combination of the previous one and of the representative of the raw
    one on its side with weights that are not negative, no farther from
    either than they are from each other, and, below the dot product
    0.9995 of the two, at 0.15 times their angle from the previous one
    and at 0.85 times from the raw one. *)
Theorem smoothing_contractive lms hd last h :
  processHand lms hd (Some last) = Some h ->
  exists l4 l8 l0 raw,
    lms !! 4%nat = Some l4 /\ lms !! 8%nat = Some l8 /\
    lms !! 0%nat = Some l0 /\ calculateRotation lms = Some raw /\
    SMOOTHING_FACTOR = 0.15 /\
    onSegment (pinchPosition last)
      (multiplyScalar (addVectors (vec l4) (vec l8)) 0.5)
      (pinchPosition h) 0.15 /\
    onSegment (palmPosition last) (vec l0) (palmPosition h) 0.15 /\
    (qdot (rotation last) (rotation last) = 1 -> palmSpread lms ->
     qdot raw raw = 1 /\ onArc (rotation last) raw (rotation h) 0.15).
Proof.
  intros H.
  destruct (processHand_smoothed lms hd last h H)
    as (l4 & l8 & l0 & raw & H4 & H8 & H0 & Hraw & Hpinch & Hpalm & Hrot).
  exists l4, l8, l0, raw.
  assert (Es : SMOOTHING_FACTOR = 0.15) by reflexivity. rewrite Es in *.
  assert (Hseg : forall prev new,
            onSegment prev new (lerpVector3 prev new 0.15) 0.15).
  { intros prev new. split; [|split].
    - unfold lerpVector3, lerpV, addVectors, multiplyScalar. simpl.
      f_equal; ring.
    - apply distanceTo_lerp_from. lra.
    - apply distanceTo_lerp_to. lra. }
  repeat (split; [assumption || reflexivity|]).
  split; [rewrite Hpinch; apply Hseg|].
  split; [rewrite Hpalm; apply Hseg|].
  intros Hp Hspread.
  pose proof (calculateRotation_unit lms raw Hspread Hraw) as Hr.
  split; [exact Hr|]. rewrite Hrot. unfold lerpQuaternion, onArc.
  destruct (slerp_arc (rotation last) raw 0.15 ltac:(lra) Hp Hr)
    as (_ & Hab & Hu & H1 & H2 & H3).
  auto.
Qed.

Lemma smoothing_contractive_witness :
  exists h l4 l8,
    processHand Samples.openHand Left (Some Samples.turnedHand) = Some h /\
    Samples.openHand !! 4%nat = Some l4 /\
    Samples.openHand !! 8%nat = Some l8 /\
    distanceTo (pinchPosition Samples.turnedHand) (pinchPosition h)
    = 0.15 * distanceTo (pinchPosition Samples.turnedHand)
               (multiplyScalar (addVectors (vec l4) (vec l8)) 0.5) /\
    qdot (rotation h) (rotation h) = 1 /\
    qdot (rotation Samples.turnedHand) (rotation h)
    = cos (0.15 * (PI / 2)).
Proof.
  destruct (processHand_total Samples.openHand Left
              (Some Samples.turnedHand)) as [h H]; [simpl; lia|].
  destruct (smoothing_contractive _ _ _ _ H)
    as (l4 & l8 & l0 & raw & H4 & H8 & _ & Hraw & _ & Hseg & _ & Harc).
  exists h, l4, l8. split; [exact H|]. split; [exact H4|].
  split; [exact H8|]. split; [exact (proj1 (proj2 Hseg))|].
  pose proof (calculateRotation_unit _ raw openHand_spread Hraw) as Hr.
  assert (Et : rotation Samples.turnedHand = Samples.turned raw).
  { unfold Samples.turnedHand. cbn [rotation]. now rewrite Hraw. }
  assert (Hp : qdot (rotation Samples.turnedHand)
                    (rotation Samples.turnedHand) = 1).
  { rewrite Et. revert Hr. unfold qdot, Samples.turned. simpl. lra. }
  destruct (Harc Hp openHand_spread) as (_ & Hu & _ & _ & _ & Hang).
  split; [exact Hu|].
  assert (E0 : qdot (rotation Samples.turnedHand) raw = 0).
  { rewrite Et. unfold qdot, Samples.turned. simpl. ring. }
  rewrite E0 in Hang.
  assert (El : Rltb 0 0 = false) by (apply Rltb_false; lra).
  rewrite El, E0, acos_0 in Hang. apply Hang. lra.
Defined.

(** C7 as the specification states it fails.  A hand whose wrist and
    knuckles fall on one point, seen in two frames: the previous
    rotation and the raw one are the same quaternion, of length one
    half, and the smoothed rotation is neither: it is longer than both,
    past the raw value and behind the previous one. *)
Lemma smoothing_overshoots_counterexample :
  exists h1 h2 k,
    processHand Samples.pointHand Left None = Some h1 /\
    processHand Samples.pointHand Left (Some h1) = Some h2 /\
    calculateRotation Samples.pointHand = Some (rotation h1) /\
    1 < k /\ rotation h2 = qscale k (rotation h1) /\
    rotation h2 <> rotation h1 /\
    qdot (rotation h1) (rotation h1) < qdot (rotation h2) (rotation h2).
Proof.
  assert (Hlen : (21 <= length Samples.pointHand)%nat)
    by (unfold Samples.pointHand; rewrite length_replicate; lia).
  assert (Hl : forall i, (i < 21)%nat ->
            Samples.pointHand !! i = Some (Samples.lm 0.5 0.5))
    by (intros i Hi; apply lookup_replicate_2; exact Hi).
  pose proof (calculateRotation_point Samples.pointHand _
                (Hl 0%nat ltac:(lia)) (Hl 5%nat ltac:(lia))
                (Hl 17%nat ltac:(lia))) as Hraw.
  destruct (processHand_total Samples.pointHand Left None Hlen)
    as [h1 H1].
  assert (Er : rotation h1 = {| qx := 0; qy := 0; qz := 0.5; qw := 0 |}).
  { pose proof H1 as H. unfold processHand in H.
    apply bind_Some in H as (l4 & _ & H).
    apply bind_Some in H as (l8 & _ & H).
    apply bind_Some in H as (l0 & _ & H).
    apply bind_Some in H as (raw & Hr & H).
    apply bind_Some in H as (n & _ & H).
    injection H as <-. cbn [rotation]. congruence. }
  destruct (processHand_total Samples.pointHand Left (Some h1) Hlen)
    as [h2 H2].
  destruct (processHand_smoothed _ _ _ _ H2)
    as (_ & _ & _ & raw & _ & _ & _ & Hraw2 & _ & _ & Hrot).
  rewrite Hraw in Hraw2. injection Hraw2 as <-.
  destruct slerp_half as (k & Hk & Hs).
  exists h1, h2, k. split; [exact H1|]. split; [exact H2|].
  split; [now rewrite Er|]. split; [exact Hk|].
  assert (E2 : rotation h2 = qscale k (rotation h1)).
  { rewrite Hrot, Er. unfold lerpQuaternion.
    change SMOOTHING_FACTOR with 0.15. exact Hs. }
  split; [exact E2|]. rewrite E2, Er. split.
  - unfold qscale. simpl. intros [= Hz]. lra.
  - unfold qdot, qscale. simpl. nra.
Qed.

End TrackerRotation.
